(* ===== verification/_CoqProject ===== *)
-Q . S2P
Prelude.v
Bitmap.v
Lvm.v
LvmVolume.v
Raid.v
NetAddr.v
Route.v
Conntrack.v
Netfilter.v
Iptables.v
Congestion.v
ListHead.v
Bio.v
IoSched.v
Futex.v
Writeback.v
Vfs.v
Ext4.v
Multiboot.v
BootScreen.v
Arp.v
Syscall.v
Sockets.v
Teardown.v
NeighMain.v
LvmDemo.v
RaidDemo.v
BioQueue.v
BioCalls.v
FutexLive.v
FileCalls.v
BioTest.v
WbTest.v
MemProbe.v
WbThreads.v
LvmPrint.v
IpBuffers.v
LockPrograms.v
BioWait.v
FutexFair.v
Ebpf.v
IoPool.v
WbLive.v
LvmSystem.v
VfsRegistry.v
IoLife.v
WbCache.v
VfsFiles.v
