(* ===== verification/Prelude.v ===== *)
(** * A verification library for the operating-system demonstrations

    The repository teaches operating-system internals with small C programs,
    one directory per subsystem under [src/demos].  This library models the
    programs that carry logic of their own and proves what makes them correct,
    or exactly how they fail.

    ** The program and the files

    Storage:
    - [Bitmap]: the idiom [words[i / 64] & (1UL << (i % 64))] that three
      allocators share, with its abstract view [bit].
    - [Lvm], [LvmVolume] ([lvm/lvm.c]): physical volumes ([pv_alloc],
      [pv_free]), volume groups ([vg_alloc_pe]), then logical volumes, address
      translation, extension and snapshots over a heap of extent maps;
      [LvmSystem] any sequence of these calls, [LvmPrint] the reports and
      [LvmDemo] the scenario of [main].
    - [Raid] ([raid/raid.c]): mock disks, parity, the four address maps and the
      degraded read; [RaidDemo] what [main] computes with them.
    - [ListHead]: the interface of intrusive lists ([list.h] is not in the
      repository) as a class with its laws, and an instance that has them.
    - [Bio] ([bio/bio.c], [bio.h]): the descriptor pool, segments, advance,
      completion, clone and split; [BioQueue] its request queues and counters
      and the types of all fields, [BioCalls] any sequence of calls on
      descriptors in use, [BioWait] the synchronous submission.
    - [IoSched] ([iosched/iosched.c], [iosched.h]): requests and the noop,
      deadline and cfq schedulers over [ListHead]; [IoPool] states what the
      block layer needs of any of them as the class [IoContract], with any outcome
      of the allocations, and [IoLife]
      follows requests from allocation to release.
    - [Writeback] ([writeback/wb_sim.c], [wb_sim.h]): dirty pages, counters,
      the writeback loop, [fsync_inode] and a round of the flush thread;
      [WbThreads] the same functions as atomic actions of interleaved threads,
      the thread's endless loop and [writeback_init]; [WbLive] how many actions
      a concurrent [fsync_inode] takes, alone and among others, and when it
      returns; [WbCache] the calls as a write-back cache in front
      of a block device, which is the class [BlockDevice].
    - [Vfs] ([vfs/vfs.c], [vfs.h]) and [Ext4] ([vfs/ext4_ops.c]): the inode
      table, dentries and reference counts, mounting, files; the operation
      tables are the class [FsOps], which [Ext4] discharges.  [VfsRegistry] runs
      sequences of registrations, and [VfsFiles] follows the dentry behind open files.

    Network:
    - [NetAddr], [Route] ([route/route.c]): addresses, longest-prefix match,
      the routing decision.
    - [Conntrack] ([conntrack/conntrack.c]): the connection hash table and the
      TCP state machine.
    - [Netfilter] ([netfilter/netfilter.c]), [Iptables] ([iptables/iptables.c]):
      hooks, rules, chains and the path of a packet.
    - [Congestion] ([tcp-congestion-control/congestion.c]): slow start,
      congestion avoidance, fast retransmit and timeout on 32-bit integers.
    - [IpBuffers]: the ring of static buffers behind [ip_str], and [main] of
      [route.c] and [conntrack.c].
    - [Arp], [NeighMain] ([neigh/neigh_arp.c]): the request frame, the receive
      loop, and [main] with its socket set-up.
    - [Sockets] ([socket/mini-socket.c], [tcpip/tcp_handshake.c]), [Teardown]
      ([tcpip/tcp_teardown.c]): the programs as trees of system calls.

    Programs that talk to a kernel:
    - [Syscall]: programs over a type of calls, kernels that answer them and
      runs with their traces.
    - [FileCalls]: file, memory and clock calls, the interface [FileKernel] of
      what a kernel may answer, and a weakest precondition that is adequate for
      every such kernel.  [BioTest] ([bio/bio_test.c]) and [WbTest]
      ([writeback/wb_test.c]) are the test drivers over it: what they do to memory and
      to files.
    - [MemProbe] ([memory-allocation/brk.c], [mmap.c]): an address space and the
      two programs that probe it.
    - [Ebpf] ([ebpf/]): the two trace programs over the documented helpers, and
      the loader over any answers of libbpf.

    Concurrency and boot:
    - [Futex] ([futex/futex_v1..v4*.c], [concurrency/race.c]): four locks and the
      worker threads under an interleaving semantics; the system call is the
      class [FutexKernel], a lock algorithm the class [LockAlgo].
      [FutexLive] adds what progress needs, [FutexFair] runs and fair
      schedules, [LockPrograms] the four [main]s.
    - [Multiboot] ([multiboot/main.c]): the text console, number printing and
      [kernel_main]; [BootScreen] the screen it leaves.

    ** How code is modelled

    A C function is a Rocq function of the same name that takes the state it
    reads and returns the state it leaves, in the monad [exec] of this file:
    [Ok] or the fault by which the execution leaves the language (an index
    outside an array, a null or freed pointer, a division by zero).  Structs are
    records, enums inductive types, unsigned integers are [Z] with the
    wrap-around of their width written out ([wrapu], [s32], [s64]), heap objects
    live in finite maps or are slots of the static table the source has.
    Loops are structural recursions over the list or the number of rounds left.
    Printing is left out, except where a demo's printed values are its result.

    A program whose work is its system calls is a value of [Syscall.prog]: a
    tree that calls, branches on the answer and ends with a value, an exit or a
    fault.  Its theorems hold for every kernel (any answers at all, or any that
    satisfy [SocketKernel] or [FileKernel], which state documented behaviour of
    descriptors and memory); the concrete kernels are only instances for
    witnesses.  Threads that share memory are lists of
    program counters with an atomic action each, and an inductive relation
    picks one ([Futex.cstep], [WbThreads.cstep]).

    Code that is not in the repository is a parameter: [kmalloc] (whether the
    call succeeds), the clock, the lists of [list.h], the futex system call,
    the memory filled by the boot loader, the block device, the kernel behind a
    program, what a device and other threads do while one waits.

    ** What the theorems show

    - Allocators ([pv_alloc_first_fit], [vg_alloc_pe_correct],
      [bio_alloc_first_fit], [vfs_new_inode_first_fit]): sound and complete
      first fit, in bounds, accounting kept; [lv_create_linear] refines the
      abstract allocator that concatenates the free ranges.
    - The volume manager after any sequence of calls ([lvm_isolation]): no
      two sectors of ordinary volumes share a place on a disk, and snapshots
      have areas of their own.  Address maps
      ([raid0_map_bijective], [lv_map_sector_injective], [lv_create_correct])
      and codes ([raid5_parity_recovers]).
    - Tables and policies ([lookup_route_lpm], [conn_lookup_complete],
      [conntrack_table_invariant], [traverse_hooks_first_match],
      [netfilter_policy], [eval_chain_correct], [iptables_process_policy]).
    - State machines ([tcp_established_iff], [cc_run_matches_ideal],
      [simulate_slow_start_reaches_ca]).
    - Queues ([deadline_dispatch_correct], [deadline_add_correct],
      [fsync_writes_all], [mark_page_dirty_correct]) against abstract queues;
      all three schedulers refine one pool of requests
      ([iosched_pool_refines], [iosched_life]); writeback refines a cache
      ([wb_refines_cache]); the registry ([register_filesystem_registry]).
    - Safety, types and completion of block I/O ([bio_calls_sound],
      [bio_add_page_correct], [submit_bio_wait_returns]).
    - Concurrency, for every interleaving: the locks
      ([locks_mutual_exclusion], [workers_counter_exact],
      [workers_can_finish], and under fair schedules [fair_workers_finish],
      [lock_programs_print]) and writeback beside writers ([fsync_concurrent],
      [fsync_returns_or_hangs]).
    - Programs against every kernel ([handshake_main_safe],
      [neigh_main_correct], [bio_test_main_safe], [wb_test_main_safe],
      [wb_test_main_calls], [loader_releases], [openat_traced]): no access
      outside a buffer, descriptors closed, what is printed, the exit status
      and what is done to files; [get_dirty_kb_meminfo] on a statistics
      file, [mmap_main_restores] and [brk_main_result] on an address space.
    - Console, frames and text ([vga_putchar_terminal],
      [kernel_main_on_screen], [arp_exchange_resolves], [ip_str_ring],
      [print_vg_adds_up]).
    - Flaws, stated exactly ([two_writers_dangle], [ext4_open_finds_nothing],
      and unnumbered ones such as [raid5_rebuild_omits_last],
      [raid5_map_collides], [writeback_loses_redirty],
      [same_index_clobbers], [vfs_put_dentry_releases],
      [close_frees_shared_dentry], [ext4_write_then_read],
      [cfq_serves_first_queue], [cfq_stalls], [cfq_loses_request],
      [lv_extend_failure_leaks],
      [bio_alloc_out_of_bounds], [bio_advance_end_out_of_bounds],
      [blk_alloc_queue_shared], [mini_socket_overflow_iff],
      [teardown_main_overflow_iff], [name_after_drop_faults],
      [next_line_loses_char]).

    ** Bounds and fuel

    Loops recurse on the list they walk or on the number of rounds left; a loop
    whose exit does not depend on such a number has fuel.  [prefix_loop] has 33
    rounds for a 32-bit mask ([prefix_loop_count]), [slow_start_loop] the ten of
    the source, [dec_loop] 32, of which ten are enough ([dec_loop_spec]), and
    [advance_loop] one more than [bi_vcnt], which the loop's index cannot pass
    ([advance_loop_first], [advance_loop_end]).  [mmap_loop] returns [None] when
    its fuel ends; [kernel_main_on_screen] shows that the number of entries is
    enough.  The spinning of
    the locks and the waiting of [fsync_inode] and [recv_arp_response] are
    steps of a relation, a result of their own, or consume an input list;
    fair schedules are infinite sequences of steps ([fair_run]).
    [scan_lines] has the length of the stream, of which each line takes a byte;
    [load_string] the number of mapped bytes.

    ** What is not modelled

    [lvm.h] and [raid.h] declare other designs that no source includes.  Fixed
    text that the demonstrations print (banners, [print_raid_info], the
    summaries) is left out.

    Spin locks around sequential operations are left out, [vfs_init]'s lock
    before [spinlock_init] among them, except where a theorem is about the
    window between them.  [mark_page_dirty], which holds the inode's lock
    throughout and the lock of the global counter for its last update, is one
    action of [WbThreads.cstep]: what other threads do to the counter in between
    commutes with it.  A freed address is never given out again by the
    modelled [kmalloc], so that a use of freed memory is always a fault.  The
    [int] counters [conn_total], [matches] and [packet_count] are unbounded;
    the totals and sizes of [lvm.c] are checked
    [int] sums.  [conn_create] is modelled with a successful [calloc] (its
    result is not tested in the source).  Signals are not modelled: a call that
    raises one and ends the process is a run that stops there.

    ** Further work

    Several concurrent [fsync_inode] calls under a repaired loop; the dentry
    hash over sequences of names with a repaired [vfs_put_dentry].

    ** This file

    The monad, fixed-width integers, error numbers, arrays, sums and counting,
    the hint database [kernel] and the tactics [split_bool], [bool_hyps] and
    [exec_inv]. *)
From Stdlib Require Import ZArith Lia.
From stdpp Require Import base numbers list option.

Open Scope Z_scope.

(** ** C outcomes: a value, or undefined behaviour *)

(** The ways an execution of the modelled C code can leave the language. *)
Inductive fault :=
  | OutOfBounds
  | NullPointer
  | DivideByZero
  | UseAfterFree
  | Uninitialised
  | SignedOverflow.

(** [exec A] is a computation that returns an [A] or crashes. *)
Inductive exec (A : Type) :=
  | Ok (a : A)
  | Crash (f : fault).
Arguments Ok {A} _.
Arguments Crash {A} _.

#[export] Instance exec_ret : MRet exec := fun A a => Ok a.
#[export] Instance exec_bind : MBind exec := fun A B k m =>
  match m with Ok a => k a | Crash f => Crash f end.

#[export] Instance fault_eq_dec : EqDecision fault.
Proof. solve_decision. Defined.

Lemma exec_bind_Ok {A B} (m : exec A) (k : A -> exec B) b :
  m ≫= k = Ok b <-> exists a, m = Ok a /\ k a = Ok b.
Proof.
  destruct m as [a|f]; simpl; split.
  - eauto.
  - intros (? & [= ->] & ?). done.
  - done.
  - intros (? & ? & ?). done.
Qed.

(** ** Fixed-width integers *)

(** Conversion to a [w]-bit unsigned integer. *)
Definition wrapu (w z : Z) : Z := z mod 2 ^ w.
Abbreviation u8 := (wrapu 8).
Abbreviation u16 := (wrapu 16).
Abbreviation u32 := (wrapu 32).
Abbreviation u64 := (wrapu 64).

(** Conversion to a 32-bit two's complement [int]. *)
Definition s32 (z : Z) : Z := (z + 2 ^ 31) mod 2 ^ 32 - 2 ^ 31.

(** Conversion to a 64-bit two's complement integer. *)
Definition s64 (z : Z) : Z := (z + 2 ^ 63) mod 2 ^ 64 - 2 ^ 63.

Lemma wrapu_small w z : 0 <= z < 2 ^ w -> wrapu w z = z.
Proof. apply Z.mod_small. Qed.

Lemma wrapu_range w z : 0 <= w -> 0 <= wrapu w z < 2 ^ w.
Proof. intros. apply Z.mod_pos_bound. lia. Qed.

Lemma s32_small z : - 2 ^ 31 <= z < 2 ^ 31 -> s32 z = z.
Proof. intros. unfold s32. rewrite Z.mod_small; lia. Qed.

Lemma s64_small z : - 2 ^ 63 <= z < 2 ^ 63 -> s64 z = z.
Proof. intros. unfold s64. rewrite Z.mod_small; lia. Qed.

Lemma testbit_wrapu w z i : 0 <= w -> Z.testbit (wrapu w z) i = (i <? w) && Z.testbit z i.
Proof.
  intros Hw. unfold wrapu. destruct (Z.ltb_spec i w) as [Hi|Hi].
  - by rewrite Z.mod_pow2_bits_low.
  - by rewrite Z.mod_pow2_bits_high by lia.
Qed.

(** The sum of two [int]s; a sum outside the type is undefined behaviour. *)
Definition int_add (a b : Z) : exec Z :=
  if (- 2 ^ 31 <=? a + b) && (a + b <? 2 ^ 31) then Ok (a + b) else Crash SignedOverflow.

Lemma int_add_ok a b : - 2 ^ 31 <= a + b < 2 ^ 31 -> int_add a b = Ok (a + b).
Proof.
  intros H. unfold int_add. destruct (Z.leb_spec (- 2 ^ 31) (a + b)), (Z.ltb_spec (a + b) (2 ^ 31)); (done || lia).
Qed.

(** ** Error numbers, returned negated *)

Definition ENOMEM : Z := 12.
Definition EFAULT : Z := 14.
Definition EEXIST : Z := 17.
Definition ENODEV : Z := 19.
Definition EINVAL : Z := 22.
Definition ENOSYS : Z := 38.

(** ** Arrays *)

(** [arr_get l i] is the read [l[i]]; an index outside the array crashes. *)
Definition arr_get {A} (l : list A) (i : Z) : exec A :=
  if 0 <=? i then
    match l !! Z.to_nat i with Some x => Ok x | None => Crash OutOfBounds end
  else Crash OutOfBounds.

(** [arr_set l i x] is the write [l[i] = x]. *)
Definition arr_set {A} (l : list A) (i : Z) (x : A) : exec (list A) :=
  if (0 <=? i) && (i <? Z.of_nat (length l)) then Ok (<[Z.to_nat i := x]> l)
  else Crash OutOfBounds.

Lemma arr_get_ok {A} (l : list A) i x :
  0 <= i -> l !! Z.to_nat i = Some x -> arr_get l i = Ok x.
Proof. intros Hi Hl. unfold arr_get. destruct (Z.leb_spec 0 i); [|lia]. by rewrite Hl. Qed.

Lemma arr_get_inv {A} (l : list A) i x :
  arr_get l i = Ok x -> 0 <= i /\ l !! Z.to_nat i = Some x.
Proof.
  unfold arr_get. destruct (Z.leb_spec 0 i); [|done].
  destruct (l !! Z.to_nat i); naive_solver.
Qed.

Lemma arr_get_total {A} (l : list A) i :
  0 <= i < Z.of_nat (length l) -> exists x, arr_get l i = Ok x /\ l !! Z.to_nat i = Some x.
Proof.
  intros Hi. destruct (lookup_lt_is_Some_2 l (Z.to_nat i)) as [x Hx]; [lia|].
  exists x. split; [by apply arr_get_ok; [lia|]|done].
Qed.

Lemma arr_set_ok {A} (l : list A) i x :
  0 <= i < Z.of_nat (length l) -> arr_set l i x = Ok (<[Z.to_nat i := x]> l).
Proof.
  intros. unfold arr_set.
  destruct (Z.leb_spec 0 i), (Z.ltb_spec i (Z.of_nat (length l))); simpl; (done || lia).
Qed.

Lemma arr_set_inv {A} (l l' : list A) i x :
  arr_set l i x = Ok l' -> 0 <= i < Z.of_nat (length l) /\ l' = <[Z.to_nat i := x]> l.
Proof.
  unfold arr_set.
  destruct (Z.leb_spec 0 i), (Z.ltb_spec i (Z.of_nat (length l))); simpl; naive_solver lia.
Qed.

(** ** Sums over lists of integers *)

Definition sumZ (l : list Z) : Z := foldr Z.add 0 l.

Lemma sumZ_app l k : sumZ (l ++ k) = sumZ l + sumZ k.
Proof. induction l as [|x l IH]; simpl; [done|]. rewrite IH. lia. Qed.

Lemma sumZ_insert l i x y :
  l !! i = Some x -> sumZ (<[i := y]> l) = sumZ l - x + y.
Proof.
  revert i. induction l as [|z l IH]; intros [|i] Hi; simplify_eq/=; [lia|].
  rewrite (IH i); [lia|done].
Qed.

#[export] Instance sumZ_proper : Proper ((≡ₚ) ==> (=)) sumZ.
Proof.
  intros l k H. induction H as [|x l k _ IH|x y l|l1 l2 l3 _ IH1 _ IH2]; simpl; lia.
Qed.

Lemma sumZ_nonneg l : Forall (fun x => 0 <= x) l -> 0 <= sumZ l.
Proof. induction 1; simpl; lia. Qed.

Lemma sumZ_elem_le l x : Forall (fun x => 0 <= x) l -> x ∈ l -> x <= sumZ l.
Proof.
  induction 1 as [|y l Hy Hl IH]; [by intros ?%elem_of_nil|].
  pose proof (sumZ_nonneg l Hl). intros [->|Hx]%elem_of_cons; simpl; [lia|].
  specialize (IH Hx). lia.
Qed.

(** Number of the indices [0 .. n-1] that satisfy a boolean predicate. *)
Fixpoint countb (f : Z -> bool) (n : nat) : Z :=
  match n with
  | O => 0
  | S n' => countb f n' + (if f (Z.of_nat n') then 1 else 0)
  end.

Lemma countb_range f n : 0 <= countb f n <= Z.of_nat n.
Proof. induction n as [|n IH]; simpl; [lia|]. destruct (f _); lia. Qed.

Lemma countb_ext f g n :
  (forall i, 0 <= i < Z.of_nat n -> f i = g i) -> countb f n = countb g n.
Proof.
  intros H. induction n as [|n IH]; simpl; [done|].
  rewrite IH by (intros; apply H; lia). by rewrite (H (Z.of_nat n)) by lia.
Qed.

Lemma countb_all f n : (forall i, 0 <= i < Z.of_nat n -> f i = true) -> countb f n = Z.of_nat n.
Proof.
  intros H. induction n as [|n IH]; simpl; [done|].
  rewrite IH by (intros; apply H; lia). rewrite (H (Z.of_nat n)) by lia. lia.
Qed.

Lemma countb_pos f n : 0 < countb f n -> exists i, 0 <= i < Z.of_nat n /\ f i = true.
Proof.
  induction n as [|n IH]; simpl; [lia|]. intros Hpos.
  destruct (f (Z.of_nat n)) eqn:E; [exists (Z.of_nat n); split; [lia|done]|].
  destruct IH as (i & Hi & Hf); [lia|]. exists i. split; [lia|done].
Qed.

(** Changing the predicate on one index changes the count by one. *)
Lemma countb_flip f g n k :
  0 <= k < Z.of_nat n -> f k = true -> g k = false ->
  (forall i, i <> k -> g i = f i) -> countb g n = countb f n - 1.
Proof.
  intros Hk Hf Hg Hext. induction n as [|n IH]; [lia|]. simpl.
  destruct (decide (k = Z.of_nat n)) as [->|Hne].
  - rewrite Hf, Hg. rewrite (countb_ext g f) by (intros; apply Hext; lia). lia.
  - rewrite IH by lia. rewrite (Hext (Z.of_nat n)) by lia. lia.
Qed.

(** Clearing the predicate on a range where it held lowers the count by the
    length of the range. *)
Lemma countb_cut f g n s c :
  0 <= s -> 0 <= c ->
  (forall i, s <= i < s + c -> f i = true) ->
  (forall i, 0 <= i -> g i = negb ((s <=? i) && (i <? s + c)) && f i) ->
  countb g n = countb f n - (Z.max s (Z.min (Z.of_nat n) (s + c)) - s).
Proof.
  intros Hs Hc Hf Hg. induction n as [|n IH]; simpl; [lia|].
  rewrite IH, (Hg (Z.of_nat n)) by lia. pose proof (Hf (Z.of_nat n)).
  destruct (Z.leb_spec s (Z.of_nat n)), (Z.ltb_spec (Z.of_nat n) (s + c)); simpl;
    [|destruct (f (Z.of_nat n)); lia..].
  rewrite H by lia. lia.
Qed.

Lemma countb_le f g n :
  (forall i, 0 <= i < Z.of_nat n -> f i = true -> g i = true) -> countb f n <= countb g n.
Proof.
  intros H. induction n as [|n IH]; simpl; [lia|].
  assert (countb f n <= countb g n) by (apply IH; intros; apply H; auto; lia).
  pose proof (H (Z.of_nat n)). destruct (f (Z.of_nat n)), (g (Z.of_nat n)); lia.
Qed.

(** ** Automation shared by the components *)

Create HintDb kernel.

(** Split boolean tests of the code into arithmetic facts. *)
Ltac split_bool :=
  repeat match goal with
  | |- context [?a =? ?b] => destruct (Z.eqb_spec a b)
  | |- context [?a <? ?b] => destruct (Z.ltb_spec a b)
  | |- context [?a <=? ?b] => destruct (Z.leb_spec a b)
  end.

(** Turn boolean hypotheses of the code into propositions. *)
Ltac bool_hyps :=
  repeat match goal with
  | H : _ && _ = true |- _ => apply andb_prop in H; destruct H
  | H : _ || _ = false |- _ => apply orb_false_elim in H; destruct H
  | H : negb _ = true |- _ => apply negb_true_iff in H
  | H : negb _ = false |- _ => apply negb_false_iff in H
  | H : (_ =? _) = true |- _ => apply Z.eqb_eq in H
  | H : (_ =? _) = false |- _ => apply Z.eqb_neq in H
  | H : (_ <? _) = true |- _ => apply Z.ltb_lt in H
  | H : (_ <? _) = false |- _ => apply Z.ltb_ge in H
  | H : (_ <=? _) = true |- _ => apply Z.leb_le in H
  | H : (_ <=? _) = false |- _ => apply Z.leb_gt in H
  end.

(** Invert a chain of monadic steps that ended in [Ok]. *)
Ltac exec_inv :=
  repeat match goal with
  | H : Ok _ = Ok _ |- _ => injection H; clear H; intros; subst
  | H : Crash _ = Ok _ |- _ => discriminate H
  | H : mret _ = Ok _ |- _ => unfold mret, exec_ret in H
  | H : _ ≫= _ = Ok _ |- _ => apply exec_bind_Ok in H; destruct H as (? & ? & ?)
  end.
