(* ===== verification/Bitmap.v ===== *)
(** * Bitmaps of 64-bit words

    The idiom shared by [demos/lvm/lvm.c] (physical extents and copy-on-write
    marks), [demos/bio/bio.c] (the bio pool) and [demos/vfs/vfs.c] (the inode
    table): an array of [unsigned long] where bit [i] is
    [words[i / 64] & (1UL << (i % 64))].  The operations are the C expressions
    on the words; [bit] is the abstract view the components reason with. *)
From Stdlib Require Import ZArith Lia.
From stdpp Require Import base numbers list option.
From S2P Require Import Prelude.

Open Scope Z_scope.

(** [words[i / 64] & (1UL << (i % 64))] as a truth value.  A negative index
    reads before the array or shifts by a negative amount. *)
Definition bm_test (words : list Z) (i : Z) : exec bool :=
  if i <? 0 then Crash OutOfBounds
  else w ← arr_get words (i ÷ 64);
       Ok (negb (Z.land w (u64 (Z.shiftl 1 (Z.rem i 64))) =? 0)).

(** [words[i / 64] |= (1UL << (i % 64))] *)
Definition bm_set (words : list Z) (i : Z) : exec (list Z) :=
  if i <? 0 then Crash OutOfBounds
  else w ← arr_get words (i ÷ 64);
       arr_set words (i ÷ 64) (Z.lor w (u64 (Z.shiftl 1 (Z.rem i 64)))).

(** [words[i / 64] &= ~(1UL << (i % 64))] *)
Definition bm_clear (words : list Z) (i : Z) : exec (list Z) :=
  if i <? 0 then Crash OutOfBounds
  else w ← arr_get words (i ÷ 64);
       arr_set words (i ÷ 64) (Z.land w (u64 (Z.lnot (u64 (Z.shiftl 1 (Z.rem i 64)))))).

(** [for (i = start; i < start + n; i++)] over one of the updates. *)
Fixpoint bm_range (upd : list Z -> Z -> exec (list Z)) (words : list Z) (start : Z) (n : nat)
    : exec (list Z) :=
  match n with
  | O => Ok words
  | S n' => words' ← upd words start; bm_range upd words' (start + 1) n'
  end.

(** [for (i = ..) if (!(words[i / 64] & (1UL << (i % 64)))) { set it; break; }]:
    the scan of a table for a free slot, [n] slots from [i]. *)
Fixpoint bm_claim (used : list Z) (i : Z) (n : nat) : exec (option (list Z * nat)) :=
  match n with
  | O => Ok None
  | S n' =>
    t ← bm_test used i;
    if negb t then u ← bm_set used i; Ok (Some (u, Z.to_nat i))
    else bm_claim used (i + 1) n'
  end.

(** ** Abstract view *)

(** Bit [i] of the bitmap; [false] outside it. *)
Definition bit (words : list Z) (i : Z) : bool :=
  (0 <=? i) && match words !! Z.to_nat (i / 64) with
               | Some w => Z.testbit w (i mod 64)
               | None => false
               end.

(** Every word is a 64-bit value. *)
Definition bm_words (words : list Z) : Prop := Forall (fun w => 0 <= w < 2 ^ 64) words.

(** Number of bits the array has. *)
Definition bm_bits (words : list Z) : Z := 64 * Z.of_nat (length words).

Section bit_words.

Lemma index_split i : 0 <= i -> i ÷ 64 = i / 64 /\ Z.rem i 64 = i mod 64 /\ 0 <= i mod 64 < 64.
Proof.
  intros. rewrite Z.quot_div_nonneg, Z.rem_mod_nonneg by lia.
  pose proof (Z.mod_pos_bound i 64). lia.
Qed.

Lemma index_bound (words : list Z) i :
  0 <= i < bm_bits words -> 0 <= i / 64 < Z.of_nat (length words).
Proof.
  unfold bm_bits. intros. split; [apply Z.div_pos; lia|].
  apply Z.div_lt_upper_bound; lia.
Qed.

Lemma mask_small k : 0 <= k < 64 -> u64 (Z.shiftl 1 k) = Z.shiftl 1 k.
Proof.
  intros. apply wrapu_small. rewrite Z.shiftl_1_l. split; [lia|].
  by apply Z.pow_lt_mono_r; lia.
Qed.

Lemma mask_testbit k i : 0 <= k < 64 -> Z.testbit (u64 (Z.shiftl 1 k)) i = (i =? k).
Proof.
  intros. rewrite mask_small, Z.shiftl_1_l by done.
  rewrite Z.pow2_bits_eqb by lia. apply Z.eqb_sym.
Qed.

(** The mask test of the code reads one bit of the word. *)
Lemma land_mask w k :
  0 <= k < 64 -> negb (Z.land w (u64 (Z.shiftl 1 k)) =? 0) = Z.testbit w k.
Proof.
  intros Hk. destruct (Z.testbit w k) eqn:E.
  - apply negb_true_iff, Z.eqb_neq. intros H0.
    assert (Z.testbit (Z.land w (u64 (Z.shiftl 1 k))) k = true) as Hb
      by (rewrite Z.land_spec, E, mask_testbit, Z.eqb_refl by done; done).
    rewrite H0, Z.bits_0 in Hb. done.
  - apply negb_false_iff, Z.eqb_eq. apply Z.bits_inj'. intros i Hi.
    rewrite Z.land_spec, Z.bits_0, mask_testbit by done.
    destruct (Z.eqb_spec i k) as [->|]; [by rewrite E|by rewrite andb_false_r].
Qed.

Lemma lor_mask_testbit w k i :
  0 <= k < 64 -> Z.testbit (Z.lor w (u64 (Z.shiftl 1 k))) i = (i =? k) || Z.testbit w i.
Proof. intros. rewrite Z.lor_spec, mask_testbit by done. apply Bool.orb_comm. Qed.

Lemma land_notmask_testbit w k i :
  0 <= k < 64 -> 0 <= w < 2 ^ 64 -> 0 <= i ->
  Z.testbit (Z.land w (u64 (Z.lnot (u64 (Z.shiftl 1 k))))) i
  = negb (i =? k) && Z.testbit w i.
Proof.
  intros Hk Hw Hi. rewrite Z.land_spec, testbit_wrapu, Z.lnot_spec, mask_testbit by lia.
  destruct (Z.ltb_spec i 64); simpl; [by apply Bool.andb_comm|].
  assert (Z.testbit w i = false) as ->; [|by rewrite !andb_false_r].
  destruct (decide (w = 0)) as [->|]; [apply Z.bits_0|].
  apply Z.bits_above_log2; [lia|]. apply Z.log2_lt_pow2; [lia|].
  apply Z.lt_le_trans with (2 ^ 64); [lia|]. by apply Z.pow_le_mono_r.
Qed.

(** A value whose bits from 64 on are zero is a 64-bit value. *)
Lemma word_bound w :
  0 <= w -> (forall i, 64 <= i -> Z.testbit w i = false) -> 0 <= w < 2 ^ 64.
Proof.
  intros Hw H. assert (w = u64 w) as ->; [|apply wrapu_range; lia].
  apply Z.bits_inj'. intros i Hi. rewrite testbit_wrapu by lia.
  destruct (Z.ltb_spec i 64); [done|]. by rewrite H.
Qed.

Lemma word_high w i : 0 <= w < 2 ^ 64 -> 64 <= i -> Z.testbit w i = false.
Proof.
  intros Hw Hi. rewrite <- (wrapu_small 64 w) by done.
  rewrite testbit_wrapu by lia. destruct (Z.ltb_spec i 64); [lia|done].
Qed.

Lemma word_lor w k : 0 <= k < 64 -> 0 <= w < 2 ^ 64 -> 0 <= Z.lor w (u64 (Z.shiftl 1 k)) < 2 ^ 64.
Proof.
  intros Hk Hw. apply word_bound.
  - apply Z.lor_nonneg. split; [lia|]. apply wrapu_range. lia.
  - intros i Hi. rewrite lor_mask_testbit, word_high by done.
    by rewrite (proj2 (Z.eqb_neq i k)) by lia.
Qed.

Lemma word_land w m : 0 <= w < 2 ^ 64 -> 0 <= Z.land w m < 2 ^ 64.
Proof.
  intros Hw. apply word_bound.
  - apply Z.land_nonneg. lia.
  - intros i Hi. by rewrite Z.land_spec, word_high.
Qed.

End bit_words.

(** ** The operations against the view *)

(** What one update of the code does to the view. *)
Definition bm_upd_spec (upd : list Z -> Z -> exec (list Z)) (v : bool) : Prop :=
  forall words i, bm_words words -> 0 <= i < bm_bits words ->
  exists words', upd words i = Ok words' /\ length words' = length words /\ bm_words words' /\
    (forall j, 0 <= j -> bit words' j = if j =? i then v else bit words j).

Lemma bm_test_ok words i :
  0 <= i < bm_bits words -> bm_test words i = Ok (bit words i).
Proof.
  intros Hi. unfold bm_test, bit. destruct (Z.ltb_spec i 0); [lia|].
  destruct (index_split i) as (-> & -> & Hm); [lia|].
  destruct (arr_get_total words (i / 64)) as (w & -> & Hw); [by apply index_bound|].
  rewrite Hw. simpl. rewrite land_mask by lia.
  by destruct (Z.leb_spec 0 i); [|lia].
Qed.

Lemma bit_insert words i w j :
  0 <= i -> 0 <= j -> (Z.to_nat (i / 64) < length words)%nat ->
  bit (<[Z.to_nat (i / 64) := w]> words) j
  = if j / 64 =? i / 64 then Z.testbit w (j mod 64) else bit words j.
Proof.
  intros Hi Hj Hlen. unfold bit. destruct (Z.leb_spec 0 j); [|lia]. simpl.
  destruct (Z.eqb_spec (j / 64) (i / 64)) as [->|Hne].
  - by rewrite list_lookup_insert_eq.
  - rewrite list_lookup_insert_ne; [done|].
    intros Heq. apply Hne. apply Z2Nat.inj in Heq; [lia| |]; apply Z.div_pos; lia.
Qed.

Lemma same_bit i j : i = j <-> i / 64 = j / 64 /\ i mod 64 = j mod 64.
Proof.
  split; [by intros ->|]. intros [H1 H2].
  rewrite (Z.div_mod i 64), (Z.div_mod j 64) by lia. lia.
Qed.

Lemma bm_set_spec : bm_upd_spec bm_set true.
Proof.
  intros words i Hw Hi. unfold bm_set. destruct (Z.ltb_spec i 0); [lia|].
  destruct (index_split i) as (-> & -> & Hm); [lia|].
  pose proof (index_bound _ _ Hi) as Hb.
  destruct (arr_get_total words (i / 64)) as (w & -> & Hlook); [done|]. simpl.
  rewrite arr_set_ok by done. eexists. split; [done|].
  assert (0 <= w < 2 ^ 64) as Hwb by (by apply (Forall_lookup_1 _ _ _ _ Hw Hlook)).
  split; [by rewrite length_insert|]. split.
  { apply Forall_insert; [done|]. by apply word_lor. }
  intros j Hj. rewrite bit_insert by lia.
  destruct (Z.eqb_spec (j / 64) (i / 64)) as [Heq|Hne].
  - rewrite lor_mask_testbit by lia. destruct (Z.eqb_spec j i) as [->|Hji]; [by rewrite Z.eqb_refl|].
    rewrite (proj2 (Z.eqb_neq _ _)) by (intros ?; apply Hji, same_bit; done). simpl.
    unfold bit. destruct (Z.leb_spec 0 j); [|lia]. by rewrite Heq, Hlook.
  - destruct (Z.eqb_spec j i) as [->|]; [done|done].
Qed.

Lemma bm_clear_spec : bm_upd_spec bm_clear false.
Proof.
  intros words i Hw Hi. unfold bm_clear. destruct (Z.ltb_spec i 0); [lia|].
  destruct (index_split i) as (-> & -> & Hm); [lia|].
  pose proof (index_bound _ _ Hi) as Hb.
  destruct (arr_get_total words (i / 64)) as (w & -> & Hlook); [done|]. simpl.
  rewrite arr_set_ok by done. eexists. split; [done|].
  assert (0 <= w < 2 ^ 64) as Hwb by (by apply (Forall_lookup_1 _ _ _ _ Hw Hlook)).
  split; [by rewrite length_insert|]. split.
  { apply Forall_insert; [done|]. by apply word_land. }
  intros j Hj. pose proof (Z.mod_pos_bound j 64). rewrite bit_insert by lia.
  destruct (Z.eqb_spec (j / 64) (i / 64)) as [Heq|Hne].
  - rewrite land_notmask_testbit by lia.
    destruct (Z.eqb_spec j i) as [->|Hji]; [by rewrite Z.eqb_refl|].
    rewrite (proj2 (Z.eqb_neq _ _)) by (intros ?; apply Hji, same_bit; done). simpl.
    unfold bit. destruct (Z.leb_spec 0 j); [|lia]. by rewrite Heq, Hlook.
  - destruct (Z.eqb_spec j i) as [->|]; [done|done].
Qed.

(** The loop over a range updates exactly the bits of the range. *)
Lemma bm_range_spec upd v words start n :
  bm_upd_spec upd v -> bm_words words -> 0 <= start -> start + Z.of_nat n <= bm_bits words ->
  exists words', bm_range upd words start n = Ok words' /\
    length words' = length words /\ bm_words words' /\
    (forall j, 0 <= j ->
       bit words' j = if (start <=? j) && (j <? start + Z.of_nat n) then v else bit words j).
Proof.
  intros Hupd. revert words start. induction n as [|n IH]; intros words start Hw Hs Hn.
  - exists words. split_and!; try done. intros j Hj.
    destruct (Z.leb_spec start j), (Z.ltb_spec j (start + Z.of_nat 0)); simpl; (done || lia).
  - destruct (Hupd words start Hw) as (w1 & Hu & Hlen & Hw1 & Hbit); [lia|].
    destruct (IH w1 (start + 1)) as (w2 & Hr & Hlen2 & Hw2 & Hbit2); [done|lia| |].
    { unfold bm_bits in *. rewrite Hlen. lia. }
    exists w2. simpl. rewrite Hu. simpl. split; [done|]. split; [congruence|]. split; [done|].
    intros j Hj. rewrite Hbit2, Hbit by done.
    destruct (Z.leb_spec (start + 1) j), (Z.ltb_spec j (start + 1 + Z.of_nat n)),
      (Z.leb_spec start j), (Z.ltb_spec j (start + Z.of_nat (S n))), (Z.eqb_spec j start);
      simpl; (done || lia).
Qed.

(** Two well-formed bitmaps of one length with the same bits are equal. *)
Lemma bit_ext words words' :
  bm_words words -> bm_words words' -> length words = length words' ->
  (forall i, 0 <= i -> bit words i = bit words' i) -> words = words'.
Proof.
  intros Hw Hw' Hlen Hbit. apply (list_eq_same_length _ _ (length words)); [done..|].
  intros k x y Hk Hx Hy. apply Z.bits_inj'. intros n Hn.
  destruct (decide (64 <= n)) as [Hge|Hlt].
  { pose proof (Forall_lookup_1 _ _ _ _ Hw Hx). pose proof (Forall_lookup_1 _ _ _ _ Hw' Hy).
    by rewrite !word_high. }
  specialize (Hbit (64 * Z.of_nat k + n)). unfold bit in Hbit.
  rewrite (Z.mul_comm 64), Z.div_add_l, Z.div_small, Z.add_0_r in Hbit by lia.
  rewrite (Z.add_comm (_ * _)), Z_mod_plus_full, Z.mod_small in Hbit by lia.
  rewrite Nat2Z.id, Hx, Hy in Hbit.
  destruct (Z.leb_spec 0 (n + Z.of_nat k * 64)); [|lia]. simpl in Hbit. apply Hbit. lia.
Qed.

(** A zeroed bitmap ([calloc], [memset 0]) has no bit set. *)
Lemma bit_zero n i : bit (replicate n 0) i = false.
Proof.
  unfold bit. destruct (replicate n 0 !! Z.to_nat (i / 64)) as [w|] eqn:E.
  - apply lookup_replicate in E as [-> _]. rewrite Z.bits_0. apply andb_false_r.
  - apply andb_false_r.
Qed.

Lemma bm_words_zero n : bm_words (replicate n 0).
Proof. apply Forall_replicate. lia. Qed.

(** The scan claims the first free slot. *)
Lemma bm_claim_spec used i n :
  bm_words used -> 0 <= i -> i + Z.of_nat n <= bm_bits used ->
  exists o, bm_claim used i n = Ok o /\
  match o with
  | None => forall j, i <= j < i + Z.of_nat n -> bit used j = true
  | Some (used', b) =>
      i <= Z.of_nat b < i + Z.of_nat n /\ bit used (Z.of_nat b) = false /\
      (forall j, i <= j < Z.of_nat b -> bit used j = true) /\
      length used' = length used /\ bm_words used' /\
      (forall j, 0 <= j -> bit used' j = if j =? Z.of_nat b then true else bit used j)
  end.
Proof.
  intros Hw. revert i. induction n as [|n IH]; intros i Hi Hn; simpl.
  { exists None. split; [done|]. lia. }
  rewrite bm_test_ok by lia. cbn [mbind exec_bind]. destruct (bit used i) eqn:Hb; simpl.
  - destruct (IH (i + 1)) as (o & -> & Ho); [lia..|]. exists o. split; [done|].
    destruct o as [[used' b]|].
    + destruct Ho as (H1 & H2 & H3 & H4). split; [lia|]. split; [done|]. split; [|done].
      intros j Hj. destruct (decide (j = i)) as [->|]; [done|]. apply H3. lia.
    + intros j Hj. destruct (decide (j = i)) as [->|]; [done|]. apply Ho. lia.
  - destruct (bm_set_spec used i Hw) as (used' & -> & Hlen & Hw' & Hbit); [lia|]. cbn [mbind exec_bind].
    exists (Some (used', Z.to_nat i)). split; [done|]. rewrite Z2Nat.id by lia. split_and!; try done; lia.
Qed.


#[export] Hint Resolve bm_set_spec bm_clear_spec bm_words_zero : kernel.
