(* ===== verification/Lvm.v ===== *)
(** * LVM physical volumes and volume groups ([demos/lvm/lvm.c])

    The extent allocator: a physical volume keeps a bitmap of its physical
    extents, a volume group allocates from the first member volume that has a
    run of free extents.  Member volumes are reached through pointers
    ([struct pv *pvs[MAX_PVS]]), so the group works on a heap of volumes. *)
From Stdlib Require Import ZArith Lia String.
From stdpp Require Import base numbers list option gmap.
From S2P Require Import Prelude Bitmap.

Open Scope Z_scope.

Definition SECTOR_SIZE : Z := 512.
Definition PE_SIZE_SECTORS : Z := 1024 * 1024 / SECTOR_SIZE.
Definition LE_SIZE_SECTORS : Z := PE_SIZE_SECTORS.
Definition MAX_PVS : Z := 16.

(** [strncpy(dst, src, 31)] into a zeroed 32-byte field. *)
Definition str31 (s : string) : string := String.substring 0 31 s.

(** ** Disks *)

Record mock_disk := MockDisk { disk_name : string; disk_size : Z; faulty : bool }.

Definition disk_create (name : string) (size : Z) : mock_disk := MockDisk (str31 name) size false.

(** ** Physical volumes *)

Record pv := Pv {
  pv_name : string;
  pv_size : Z;            (* sectors *)
  pe_count : Z;
  pe_bitmap : list Z;     (* bit set: extent allocated *)
  pv_free_pe : Z
}.

Definition pv_create (name : string) (size_sectors : Z) : exec pv :=
  let pe_count := s32 (size_sectors / PE_SIZE_SECTORS) in
  n ← int_add pe_count 63;
  Ok {| pv_name := str31 name;
        pv_size := size_sectors;
        pe_count := pe_count;
        pe_bitmap := replicate (Z.to_nat (n ÷ 64)) 0;
        pv_free_pe := pe_count |}.

(** The search loop of [pv_alloc]: [i] is the loop variable, [n] the number of
    iterations left. *)
Fixpoint pv_scan (bitmap : list Z) (count : Z) (n : nat) (i found start : Z) : exec (Z * Z) :=
  match n with
  | O => Ok (found, start)
  | S n' =>
    taken ← bm_test bitmap i;
    if negb taken then
      let start := if found =? 0 then i else start in
      let found := found + 1 in
      if found =? count then Ok (found, start)
      else pv_scan bitmap count n' (i + 1) found start
    else pv_scan bitmap count n' (i + 1) 0 (-1)
  end.

(** [Some start] is the return value 0 with [*out_start = start]; [None] is -1. *)
Definition pv_alloc (p : pv) (count : Z) : exec (pv * option Z) :=
  '(found, start) ← pv_scan (pe_bitmap p) count (Z.to_nat (pe_count p)) 0 0 (-1);
  if found <? count then Ok (p, None)
  else
    bitmap ← bm_range bm_set (pe_bitmap p) start (Z.to_nat count);
    Ok ({| pv_name := pv_name p; pv_size := pv_size p; pe_count := pe_count p;
           pe_bitmap := bitmap; pv_free_pe := pv_free_pe p - count |}, Some start).

Definition pv_free (p : pv) (start count : Z) : exec pv :=
  bitmap ← bm_range bm_clear (pe_bitmap p) start (Z.to_nat count);
  Ok {| pv_name := pv_name p; pv_size := pv_size p; pe_count := pe_count p;
        pe_bitmap := bitmap; pv_free_pe := pv_free_pe p + count |}.

(** ** Volume groups *)

(** [vg_pvs] is the used prefix [pvs[0 .. pv_count-1]] of the pointer array. *)
Record vg := Vg {
  vg_name : string;
  vg_pvs : list nat;
  vg_total_pe : Z;
  vg_free_pe : Z
}.

Definition pv_count (g : vg) : Z := Z.of_nat (length (vg_pvs g)).

Definition vg_create (name : string) : vg :=
  {| vg_name := str31 name; vg_pvs := []; vg_total_pe := 0; vg_free_pe := 0 |}.

(** [true] is the return value 0, [false] is -1. *)
Definition vg_add_pv (h : gmap nat pv) (g : vg) (q : nat) : exec (vg * bool) :=
  if MAX_PVS <=? pv_count g then Ok (g, false)
  else match h !! q with
       | None => Crash NullPointer
       | Some p =>
         total ← int_add (vg_total_pe g) (pe_count p);
         free ← int_add (vg_free_pe g) (pv_free_pe p);
         Ok ({| vg_name := vg_name g; vg_pvs := vg_pvs g ++ [q]; vg_total_pe := total; vg_free_pe := free |}, true)
       end.

(** The loop of [vg_alloc_pe] over [g->pvs[i]], [i] on. *)
Fixpoint vg_alloc_loop (h : gmap nat pv) (pvs : list nat) (i count : Z)
    : exec (gmap nat pv * option (Z * Z)) :=
  match pvs with
  | [] => Ok (h, None)
  | q :: rest =>
    match h !! q with
    | None => Crash NullPointer
    | Some p =>
      if count <=? pv_free_pe p then
        '(p', r) ← pv_alloc p count;
        match r with
        | Some start => Ok (<[q := p']> h, Some (i, start))
        | None => vg_alloc_loop h rest (i + 1) count
        end
      else vg_alloc_loop h rest (i + 1) count
    end
  end.

(** [Some (pv_idx, pe_start)] is the return value 0 with both out parameters
    written; [None] is -1. *)
Definition vg_alloc_pe (h : gmap nat pv) (g : vg) (count : Z)
    : exec (gmap nat pv * vg * option (Z * Z)) :=
  '(h', r) ← vg_alloc_loop h (vg_pvs g) 0 count;
  match r with
  | Some res =>
    Ok (h', {| vg_name := vg_name g; vg_pvs := vg_pvs g; vg_total_pe := vg_total_pe g;
               vg_free_pe := vg_free_pe g - count |}, Some res)
  | None => Ok (h', g, None)
  end.

(** ** Invariants and specifications *)

(** Extents of a volume that are free, as counted by the bitmap. *)
Definition pv_clear (p : pv) : Z :=
  countb (fun i => negb (bit (pe_bitmap p) i)) (Z.to_nat (pe_count p)).

Definition pv_wf (p : pv) : Prop :=
  0 <= pe_count p /\
  Z.of_nat (length (pe_bitmap p)) = (pe_count p + 63) / 64 /\
  bm_words (pe_bitmap p) /\
  pv_free_pe p = pv_clear p.

(** [count] consecutive free extents from [s] on. *)
Definition free_run (p : pv) (s count : Z) : Prop :=
  0 <= s /\ s + count <= pe_count p /\
  forall j, s <= j < s + count -> bit (pe_bitmap p) j = false.

(** The volume after [s .. s+count-1] were marked. *)
Definition pv_marked (p p' : pv) (s count : Z) : Prop :=
  pe_count p' = pe_count p /\ pv_size p' = pv_size p /\ pv_name p' = pv_name p /\
  pv_free_pe p' = pv_free_pe p - count /\
  forall j, 0 <= j ->
    bit (pe_bitmap p') j = (s <=? j) && (j <? s + count) || bit (pe_bitmap p) j.

Section physical_volume.

Lemma pv_bits p : pv_wf p -> pe_count p <= bm_bits (pe_bitmap p).
Proof.
  intros (Hn & Hlen & _ & _). unfold bm_bits. rewrite Hlen.
  pose proof (Z.div_mod (pe_count p + 63) 64). pose proof (Z.mod_pos_bound (pe_count p + 63) 64). lia.
Qed.

(** What the search has established at loop index [i]. *)
Definition scan_inv (p : pv) (count i found start : Z) : Prop :=
  0 <= found < count /\ 0 <= i - found /\
  (0 < found -> start = i - found) /\
  (forall j, i - found <= j < i -> bit (pe_bitmap p) j = false) /\
  (forall s, free_run p s count -> i - found <= s).

Definition scan_post (p : pv) (count : Z) (res : Z * Z) : Prop :=
  let '(found, start) := res in
  if found <? count then forall s, ~ free_run p s count
  else found = count /\ free_run p start count /\ forall s, free_run p s count -> start <= s.

Lemma scan_step_free p count i found start :
  bit (pe_bitmap p) i = false -> found + 1 <> count ->
  scan_inv p count i found start ->
  scan_inv p count (i + 1) (found + 1) (if found =? 0 then i else start).
Proof.
  intros Hb Hne (Hf & Hi & Hst & Hrun & Hfirst). split_and!.
  - lia.
  - lia.
  - lia.
  - intros _. destruct (Z.eqb_spec found 0); [lia|]. rewrite Hst; lia.
  - intros j Hj. destruct (decide (j = i)) as [->|]; [done|]. apply Hrun. lia.
  - intros s Hs. specialize (Hfirst s Hs). lia.
Qed.

Lemma scan_step_taken p count i found start :
  0 < count -> bit (pe_bitmap p) i = true ->
  scan_inv p count i found start -> scan_inv p count (i + 1) 0 (-1).
Proof.
  intros Hc Hb (Hf & Hi & Hst & Hrun & Hfirst). split_and!; try lia.
  intros s Hs. pose proof (Hfirst s Hs). destruct Hs as (? & ? & Hfree).
  destruct (decide (s <= i)); [|lia]. rewrite Hfree in Hb; [done|lia].
Qed.

Lemma scan_found p count i found start :
  i < pe_count p -> bit (pe_bitmap p) i = false -> found + 1 = count ->
  scan_inv p count i found start ->
  scan_post p count (count, if found =? 0 then i else start).
Proof.
  intros Hlt Hb Hc (Hf & Hi & Hst & Hrun & Hfirst).
  assert ((if found =? 0 then i else start) = i - found) as ->.
  { destruct (Z.eqb_spec found 0); [lia|]. rewrite Hst; lia. }
  unfold scan_post. destruct (Z.ltb_spec count count); [lia|]. split; [done|]. split; [|done].
  split_and!; [lia..|]. intros j Hj.
  destruct (decide (j = i)) as [->|]; [done|]. apply Hrun. lia.
Qed.

Lemma pv_scan_spec p count n i found start :
  pv_wf p -> 0 < count -> i + Z.of_nat n = pe_count p -> scan_inv p count i found start ->
  exists res, pv_scan (pe_bitmap p) count n i found start = Ok res /\ scan_post p count res.
Proof.
  intros Hwf Hc. pose proof (pv_bits p Hwf) as Hbits.
  revert i found start. induction n as [|n IH]; intros i found start Hi Hinv; simpl.
  - exists (found, start). split; [done|]. destruct Hinv as (Hf & _ & _ & _ & Hfirst).
    unfold scan_post. destruct (Z.ltb_spec found count); [|lia].
    intros s Hs. pose proof (Hfirst s Hs). destruct Hs. lia.
  - assert (0 <= i) as H0 by (destruct Hinv; lia).
    rewrite bm_test_ok by lia. simpl. destruct (bit (pe_bitmap p) i) eqn:Hb; simpl.
    + apply IH; [lia|]. by eapply scan_step_taken.
    + destruct (Z.eqb_spec (found + 1) count) as [Heq|Hne].
      * eexists. split; [done|]. rewrite Heq. eapply scan_found; [lia|done..].
      * apply IH; [lia|]. by apply scan_step_free.
Qed.

Lemma scan_inv_init p count : 0 < count -> scan_inv p count 0 0 (-1).
Proof. intros. split_and!; try lia. intros s (? & _). lia. Qed.

(** Marking a free run keeps the volume well formed. *)
Lemma pv_marked_wf p p' s count :
  pv_wf p -> 0 <= count -> free_run p s count -> pv_marked p p' s count ->
  length (pe_bitmap p') = length (pe_bitmap p) -> bm_words (pe_bitmap p') -> pv_wf p'.
Proof.
  intros (Hn & Hlen & Hw & Hfree) Hc (Hs & Hend & Hrun) (Hcnt & _ & _ & Hfr & Hbit) Hlen' Hw'.
  split_and!; [lia|by rewrite Hlen', Hcnt|done|].
  rewrite Hfr, Hfree. unfold pv_clear. rewrite Hcnt.
  rewrite (countb_cut (fun i => negb (bit (pe_bitmap p) i))
             (fun i => negb (bit (pe_bitmap p') i)) _ s count); [lia|done|done| |].
  - intros i Hi. by rewrite Hrun.
  - intros i Hi. rewrite Hbit by done. by rewrite negb_orb.
Qed.

(** Outcome of [pv_alloc] on every branch. *)
Definition pv_alloc_post (p : pv) (count : Z) (res : pv * option Z) : Prop :=
  match res with
  | (p', Some s) =>
    free_run p s count /\ (forall s', free_run p s' count -> s <= s') /\
    pv_marked p p' s count /\ pv_wf p' /\ length (pe_bitmap p') = length (pe_bitmap p)
  | (p', None) => p' = p /\ forall s, ~ free_run p s count
  end.

Lemma pv_alloc_total p count :
  pv_wf p -> 0 < count -> exists res, pv_alloc p count = Ok res /\ pv_alloc_post p count res.
Proof.
  intros Hwf Hc. unfold pv_alloc.
  destruct (pv_scan_spec p count (Z.to_nat (pe_count p)) 0 0 (-1)) as ((found & start) & Hscan & Hpost);
    [done|done|destruct Hwf; lia|by apply scan_inv_init|].
  rewrite Hscan. simpl. unfold scan_post in Hpost.
  destruct (Z.ltb_spec found count) as [Hlt|Hge].
  { eexists. split; [done|]. by split. }
  destruct Hpost as (-> & Hrun & Hfirst).
  pose proof Hrun as (Hs & Hend & _). pose proof Hwf as (Hn & _ & Hw & _).
  destruct (bm_range_spec bm_set true (pe_bitmap p) start (Z.to_nat count))
    as (w' & -> & Hlen & Hw' & Hbit); [auto with kernel|done|done| |].
  { pose proof (pv_bits p Hwf). lia. }
  simpl. eexists. split; [done|]. simpl.
  assert (pv_marked p {| pv_name := pv_name p; pv_size := pv_size p; pe_count := pe_count p;
    pe_bitmap := w'; pv_free_pe := pv_free_pe p - count |} start count) as Hm.
  { split_and!; try done. intros j Hj. simpl. rewrite Hbit, Z2Nat.id by lia.
    by destruct ((start <=? j) && (j <? start + count)). }
  split_and!; try done. apply (pv_marked_wf p _ start count); (done || lia).
Qed.

(** The volume a call of [pv_create] makes. *)
Definition fresh_pv (name : string) (size : Z) : pv :=
  let n := size / PE_SIZE_SECTORS in
  {| pv_name := str31 name; pv_size := size; pe_count := n; pe_bitmap := replicate (Z.to_nat ((n + 63) ÷ 64)) 0; pv_free_pe := n |}.

Lemma pv_create_ok name size : 0 <= size < (2 ^ 31 - 63) * PE_SIZE_SECTORS ->
  pv_create name size = Ok (fresh_pv name size) /\ 0 <= size / PE_SIZE_SECTORS < 2 ^ 31 - 63.
Proof.
  intros Hsz. assert (0 <= size / PE_SIZE_SECTORS < 2 ^ 31 - 63) as Hq.
  { split; [by apply Z.div_pos; [lia|]|]. apply Z.div_lt_upper_bound; [done|]. lia. }
  split; [|done]. unfold pv_create. rewrite s32_small, int_add_ok by lia. done.
Qed.

Lemma fresh_pv_wf name size : 0 <= size < (2 ^ 31 - 63) * PE_SIZE_SECTORS -> pv_wf (fresh_pv name size).
Proof.
  intros Hsz. destruct (pv_create_ok name size Hsz) as [_ Hq].
  unfold fresh_pv, pv_wf, pv_clear. simpl.
  rewrite Z.quot_div_nonneg, length_replicate by lia.
  pose proof (Z.div_pos (size / PE_SIZE_SECTORS + 63) 64).
  split_and!; [lia|lia|auto with kernel|].
  rewrite countb_all; [lia|]. intros i _. by rewrite bit_zero.
Qed.

End physical_volume.

(** ** Volume groups against their member volumes *)

(** Free counters of the member volumes, in array order. *)
Definition vg_frees (h : gmap nat pv) (pvs : list nat) : list Z :=
  (fun q => match h !! q with Some p => pv_free_pe p | None => 0 end) <$> pvs.

Definition vg_wf (h : gmap nat pv) (g : vg) : Prop :=
  NoDup (vg_pvs g) /\ pv_count g <= MAX_PVS /\
  (forall q, q ∈ vg_pvs g -> exists p, h !! q = Some p /\ pv_wf p) /\
  vg_free_pe g = sumZ (vg_frees h (vg_pvs g)).

(** [g->pvs[i]], when [i] is a valid index. *)
Definition pv_at (h : gmap nat pv) (g : vg) (i : Z) : option pv :=
  if 0 <=? i then vg_pvs g !! Z.to_nat i ≫= (h !!.) else None.

(** Extent [j] of member [i] exists, and is allocated. *)
Definition pe_valid (h : gmap nat pv) (g : vg) (e : Z * Z) : Prop :=
  exists p, pv_at h g e.1 = Some p /\ 0 <= e.2 < pe_count p.
Definition pe_used (h : gmap nat pv) (g : vg) (e : Z * Z) : bool :=
  match pv_at h g e.1 with Some p => bit (pe_bitmap p) e.2 | None => false end.

Section volume_group.
Implicit Types (h : gmap nat pv) (g : vg).

Lemma pv_at_nonneg h g i p : pv_at h g i = Some p -> 0 <= i.
Proof. unfold pv_at. destruct (Z.leb_spec 0 i); [done|discriminate]. Qed.

Lemma pv_at_lookup h g i p :
  pv_at h g i = Some p <->
  0 <= i /\ exists q, vg_pvs g !! Z.to_nat i = Some q /\ h !! q = Some p.
Proof.
  unfold pv_at. destruct (Z.leb_spec 0 i).
  - rewrite bind_Some. split; [intros (q & ? & ?); eauto|intros (_ & q & ? & ?); eauto].
  - split; [done|]. lia.
Qed.

Lemma pv_clear_nonneg p : 0 <= pv_clear p.
Proof. apply countb_range. Qed.

(** The free counter is at least the length of any free run. *)
Lemma free_run_count p s count :
  pv_wf p -> 0 <= count -> free_run p s count -> count <= pv_free_pe p.
Proof.
  intros (Hn & _ & _ & Hfree) Hc (Hs & Hend & Hrun).
  set (g := fun i => negb ((s <=? i) && (i <? s + count)) && negb (bit (pe_bitmap p) i)).
  pose proof (countb_range g (Z.to_nat (pe_count p))) as Hg.
  rewrite (countb_cut (fun i => negb (bit (pe_bitmap p) i)) g _ s count) in Hg;
    [unfold pv_clear in Hfree; lia|done|done| |done].
  intros j Hj. by rewrite Hrun.
Qed.

(** Outcome of the search loop on the members from index [i] on. *)
Definition loop_post h (pvs : list nat) (i count : Z) (res : gmap nat pv * option (Z * Z)) : Prop :=
  match res with
  | (h', None) => h' = h /\ forall q p s, q ∈ pvs -> h !! q = Some p -> ~ free_run p s count
  | (h', Some (idx, s)) =>
    exists k q p p', idx = i + Z.of_nat k /\ pvs !! k = Some q /\ h !! q = Some p /\
      h' = <[q := p']> h /\ pv_alloc_post p count (p', Some s) /\
      forall k' q' p' s', (k' < k)%nat -> pvs !! k' = Some q' -> h !! q' = Some p' ->
        ~ free_run p' s' count
  end.

Lemma loop_post_skip h q pvs i count p res :
  h !! q = Some p -> (forall s, ~ free_run p s count) ->
  loop_post h pvs (i + 1) count res -> loop_post h (q :: pvs) i count res.
Proof.
  intros Hq Hno. destruct res as [h' [[idx s]|]]; simpl.
  - intros (k & q' & p1 & p1' & -> & Hk & Hq' & Hh & Hpost & Hbefore).
    exists (S k), q', p1, p1'. split; [lia|]. do 4 (split; [done|]).
    intros [|k'] q2 p2 s2 Hlt Hl Hh2; simplify_eq/=; [by apply Hno|].
    eapply Hbefore; [|done..]. lia.
  - intros [-> Hall]. split; [done|]. intros q' p' s' [->|Hin]%elem_of_cons Hh'.
    + simplify_eq. apply Hno.
    + by eapply Hall.
Qed.

Lemma vg_alloc_loop_spec h pvs i count :
  0 < count -> (forall q, q ∈ pvs -> exists p, h !! q = Some p /\ pv_wf p) ->
  exists res, vg_alloc_loop h pvs i count = Ok res /\ loop_post h pvs i count res.
Proof.
  intros Hc. revert i. induction pvs as [|q pvs IH]; intros i Hall; simpl.
  { exists (h, None). split; [done|]. split; [done|]. by intros ? ? ? ?%elem_of_nil. }
  destruct (Hall q) as (p & Hq & Hwf); [left|]. rewrite Hq.
  destruct (IH (i + 1)) as (res & Hloop & Hres); [intros; apply Hall; by right|].
  destruct (Z.leb_spec count (pv_free_pe p)) as [Hle|Hlt].
  - destruct (pv_alloc_total p count) as ((p' & [s|]) & -> & Hpost); [done|done| |]; simpl.
    + eexists. split; [done|]. exists 0%nat, q, p, p'. split; [lia|]. do 4 (split; [done|]). lia.
    + exists res. split; [done|]. destruct Hpost as [_ Hno]. by eapply loop_post_skip.
  - exists res. split; [done|]. eapply loop_post_skip; [done| |done].
    intros s Hrun. apply free_run_count in Hrun; [lia|done|lia].
Qed.

Lemma vg_frees_insert h pvs k q p p' :
  NoDup pvs -> pvs !! k = Some q -> h !! q = Some p ->
  sumZ (vg_frees (<[q := p']> h) pvs) = sumZ (vg_frees h pvs) - pv_free_pe p + pv_free_pe p'.
Proof.
  intros Hnd Hk Hq. replace (vg_frees (<[q:=p']> h) pvs) with (<[k := pv_free_pe p']> (vg_frees h pvs)).
  { apply sumZ_insert. unfold vg_frees. by rewrite list_lookup_fmap, Hk; simpl; rewrite Hq. }
  apply list_eq. intros j. unfold vg_frees. destruct (decide (j = k)) as [->|Hne].
  - rewrite list_lookup_insert_eq by (rewrite length_fmap; by eapply lookup_lt_Some).
    rewrite list_lookup_fmap, Hk. simpl. by rewrite lookup_insert_eq.
  - rewrite list_lookup_insert_ne, !list_lookup_fmap by done.
    destruct (pvs !! j) as [q'|] eqn:Hj; [|done]. simpl.
    rewrite lookup_insert_ne; [done|]. intros ->. by apply Hne, (NoDup_lookup pvs j k q').
Qed.

(** A group that changed one member's volume. *)
Lemma vg_wf_update h g k q p p' d :
  vg_wf h g -> vg_pvs g !! k = Some q -> h !! q = Some p -> pv_wf p' ->
  pv_free_pe p' = pv_free_pe p - d ->
  vg_wf (<[q := p']> h) {| vg_name := vg_name g; vg_pvs := vg_pvs g;
    vg_total_pe := vg_total_pe g; vg_free_pe := vg_free_pe g - d |}.
Proof.
  intros (Hnd & Hmax & Hall & Hfree) Hk Hq Hwf' Hd. split_and!; simpl; [done|done| |].
  - intros q' Hin. destruct (decide (q' = q)) as [->|Hne].
    + exists p'. by rewrite lookup_insert_eq.
    + rewrite lookup_insert_ne by done. by apply Hall.
  - rewrite (vg_frees_insert h _ k q p p') by done. lia.
Qed.

(** Looking up members after member [k] was replaced. *)
Lemma pv_at_update h g g' k q p' i :
  NoDup (vg_pvs g) -> vg_pvs g' = vg_pvs g -> vg_pvs g !! k = Some q ->
  pv_at (<[q := p']> h) g' i = if i =? Z.of_nat k then Some p' else pv_at h g i.
Proof.
  intros Hnd Hpvs Hk. unfold pv_at. rewrite Hpvs.
  destruct (Z.leb_spec 0 i) as [Hi|Hi], (Z.eqb_spec i (Z.of_nat k)) as [->|Hne]; try lia; try done.
  - rewrite Nat2Z.id, Hk. simpl. by rewrite lookup_insert_eq.
  - destruct (vg_pvs g !! Z.to_nat i) as [q'|] eqn:Hq'; [|done]. simpl.
    rewrite lookup_insert_ne; [done|]. intros ->. apply Hne.
    rewrite (NoDup_lookup (vg_pvs g) k (Z.to_nat i) q' Hnd Hk Hq'). lia.
Qed.

(** Outcome of [vg_alloc_pe] on every branch. *)
Definition vg_alloc_post h g (count : Z) (res : gmap nat pv * vg * option (Z * Z)) : Prop :=
  match res with
  | (h', g', Some (i, s)) =>
    vg_wf h' g' /\ vg_pvs g' = vg_pvs g /\ vg_free_pe g' = vg_free_pe g - count /\
    (exists p p', pv_at h g i = Some p /\ free_run p s count /\ pv_marked p p' s count /\
       forall i', pv_at h' g' i' = if i' =? i then Some p' else pv_at h g i') /\
    (forall i' p s', i' < i -> pv_at h g i' = Some p -> ~ free_run p s' count)
  | (h', g', None) =>
    h' = h /\ g' = g /\ forall i p s, pv_at h g i = Some p -> ~ free_run p s count
  end.

Lemma vg_alloc_total h g count :
  vg_wf h g -> 0 < count ->
  exists res, vg_alloc_pe h g count = Ok res /\ vg_alloc_post h g count res.
Proof.
  intros Hwf Hc. pose proof Hwf as (Hnd & _ & Hall & _). unfold vg_alloc_pe.
  destruct (vg_alloc_loop_spec h (vg_pvs g) 0 count) as ((h' & [[i s]|]) & -> & Hpost); [done|done| |];
    simpl; eexists; (split; [done|]).
  - destruct Hpost as (k & q & p & p' & -> & Hk & Hq & -> & (Hrun & _ & Hm & Hwf' & _) & Hbefore).
    rewrite Z.add_0_l. pose proof Hm as (_ & _ & _ & Hfr & _). split_and!; try done.
    + by eapply vg_wf_update.
    + exists p, p'. split_and!; try done.
      * apply pv_at_lookup. split; [lia|]. rewrite Nat2Z.id. eauto.
      * intros i'. by apply pv_at_update.
    + intros i' p2 s' Hlt (Hi' & q2 & Hl & Hh)%pv_at_lookup. eapply Hbefore; [|done..]. lia.
  - destruct Hpost as [-> Hno]. split; [done|]. split; [done|].
    intros i p s (_ & q & Hl & Hh)%pv_at_lookup. eapply Hno; [|done]. by eapply list_elem_of_lookup_2.
Qed.

End volume_group.

(** ** Theorems *)

Section theorems.
Implicit Types (h : gmap nat pv) (g : vg).

(** C1: [pv_alloc] on a well-formed volume never leaves the bitmap array and
    is a first-fit allocator: it returns the lowest run of [count] free extents,
    marks exactly that run, subtracts [count] from the free counter and keeps
    the volume well formed; it returns -1 and changes nothing exactly when no
    run of [count] free extents exists. *)
Theorem pv_alloc_first_fit p count :
  pv_wf p -> 0 < count ->
  exists p' r, pv_alloc p count = Ok (p', r) /\ pv_wf p' /\
  match r with
  | Some s => free_run p s count /\ (forall s', free_run p s' count -> s <= s') /\
              pv_marked p p' s count
  | None => p' = p /\ forall s, ~ free_run p s count
  end.
Proof.
  intros Hwf Hc. destruct (pv_alloc_total p count Hwf Hc) as ((p' & [s|]) & Heq & Hpost);
    exists p'; eexists; (split; [done|]).
  - by destruct Hpost as (? & ? & ? & ? & _).
  - by destruct Hpost as (-> & ?).
Qed.

(** freeing what [pv_alloc] just returned restores the volume exactly,
    bitmap and counter included. *)
Theorem pv_alloc_free_roundtrip p p' s count :
  pv_wf p -> 0 < count -> pv_alloc p count = Ok (p', Some s) ->
  pv_free p' s count = Ok p.
Proof.
  intros Hwf Hc Heq. destruct (pv_alloc_total p count Hwf Hc) as (res & Heq' & Hpost).
  rewrite Heq in Heq'. simplify_eq. destruct Hpost as ((Hs & Hend & Hrun) & _ & Hm & Hwf' & Hlen).
  destruct Hm as (Hcnt & Hsz & Hnm & Hfr & Hbit). unfold pv_free.
  pose proof (pv_bits p' Hwf') as Hb. pose proof Hwf as (_ & _ & Hw & _).
  pose proof Hwf' as (_ & _ & Hw' & _).
  destruct (bm_range_spec bm_clear false (pe_bitmap p') s (Z.to_nat count))
    as (w & -> & Hlen2 & Hw2 & Hbit2); [auto with kernel|done|done|lia|].
  simpl. f_equal. assert (w = pe_bitmap p) as ->.
  { apply bit_ext; [done|done|congruence|]. intros i Hi.
    rewrite Hbit2, Hbit, Z2Nat.id by lia. pose proof (Hrun i).
    destruct (Z.leb_spec s i), (Z.ltb_spec i (s + count)); simpl; try done.
    symmetry. apply H. lia. }
  rewrite Hnm, Hsz, Hcnt, Hfr. destruct p; simpl in *. f_equal. lia.
Qed.

(** C9: [vg_alloc_pe] keeps the group well formed (its free counter is the sum
    of its members' free counters, every member's counter the number of clear
    bits), allocates from the first member that has a run of [count] free
    extents, marks exactly that run and no other member, and fails, changing
    nothing, exactly when no member has such a run. *)
Theorem vg_alloc_pe_correct h g count :
  vg_wf h g -> 0 < count ->
  exists h' g' r, vg_alloc_pe h g count = Ok (h', g', r) /\ vg_wf h' g' /\
  match r with
  | Some (i, s) =>
    vg_free_pe g' = vg_free_pe g - count /\
    (exists p p', pv_at h g i = Some p /\ free_run p s count /\ pv_marked p p' s count /\
       forall i', pv_at h' g' i' = if i' =? i then Some p' else pv_at h g i') /\
    (forall i' p s', i' < i -> pv_at h g i' = Some p -> ~ free_run p s' count)
  | None => h' = h /\ g' = g /\ forall i p s, pv_at h g i = Some p -> ~ free_run p s count
  end.
Proof.
  intros Hwf Hc. destruct (vg_alloc_total h g count Hwf Hc) as ([[h' g'] [[i s]|]] & Heq & Hpost);
    exists h', g'; eexists; (split; [done|]).
  - by destruct Hpost as (? & _ & ? & ? & ?).
  - by destruct Hpost as (-> & -> & ?).
Qed.

(** ** Witnesses *)

(** A fresh 5-extent volume whose extents 0 and 1 are taken. *)
Definition demo_pv : pv :=
  {| pv_name := "sda1"; pv_size := 5 * PE_SIZE_SECTORS; pe_count := 5;
     pe_bitmap := [3]; pv_free_pe := 3 |}.
Definition demo_heap : gmap nat pv := {[ 1%nat := demo_pv ]}.
Definition demo_vg : vg :=
  {| vg_name := "vg_data"; vg_pvs := [1%nat]; vg_total_pe := 5; vg_free_pe := 3 |}.

Lemma demo_pv_wf : pv_wf demo_pv.
Proof. split_and!; [done|done| |done]. repeat constructor; lia. Qed.

Lemma demo_vg_wf : vg_wf demo_heap demo_vg.
Proof.
  split_and!; [by apply NoDup_singleton|done| |done].
  intros q ->%list_elem_of_singleton. exists demo_pv. split; [done|]. apply demo_pv_wf.
Qed.

Lemma pv_alloc_first_fit_witness :
  exists p' r, pv_alloc demo_pv 2 = Ok (p', r) /\ pv_wf p' /\
  match r with
  | Some s => free_run demo_pv s 2 /\ (forall s', free_run demo_pv s' 2 -> s <= s') /\
              pv_marked demo_pv p' s 2
  | None => p' = demo_pv /\ forall s, ~ free_run demo_pv s 2
  end.
Proof. apply (pv_alloc_first_fit demo_pv 2); [apply demo_pv_wf|lia]. Defined.

Lemma pv_alloc_free_roundtrip_witness :
  pv_free {| pv_name := "sda1"; pv_size := 5 * PE_SIZE_SECTORS; pe_count := 5;
     pe_bitmap := [15]; pv_free_pe := 1 |} 2 2 = Ok demo_pv.
Proof. apply (pv_alloc_free_roundtrip demo_pv _ 2 2); [apply demo_pv_wf|lia|reflexivity]. Defined.

Lemma vg_alloc_pe_correct_witness :
  exists h' g' r, vg_alloc_pe demo_heap demo_vg 2 = Ok (h', g', r) /\ vg_wf h' g'.
Proof.
  destruct (vg_alloc_pe_correct demo_heap demo_vg 2) as (h' & g' & r & H & Hwf & _);
    [apply demo_vg_wf|lia|]. exists h', g', r. split; [exact H|exact Hwf].
Defined.

End theorems.
