(* ===== verification/LvmVolume.v ===== *)
(** * LVM logical volumes and snapshots ([demos/lvm/lvm.c])

    A logical volume maps its logical extents to (volume, extent) pairs through
    an array [le_map] on the C heap.  A snapshot stores the origin's [le_map]
    pointer, so the arrays are modelled as heap objects and the sharing is
    visible. *)
From Stdlib Require Import ZArith Lia String.
From stdpp Require Import base numbers list option gmap.
From S2P Require Import Prelude Bitmap Lvm.

Open Scope Z_scope.

Record le_map := Le { pv_index : Z; pe_start : Z }.

#[export] Instance le_map_eq_dec : EqDecision le_map.
Proof. solve_decision. Defined.

(** [origin] is a pointer to the origin volume, [cow_bitmap] is [NULL] unless
    the volume is a snapshot. *)
Record lv := Lv {
  lv_name : string;
  lv_vg_name : string;
  le_count : Z;
  le_map_ptr : nat;
  lv_pv_count : Z;
  origin : option nat;
  cow_bitmap : option (list Z);
  cow_pe_start : Z;
  cow_pe_count : Z
}.

(** The C heap: physical volumes, [le_map] arrays ([None] is an entry that
    [realloc] left uninitialised), logical volumes; [brk] is the next fresh
    address. *)
Record world := World {
  w_pvs : gmap nat pv;
  w_maps : gmap nat (list (option le_map));
  w_lvs : gmap nat lv;
  brk : nat
}.

(** The allocation loops of [lv_create] and [lv_extend]: [n] extents still to
    allocate, the next one goes to entry [idx].  The flag tells whether the
    loop ran to its end ([false]: [vg_alloc_pe] failed). *)
Fixpoint le_fill (n : nat) (idx : Z) (h : gmap nat pv) (g : vg) (m : list (option le_map))
    : exec (gmap nat pv * vg * list (option le_map) * bool) :=
  match n with
  | O => Ok (h, g, m, true)
  | S n' =>
    '(h', g', r) ← vg_alloc_pe h g 1;
    match r with
    | None => Ok (h', g', m, false)
    | Some (pv_idx, pe) =>
      m' ← arr_set m idx (Some (Le pv_idx pe));
      le_fill n' (idx + 1) h' g' m'
    end
  end.

Definition lv_create (w : world) (g : vg) (name : string) (count : Z)
    : exec (world * vg * nat) :=
  let m := replicate (Z.to_nat count) (Some (Le 0 0)) in
  '(h, g', m', _) ← le_fill (Z.to_nat count) 0 (w_pvs w) g m;
  let map_ptr := brk w in
  let l := {| lv_name := str31 name; lv_vg_name := str31 (vg_name g); le_count := count;
              le_map_ptr := map_ptr; lv_pv_count := 0; origin := None;
              cow_bitmap := None; cow_pe_start := 0; cow_pe_count := 0 |} in
  Ok ({| w_pvs := h; w_maps := <[map_ptr := m']> (w_maps w);
         w_lvs := <[S map_ptr := l]> (w_lvs w); brk := S (S map_ptr) |}, g', S map_ptr).

(** Logical sector to (volume index, physical sector). *)
Definition lv_map_sector (w : world) (l : lv) (lv_sector : Z) : exec (Z * Z) :=
  let le_idx := s32 (lv_sector / PE_SIZE_SECTORS) in
  let le_idx := if le_count l <=? le_idx then le_count l - 1 else le_idx in
  match w_maps w !! le_map_ptr l with
  | None => Crash UseAfterFree
  | Some m =>
    e ← arr_get m le_idx;
    match e with
    | None => Crash Uninitialised
    | Some e =>
      let offset_in_pe := lv_sector mod PE_SIZE_SECTORS in
      if 2 ^ 31 <=? pe_start e * PE_SIZE_SECTORS then Crash SignedOverflow
      else Ok (pv_index e, u64 (pe_start e * PE_SIZE_SECTORS + offset_in_pe))
    end
  end.

(** [realloc] of the map to [n] entries.  The C library decides whether the
    block moves ([moves]); when it does, the old pointer dangles. *)
Definition realloc_map (w : world) (moves : bool) (ptr : nat) (n : Z) : exec (world * nat) :=
  match w_maps w !! ptr with
  | None => Crash UseAfterFree
  | Some m =>
    let m' := resize (Z.to_nat n) None m in
    if moves then
      Ok ({| w_pvs := w_pvs w; w_maps := <[brk w := m']> (delete ptr (w_maps w));
             w_lvs := w_lvs w; brk := S (brk w) |}, brk w)
    else
      Ok ({| w_pvs := w_pvs w; w_maps := <[ptr := m']> (w_maps w);
             w_lvs := w_lvs w; brk := brk w |}, ptr)
  end.

(** [lv_extend]: [true] is the return value 0.  On failure the map has been
    reallocated and partly filled, [le_count] is left alone. *)
Definition lv_extend (w : world) (moves : bool) (lp : nat) (g : vg) (additional : Z)
    : exec (world * vg * bool) :=
  match w_lvs w !! lp with
  | None => Crash NullPointer
  | Some l =>
    let old_count := le_count l in
    new_count ← int_add old_count additional;
    '(w1, ptr) ← realloc_map w moves (le_map_ptr l) new_count;
    match w_maps w1 !! ptr with
    | None => Crash UseAfterFree
    | Some m =>
      '(h, g', m', ok) ← le_fill (Z.to_nat additional) old_count (w_pvs w1) g m;
      let l' := {| lv_name := lv_name l; lv_vg_name := lv_vg_name l;
                   le_count := if (ok : bool) then new_count else old_count;
                   le_map_ptr := ptr; lv_pv_count := lv_pv_count l; origin := origin l;
                   cow_bitmap := cow_bitmap l; cow_pe_start := cow_pe_start l;
                   cow_pe_count := cow_pe_count l |} in
      Ok ({| w_pvs := h; w_maps := <[ptr := m']> (w_maps w1);
             w_lvs := <[lp := l']> (w_lvs w1); brk := brk w1 |}, g', ok)
    end
  end.

(** [lv_create_snapshot]: [None] is the NULL return.  Both out parameters of
    [vg_alloc_pe] are [&cow_start]; the extent is written last. *)
Definition lv_create_snapshot (w : world) (g : vg) (snap_name : string) (op : nat) (cow_count : Z)
    : exec (world * vg * option nat) :=
  match w_lvs w !! op with
  | None => Crash NullPointer
  | Some o =>
    '(h, g', r) ← vg_alloc_pe (w_pvs w) g cow_count;
    match r with
    | None => Ok ({| w_pvs := h; w_maps := w_maps w; w_lvs := w_lvs w; brk := S (brk w) |}, g', None)
    | Some (_, cow_start) =>
      let snap := {| lv_name := str31 snap_name; lv_vg_name := str31 (vg_name g);
                     le_count := le_count o; le_map_ptr := le_map_ptr o; lv_pv_count := 0;
                     origin := Some op;
                     cow_bitmap := Some (replicate (Z.to_nat ((le_count o + 63) ÷ 64)) 0);
                     cow_pe_start := cow_start; cow_pe_count := cow_count |} in
      Ok ({| w_pvs := h; w_maps := w_maps w; w_lvs := <[brk w := snap]> (w_lvs w);
             brk := S (brk w) |}, g', Some (brk w))
    end
  end.

(** [snapshot_write]: marks the written logical extent as copied. *)
Definition snapshot_write (w : world) (sp : nat) (lv_sector : Z) : exec world :=
  match w_lvs w !! sp with
  | None => Crash NullPointer
  | Some snap =>
    match origin snap with
    | None => Ok w
    | Some _ =>
      let le_idx := s32 (lv_sector / PE_SIZE_SECTORS) in
      match cow_bitmap snap with
      | None => Crash NullPointer
      | Some bm =>
        copied ← bm_test bm le_idx;
        if negb copied then
          bm' ← bm_set bm le_idx;
          let snap' := {| lv_name := lv_name snap; lv_vg_name := lv_vg_name snap;
                          le_count := le_count snap; le_map_ptr := le_map_ptr snap;
                          lv_pv_count := lv_pv_count snap; origin := origin snap;
                          cow_bitmap := Some bm'; cow_pe_start := cow_pe_start snap;
                          cow_pe_count := cow_pe_count snap |} in
          Ok {| w_pvs := w_pvs w; w_maps := w_maps w; w_lvs := <[sp := snap']> (w_lvs w);
                brk := brk w |}
        else Ok w
      end
    end
  end.

(** ** Allocating single extents *)

Section fill.
Implicit Types (h : gmap nat pv) (g : vg) (e : Z * Z).

(** A volume without a free extent has free counter 0. *)
Lemma pv_full_free p : pv_wf p -> (forall s, ~ free_run p s 1) -> pv_free_pe p = 0.
Proof.
  intros (Hn & _ & _ & ->) Hno. pose proof (pv_clear_nonneg p).
  destruct (decide (0 < pv_clear p)) as [Hpos|]; [|lia].
  apply countb_pos in Hpos as (j & Hj & Hb). apply negb_true_iff in Hb.
  exfalso. apply (Hno j). split_and!; [lia..|]. intros k Hk. by replace k with j by lia.
Qed.

Lemma vg_full_free h g :
  vg_wf h g -> (forall i p s, pv_at h g i = Some p -> ~ free_run p s 1) -> vg_free_pe g = 0.
Proof.
  intros (_ & _ & Hall & ->) Hno. unfold vg_frees.
  assert (Forall (fun x => x = 0) (vg_frees h (vg_pvs g))) as Hz.
  { apply Forall_fmap, Forall_forall. intros q Hq. simpl.
    destruct (Hall q Hq) as (p & Hp & Hwf). rewrite Hp. apply pv_full_free; [done|].
    apply list_elem_of_lookup in Hq as [k Hk]. intros s. apply (Hno (Z.of_nat k)).
    apply pv_at_lookup. rewrite Nat2Z.id. split; [lia|eauto]. }
  unfold vg_frees in Hz. induction Hz; simpl; lia.
Qed.

Lemma vg_free_nonneg h g : vg_wf h g -> 0 <= vg_free_pe g.
Proof.
  intros (_ & _ & Hall & ->). apply sumZ_nonneg, Forall_fmap, Forall_forall. intros q Hq. simpl.
  destruct (Hall q Hq) as (p & -> & (_ & _ & _ & ->)). apply pv_clear_nonneg.
Qed.

(** One extent: the abstract view of [vg_alloc_pe(g, 1, ...)]. *)
Definition alloc1_post h g (res : gmap nat pv * vg * option (Z * Z)) : Prop :=
  match res with
  | (h', g', Some e) =>
    vg_wf h' g' /\ vg_free_pe g' = vg_free_pe g - 1 /\
    pe_valid h g e /\ pe_used h g e = false /\
    (forall e', pe_valid h' g' e' <-> pe_valid h g e') /\
    (forall e', 0 <= e'.2 -> pe_used h' g' e' = bool_decide (e' = e) || pe_used h g e')
  | (h', g', None) => h' = h /\ g' = g /\ vg_free_pe g = 0
  end.

Lemma alloc1_spec h g :
  vg_wf h g -> exists res, vg_alloc_pe h g 1 = Ok res /\ alloc1_post h g res.
Proof.
  intros Hwf. destruct (vg_alloc_total h g 1) as ([[h' g'] [[i s]|]] & Heq & Hpost); [done|done| |];
    (eexists; split; [done|]); simpl.
  - destruct Hpost as (Hwf' & _ & Hfr & (p & p' & Hp & Hrun & Hm & Hat) & _).
    destruct Hrun as (Hs & Hend & Hrun), Hm as (Hcnt & _ & _ & _ & Hbit). split_and!; try done.
    + exists p. split; [done|]. simpl. lia.
    + unfold pe_used. simpl. rewrite Hp. apply Hrun. lia.
    + intros [i' s']. unfold pe_valid. simpl. rewrite Hat.
      destruct (Z.eqb_spec i' i) as [->|]; [|done]. rewrite Hp.
      split; intros (? & [= <-] & ?); eexists; (split; [done|lia]).
    + intros [i' s'] Hs'. unfold pe_used. simpl in *. rewrite Hat.
      destruct (Z.eqb_spec i' i) as [->|Hne]; [|by rewrite bool_decide_eq_false_2 by congruence].
      rewrite Hp, Hbit by done. f_equal. destruct (decide (s' = s)) as [->|].
      * rewrite bool_decide_eq_true_2 by done.
        destruct (Z.leb_spec s s), (Z.ltb_spec s (s + 1)); (done || lia).
      * rewrite bool_decide_eq_false_2 by congruence.
        destruct (Z.leb_spec s s'), (Z.ltb_spec s' (s + 1)); (done || lia).
  - destruct Hpost as (-> & -> & Hno). split_and!; try done. by eapply vg_full_free.
Qed.

(** The extents [L] were allocated one after the other into [m] from entry
    [idx] on; [ok] tells whether all [n] of them were found. *)
Definition fill_post (n : nat) (idx : Z) h g (m : list (option le_map))
    (res : gmap nat pv * vg * list (option le_map) * bool) (L : list (Z * Z)) : Prop :=
  let '(h', g', m', ok) := res in
  vg_wf h' g' /\ vg_free_pe g' = vg_free_pe g - Z.of_nat (length L) /\
  (if (ok : bool) then length L = n else (length L < n)%nat /\ vg_free_pe g' = 0) /\
  NoDup L /\ (forall e, e ∈ L -> pe_valid h g e /\ pe_used h g e = false) /\
  (forall e, pe_valid h' g' e <-> pe_valid h g e) /\
  (forall e, 0 <= e.2 -> pe_used h' g' e = bool_decide (e ∈ L) || pe_used h g e) /\
  length m' = length m /\
  (forall k e, L !! k = Some e -> m' !! (Z.to_nat idx + k)%nat = Some (Some (Le e.1 e.2))) /\
  (forall j, (j < Z.to_nat idx \/ Z.to_nat idx + length L <= j)%nat -> m' !! j = m !! j).

Lemma fill_post_cons n idx h g m h1 g1 e res L :
  0 <= idx < Z.of_nat (length m) -> alloc1_post h g (h1, g1, Some e) ->
  fill_post n (idx + 1) h1 g1 (<[Z.to_nat idx := Some (Le e.1 e.2)]> m) res L ->
  fill_post (S n) idx h g m res (e :: L).
Proof.
  intros Hidx (_ & Hfr1 & Hval & Hun & Hsame & Hused).
  destruct res as [[[h' g'] m'] ok].
  intros (Hwf & Hfr & Hok & Hnd & HL & Hval' & Hused' & Hlen & Hent & Hrest).
  assert (e ∉ L) as Hnew.
  { intros Hin. destruct (HL e Hin) as [(p & _ & He) Hu]. rewrite Hused in Hu by lia.
    by rewrite bool_decide_eq_true_2 in Hu. }
  rewrite length_insert in Hlen. simpl.
  split_and!; [done|lia|destruct ok; lia|by constructor| | | |done| |].
  - intros e' [->|Hin]%elem_of_cons; [done|]. destruct (HL e' Hin) as [Hv Hu].
    split; [by apply Hsame|]. destruct Hv as (? & _ & He'). rewrite Hused in Hu by lia.
    by apply orb_false_elim in Hu as [_ ?].
  - intros e'. rewrite Hval'. apply Hsame.
  - intros e' He'. rewrite Hused', Hused by done.
    rewrite (bool_decide_ext _ _ (elem_of_cons L e' e)), bool_decide_or.
    by destruct (bool_decide (e' ∈ L)), (bool_decide (e' = e)).
  - intros [|k] e' Hk; simplify_eq/=.
    + rewrite Nat.add_0_r, Hrest by lia. apply list_lookup_insert_eq. lia.
    + rewrite <- (Hent k e' Hk). f_equal. lia.
  - intros j Hj. rewrite Hrest by lia. apply list_lookup_insert_ne. lia.
Qed.

Lemma le_fill_spec n idx h g m :
  vg_wf h g -> 0 <= idx -> idx + Z.of_nat n <= Z.of_nat (length m) ->
  exists res L, le_fill n idx h g m = Ok res /\ fill_post n idx h g m res L.
Proof.
  revert idx h g m. induction n as [|n IH]; intros idx h g m Hwf Hidx Hn; simpl.
  { exists (h, g, m, true), []. split; [done|]. simpl. split_and!; try done; try lia.
    - constructor.
    - by intros e ?%elem_of_nil. }
  destruct (alloc1_spec h g Hwf) as ([[h1 g1] [e|]] & -> & Hpost); simpl.
  - destruct e as [i s]. rewrite arr_set_ok by lia. simpl.
    destruct (IH (idx + 1) h1 g1 (<[Z.to_nat idx := Some (Le i s)]> m)) as (res & L & -> & Hf);
      [by destruct Hpost|lia|rewrite length_insert; lia|].
    exists res, ((i, s) :: L). split; [done|]. by eapply fill_post_cons; [lia| |].
  - destruct Hpost as (-> & -> & Hz). exists (h, g, m, false), []. split; [done|]. simpl.
    split_and!; try done; try lia.
    + constructor.
    + by intros e ?%elem_of_nil.
Qed.

(** Enough free extents: the loop does not stop early. *)
Lemma fill_post_ok n idx h g m h' g' m' ok L :
  fill_post n idx h g m (h', g', m', ok) L -> Z.of_nat n <= vg_free_pe g -> ok = true.
Proof. intros (_ & Hfr & Hok & _) Hn. destruct ok; [done|]. lia. Qed.

End fill.

(** ** Properties of logical volumes *)

(** The map of a volume is complete and maps distinct logical extents to
    distinct physical extents below the 1 TiB limit of the [int] product. *)
Definition lv_mapped (w : world) (l : lv) : Prop :=
  0 <= le_count l < 2 ^ 31 /\
  exists m, w_maps w !! le_map_ptr l = Some m /\ Z.of_nat (length m) = le_count l /\
    NoDup m /\ forall e, e ∈ m -> exists x, e = Some x /\ 0 <= pe_start x < 2 ^ 20.

Section volumes.
Implicit Types (w : world) (g : vg) (l : lv).

Lemma sector_split s n :
  0 <= s < n * PE_SIZE_SECTORS ->
  0 <= s / PE_SIZE_SECTORS < n /\ 0 <= s mod PE_SIZE_SECTORS < PE_SIZE_SECTORS.
Proof.
  change PE_SIZE_SECTORS with 2048. intros Hs. pose proof (Z.mod_pos_bound s 2048).
  split; [|lia]. split; [apply Z.div_pos; lia|]. apply Z.div_lt_upper_bound; lia.
Qed.

(** Translation of an in-range sector of a mapped volume. *)
Lemma lv_map_sector_at w l s :
  lv_mapped w l -> 0 <= s < le_count l * PE_SIZE_SECTORS ->
  exists m x, w_maps w !! le_map_ptr l = Some m /\
    m !! Z.to_nat (s / PE_SIZE_SECTORS) = Some (Some x) /\ 0 <= pe_start x < 2 ^ 20 /\
    lv_map_sector w l s
    = Ok (pv_index x, pe_start x * PE_SIZE_SECTORS + s mod PE_SIZE_SECTORS).
Proof.
  intros (Hc & m & Hm & Hlen & _ & Hall) Hs. destruct (sector_split s _ Hs) as [Hq Hr].
  destruct (lookup_lt_is_Some_2 m (Z.to_nat (s / PE_SIZE_SECTORS))) as [e He]; [lia|].
  destruct (Hall e) as (x & -> & Hx); [by eapply list_elem_of_lookup_2|].
  exists m, x. split_and!; try done; [lia..|].
  unfold lv_map_sector. rewrite s32_small by lia.
  destruct (Z.leb_spec (le_count l) (s / PE_SIZE_SECTORS)); [lia|].
  rewrite Hm, (arr_get_ok m _ (Some x)) by (done || lia). simpl.
  change PE_SIZE_SECTORS with 2048 in *.
  destruct (Z.leb_spec (2 ^ 31) (pe_start x * 2048)); [lia|].
  by rewrite wrapu_small by lia.
Qed.

(** C10: when the group has at least [count] free extents, [lv_create] maps every
    one of the [count] logical extents, to pairwise distinct extents that
    existed, were free before and are allocated now; extents that were in use
    stay in use, nothing else changes state, and the group's counter drops by
    [count]. *)
Theorem lv_create_correct w g name count :
  vg_wf (w_pvs w) g -> 0 <= count <= vg_free_pe g ->
  exists w' g' lp l m L, lv_create w g name count = Ok (w', g', lp) /\
    w_lvs w' !! lp = Some l /\ le_count l = count /\ w_maps w' !! le_map_ptr l = Some m /\
    m = (fun e => Some (Le e.1 e.2)) <$> L /\ Z.of_nat (length L) = count /\ NoDup L /\
    (forall e, e ∈ L -> pe_valid (w_pvs w) g e /\ pe_used (w_pvs w) g e = false) /\
    (forall e, 0 <= e.2 -> pe_used (w_pvs w') g' e = bool_decide (e ∈ L) || pe_used (w_pvs w) g e) /\
    vg_wf (w_pvs w') g' /\ vg_free_pe g' = vg_free_pe g - count.
Proof.
  intros Hwf Hc. unfold lv_create.
  destruct (le_fill_spec (Z.to_nat count) 0 (w_pvs w) g (replicate (Z.to_nat count) (Some (Le 0 0))))
    as ([[[h g'] m] ok] & L & -> & Hf); [done|lia|rewrite length_replicate; lia|].
  assert (ok = true) as -> by (eapply fill_post_ok; [done|lia]). simpl.
  destruct Hf as (Hwf' & Hfr & Hlen & Hnd & HL & _ & Hused & Hml & Hent & _).
  rewrite length_replicate in Hml.
  do 3 eexists. eexists. exists m, L. split; [done|]. simpl.
  split; [apply lookup_insert_eq|]. split; [done|]. split; [apply lookup_insert_eq|].
  split_and!; try done; try lia. apply (list_eq_same_length _ _ (length m)); [by rewrite length_fmap; lia|done|].
  intros k x y Hk Hx Hy. apply list_lookup_fmap_Some in Hy as (e & -> & He).
  apply Hent in He. simpl in He. congruence.
Qed.

(** Address translation is injective: two different sectors of a mapped
    volume never land on the same sector of the same physical volume, and each
    lands inside the extent its logical extent is mapped to. *)
Theorem lv_map_sector_injective w l s1 s2 :
  lv_mapped w l ->
  0 <= s1 < le_count l * PE_SIZE_SECTORS -> 0 <= s2 < le_count l * PE_SIZE_SECTORS ->
  s1 <> s2 ->
  exists r1 r2, lv_map_sector w l s1 = Ok r1 /\ lv_map_sector w l s2 = Ok r2 /\ r1 <> r2.
Proof.
  intros Hmap Hs1 Hs2 Hne.
  destruct (lv_map_sector_at w l s1 Hmap Hs1) as (m & x & Hm & Hx & Hpx & ->).
  destruct (lv_map_sector_at w l s2 Hmap Hs2) as (m' & y & Hm' & Hy & Hpy & ->). simplify_eq.
  do 2 eexists. split; [done|]. split; [done|]. intros [= Hi Hp].
  destruct (sector_split s1 _ Hs1) as [Hq1 Hr1], (sector_split s2 _ Hs2) as [Hq2 Hr2].
  change PE_SIZE_SECTORS with 2048 in *.
  assert (x = y) as -> by (destruct x, y; simpl in *; f_equal; lia).
  destruct Hmap as (_ & m2 & Hm2 & _ & Hnd & _). simplify_eq.
  pose proof (NoDup_lookup _ _ _ _ Hnd Hx Hy) as Heq. apply Z2Nat.inj in Heq; [|lia..].
  rewrite (Z.div_mod s1 2048), (Z.div_mod s2 2048) in Hne by lia. lia.
Qed.

(** When the group runs dry, [lv_create] still returns a volume of [count]
    logical extents; those past the free extents keep the zeroed entry, which
    is extent 0 of volume 0. *)
Theorem lv_create_short w g name count :
  vg_wf (w_pvs w) g -> vg_free_pe g < count ->
  exists w' g' lp l m, lv_create w g name count = Ok (w', g', lp) /\
    w_lvs w' !! lp = Some l /\ le_count l = count /\ w_maps w' !! le_map_ptr l = Some m /\
    forall k, vg_free_pe g <= k < count -> m !! Z.to_nat k = Some (Some (Le 0 0)).
Proof.
  intros Hwf Hc. pose proof (vg_free_nonneg _ _ Hwf). unfold lv_create.
  destruct (le_fill_spec (Z.to_nat count) 0 (w_pvs w) g (replicate (Z.to_nat count) (Some (Le 0 0))))
    as ([[[h g'] m] ok] & L & -> & Hf); [done|lia|rewrite length_replicate; lia|].
  simpl. destruct Hf as (Hwf' & Hfr & Hok & _ & _ & _ & _ & _ & _ & Hrest).
  pose proof (vg_free_nonneg _ _ Hwf').
  do 3 eexists. eexists. exists m. split; [done|]. simpl.
  split; [apply lookup_insert_eq|]. split; [done|]. split; [apply lookup_insert_eq|]. intros k Hk. rewrite Hrest by lia. apply lookup_replicate. split; [done|lia].
Qed.

(** a failed [lv_extend] loses extents: it returns -1 with the volume's
    [le_count] unchanged, yet every extent that was still free in the group is
    now allocated, to entries past [le_count] that nothing frees. *)
Theorem lv_extend_failure_leaks w moves lp l m g n :
  vg_wf (w_pvs w) g -> w_lvs w !! lp = Some l -> w_maps w !! le_map_ptr l = Some m ->
  0 <= le_count l -> Z.of_nat (length m) = le_count l -> vg_free_pe g < n -> le_count l + n < 2 ^ 31 ->
  exists w' g' l', lv_extend w moves lp g n = Ok (w', g', false) /\
    w_lvs w' !! lp = Some l' /\ le_count l' = le_count l /\ vg_free_pe g' = 0.
Proof.
  intros Hwf Hl Hm Hc Hlen Hn Hint. pose proof (vg_free_nonneg _ _ Hwf).
  unfold lv_extend, realloc_map. rewrite Hl, int_add_ok, Hm by lia. cbn [mbind exec_bind].
  set (m' := resize (Z.to_nat (le_count l + n)) None m).
  destruct (le_fill_spec (Z.to_nat n) (le_count l) (w_pvs w) g m')
    as ([[[h g'] m2] ok] & L & Hfill & Hf); [done|done|unfold m'; rewrite length_resize; lia|].
  assert (ok = false /\ vg_free_pe g' = 0) as [-> Hz].
  { destruct Hf as (Hwf' & Hfr & Hok & _). pose proof (vg_free_nonneg _ _ Hwf'). destruct ok; lia. }
  destruct moves; simpl; rewrite lookup_insert_eq, Hfill; simpl;
    (do 3 eexists; split; [done|]; simpl; split; [apply lookup_insert_eq|done]).
Qed.

(** a snapshot keeps the origin's [le_map] pointer, so when a later
    [lv_extend] of the origin moves the array, every address translation
    through the snapshot reads freed memory. *)
Theorem snapshot_map_dangles w op sp o snap g n w' g' ok :
  w_lvs w !! op = Some o -> w_lvs w !! sp = Some snap ->
  le_map_ptr snap = le_map_ptr o -> (le_map_ptr o < brk w)%nat ->
  lv_extend w true op g n = Ok (w', g', ok) ->
  forall s, lv_map_sector w' snap s = Crash UseAfterFree.
Proof.
  intros Ho Hs Hshare Hbrk Hext s. unfold lv_extend, realloc_map in Hext. rewrite Ho in Hext.
  destruct (int_add (le_count o) n) as [k|]; simpl in Hext; [|done].
  destruct (w_maps w !! le_map_ptr o) as [m|]; simpl in Hext; [|done].
  rewrite lookup_insert_eq in Hext. exec_inv.
  repeat match goal with x : _ * _ |- _ => destruct x end. simplify_eq.
  unfold lv_map_sector. simpl. rewrite insert_insert_eq, lookup_insert_ne by lia.
  by rewrite Hshare, lookup_delete_eq.
Qed.

End volumes.

(** ** Witnesses *)

Section witnesses.

Definition demo_world : world :=
  {| w_pvs := demo_heap; w_maps := ∅; w_lvs := ∅; brk := 10 |}.

(** A two-extent volume on [demo_vg], its 1-extent snapshot, and an extension
    of the volume by one more extent. *)
Definition demo_run : exec (world * vg * nat * nat) :=
  '(w1, g1, lp) ← lv_create demo_world demo_vg "lv_var" 2;
  '(w2, g2, sp) ← lv_create_snapshot w1 g1 "lv_var_snapshot" lp 1;
  match sp with Some sp => Ok (w2, g2, lp, sp) | None => Crash NullPointer end.

Definition demo_lv_world : world :=
  match demo_run with Ok (w, _, _, _) => w | Crash _ => demo_world end.
Definition demo_lv_vg : vg :=
  match demo_run with Ok (_, g, _, _) => g | Crash _ => demo_vg end.
Definition demo_snap : lv :=
  match w_lvs demo_lv_world !! 12%nat with Some l => l | None => Lv "" "" 0 0 0 None None 0 0 end.
Definition demo_lv : lv :=
  match w_lvs demo_lv_world !! 11%nat with Some l => l | None => Lv "" "" 0 0 0 None None 0 0 end.

(** The copy-on-write mark of a snapshot: set on the first write of an extent,
    kept by the second. *)
Example snapshot_write_marks :
  (w ← snapshot_write demo_lv_world 12 2048; snapshot_write w 12 3000)
  = (w ← snapshot_write demo_lv_world 12 2048; Ok w) /\
  (w ← snapshot_write demo_lv_world 12 2048;
   Ok (cow_bitmap <$> w_lvs w !! 12%nat)) = Ok (Some (Some [2])).
Proof. split; vm_compute; reflexivity. Qed.

Lemma lv_create_correct_witness :
  exists w' g' lp, lv_create demo_world demo_vg "lv_home" 3 = Ok (w', g', lp) /\
    vg_wf (w_pvs w') g' /\ vg_free_pe g' = 3 - 3.
Proof.
  destruct (lv_create_correct demo_world demo_vg "lv_home" 3)
    as (w' & g' & lp & l & m & L & H & _ & _ & _ & _ & _ & _ & _ & _ & Hwf & Hfr);
    [apply demo_vg_wf|simpl; lia|].
  exists w', g', lp. split; [exact H|]. split; [exact Hwf|exact Hfr].
Defined.

Lemma demo_lv_mapped : lv_mapped demo_lv_world demo_lv.
Proof.
  split; [vm_compute; split; [discriminate|reflexivity]|].
  exists [Some (Le 0 2); Some (Le 0 3)]. split; [vm_compute; reflexivity|].
  split; [vm_compute; reflexivity|]. split.
  - apply NoDup_cons. split; [by intros ?%list_elem_of_singleton|apply NoDup_singleton].
  - intros e He. apply elem_of_cons in He as [->|He%list_elem_of_singleton];
      [|subst]; eexists; (split; [done|simpl; lia]).
Qed.

Lemma lv_map_sector_injective_witness :
  exists r1 r2, lv_map_sector demo_lv_world demo_lv 7 = Ok r1 /\
    lv_map_sector demo_lv_world demo_lv 2055 = Ok r2 /\ r1 <> r2.
Proof.
  apply (lv_map_sector_injective demo_lv_world demo_lv 7 2055);
    [apply demo_lv_mapped|vm_compute; split; [discriminate|reflexivity]..|discriminate].
Defined.

Lemma lv_extend_failure_leaks_witness :
  exists w' g' l', lv_extend demo_lv_world true 11 demo_lv_vg 5 = Ok (w', g', false) /\
    w_lvs w' !! 11%nat = Some l' /\ le_count l' = le_count demo_lv /\ vg_free_pe g' = 0.
Proof.
  apply (lv_extend_failure_leaks demo_lv_world true 11 demo_lv
           [Some (Le 0 2); Some (Le 0 3)] demo_lv_vg 5);
    [|vm_compute; reflexivity|vm_compute; reflexivity|vm_compute; discriminate
     |vm_compute; reflexivity|vm_compute; reflexivity|vm_compute; reflexivity].
  split_and!; [by apply NoDup_singleton|done| |vm_compute; reflexivity].
  intros q ->%list_elem_of_singleton. eexists. split; [vm_compute; reflexivity|].
  split_and!; [done|done| |done]. repeat constructor; lia.
Defined.

Lemma snapshot_map_dangles_witness :
  exists w' g' ok, lv_extend demo_lv_world true 11 demo_lv_vg 0 = Ok (w', g', ok) /\
    forall s, lv_map_sector w' demo_snap s = Crash UseAfterFree.
Proof.
  destruct (lv_extend demo_lv_world true 11 demo_lv_vg 0) as [[[w' g'] ok]|f] eqn:E;
    [|vm_compute in E; discriminate].
  exists w', g', ok. split; [reflexivity|].
  apply (snapshot_map_dangles demo_lv_world 11 12 demo_lv demo_snap demo_lv_vg 0 w' g' ok);
    [vm_compute; reflexivity..|vm_compute; lia|exact E].
Defined.

End witnesses.
