(* ===== verification/Raid.v ===== *)
(** * Software RAID ([demos/raid/raid.c])

    Stripe mapping of RAID 0, 1, 5 and 10, the RAID 5 and RAID 6 check bytes,
    and the degraded read of RAID 5.  Simulated disks hold no data: [disk_read]
    of a working disk only counts the access, so a read buffer keeps what it
    held, and the rebuild is stated for arbitrary buffer contents. *)
From Stdlib Require Import ZArith Lia String.
From stdpp Require Import base numbers list option.
From S2P Require Import Prelude.

Open Scope Z_scope.

Definition SECTOR_SIZE : Z := 512.
Definition MAX_DISKS : Z := 16.

(** ** Simulated disks *)

Record mock_disk := MockDisk {
  d_name : string;
  d_size : Z;
  faulty : bool;
  read_count : Z;
  write_count : Z
}.

Definition disk_create (name : string) (size : Z) : mock_disk :=
  {| d_name := String.substring 0 31 name; d_size := size; faulty := false;
     read_count := 0; write_count := 0 |}.

Definition disk_write (d : mock_disk) (sector : Z) (buf : list Z) (len : Z) : mock_disk :=
  if faulty d then d
  else {| d_name := d_name d; d_size := d_size d; faulty := faulty d;
          read_count := read_count d; write_count := write_count d + 1 |}.

(** [memset(buf, 0, len)] for the faulty disk, the buffer untouched otherwise. *)
Definition disk_read (d : mock_disk) (sector : Z) (buf : list Z) (len : Z) : mock_disk * list Z :=
  if faulty d then (d, replicate (Z.to_nat len) 0 ++ drop (Z.to_nat len) buf)
  else ({| d_name := d_name d; d_size := d_size d; faulty := faulty d;
           read_count := read_count d + 1; write_count := write_count d |}, buf).

Definition disk_set_faulty (d : mock_disk) : mock_disk :=
  {| d_name := d_name d; d_size := d_size d; faulty := true;
     read_count := read_count d; write_count := write_count d |}.

(** ** The array *)

Record raid := Raid {
  level : Z;
  data_disks : Z;
  total_disks : Z;
  chunk_sectors : Z;
  r_size : Z;
  disks : list (option mock_disk);      (* disks[MAX_DISKS], None is NULL *)
  spare : option mock_disk;
  degraded : bool
}.

(** ** Check bytes *)

(** [for (j = 0; j < n; j++) acc = f(acc, data[j][i], j)] *)
Fixpoint col_loop {A} (f : A -> Z -> Z -> A) (data : list (list Z)) (i : Z) (n : nat) (j : Z) (acc : A)
    : exec A :=
  match n with
  | O => Ok acc
  | S n' => row ← arr_get data j; b ← arr_get row i; col_loop f data i n' (j + 1) (f acc b j)
  end.

(** [for (i = 0; i < stripe_len; i++) parity[i] = p] over [raid5]'s inner loop. *)
Fixpoint parity_loop (data : list (list Z)) (n : Z) (k : nat) (i : Z) (parity : list Z)
    : exec (list Z) :=
  match k with
  | O => Ok parity
  | S k' =>
    p ← col_loop (fun p b _ => Z.lxor p b) data i (Z.to_nat n) 0 0;
    parity' ← arr_set parity i p;
    parity_loop data n k' (i + 1) parity'
  end.

Definition raid5_calc_parity (parity : list Z) (data : list (list Z)) (n stripe_len : Z)
    : exec (list Z) :=
  parity_loop data n (Z.to_nat stripe_len) 0 parity.

(** The loop of [raid6_calc_double_parity]; [qq ^= data[j][i] * (n - j)] is an
    [int] product truncated to a byte. *)
Fixpoint double_parity_loop (data : list (list Z)) (n : Z) (k : nat) (i : Z) (p q : list Z)
    : exec (list Z * list Z) :=
  match k with
  | O => Ok (p, q)
  | S k' =>
    '(pp, qq) ← col_loop (fun '(pp, qq) b j => (Z.lxor pp b, u8 (Z.lxor qq (b * (n - j)))))
                  data i (Z.to_nat n) 0 (0, 0);
    p' ← arr_set p i pp;
    q' ← arr_set q i qq;
    double_parity_loop data n k' (i + 1) p' q'
  end.

Definition raid6_calc_double_parity (p q : list Z) (data : list (list Z)) (n stripe_len : Z)
    : exec (list Z * list Z) :=
  double_parity_loop data n (Z.to_nat stripe_len) 0 p q.

(** ** Stripe mapping: (disk, sector on the disk) *)

Definition raid0_map (r : raid) (sector : Z) : exec (Z * Z) :=
  if (chunk_sectors r =? 0) || (data_disks r =? 0) then Crash DivideByZero
  else
    let stripe := sector / chunk_sectors r in
    Ok (s32 (stripe mod u64 (data_disks r)),
        u64 (u64 (stripe / u64 (data_disks r) * chunk_sectors r) + sector mod chunk_sectors r)).

Definition raid1_map (r : raid) (sector : Z) : Z * Z := (0, sector).

(** (disk, sector on the disk, is parity) *)
Definition raid5_map (r : raid) (sector : Z) : exec (Z * Z * Z) :=
  if (chunk_sectors r =? 0) || (data_disks r =? 0) || (data_disks r + 1 =? 0) then Crash DivideByZero
  else
    let stripe := sector / chunk_sectors r in
    let data_in_stripe := s32 (sector mod chunk_sectors r) in
    let p_disk := s32 (u64 (stripe + stripe mod u64 (data_disks r)) mod u64 (data_disks r + 1)) in
    let out_sector := u64 (u64 (stripe / u64 (data_disks r + 1) * chunk_sectors r) + u64 data_in_stripe) in
    if p_disk =? data_disks r then Ok (data_disks r, out_sector, 1)
    else Ok (p_disk, out_sector, 0).

Definition raid10_map (r : raid) (sector : Z) : exec (Z * Z) :=
  let pairs := data_disks r ÷ 2 in
  if (chunk_sectors r =? 0) || (pairs =? 0) then Crash DivideByZero
  else
    let stripe := sector / chunk_sectors r in
    let mirror_pair := s32 (stripe mod u64 pairs) in
    let chunk_in_stripe := s32 (sector mod chunk_sectors r) in
    Ok (mirror_pair * 2,
        u64 (u64 (stripe / u64 pairs * chunk_sectors r) + u64 chunk_in_stripe)).

(** ** Degraded read *)

(** The collection loop: [i] the disk index, [n] iterations left; [avail] disks
    have been read into [buffers[0 .. avail-1]]. *)
Fixpoint rebuild_collect (ds : list (option mock_disk)) (failed sector len : Z)
    (n : nat) (i avail : Z) (buffers : list (list Z))
    : exec (list (option mock_disk) * list (list Z) * Z) :=
  match n with
  | O => Ok (ds, buffers, avail)
  | S n' =>
    if i =? failed then rebuild_collect ds failed sector len n' (i + 1) avail buffers
    else
      od ← arr_get ds i;
      match od with
      | Some d =>
        if negb (faulty d) then
          buf ← arr_get buffers avail;
          let '(d', buf') := disk_read d sector buf len in
          ds' ← arr_set ds i (Some d');
          buffers' ← arr_set buffers avail buf';
          rebuild_collect ds' failed sector len n' (i + 1) (avail + 1) buffers'
        else rebuild_collect ds failed sector len n' (i + 1) avail buffers
      | None => rebuild_collect ds failed sector len n' (i + 1) avail buffers
      end
  end.

(** [for (j = 0; j < len; j++) result[j] ^= buffer[j]] *)
Fixpoint xor_into (len : nat) (result buffer : list Z) : exec (list Z) :=
  match len, result, buffer with
  | O, _, _ => Ok result
  | S len', x :: result', b :: buffer' =>
    rest ← xor_into len' result' buffer'; Ok (Z.lxor x b :: rest)
  | _, _, _ => Crash OutOfBounds
  end.

(** [for (i = 0; i < m; i++)] over the collected buffers. *)
Fixpoint xor_buffers (m : nat) (i : Z) (len : nat) (buffers : list (list Z)) (result : list Z)
    : exec (list Z) :=
  match m with
  | O => Ok result
  | S m' =>
    buf ← arr_get buffers i;
    result' ← xor_into len result buf;
    xor_buffers m' (i + 1) len buffers result'
  end.

(** [raid5_rebuild_stripe]; [buffers] is the uninitialised local array
    [buffers[MAX_DISKS][SECTOR_SIZE]]. *)
Definition raid5_rebuild_stripe (r : raid) (failed stripe_sector : Z)
    (rebuilt : list Z) (len : Z) (buffers : list (list Z)) : exec (raid * list Z) :=
  '(ds, bufs, available) ←
    rebuild_collect (disks r) failed stripe_sector len (Z.to_nat (data_disks r + 1)) 0 0 buffers;
  let r' := {| level := level r; data_disks := data_disks r; total_disks := total_disks r;
               chunk_sectors := chunk_sectors r; r_size := r_size r; disks := ds;
               spare := spare r; degraded := degraded r |} in
  if data_disks r <=? available then
    result ← xor_buffers (Z.to_nat (available - 1)) 0 (Z.to_nat len) bufs
               (replicate (Z.to_nat SECTOR_SIZE) 0);
    Ok (r', take (Z.to_nat len) result ++ drop (Z.to_nat len) rebuilt)
  else Ok (r', rebuilt).

(** ** Exclusive or over blocks *)

Definition xorl (l : list Z) : Z := foldr Z.lxor 0 l.

(** Byte [t] of every block. *)
Definition column (data : list (list Z)) (t : nat) : list Z :=
  (fun row => default 0 (row !! t)) <$> data.

Section xor.

Lemma lxor_swap a b c : Z.lxor a (Z.lxor b c) = Z.lxor b (Z.lxor a c).
Proof. by rewrite <- !Z.lxor_assoc, (Z.lxor_comm a b). Qed.

#[export] Instance xorl_proper : Proper ((≡ₚ) ==> (=)) xorl.
Proof.
  intros l k H. induction H as [|x l k _ IH|x y l|l1 l2 l3 _ IH1 _ IH2]; simpl; try congruence.
  apply lxor_swap.
Qed.

Lemma xorl_app l k : xorl (l ++ k) = Z.lxor (xorl l) (xorl k).
Proof. induction l as [|x l IH]; simpl; [done|]. by rewrite IH, Z.lxor_assoc. Qed.

Lemma lxor_cancel a b : Z.lxor (Z.lxor a b) b = a.
Proof. by rewrite Z.lxor_assoc, Z.lxor_nilpotent, Z.lxor_0_r. Qed.

(** Any one member of a list is the exclusive or of the rest and the total. *)
Lemma xorl_recover data k row t :
  data !! k = Some row ->
  default 0 (row !! t) = Z.lxor (xorl (column data t)) (xorl (column (delete k data) t)).
Proof.
  intros Hk. unfold column. set (f := fun row : list Z => default 0 (row !! t)).
  assert (f <$> data ≡ₚ f <$> (row :: delete k data)) as ->.
  { by apply fmap_Permutation, delete_Permutation. }
  simpl. by rewrite lxor_cancel.
Qed.

(** The inner loop of the parity computations. *)
Lemma col_loop_ok {A} (f : A -> Z -> Z -> A) pre rest i acc :
  0 <= i -> Forall (fun row : list Z => i < Z.of_nat (length row)) rest ->
  col_loop f (pre ++ rest) i (length rest) (Z.of_nat (length pre)) acc
  = Ok (foldl (fun a jb => f a jb.2 jb.1) acc
          (imap (fun k row => (Z.of_nat (length pre + k), default 0 (row !! Z.to_nat i))) rest)).
Proof.
  intros Hi. revert pre acc. induction rest as [|row rest IH]; intros pre acc Hall; [done|].
  apply Forall_cons_iff in Hall as [Hrow Hall]. simpl.
  rewrite (arr_get_ok _ _ row) by (lia || by rewrite Nat2Z.id, list_lookup_middle). simpl.
  destruct (arr_get_total row i) as (b & -> & Hb); [lia|]. simpl.
  specialize (IH (pre ++ [row]) (f acc b (Z.of_nat (length pre))) Hall).
  rewrite <- app_assoc in IH. simpl in IH. rewrite length_app in IH. simpl in IH.
  replace (Z.of_nat (length pre) + 1) with (Z.of_nat (length pre + 1)) by lia. rewrite IH.
  rewrite Hb, Nat.add_0_r. simpl. do 2 f_equal. apply imap_ext. intros k x _. unfold compose. f_equal. lia.
Qed.

Lemma foldl_xor acc (rest : list (list Z)) i k :
  foldl (fun a jb => Z.lxor a (snd jb)) acc
    (imap (fun k' row => (Z.of_nat (k + k'), default 0 (row !! i))) rest)
  = Z.lxor acc (xorl (column rest i)).
Proof.
  revert acc k. induction rest as [|row rest IH]; intros acc k; simpl; [by rewrite Z.lxor_0_r|].
  rewrite (imap_ext _ (fun k' row => (Z.of_nat (S k + k'), default 0 (row !! i)))).
  - by rewrite IH, Z.lxor_assoc.
  - intros j x _. unfold compose. f_equal. lia.
Qed.

Lemma parity_col data i :
  0 <= i -> Forall (fun row : list Z => i < Z.of_nat (length row)) data ->
  col_loop (fun p b _ => Z.lxor p b) data i (length data) 0 0 = Ok (xorl (column data (Z.to_nat i))).
Proof.
  intros Hi Hall. etransitivity; [exact (col_loop_ok (fun p b _ => Z.lxor p b) [] data i 0 Hi Hall)|].
  f_equal. exact (foldl_xor 0 data (Z.to_nat i) 0).
Qed.

(** Every byte position of the stripe gets the exclusive or of its column. *)
Lemma parity_loop_ok data k i parity :
  0 <= i -> i + Z.of_nat k <= Z.of_nat (length parity) ->
  Forall (fun row : list Z => i + Z.of_nat k <= Z.of_nat (length row)) data ->
  exists parity', parity_loop data (Z.of_nat (length data)) k i parity = Ok parity' /\
    length parity' = length parity /\
    forall t, parity' !! t = if decide (Z.to_nat i <= t < Z.to_nat i + k)%nat
                             then Some (xorl (column data t)) else parity !! t.
Proof.
  revert i parity. induction k as [|k IH]; intros i parity Hi Hlen Hall.
  { exists parity. split_and!; try done. intros t. case_decide; [lia|done]. }
  cbn [parity_loop]. rewrite Nat2Z.id, parity_col; [|done|].
  2: { eapply Forall_impl; [|exact Hall]. simpl. lia. }
  cbn [mbind exec_bind]. rewrite arr_set_ok by lia. cbn [mbind exec_bind].
  destruct (IH (i + 1) (<[Z.to_nat i:=xorl (column data (Z.to_nat i))]> parity))
    as (parity' & -> & Hlen' & Hp); [lia|rewrite length_insert; lia| |].
  { eapply Forall_impl; [|exact Hall]. simpl. lia. }
  exists parity'. rewrite length_insert in Hlen'. split_and!; try done.
  intros t. rewrite Hp. repeat case_decide; try lia; try done.
  - assert (t = Z.to_nat i) as -> by lia. apply list_lookup_insert_eq. lia.
  - apply list_lookup_insert_ne. lia.
Qed.

End xor.

(** ** The degraded read *)

(** Disk [i] is a working member other than the failed one. *)
Definition working (ds : list (option mock_disk)) (failed i : Z) : bool :=
  negb (i =? failed) &&
  match ds !! Z.to_nat i with Some (Some d) => negb (faulty d) | _ => false end.

(** Working disks among [i .. i+n-1]. *)
Fixpoint alive (ds : list (option mock_disk)) (failed : Z) (n : nat) (i : Z) : Z :=
  match n with
  | O => 0
  | S n' => (if working ds failed i then 1 else 0) + alive ds failed n' (i + 1)
  end.

Section rebuild.

Lemma alive_range ds failed n i : 0 <= alive ds failed n i <= Z.of_nat n.
Proof. revert i. induction n as [|n IH]; intros i; simpl; [lia|]. specialize (IH (i + 1)). destruct (working ds failed i); lia. Qed.

Lemma alive_insert ds failed n i j x :
  0 <= j < i -> alive (<[Z.to_nat j := x]> ds) failed n i = alive ds failed n i.
Proof.
  revert i. induction n as [|n IH]; intros i Hj; simpl; [done|].
  rewrite IH by lia. unfold working. by rewrite list_lookup_insert_ne by lia.
Qed.

(** Reading a working disk changes no buffer, so the collection loop only
    counts the working disks. *)
Lemma rebuild_collect_ok ds failed sector len n i avail buffers :
  0 <= i -> i + Z.of_nat n <= Z.of_nat (length ds) -> 0 <= avail ->
  avail + Z.of_nat n <= Z.of_nat (length buffers) ->
  exists ds', rebuild_collect ds failed sector len n i avail buffers
    = Ok (ds', buffers, avail + alive ds failed n i) /\ length ds' = length ds.
Proof.
  revert ds i avail. induction n as [|n IH]; intros ds i avail Hi Hds Ha Hb; simpl.
  { exists ds. by rewrite Z.add_0_r. }
  unfold working at 1. destruct (Z.eqb_spec i failed) as [Heq|Hne]; simpl.
  { rewrite Z.add_0_l. apply IH; lia. }
  destruct (arr_get_total ds i) as (od & -> & Hod); [lia|]. rewrite Hod. simpl.
  destruct od as [d|]; [|rewrite Z.add_0_l; apply IH; lia].
  destruct (faulty d) eqn:Hf; simpl; [rewrite Z.add_0_l; apply IH; lia|].
  destruct (arr_get_total buffers avail) as (buf & -> & Hbuf); [lia|]. simpl.
  unfold disk_read. rewrite Hf. simpl. rewrite arr_set_ok by lia. simpl.
  rewrite arr_set_ok, list_insert_id by (done || lia). simpl.
  destruct (IH (<[Z.to_nat i := Some (MockDisk (d_name d) (d_size d) false (read_count d + 1) (write_count d))]> ds)
              (i + 1) (avail + 1)) as (ds' & -> & Hlen); [lia|rewrite length_insert; lia|lia..|].
  exists ds'. rewrite length_insert in Hlen. split; [|done].
  rewrite alive_insert by lia. do 2 f_equal. lia.
Qed.

Lemma xor_into_ok len result buffer :
  (len <= length result)%nat -> (len <= length buffer)%nat ->
  exists r, xor_into len result buffer = Ok r /\ length r = length result /\
    forall t, (t < len)%nat -> r !! t = Some (Z.lxor (default 0 (result !! t)) (default 0 (buffer !! t))).
Proof.
  revert result buffer. induction len as [|len IH]; intros result buffer Hr Hb; simpl.
  { exists result. split_and!; try done. lia. }
  destruct result as [|x result], buffer as [|b buffer]; simpl in *; try lia.
  destruct (IH result buffer) as (r & -> & Hlen & Hbit); [lia..|]. simpl.
  exists (Z.lxor x b :: r). split; [done|]. split; [simpl; lia|].
  intros [|t] Ht; simpl; [done|]. apply Hbit. lia.
Qed.

Lemma xor_buffers_ok m i len buffers result :
  0 <= i -> i + Z.of_nat m <= Z.of_nat (length buffers) -> (len <= length result)%nat ->
  Forall (fun b : list Z => (len <= length b)%nat) buffers ->
  exists r, xor_buffers m i len buffers result = Ok r /\ length r = length result /\
    forall t, (t < len)%nat ->
      r !! t = Some (Z.lxor (default 0 (result !! t))
                       (xorl (column (take m (drop (Z.to_nat i) buffers)) t))).
Proof.
  revert i result. induction m as [|m IH]; intros i result Hi Hm Hr Hall; simpl.
  { exists result. split_and!; try done. intros t Ht. rewrite Z.lxor_0_r.
    destruct (lookup_lt_is_Some_2 result t) as [x Hx]; [lia|]. by rewrite Hx. }
  destruct (arr_get_total buffers i) as (buf & -> & Hbuf); [lia|]. simpl.
  pose proof (Forall_lookup_1 _ _ _ _ Hall Hbuf) as Hlenb. simpl in Hlenb.
  destruct (xor_into_ok len result buf) as (r1 & -> & Hlen1 & Hr1); [lia..|]. simpl.
  destruct (IH (i + 1) r1) as (r & -> & Hlen & Hbit); [lia..|done|].
  exists r. split; [done|]. split; [lia|]. intros t Ht. rewrite Hbit, (Hr1 t) by done.
  rewrite (drop_S buffers buf (Z.to_nat i)) by done. simpl.
  replace (Z.to_nat (i + 1)) with (S (Z.to_nat i)) by lia. by rewrite Z.lxor_assoc.
Qed.

End rebuild.

(** ** Theorems *)

Section theorems.

(** C23: the RAID 5 parity written by [raid5_calc_parity] recovers any one lost
    data block: each of its bytes is the exclusive or of the parity byte and
    the bytes of the surviving blocks. *)
Theorem raid5_parity_recovers parity data stripe_len :
  0 <= stripe_len <= Z.of_nat (length parity) ->
  Forall (fun row : list Z => stripe_len <= Z.of_nat (length row)) data ->
  exists parity', raid5_calc_parity parity data (Z.of_nat (length data)) stripe_len = Ok parity' /\
    forall k row t, data !! k = Some row -> Z.of_nat t < stripe_len ->
      row !! t = Some (Z.lxor (default 0 (parity' !! t)) (xorl (column (delete k data) t))).
Proof.
  intros Hlen Hall. unfold raid5_calc_parity.
  destruct (parity_loop_ok data (Z.to_nat stripe_len) 0 parity) as (parity' & -> & _ & Hp); [lia|lia| |].
  { eapply Forall_impl; [|exact Hall]. simpl. lia. }
  exists parity'. split; [done|]. intros k row t Hk Ht. rewrite Hp. case_decide; [|lia]. simpl.
  rewrite <- (xorl_recover data k row t) by done.
  pose proof (Forall_lookup_1 _ _ _ _ Hall Hk) as Hrow. simpl in Hrow.
  destruct (lookup_lt_is_Some_2 row t) as [x Hx]; [lia|]. by rewrite Hx.
Qed.

(** the degraded read leaves one block out of the exclusive or.  With one
    failed disk and the others working, and the read buffers holding the
    surviving blocks of a stripe (their exclusive or is the lost block), the
    returned byte is the lost byte exactly where the last surviving block has a
    zero byte. *)
Theorem raid5_rebuild_omits_last r failed sector rebuilt len buffers (lost : list Z) :
  0 < data_disks r -> data_disks r < MAX_DISKS -> length (disks r) = Z.to_nat MAX_DISKS ->
  alive (disks r) failed (Z.to_nat (data_disks r + 1)) 0 = data_disks r ->
  length buffers = Z.to_nat MAX_DISKS ->
  Forall (fun b : list Z => length b = Z.to_nat SECTOR_SIZE) buffers ->
  0 <= len <= SECTOR_SIZE ->
  (forall t, (t < Z.to_nat len)%nat ->
     lost !! t = Some (xorl (column (take (Z.to_nat (data_disks r)) buffers) t))) ->
  exists r' out, raid5_rebuild_stripe r failed sector rebuilt len buffers = Ok (r', out) /\
    forall t last, (t < Z.to_nat len)%nat ->
      buffers !! Z.to_nat (data_disks r - 1) = Some last ->
      (out !! t = lost !! t <-> last !! t = Some 0).
Proof.
  intros Hd0 Hd Hds Halive Hbl Hall Hlen Hlost. unfold raid5_rebuild_stripe.
  unfold MAX_DISKS, SECTOR_SIZE in *.
  destruct (rebuild_collect_ok (disks r) failed sector len (Z.to_nat (data_disks r + 1)) 0 0 buffers)
    as (ds' & -> & _); [lia..|]. cbn [mbind exec_bind]. rewrite Z.add_0_l, Halive, Z.leb_refl.
  destruct (xor_buffers_ok (Z.to_nat (data_disks r - 1)) 0 (Z.to_nat len) buffers (replicate 512 0))
    as (res & Hx & Hres & Hbit); [lia|lia|rewrite length_replicate; lia| |].
  { eapply Forall_impl; [|exact Hall]. simpl. lia. }
  change (Z.to_nat 512) with 512%nat. rewrite Hx. cbn [mbind exec_bind].
  do 2 eexists. split; [done|]. intros t last Ht Hlast.
  rewrite length_replicate in Hres. pose proof (Hbit t Ht) as Hb.
  rewrite lookup_app_l by (rewrite length_take; lia). rewrite lookup_take_lt by lia.
  rewrite Hb, Hlost by done. rewrite (lookup_replicate_2 512 0 t) by lia. simpl. rewrite Z.lxor_0_l, drop_0.
  replace (Z.to_nat (data_disks r)) with (S (Z.to_nat (data_disks r - 1))) by lia.
  rewrite (take_S_r _ _ _ Hlast). unfold column. rewrite fmap_app, xorl_app. simpl. rewrite Z.lxor_0_r.
  pose proof (Forall_lookup_1 _ _ _ _ Hall Hlast) as Hll. simpl in Hll.
  destruct (lookup_lt_is_Some_2 last t) as [b Hbt]; [lia|]. rewrite Hbt. simpl.
  split; intros [= H].
  - f_equal. apply (f_equal (Z.lxor (xorl ((fun row => default 0 (row !! t)) <$> take (Z.to_nat (data_disks r - 1)) buffers)))) in H.
    rewrite Z.lxor_nilpotent, <- Z.lxor_assoc, Z.lxor_nilpotent, Z.lxor_0_l in H. done.
  - by rewrite H, Z.lxor_0_r.
Qed.

(** Configurations whose divisors are positive and whose disk count is an [int]. *)
Definition raid_cfg (r : raid) : Prop :=
  0 < chunk_sectors r < 2 ^ 31 /\ 0 < data_disks r < 2 ^ 31 - 1.

Lemma divmod_split a b c : 0 <= b < c -> (a * c + b) / c = a /\ (a * c + b) mod c = b.
Proof.
  intros. split.
  - rewrite Z.div_add_l, Z.div_small by lia. lia.
  - by rewrite Z.add_comm, Z_mod_plus_full, Z.mod_small by lia.
Qed.

(** The striping arithmetic shared by RAID 0 and RAID 10: [n] columns, chunks of
    [c] sectors. *)
Lemma stripe_split s c n :
  0 <= s -> 0 < c -> 0 < n ->
  let d := s / c mod n in
  let o := s / c / n * c + s mod c in
  0 <= d < n /\ 0 <= o <= s /\ s = (o / c * n + d) * c + o mod c /\ 0 <= s / c / n * c.
Proof.
  intros Hs Hc Hn d o. subst d o.
  pose proof (Z.mod_pos_bound s c) as Hm. pose proof (Z.mod_pos_bound (s / c) n) as Hd.
  pose proof (Z.div_mod s c) as Hsd. pose proof (Z.div_mod (s / c) n) as Hqd.
  pose proof (Z.div_pos s c) as H1. pose proof (Z.div_pos (s / c) n) as H2.
  destruct (divmod_split (s / c / n) (s mod c) c) as [-> ->]; [lia|].
  assert (s / c / n <= s / c) by (apply Z.div_le_upper_bound; nia).
  split_and!; [lia..|nia|nia|lia|nia].
Qed.

Lemma stripe_join d o c n :
  0 <= o -> 0 < c -> 0 <= d < n ->
  let s := (o / c * n + d) * c + o mod c in
  s / c mod n = d /\ s / c / n * c + s mod c = o /\ 0 <= s.
Proof.
  intros Ho Hc Hd s. subst s. pose proof (Z.mod_pos_bound o c). pose proof (Z.div_pos o c).
  destruct (divmod_split (o / c * n + d) (o mod c) c) as [-> ->]; [lia|].
  destruct (divmod_split (o / c) d n) as [-> ->]; [lia|].
  pose proof (Z.div_mod o c). split_and!; try done; try lia; nia.
Qed.

Lemma raid0_map_eq r s :
  raid_cfg r -> 0 <= s < 2 ^ 64 ->
  raid0_map r s = Ok (s / chunk_sectors r mod data_disks r,
    s / chunk_sectors r / data_disks r * chunk_sectors r + s mod chunk_sectors r).
Proof.
  intros [Hc Hd] Hs. unfold raid0_map.
  rewrite (proj2 (Z.eqb_neq _ 0)), (proj2 (Z.eqb_neq (data_disks r) 0)) by lia. simpl.
  destruct (stripe_split s (chunk_sectors r) (data_disks r)) as (H1 & H2 & _ & H4); [lia..|].
  pose proof (Z.mod_pos_bound s (chunk_sectors r)).
  rewrite !(wrapu_small 64 (data_disks r)), s32_small by lia.
  rewrite (wrapu_small 64 (_ * _)) by lia. by rewrite wrapu_small by lia.
Qed.

(** RAID 0 striping is a bijection between logical sectors and
    (disk, sector) pairs: the mapped disk is a data disk, the logical sector is
    recovered from the pair, and every pair is the image of the sector so
    recovered. *)
Theorem raid0_map_bijective r :
  raid_cfg r ->
  let back d o := (o / chunk_sectors r * data_disks r + d) * chunk_sectors r + o mod chunk_sectors r in
  (forall s, 0 <= s < 2 ^ 64 ->
     exists d o, raid0_map r s = Ok (d, o) /\ 0 <= d < data_disks r /\ 0 <= o <= s /\ back d o = s) /\
  (forall d o, 0 <= d < data_disks r -> 0 <= o -> back d o < 2 ^ 64 ->
     raid0_map r (back d o) = Ok (d, o)).
Proof.
  intros Hcfg back. split.
  - intros s Hs. rewrite raid0_map_eq by done. destruct Hcfg as [Hc Hd].
    destruct (stripe_split s (chunk_sectors r) (data_disks r)) as (H1 & H2 & H3 & _); [lia..|].
    do 2 eexists. split; [done|]. split; [done|]. split; [done|]. symmetry. exact H3.
  - intros d o Hd Ho Hs. pose proof Hcfg as [Hc _].
    destruct (stripe_join d o (chunk_sectors r) (data_disks r)) as (H1 & H2 & H3); [lia..|].
    fold (back d o) in H1, H2, H3. rewrite raid0_map_eq by (done || lia). by rewrite H1, H2.
Qed.

(** RAID 10 striping reads the first disk of a mirror pair (an even disk
    index below the disk count) and never maps two logical sectors to one
    place. *)
Theorem raid10_map_injective r s1 s2 :
  raid_cfg r -> 2 <= data_disks r -> 0 <= s1 < 2 ^ 64 -> 0 <= s2 < 2 ^ 64 ->
  exists p1 o1 p2 o2, raid10_map r s1 = Ok (2 * p1, o1) /\ raid10_map r s2 = Ok (2 * p2, o2) /\
    0 <= 2 * p1 < data_disks r /\ ((p1, o1) = (p2, o2) -> s1 = s2).
Proof.
  intros [Hc Hd] H2 Hs1 Hs2. set (n := data_disks r / 2).
  assert (0 < n /\ 2 * n <= data_disks r) as [Hn Hnd].
  { subst n. split; [apply Z.div_str_pos; lia|]. apply Z.mul_div_le. lia. }
  assert (forall s, 0 <= s < 2 ^ 64 -> raid10_map r s
    = Ok (2 * (s / chunk_sectors r mod n), s / chunk_sectors r / n * chunk_sectors r + s mod chunk_sectors r)) as Heq.
  { intros s Hs. unfold raid10_map. rewrite Z.quot_div_nonneg by lia. fold n.
    rewrite (proj2 (Z.eqb_neq _ 0)), (proj2 (Z.eqb_neq n 0)) by lia. simpl.
    destruct (stripe_split s (chunk_sectors r) n) as (H1 & Ho & _ & H4); [lia..|].
    pose proof (Z.mod_pos_bound s (chunk_sectors r)).
    rewrite !(wrapu_small 64 n), !s32_small by lia.
    rewrite (wrapu_small 64 (_ * _)), (wrapu_small 64 (s mod _)), wrapu_small by lia.
    do 2 f_equal. lia. }
  rewrite !Heq by done. do 4 eexists. split; [done|]. split; [done|].
  destruct (stripe_split s1 (chunk_sectors r) n) as (H1 & _ & E1 & _); [lia..|].
  destruct (stripe_split s2 (chunk_sectors r) n) as (_ & _ & E2 & _); [lia..|].
  split; [lia|]. intros [= Hp Ho]. rewrite E1, E2, Hp, Ho. done.
Qed.

(** the RAID 5 map is not injective for any array of two or more data
    disks: two different logical sectors of the first rotation are sent to the
    same sector of the same disk. *)
Theorem raid5_map_collides r :
  raid_cfg r -> 2 <= data_disks r ->
  exists s1 s2 res, s1 <> s2 /\ 0 <= s1 /\ 0 <= s2 < chunk_sectors r * (data_disks r + 1) /\
    raid5_map r s1 = Ok res /\ raid5_map r s2 = Ok res.
Proof.
  intros [Hc Hd] H2. set (c := chunk_sectors r) in *. set (n := data_disks r) in *.
  assert (forall k p, 0 <= k <= n -> (k + k mod n) mod (n + 1) = p ->
    raid5_map r (k * c) = Ok (p, 0, if p =? n then 1 else 0)) as Hmap.
  { intros k p Hk Hp. unfold raid5_map. fold c n.
    rewrite !(proj2 (Z.eqb_neq _ 0)) by lia. simpl.
    destruct (divmod_split k 0 c) as [E1 E2]; [lia|]. rewrite Z.add_0_r in E1, E2. rewrite E1, E2.
    pose proof (Z.mod_pos_bound k n). pose proof (Z.mod_pos_bound (k + k mod n) (n + 1)).
    rewrite (wrapu_small 64 n), (wrapu_small 64 (n + 1)), (wrapu_small 64 (k + _)) by lia.
    rewrite Hp. change (s32 0) with 0. change (u64 0) with 0.
    rewrite (Z.div_small k (n + 1)), Z.mul_0_l, Z.add_0_r by lia. change (u64 (u64 0)) with 0.
    rewrite s32_small by lia. destruct (Z.eqb_spec p n) as [->|]; done. }
  pose proof (Z.div_mod n 2). pose proof (Z.mod_pos_bound n 2).
  destruct (decide (n mod 2 = 0)) as [He|Ho].
  - exists (n / 2 * c), (n * c), (n, 0, 1). split; [nia|]. split; [nia|]. split; [nia|].
    split; (rewrite (Hmap _ n); [by rewrite Z.eqb_refl|lia|]).
    + rewrite (Z.mod_small (n / 2)) by lia. rewrite Z.mod_small by lia. lia.
    + rewrite Z.mod_same, Z.add_0_r, Z.mod_small by lia. done.
  - exists (0 * c), ((n + 1) / 2 * c), (0, 0, 0).
    assert ((n + 1) / 2 = n / 2 + 1) as Hhalf.
    { replace (n + 1) with ((n / 2 + 1) * 2) by lia. apply Z.div_mul. lia. }
    rewrite Hhalf. split; [nia|]. split; [nia|]. split; [nia|].
    split; (rewrite (Hmap _ 0); [by rewrite (proj2 (Z.eqb_neq 0 n)) by lia|lia|]).
    + done.
    + rewrite (Z.mod_small (n / 2 + 1) n) by lia.
      replace (n / 2 + 1 + (n / 2 + 1)) with (1 * (n + 1)) by lia. apply Z.mod_mul. lia.
Qed.

(** the P block of [raid6_calc_double_parity] is the RAID 5 parity; the Q
    block does not make the pair a two-erasure code: two stripes of four data
    blocks that differ in two blocks can have the same P and the same Q. *)
Theorem raid6_two_erasures_ambiguous :
  exists data1 data2 p q, data1 <> data2 /\
    data1 !! 1%nat = data2 !! 1%nat /\ data1 !! 3%nat = data2 !! 3%nat /\
    raid6_calc_double_parity [0] [0] data1 4 1 = Ok (p, q) /\
    raid6_calc_double_parity [0] [0] data2 4 1 = Ok (p, q) /\
    raid5_calc_parity [0] data1 4 1 = Ok p.
Proof.
  exists [[0]; [170]; [0]; [18]], [[128]; [170]; [128]; [18]], [184], [236].
  repeat split; try done; vm_compute; congruence.
Qed.

(** ** Witnesses *)

Definition demo_r5 : raid :=
  {| level := 5; data_disks := 3; total_disks := 4; chunk_sectors := 128; r_size := 0;
     disks := [Some (disk_create "sda" 2000000); Some (disk_set_faulty (disk_create "sdb" 2000000));
               Some (disk_create "sdc" 2000000); Some (disk_create "sdd" 2000000)] ++ replicate 12 None;
     spare := None; degraded := false |}.

(** Blocks [1], [2] and parity [1 xor 4 xor 2] of a stripe whose lost block is [4]. *)
Definition demo_buffers : list (list Z) :=
  [replicate 512 1; replicate 512 2; replicate 512 7] ++ replicate 13 (replicate 512 0).

Lemma raid5_parity_recovers_witness :
  exists parity', raid5_calc_parity [0; 0] [[17; 34]; [170; 187]; [18; 52]] 3 2 = Ok parity' /\
    [170; 187] !! 1%nat = Some (Z.lxor (default 0 (parity' !! 1%nat))
                                 (xorl (column [[17; 34]; [18; 52]] 1))).
Proof.
  destruct (raid5_parity_recovers [0; 0] [[17; 34]; [170; 187]; [18; 52]] 2) as (parity' & H1 & H2);
    [simpl; lia|repeat (apply Forall_cons_2; [simpl; lia|]); apply Forall_nil_2|].
  exists parity'. split; [exact H1|]. apply (H2 1%nat); [reflexivity|lia].
Defined.

Lemma raid5_rebuild_omits_last_witness :
  exists r' out, raid5_rebuild_stripe demo_r5 1 0 (replicate 512 0) 512 demo_buffers = Ok (r', out) /\
    (out !! 0%nat = Some 4 <-> Some 7 = Some 0).
Proof.
  destruct (raid5_rebuild_omits_last demo_r5 1 0 (replicate 512 0) 512 demo_buffers (replicate 512 4))
    as (r' & out & H & Hout); [done|done|done|reflexivity|reflexivity| |done| |].
  - repeat constructor.
  - intros t Ht. change (Z.to_nat 512) with 512%nat in Ht.
    rewrite lookup_replicate_2 by exact Ht.
    change (take _ demo_buffers) with [replicate 512 1; replicate 512 2; replicate 512 7].
    unfold column. cbn [fmap list_fmap].
    rewrite (lookup_replicate_2 512 1 t), (lookup_replicate_2 512 2 t), (lookup_replicate_2 512 7 t)
      by exact Ht. reflexivity.
  - exists r', out. split; [exact H|]. apply (Hout 0%nat (replicate 512 7)); [|reflexivity].
    change (Z.to_nat 512) with 512%nat. lia.
Defined.

Lemma demo_r5_cfg : raid_cfg demo_r5.
Proof. split; simpl; lia. Qed.

Lemma raid0_map_bijective_witness : raid0_map demo_r5 1000 = Ok (1, 360) /\ raid0_map demo_r5 (((360 / 128) * 3 + 1) * 128 + 360 mod 128) = Ok (1, 360).
Proof.
  split; [reflexivity|].
  apply (proj2 (raid0_map_bijective demo_r5 demo_r5_cfg) 1 360); vm_compute; (split; congruence) || congruence || reflexivity.
Defined.

Lemma raid10_map_injective_witness :
  exists p1 o1 p2 o2, raid10_map demo_r5 5 = Ok (2 * p1, o1) /\ raid10_map demo_r5 6 = Ok (2 * p2, o2) /\
    0 <= 2 * p1 < 3 /\ ((p1, o1) = (p2, o2) -> 5 = 6).
Proof. apply (raid10_map_injective demo_r5 5 6); [exact demo_r5_cfg|simpl; lia|lia|lia]. Defined.

Lemma raid5_map_collides_witness :
  exists s1 s2 res, s1 <> s2 /\ 0 <= s1 /\ 0 <= s2 < 128 * (3 + 1) /\
    raid5_map demo_r5 s1 = Ok res /\ raid5_map demo_r5 s2 = Ok res.
Proof. apply (raid5_map_collides demo_r5); [exact demo_r5_cfg|simpl; lia]. Defined.

End theorems.
