(* ===== verification/NetAddr.v ===== *)
(** * IPv4 addresses as the network demos build and print them

    [demos/route/route.c] prints an address from its most significant byte,
    [demos/conntrack/conntrack.c], [demos/netfilter/netfilter.c] and
    [demos/iptables/iptables.c] from its least significant byte; all four build
    addresses as [(a<<24)|(b<<16)|(c<<8)|d]. *)
From Stdlib Require Import ZArith Lia String.
From stdpp Require Import base numbers list option pretty.
From S2P Require Import Prelude.

Open Scope Z_scope.

(** [(a<<24)|(b<<16)|(c<<8)|d] converted to [uint32_t]. *)
Definition mk_ip (a b c d : Z) : Z :=
  u32 (Z.lor (Z.lor (Z.lor (Z.shiftl a 24) (Z.shiftl b 16)) (Z.shiftl c 8)) d).

(** [(ip >> k) & 0xFF] *)
Definition ip_byte (ip k : Z) : Z := Z.land (Z.shiftr ip k) 255.

Definition dotted (a b c d : Z) : string :=
  (pretty a ++ "." ++ pretty b ++ "." ++ pretty c ++ "." ++ pretty d)%string.

(** [ip_str] of [route.c]. *)
Definition route_ip_str (ip : Z) : string :=
  dotted (ip_byte ip 24) (ip_byte ip 16) (ip_byte ip 8) (ip_byte ip 0).

(** [ip_str] of [conntrack.c], [netfilter.c] and [iptables.c]. *)
Definition low_ip_str (ip : Z) : string :=
  dotted (ip_byte ip 0) (ip_byte ip 8) (ip_byte ip 16) (ip_byte ip 24).

Section address.

Definition is_byte (z : Z) : Prop := 0 <= z < 256.

Lemma byte_high z i : is_byte z -> 8 <= i -> Z.testbit z i = false.
Proof.
  intros Hz Hi. rewrite <- (wrapu_small 8 z) by exact Hz. rewrite testbit_wrapu by lia.
  by destruct (Z.ltb_spec i 8); [lia|].
Qed.

Lemma shl_byte z k i : is_byte z -> 0 <= k -> 0 <= i ->
  Z.testbit (Z.shiftl z k) i = (k <=? i) && (i <? k + 8) && Z.testbit z (i - k).
Proof.
  intros Hz Hk Hi. rewrite Z.shiftl_spec by done.
  destruct (Z.leb_spec k i), (Z.ltb_spec i (k + 8)); simpl; try done.
  - apply byte_high; [done|lia].
  - by apply Z.testbit_neg_r; lia.
  - by apply Z.testbit_neg_r; lia.
Qed.

(** Each byte of a built address is read back. *)
Lemma ip_byte_mk a b c d :
  is_byte a -> is_byte b -> is_byte c -> is_byte d ->
  ip_byte (mk_ip a b c d) 24 = a /\ ip_byte (mk_ip a b c d) 16 = b /\
  ip_byte (mk_ip a b c d) 8 = c /\ ip_byte (mk_ip a b c d) 0 = d.
Proof.
  intros Ha Hb Hc Hd.
  assert (forall k, 0 <= k <= 24 -> forall i, 0 <= i ->
    Z.testbit (ip_byte (mk_ip a b c d) k) i
    = (i <? 8) && (Z.testbit (Z.shiftl a 24) (i + k) || Z.testbit (Z.shiftl b 16) (i + k)
                   || Z.testbit (Z.shiftl c 8) (i + k) || Z.testbit d (i + k))) as H.
  { intros k Hk i Hi. unfold ip_byte, mk_ip. change 255 with (Z.ones 8).
    rewrite Z.land_spec, Z.shiftr_spec, testbit_wrapu, !Z.lor_spec by lia.
    rewrite Z.testbit_ones_nonneg by lia.
    destruct (Z.ltb_spec i 8), (Z.ltb_spec (i + k) 32); try lia; simpl; by rewrite ?andb_true_r, ?andb_false_r. }
  repeat split; apply Z.bits_inj'; intros i Hi; rewrite H, !shl_byte by (done || lia);
    destruct (Z.ltb_spec i 8); simpl;
    repeat match goal with
    | |- context [?x <=? ?y] => destruct (Z.leb_spec x y); try lia
    | |- context [?x <? ?y] => destruct (Z.ltb_spec x y); try lia
    end; simpl; rewrite ?orb_false_r, ?orb_false_l;
    try (rewrite (byte_high d) by (done || lia)); rewrite ?orb_false_r; try (symmetry; by apply byte_high);
    f_equal; lia.
Qed.

(** Two demos print the four numbers of one address in opposite orders. *)
Lemma ip_str_orders a b c d :
  is_byte a -> is_byte b -> is_byte c -> is_byte d ->
  route_ip_str (mk_ip a b c d) = dotted a b c d /\
  low_ip_str (mk_ip a b c d) = dotted d c b a.
Proof.
  intros Ha Hb Hc Hd. destruct (ip_byte_mk a b c d) as (E1 & E2 & E3 & E4); [done..|].
  unfold route_ip_str, low_ip_str. by rewrite E1, E2, E3, E4.
Qed.

End address.
