(* ===== verification/Route.v ===== *)
(** * IPv4 route lookup ([demos/route/route.c])

    Longest-prefix match over the table, the routing decision built on it and
    the demo's concrete table. *)
From Stdlib Require Import ZArith Lia String.
From stdpp Require Import base numbers list option pretty.
From S2P Require Import Prelude NetAddr.

Open Scope Z_scope.

Record route_entry := RouteEntry {
  dst : Z;
  mask : Z;
  gw : Z;
  interface : Z;
  iface_name : string;
  metric : Z;
  comment : string
}.

Definition kernel_routes : list route_entry :=
  [ RouteEntry 0xC0A80100 0xFFFFFF00 0 0xC0A80101 "eth0:192.168.1.1" 0 "直连: 192.168.1.0/24（内网）";
    RouteEntry 0x0A000000 0xFF000000 0 0x0A00000A "eth1:10.0.0.10" 0 "直连: 10.0.0.0/8（办公网络）";
    RouteEntry 0 0 0xC0A80101 0xC0A80101 "eth0:192.168.1.1" 100 "默认路由 → 192.168.1.1（网关）" ].

Definition route_matches (route_dst route_mask target_ip : Z) : bool :=
  Z.land target_ip route_mask =? Z.land route_dst route_mask.

(** [while (m) { len += m & 1; m >>= 1; }]; a 32-bit [m] is zero after at most
    32 iterations, so 33 rounds of fuel always reach the exit test. *)
Fixpoint prefix_loop (fuel : nat) (m len : Z) : Z :=
  match fuel with
  | O => len
  | S fuel' => if m =? 0 then len else prefix_loop fuel' (Z.shiftr m 1) (len + Z.land m 1)
  end.
Definition prefix_len (mask : Z) : Z := prefix_loop 33 mask 0.

Record route_result := RouteResult { entry : option route_entry; match_len : Z }.

(** The loop over [kernel_routes[i]]. *)
Fixpoint lookup_loop (routes : list route_entry) (dst_ip : Z) (best : route_result) : route_result :=
  match routes with
  | [] => best
  | r :: rest =>
    lookup_loop rest dst_ip
      (if route_matches (dst r) (mask r) dst_ip then
         let ml := prefix_len (mask r) in
         if match_len best <? ml then {| entry := Some r; match_len := ml |} else best
       else best)
  end.

Definition lookup_route (routes : list route_entry) (dst_ip : Z) : route_result :=
  lookup_loop routes dst_ip {| entry := None; match_len := -1 |}.

Inductive route_action := RT_DELIVER | RT_FORWARD | RT_DROP | RT_LOCAL.

Record route_decision := RouteDecision {
  action : route_action;
  rd_route : option route_entry;
  next_hop : Z;
  reason : string
}.

Definition route_packet (routes : list route_entry) (src_ip dst_ip : Z) (is_local : bool)
    : route_decision :=
  if negb is_local then
    match entry (lookup_route routes dst_ip) with
    | None => {| action := RT_DROP; rd_route := None; next_hop := 0; reason := "无到目标网络的路由" |}
    | Some r =>
      if gw r =? 0
      then {| action := RT_DELIVER; rd_route := Some r; next_hop := dst_ip; reason := "直连网络，直接 ARP" |}
      else {| action := RT_FORWARD; rd_route := Some r; next_hop := gw r; reason := "非直连，走网关" |}
    end
  else
    match entry (lookup_route routes dst_ip) with
    | None => {| action := RT_LOCAL; rd_route := None; next_hop := 0; reason := "本机生成，查路由表决定出口" |}
    | Some r => {| action := RT_LOCAL; rd_route := Some r;
                   next_hop := if negb (gw r =? 0) then gw r else dst_ip;
                   reason := "本机生成，查路由表决定出口" |}
    end.

(** ** The demonstrations: what they print of the decision *)

Definition action_name (a : route_action) : string :=
  match a with RT_DELIVER => "直连交付" | RT_FORWARD => "转发" | RT_DROP => "丢弃" | RT_LOCAL => "本机生成" end.

Definition or_none (f : route_entry -> string) (r : option route_entry) : string :=
  match r with Some r => f r | None => "无" end.

(** Action, matched route, next hop, reason, interface. *)
Definition demo_local_delivery : list string :=
  let d := route_packet kernel_routes 0xC0A80101 (mk_ip 192 168 1 80) false in
  [action_name (action d); or_none comment (rd_route d); route_ip_str (next_hop d); reason d;
   or_none iface_name (rd_route d)].

(** The match and its gateway, then action, matched route, next hop, interface. *)
Definition demo_gateway_forward : list string :=
  let dst_ip := mk_ip 8 8 8 8 in
  let r := lookup_route kernel_routes dst_ip in
  let d := route_packet kernel_routes 0xC0A80101 dst_ip false in
  match entry r with
  | Some e => [(route_ip_str (dst e) ++ " (/" ++ pretty (match_len r) ++ ")")%string; route_ip_str (gw e)]
  | None => []
  end ++
  [action_name (action d); or_none comment (rd_route d); route_ip_str (next_hop d); or_none iface_name (rd_route d)].

Definition demo_no_route : list string :=
  let d := route_packet kernel_routes 0xC0A80101 (mk_ip 192 168 2 99) false in
  [action_name (action d); reason d].

Definition demo_local_generated : list string :=
  let d := route_packet kernel_routes 0xC0A80101 (mk_ip 8 8 8 8) true in
  [action_name (action d); or_none comment (rd_route d); or_none iface_name (rd_route d); route_ip_str (next_hop d)].

(** For each target: network, prefix length, gateway and interface, or nothing. *)
Definition demo_multi_network : list (option (string * Z * string * string)) :=
  (fun target =>
     let r := lookup_route kernel_routes target in
     (fun e => (route_ip_str (dst e), match_len r,
                (if negb (gw e =? 0) then route_ip_str (gw e) else "直连"%string), iface_name e)) <$> entry r)
  <$> [mk_ip 192 168 1 100; mk_ip 192 168 2 1; mk_ip 10 5 1 1; mk_ip 142 250 50 10].

(** ** Prefix lengths *)

Section prefix.

Lemma shiftr1_testbit m i : 0 <= i -> Z.testbit (Z.shiftr m 1) i = Z.testbit m (i + 1).
Proof. intros. by rewrite Z.shiftr_spec. Qed.

Lemma land1 m : Z.land m 1 = if Z.testbit m 0 then 1 else 0.
Proof.
  change 1 with (Z.ones 1). rewrite Z.land_ones by lia. change (2 ^ 1) with 2.
  rewrite <- Z.bit0_mod. by destruct (Z.testbit m 0).
Qed.

(** Counting a value's bits from the bottom. *)
Lemma countb_shift f n : countb f (S n) = (if f 0 then 1 else 0) + countb (fun i => f (i + 1)) n.
Proof.
  induction n as [|n IH]; [cbn [countb]; change (Z.of_nat 0) with 0; lia|].
  change (countb f (S (S n))) with (countb f (S n) + (if f (Z.of_nat (S n)) then 1 else 0)).
  rewrite IH. cbn [countb]. replace (Z.of_nat n + 1) with (Z.of_nat (S n)) by lia. lia.
Qed.

Lemma prefix_loop_count fuel n m len :
  0 <= m < 2 ^ Z.of_nat n -> (n < fuel)%nat ->
  prefix_loop fuel m len = len + countb (Z.testbit m) n.
Proof.
  revert n m len. induction fuel as [|fuel IH]; intros n m len Hm Hf; [lia|]. cbn [prefix_loop].
  destruct (Z.eqb_spec m 0) as [->|Hne].
  { rewrite (countb_ext _ (fun _ => false)) by (intros; apply Z.bits_0).
    induction n as [|n IHn]; simpl; [lia|]. rewrite Z.add_0_r. apply IHn; simpl; lia. }
  destruct n as [|n]; [simpl in Hm; lia|].
  assert (0 <= Z.shiftr m 1 < 2 ^ Z.of_nat n) as Hhalf.
  { rewrite Z.shiftr_div_pow2 by lia. change (2 ^ 1) with 2.
    replace (Z.of_nat (S n)) with (Z.of_nat n + 1) in Hm by lia. rewrite Z.pow_add_r in Hm by lia.
    split; [apply Z.div_pos; lia|apply Z.div_lt_upper_bound; lia]. }
  rewrite (IH n) by (done || lia).
  rewrite countb_shift, land1.
  rewrite (countb_ext (Z.testbit (Z.shiftr m 1)) (fun i => Z.testbit m (i + 1)))
    by (intros; apply shiftr1_testbit; lia). lia.
Qed.

(** The prefix length is the number of one bits of the mask. *)
Lemma prefix_len_popcount m : 0 <= m < 2 ^ 32 -> prefix_len m = countb (Z.testbit m) 32.
Proof. intros. unfold prefix_len. by rewrite (prefix_loop_count 33 32) by (done || lia). Qed.

Lemma prefix_len_nonneg m : 0 <= m < 2 ^ 32 -> 0 <= prefix_len m <= 32.
Proof. intros. rewrite prefix_len_popcount by done. pose proof (countb_range (Z.testbit m) 32). lia. Qed.

(** The contiguous mask of [n] leading ones. *)
Definition net_mask (n : Z) : Z := 2 ^ 32 - 2 ^ (32 - n).

Lemma net_mask_testbit n i :
  0 <= n <= 32 -> 0 <= i -> Z.testbit (net_mask n) i = (32 - n <=? i) && (i <? 32).
Proof.
  intros Hn Hi. unfold net_mask.
  replace (2 ^ 32 - 2 ^ (32 - n)) with (Z.shiftl (Z.ones n) (32 - n)).
  - destruct (Z.leb_spec (32 - n) i).
    + rewrite Z.shiftl_spec, Z.testbit_ones_nonneg by lia.
      destruct (Z.ltb_spec (i - (32 - n)) n), (Z.ltb_spec i 32); simpl; (done || lia).
    + rewrite Z.shiftl_spec by done. by apply Z.testbit_neg_r; lia.
  - rewrite Z.shiftl_mul_pow2, Z.ones_equiv by lia.
    replace 32 with (n + (32 - n)) at 2 by lia. rewrite Z.pow_add_r by lia. lia.
Qed.

Lemma net_mask_range n : 0 <= n <= 32 -> 0 <= net_mask n < 2 ^ 32.
Proof.
  intros. unfold net_mask. pose proof (Z.pow_le_mono_r 2 (32 - n) 32).
  pose proof (Z.pow_pos_nonneg 2 (32 - n)). lia.
Qed.

(** The loop counts the length of a contiguous mask. *)
Lemma prefix_len_net_mask n : 0 <= n <= 32 -> prefix_len (net_mask n) = n.
Proof.
  intros Hn. rewrite prefix_len_popcount by (by apply net_mask_range).
  rewrite (countb_ext _ (fun i => (32 - n <=? i) && (i <? 32))) by (intros; apply net_mask_testbit; lia).
  pose proof (countb_cut (fun _ => true) (fun i => negb ((0 <=? i) && (i <? 0 + (32 - n))) && true) 32 0 (32 - n)) as H.
  rewrite (countb_all (fun _ => true)) in H by done.
  rewrite (countb_ext _ (fun i => negb ((0 <=? i) && (i <? 0 + (32 - n))) && true)).
  - rewrite H by (done || lia). lia.
  - intros i Hi. destruct (Z.leb_spec (32 - n) i), (Z.ltb_spec i 32), (Z.leb_spec 0 i),
      (Z.ltb_spec i (0 + (32 - n))); simpl; (done || lia).
Qed.

Lemma net_mask_land n n' : 0 <= n' <= n -> n <= 32 -> Z.land (net_mask n) (net_mask n') = net_mask n'.
Proof.
  intros. apply Z.bits_inj'. intros i Hi. rewrite Z.land_spec, !net_mask_testbit by lia.
  destruct (Z.leb_spec (32 - n) i), (Z.leb_spec (32 - n') i), (Z.ltb_spec i 32); simpl; (done || lia).
Qed.

End prefix.

(** ** Lookup *)

Definition matches (r : route_entry) (ip : Z) : bool := route_matches (dst r) (mask r) ip.

(** [r] is the entry the loop keeps: it matches, no matching entry has a longer
    prefix, and entries before it that match have a shorter one. *)
Definition is_lpm (routes : list route_entry) (ip : Z) (r : route_entry) : Prop :=
  exists i, routes !! i = Some r /\ matches r ip = true /\
    (forall j r', routes !! j = Some r' -> matches r' ip = true ->
       prefix_len (mask r') <= prefix_len (mask r) /\
       ((j < i)%nat -> prefix_len (mask r') < prefix_len (mask r))).

Definition routes_wf (routes : list route_entry) : Prop :=
  Forall (fun r => 0 <= mask r < 2 ^ 32) routes.

Section lookup.

(** The state of the loop after the entries [pre]. *)
Definition best_inv (pre : list route_entry) (ip : Z) (best : route_result) : Prop :=
  match entry best with
  | None => match_len best = -1 /\ forall r, r ∈ pre -> matches r ip = false
  | Some r => match_len best = prefix_len (mask r) /\ is_lpm pre ip r
  end.

Lemma best_inv_step pre r ip best :
  0 <= mask r < 2 ^ 32 -> best_inv pre ip best ->
  best_inv (pre ++ [r]) ip
    (if route_matches (dst r) (mask r) ip then
       let ml := prefix_len (mask r) in
       if match_len best <? ml then {| entry := Some r; match_len := ml |} else best
     else best).
Proof.
  intros Hm Hinv. fold (matches r ip). pose proof (prefix_len_nonneg _ Hm) as Hl.
  assert (forall j r', (pre ++ [r]) !! j = Some r' ->
    (j < length pre)%nat /\ pre !! j = Some r' \/ j = length pre /\ r' = r) as Hsnoc.
  { intros j r' [Hj|[Hge Hj]]%lookup_app_Some; [left; split; [by eapply lookup_lt_Some|done]|].
    apply list_lookup_singleton_Some in Hj as [? ->]. right. split; [lia|done]. }
  destruct (matches r ip) eqn:Hr; simpl.
  - destruct (Z.ltb_spec (match_len best) (prefix_len (mask r))) as [Hlt|Hge].
    + unfold best_inv. simpl. split; [done|]. exists (length pre). split_and!.
      * by apply list_lookup_middle.
      * done.
      * intros j r' [[Hj Hl']|[-> ->]]%Hsnoc Hr'; [|split; lia].
        unfold best_inv in Hinv. destruct (entry best) as [b|].
        -- destruct Hinv as [Hml (i & Hi & _ & Hmax)]. destruct (Hmax j r' Hl' Hr'). split; [lia|]. lia.
        -- destruct Hinv as [_ Hno]. rewrite Hno in Hr'; [done|]. by eapply list_elem_of_lookup_2.
    + unfold best_inv in *. destruct (entry best) as [b|]; [|lia].
      destruct Hinv as [Hml (i & Hi & Hb & Hmax)]. split; [done|]. exists i. split_and!.
      * by apply lookup_app_l_Some.
      * done.
      * intros j r' [[Hj Hl']|[-> ->]]%Hsnoc Hr'; [by apply Hmax|].
        apply lookup_lt_Some in Hi. split; lia.
  - unfold best_inv in *. destruct (entry best) as [b|].
    + destruct Hinv as [Hml (i & Hi & Hb & Hmax)]. split; [done|]. exists i. split_and!.
      * by apply lookup_app_l_Some.
      * done.
      * intros j r' [[Hj Hl']|[-> ->]]%Hsnoc Hr'; [by apply Hmax|congruence].
    + destruct Hinv as [Hml Hno]. split; [done|].
      intros r' [Hin| ->%list_elem_of_singleton]%elem_of_app; [by apply Hno|done].
Qed.

Lemma lookup_loop_inv pre rest ip best :
  routes_wf rest -> best_inv pre ip best -> best_inv (pre ++ rest) ip (lookup_loop rest ip best).
Proof.
  revert pre best. induction rest as [|r rest IH]; intros pre best Hwf Hinv; simpl.
  { by rewrite app_nil_r. }
  apply Forall_cons_iff in Hwf as [Hr Hwf].
  rewrite (app_assoc pre [r] rest : pre ++ r :: rest = _). apply IH; [done|]. by apply best_inv_step.
Qed.

Lemma lookup_route_inv routes ip : routes_wf routes -> best_inv routes ip (lookup_route routes ip).
Proof.
  intros Hwf. apply (lookup_loop_inv [] routes ip); [done|]. split; [done|]. by intros r ?%elem_of_nil.
Qed.

(** C14: [lookup_route] implements longest-prefix match: it returns a matching
    entry with the greatest mask length, the first of those in table order
    (metrics are not consulted), and no entry exactly when none matches. *)
Theorem lookup_route_lpm routes ip :
  routes_wf routes ->
  match entry (lookup_route routes ip) with
  | Some r => is_lpm routes ip r /\ match_len (lookup_route routes ip) = prefix_len (mask r)
  | None => match_len (lookup_route routes ip) = -1 /\ forall r, r ∈ routes -> matches r ip = false
  end.
Proof.
  intros Hwf. pose proof (lookup_route_inv routes ip Hwf) as H. unfold best_inv in H.
  destruct (entry (lookup_route routes ip)); [|done]. by destruct H.
Qed.

(** with contiguous masks the entry returned is the most specific network:
    every address of its network belongs to the network of any other matching
    entry, and its [match_len] is the number of leading ones. *)
Theorem lookup_route_most_specific routes ip r r' n n' :
  routes_wf routes -> entry (lookup_route routes ip) = Some r ->
  r' ∈ routes -> matches r' ip = true ->
  0 <= n <= 32 -> mask r = net_mask n -> 0 <= n' <= 32 -> mask r' = net_mask n' ->
  match_len (lookup_route routes ip) = n /\
  forall x, matches r x = true -> matches r' x = true.
Proof.
  intros Hwf He Hin Hr' Hn Hm Hn' Hm'. pose proof (lookup_route_inv routes ip Hwf) as H.
  unfold best_inv in H. rewrite He in H. destruct H as [Hml (i & _ & Hr & Hmax)].
  apply list_elem_of_lookup in Hin as [j Hj]. destruct (Hmax j r' Hj Hr') as [Hle _].
  rewrite Hm, prefix_len_net_mask in Hml by done.
  rewrite Hm, Hm', !prefix_len_net_mask in Hle by done. split; [done|]. intros x Hx.
  unfold matches, route_matches in *. rewrite Hm in *. rewrite Hm' in *.
  apply Z.eqb_eq in Hx, Hr, Hr'. apply Z.eqb_eq. rewrite <- Hr'.
  rewrite <- (net_mask_land n n'), !Z.land_assoc by lia. by rewrite Hx, Hr.
Qed.

(** the decision on the demo's table, for every destination: addresses of
    192.168.1.0/24 and 10.0.0.0/8 are delivered directly, everything else is
    forwarded to the gateway 192.168.1.1; with the default route in the table
    no packet is ever dropped. *)
Theorem route_packet_kernel_routes src ip :
  let d := route_packet kernel_routes src ip false in
  (action d, next_hop d) =
    (if Z.land ip 0xFFFFFF00 =? 0xC0A80100 then (RT_DELIVER, ip)
     else if Z.land ip 0xFF000000 =? 0x0A000000 then (RT_DELIVER, ip)
     else (RT_FORWARD, 0xC0A80101)) /\ action d <> RT_DROP.
Proof.
  unfold route_packet, lookup_route, kernel_routes. cbn [negb lookup_loop dst mask].
  unfold route_matches. rewrite Z.land_0_r.
  change (Z.land 0xC0A80100 0xFFFFFF00) with 0xC0A80100.
  change (Z.land 0x0A000000 0xFF000000) with 0x0A000000. change (Z.land 0 0) with 0.
  change (prefix_len 0xFFFFFF00) with 24. change (prefix_len 0xFF000000) with 8.
  change (prefix_len 0) with 0.
  destruct (Z.land ip 0xFFFFFF00 =? 0xC0A80100), (Z.land ip 0xFF000000 =? 0x0A000000); by split.
Qed.

(** The address of the demo's "no route" scenario, 192.168.2.99, is forwarded. *)
Example no_route_demo_forwards :
  action (route_packet kernel_routes 0xC0A80101 (mk_ip 192 168 2 99) false) = RT_FORWARD.
Proof. reflexivity. Qed.

Example demo_no_route_prints : demo_no_route = ["转发"; "非直连，走网关"]%string.
Proof. vm_compute. reflexivity. Qed.

Example demo_local_delivery_prints :
  demo_local_delivery = ["直连交付"; "直连: 192.168.1.0/24（内网）"; "192.168.1.80"; "直连网络，直接 ARP"; "eth0:192.168.1.1"]%string.
Proof. vm_compute. reflexivity. Qed.

Example demo_gateway_forward_prints :
  demo_gateway_forward = ["0.0.0.0 (/0)"; "192.168.1.1"; "转发"; "默认路由 → 192.168.1.1（网关）"; "192.168.1.1"; "eth0:192.168.1.1"]%string.
Proof. vm_compute. reflexivity. Qed.

Example demo_multi_network_prints :
  demo_multi_network =
    [Some ("192.168.1.0", 24, "直连", "eth0:192.168.1.1"); Some ("0.0.0.0", 0, "192.168.1.1", "eth0:192.168.1.1");
     Some ("10.0.0.0", 8, "直连", "eth1:10.0.0.10"); Some ("0.0.0.0", 0, "192.168.1.1", "eth0:192.168.1.1")]%string.
Proof. vm_compute. reflexivity. Qed.

(** ** Witnesses *)

Lemma kernel_routes_wf : routes_wf kernel_routes.
Proof. repeat (apply Forall_cons_2; [simpl; lia|]). apply Forall_nil_2. Qed.

Lemma lookup_route_lpm_witness :
  match entry (lookup_route kernel_routes (mk_ip 10 5 1 1)) with
  | Some r => is_lpm kernel_routes (mk_ip 10 5 1 1) r /\
              match_len (lookup_route kernel_routes (mk_ip 10 5 1 1)) = prefix_len (mask r)
  | None => match_len (lookup_route kernel_routes (mk_ip 10 5 1 1)) = -1 /\
            forall r, r ∈ kernel_routes -> matches r (mk_ip 10 5 1 1) = false
  end.
Proof. apply (lookup_route_lpm kernel_routes (mk_ip 10 5 1 1)). exact kernel_routes_wf. Defined.

Lemma lookup_route_most_specific_witness :
  match_len (lookup_route kernel_routes (mk_ip 192 168 1 80)) = 24 /\
  forall x, matches (RouteEntry 0xC0A80100 0xFFFFFF00 0 0xC0A80101 "eth0:192.168.1.1" 0
                       "直连: 192.168.1.0/24（内网）") x = true ->
            matches (RouteEntry 0 0 0xC0A80101 0xC0A80101 "eth0:192.168.1.1" 100
                       "默认路由 → 192.168.1.1（网关）") x = true.
Proof.
  apply (lookup_route_most_specific kernel_routes (mk_ip 192 168 1 80) _ _ 24 0);
    [exact kernel_routes_wf|reflexivity| |reflexivity|lia|reflexivity|lia|reflexivity].
  do 2 right. left.
Defined.

End lookup.
