(* ===== verification/Conntrack.v ===== *)
(** * Connection tracking ([demos/conntrack/conntrack.c])

    A hash table of connection entries chained per bucket, the TCP state
    machine driven by the segments seen in the two directions, and the state
    match of the firewall.  Entries are heap objects: [conn_create] returns the
    pointer that [tcp_step] and [conn_update_reply] later update, and the table
    sees the update. *)
From Stdlib Require Import ZArith Lia String.
From stdpp Require Import base numbers list option gmap relations.
From S2P Require Import Prelude NetAddr.

Open Scope Z_scope.

Definition TCP_SYN : Z := 0x02.
Definition TCP_ACK : Z := 0x10.
Definition TCP_FIN : Z := 0x01.
Definition TCP_RST : Z := 0x04.
Definition TCP_PSH : Z := 0x08.

(** [tcp_flags_str]; the static buffer is emptied first on every call. *)
Definition tcp_flags_str (f : Z) : string :=
  let add flag name := if Z.land f flag =? 0 then ""%string else name in
  let s := (add TCP_SYN "SYN " ++ add TCP_ACK "ACK " ++ add TCP_FIN "FIN " ++ add TCP_RST "RST "
            ++ add TCP_PSH "PSH ")%string in
  if bool_decide (s = ""%string) then "-"%string else s.

Inductive tcp_state :=
  | TCP_CLOSED | TCP_SYN_SENT | TCP_SYN_RECV | TCP_ESTABLISHED | TCP_FIN_WAIT | TCP_CLOSE_WAIT | TCP_LAST_ACK | TCP_TIME_WAIT.

(** The value of a constant of the enumeration. *)
Definition tcp_state_index (s : tcp_state) : nat :=
  match s with
  | TCP_CLOSED => 0 | TCP_SYN_SENT => 1 | TCP_SYN_RECV => 2 | TCP_ESTABLISHED => 3
  | TCP_FIN_WAIT => 4 | TCP_CLOSE_WAIT => 5 | TCP_LAST_ACK => 6 | TCP_TIME_WAIT => 7
  end.

(** The names of [tcp_state], indexed by that enumeration. *)
Definition tcp_state_names : list string :=
  ["CLOSED"; "SYN_SENT"; "SYN_RECV"; "ESTABLISHED"; "FIN_WAIT"; "CLOSE_WAIT"; "LAST_ACK"; "TIME_WAIT"]%string.

Inductive conn_type := CONN_TCP | CONN_UDP | CONN_ICMP.

Inductive conn_state :=
  | CT_TCP_SYN_SENT | CT_TCP_SYN_RECV | CT_TCP_ESTABLISHED | CT_TCP_FIN_WAIT
  | CT_TCP_CLOSE_WAIT | CT_TCP_LAST_ACK | CT_TCP_TIME_WAIT
  | CT_UDP_UNREPLIED | CT_UDP_REPLIED | CT_ICMP | CT_NONE.

#[export] Instance conn_state_eq_dec : EqDecision conn_state.
Proof. solve_decision. Defined.

(** Value of the enumerator. *)
Definition conn_state_index (s : conn_state) : nat :=
  match s with
  | CT_TCP_SYN_SENT => 0 | CT_TCP_SYN_RECV => 1 | CT_TCP_ESTABLISHED => 2 | CT_TCP_FIN_WAIT => 3
  | CT_TCP_CLOSE_WAIT => 4 | CT_TCP_LAST_ACK => 5 | CT_TCP_TIME_WAIT => 6
  | CT_UDP_UNREPLIED => 7 | CT_UDP_REPLIED => 8 | CT_ICMP => 9 | CT_NONE => 10
  end.

Definition conn_state_names : list string :=
  ["TCP_SYN_SENT"; "TCP_SYN_RECV"; "TCP_ESTABLISHED"; "TCP_FIN_WAIT"; "TCP_CLOSE_WAIT";
   "TCP_LAST_ACK"; "TCP_TIME_WAIT"; "UDP_UNREPLIED"; "UDP_REPLIED"; "ICMP"; "NONE"]%string.

Record conn_entry := ConnEntry {
  orig_src : Z; orig_dst : Z; orig_sport : Z; orig_dport : Z;
  protocol : Z;
  ctype : conn_type;
  state : conn_state;
  dir : Z;
  reply_src : Z; reply_dst : Z; reply_sport : Z; reply_dport : Z;
  timeout : Z
}.

Definition set_state (st : conn_state) (e : conn_entry) : conn_entry :=
  {| orig_src := orig_src e; orig_dst := orig_dst e; orig_sport := orig_sport e;
     orig_dport := orig_dport e; protocol := protocol e; ctype := ctype e; state := st;
     dir := dir e; reply_src := reply_src e; reply_dst := reply_dst e;
     reply_sport := reply_sport e; reply_dport := reply_dport e; timeout := timeout e |}.

Definition MAX_CONN : Z := 512.

(** The globals: entries on the heap, [conn_hash] (each bucket the chain of
    entry pointers), [conn_total]; [ct_next] is the next fresh address. *)
Record ct := Ct {
  ct_heap : gmap nat conn_entry;
  conn_hash : list (list nat);
  conn_total : Z;
  ct_next : nat
}.

Definition ct_init : ct :=
  {| ct_heap := ∅; conn_hash := replicate (Z.to_nat MAX_CONN) []; conn_total := 0; ct_next := 0 |}.

Definition conn_hash_key (s d sp dp proto : Z) : Z :=
  u32 (Z.lxor (Z.lxor (Z.lxor (Z.lxor s d) sp) dp) proto * 0x9e3779b1) mod MAX_CONN.

(** Exact five-tuple match, and the match of the reverse direction. *)
Definition orig_match (e : conn_entry) (s d sp dp proto : Z) : bool :=
  (orig_src e =? s) && (orig_dst e =? d) && (orig_sport e =? sp) && (orig_dport e =? dp)
  && (protocol e =? proto).
Definition reply_match (e : conn_entry) (s d sp dp proto : Z) : bool :=
  (orig_src e =? d) && (orig_dst e =? s) && (orig_sport e =? dp) && (orig_dport e =? sp)
  && (protocol e =? proto).

(** The walk over one chain: the entry found and [*is_reply]. *)
Fixpoint chain_lookup (h : gmap nat conn_entry) (chain : list nat) (s d sp dp proto : Z)
    : exec (option (nat * bool)) :=
  match chain with
  | [] => Ok None
  | p :: rest =>
    match h !! p with
    | None => Crash UseAfterFree
    | Some e =>
      if orig_match e s d sp dp proto then Ok (Some (p, false))
      else if reply_match e s d sp dp proto then Ok (Some (p, true))
      else chain_lookup h rest s d sp dp proto
    end
  end.

Definition conn_lookup (t : ct) (s d sp dp proto flags : Z) : exec (option (nat * bool)) :=
  chain ← arr_get (conn_hash t) (conn_hash_key s d sp dp proto);
  chain_lookup (ct_heap t) chain s d sp dp proto.

Definition conn_create (t : ct) (s d sp dp proto : Z) (ty : conn_type) (st : conn_state)
    : exec (ct * nat) :=
  let k := conn_hash_key s d sp dp proto in
  let e := {| orig_src := s; orig_dst := d; orig_sport := sp; orig_dport := dp;
              protocol := proto; ctype := ty; state := st; dir := 0;
              reply_src := d; reply_dst := s; reply_sport := dp; reply_dport := sp;
              timeout := 0 |} in
  chain ← arr_get (conn_hash t) k;
  hash' ← arr_set (conn_hash t) k (ct_next t :: chain);
  Ok ({| ct_heap := <[ct_next t := e]> (ct_heap t); conn_hash := hash';
         conn_total := conn_total t + 1; ct_next := S (ct_next t) |}, ct_next t).

(** Update of the entry behind a pointer. *)
Definition ct_update (t : ct) (p : nat) (f : conn_entry -> conn_entry) : exec ct :=
  match ct_heap t !! p with
  | None => Crash UseAfterFree
  | Some e => Ok {| ct_heap := <[p := f e]> (ct_heap t); conn_hash := conn_hash t;
                    conn_total := conn_total t; ct_next := ct_next t |}
  end.

Definition conn_update_reply (t : ct) (p : nat) (rs rd rsp rdp : Z) : exec ct :=
  ct_update t p (fun e =>
    {| orig_src := orig_src e; orig_dst := orig_dst e; orig_sport := orig_sport e;
       orig_dport := orig_dport e; protocol := protocol e; ctype := ctype e; state := state e;
       dir := dir e; reply_src := rs; reply_dst := rd; reply_sport := rsp; reply_dport := rdp;
       timeout := timeout e |}).

(** ** State matching *)

Definition match_state (e : option conn_entry) (is_reply : bool) : string :=
  match e with
  | None => "UNKNOWN"
  | Some e =>
    match state e with
    | CT_TCP_ESTABLISHED => "ESTABLISHED"
    | CT_UDP_REPLIED => "ESTABLISHED"
    | CT_TCP_SYN_SENT | CT_TCP_SYN_RECV => "RELATED"
    | _ => "NEW"
    end
  end.

Definition is_established (e : option conn_entry) : bool :=
  match e with
  | None => false
  | Some e => bool_decide (state e = CT_TCP_ESTABLISHED) || bool_decide (state e = CT_UDP_REPLIED)
  end.

(** ** TCP state machine *)

(** The new value of [e->state]. *)
Definition tcp_next (st : conn_state) (flags_in : Z) (is_reply : bool) : conn_state :=
  if negb is_reply then
    match st with
    | CT_TCP_SYN_SENT => if flags_in =? Z.lor TCP_SYN TCP_ACK then CT_TCP_SYN_RECV else st
    | CT_TCP_SYN_RECV => if flags_in =? TCP_ACK then CT_TCP_ESTABLISHED else st
    | CT_TCP_ESTABLISHED =>
      if flags_in =? TCP_FIN then CT_TCP_FIN_WAIT
      else if flags_in =? TCP_RST then CT_TCP_SYN_SENT else st
    | CT_TCP_FIN_WAIT => if flags_in =? TCP_ACK then CT_TCP_TIME_WAIT else st
    | CT_TCP_TIME_WAIT => st
    | _ => st
    end
  else
    match st with
    | CT_TCP_SYN_SENT =>
      if flags_in =? Z.lor TCP_SYN TCP_ACK then CT_TCP_SYN_RECV
      else if flags_in =? TCP_ACK then CT_TCP_ESTABLISHED else st
    | CT_TCP_SYN_RECV => if flags_in =? TCP_FIN then CT_TCP_CLOSE_WAIT else st
    | CT_TCP_ESTABLISHED => if flags_in =? TCP_FIN then CT_TCP_CLOSE_WAIT else st
    | CT_TCP_CLOSE_WAIT => if flags_in =? TCP_FIN then CT_TCP_LAST_ACK else st
    | _ => st
    end.

(** The line printed on a change: both names are read from [tcp_state_names]. *)
Definition tcp_step_print (old new : conn_state) : option (option string * option string) :=
  if bool_decide (old = new) then None
  else Some (tcp_state_names !! conn_state_index old, tcp_state_names !! conn_state_index new).

(** [tcp_step]: the table, the printed line, and [*dropped]. *)
Definition tcp_step (t : ct) (p : nat) (flags_in : Z) (is_reply : bool)
    : exec (ct * option (option string * option string) * bool) :=
  match ct_heap t !! p with
  | None => Crash UseAfterFree
  | Some e =>
    let st' := tcp_next (state e) flags_in is_reply in
    t' ← ct_update t p (set_state st');
    Ok (t', tcp_step_print (state e) st', false)
  end.

(** ** The demonstrations *)

(** [demo_tcp_handshake]: the table, the entry, and the two state matches that
    are printed. *)
Definition demo_tcp_handshake (t : ct) : exec (ct * nat * list string) :=
  let cli := mk_ip 192 168 1 50 in
  let srv := mk_ip 192 168 1 100 in
  '(t, e) ← conn_create t cli srv 12345 80 6 CONN_TCP CT_TCP_SYN_SENT;
  let m1 := match_state (ct_heap t !! e) false in
  '(t, _, _) ← tcp_step t e (Z.lor TCP_SYN TCP_ACK) false;
  '(t, _, _) ← tcp_step t e (Z.lor TCP_SYN TCP_ACK) true;
  '(t, _, _) ← tcp_step t e TCP_ACK false;
  let m2 := match_state (ct_heap t !! e) false in
  '(t, _, _) ← tcp_step t e (Z.lor TCP_PSH TCP_ACK) false;
  let m3 := match_state (ct_heap t !! e) false in
  '(t, _, _) ← tcp_step t e (Z.lor (Z.lor TCP_PSH TCP_ACK) TCP_FIN) true;
  '(t, _, _) ← tcp_step t e TCP_ACK false;
  '(t, _, _) ← tcp_step t e TCP_FIN false;
  '(t, _, _) ← tcp_step t e TCP_ACK true;
  '(t, _, _) ← tcp_step t e TCP_ACK false;
  Ok (t, e, [m1; m2; m3]).

Definition demo_udp_nat (t : ct) : exec (ct * nat * list string) :=
  let lan := mk_ip 192 168 1 50 in
  let pub := mk_ip 8 8 8 8 in
  '(t, e) ← conn_create t lan pub 33333 53 17 CONN_UDP CT_UDP_UNREPLIED;
  let m1 := match_state (ct_heap t !! e) false in
  t ← conn_update_reply t e pub lan 53 33333;
  t ← ct_update t e (set_state CT_UDP_REPLIED);
  let m2 := match_state (ct_heap t !! e) true in
  Ok (t, e, [m1; m2]).

(** [demo_icmp]: the result of the reply lookup is returned last. *)
Definition demo_icmp (t : ct) : exec (ct * nat * string * option (nat * bool)) :=
  let src := mk_ip 192 168 1 50 in
  let dst := mk_ip 192 168 1 100 in
  '(t, e) ← conn_create t src dst 0 0 1 CONN_ICMP CT_ICMP;
  let m1 := match_state (ct_heap t !! e) false in
  r ← conn_lookup t dst src 0 0 1 0;
  Ok (t, e, m1, r).

Definition demo_router_forward (t : ct) : exec (ct * nat) :=
  let lan := mk_ip 192 168 1 50 in
  let ext := mk_ip 142 250 50 10 in
  '(t, e) ← conn_create t lan ext 45678 443 6 CONN_TCP CT_TCP_SYN_SENT;
  t ← conn_update_reply t e ext lan 443 45678;
  t ← ct_update t e (set_state CT_TCP_ESTABLISHED);
  Ok (t, e).

(** ** The table *)

(** The hash of the tuple an entry was created with. *)
Definition entry_key (e : conn_entry) : Z :=
  conn_hash_key (orig_src e) (orig_dst e) (orig_sport e) (orig_dport e) (protocol e).

(** Entry [e] is in the table, at address [p]. *)
Definition tracked (t : ct) (p : nat) (e : conn_entry) : Prop :=
  ct_heap t !! p = Some e /\ exists k chain, conn_hash t !! k = Some chain /\ p ∈ chain.

Definition ct_wf (t : ct) : Prop :=
  length (conn_hash t) = Z.to_nat MAX_CONN /\
  (forall k chain p, conn_hash t !! k = Some chain -> p ∈ chain ->
     exists e, ct_heap t !! p = Some e /\ entry_key e = Z.of_nat k) /\
  (forall p, ct_next t <= p -> ct_heap t !! p = None)%nat /\
  conn_total t = sumZ ((fun c : list nat => Z.of_nat (length c)) <$> conn_hash t).

Section table.
Implicit Types (t : ct) (e : conn_entry).

Lemma key_range s d sp dp proto : 0 <= conn_hash_key s d sp dp proto < MAX_CONN.
Proof. apply Z.mod_pos_bound. done. Qed.

(** Both directions of a connection hash to the same bucket. *)
Lemma key_sym s d sp dp proto : conn_hash_key d s dp sp proto = conn_hash_key s d sp dp proto.
Proof.
  unfold conn_hash_key. do 3 f_equal.
  rewrite (Z.lxor_comm d s), !Z.lxor_assoc, (Z.lxor_comm dp), !Z.lxor_assoc. do 3 f_equal. apply Z.lxor_comm.
Qed.

Lemma orig_match_key e s d sp dp proto :
  orig_match e s d sp dp proto = true -> entry_key e = conn_hash_key s d sp dp proto.
Proof. unfold orig_match, entry_key. intros H. bool_hyps. congruence. Qed.

Lemma reply_match_key e s d sp dp proto :
  reply_match e s d sp dp proto = true -> entry_key e = conn_hash_key s d sp dp proto.
Proof. unfold reply_match, entry_key. intros H. bool_hyps. rewrite <- key_sym. congruence. Qed.

Lemma chain_lookup_spec h chain s d sp dp proto :
  (forall p, p ∈ chain -> exists e, h !! p = Some e) ->
  exists r, chain_lookup h chain s d sp dp proto = Ok r /\
  match r with
  | None => forall p e, p ∈ chain -> h !! p = Some e ->
              orig_match e s d sp dp proto = false /\ reply_match e s d sp dp proto = false
  | Some (p, rep) => p ∈ chain /\ exists e, h !! p = Some e /\
              (if (rep : bool) then reply_match e s d sp dp proto else orig_match e s d sp dp proto) = true
  end.
Proof.
  induction chain as [|p chain IH]; intros Hall; simpl.
  { exists None. split; [done|]. by intros p e ?%elem_of_nil. }
  destruct (Hall p) as [e He]; [left|]. rewrite He.
  destruct (orig_match e s d sp dp proto) eqn:Ho.
  { exists (Some (p, false)). split; [done|]. split; [left|eauto]. }
  destruct (reply_match e s d sp dp proto) eqn:Hr.
  { exists (Some (p, true)). split; [done|]. split; [left|eauto]. }
  destruct IH as (r & -> & Hres); [intros; apply Hall; by right|]. exists r. split; [done|].
  destruct r as [[q rep]|].
  - destruct Hres as [Hin ?]. split; [by right|done].
  - intros q e' [->|Hin]%elem_of_cons Hq; [by simplify_eq|by eapply Hres].
Qed.

(** The bucket a tuple hashes to. *)
Lemma bucket_get t s d sp dp proto :
  ct_wf t -> exists chain, arr_get (conn_hash t) (conn_hash_key s d sp dp proto) = Ok chain /\
    conn_hash t !! Z.to_nat (conn_hash_key s d sp dp proto) = Some chain.
Proof.
  intros (Hlen & _). apply arr_get_total. rewrite Hlen. pose proof (key_range s d sp dp proto).
  unfold MAX_CONN in *. lia.
Qed.

Lemma tracked_bucket t p e s d sp dp proto :
  ct_wf t -> tracked t p e -> entry_key e = conn_hash_key s d sp dp proto ->
  exists chain, conn_hash t !! Z.to_nat (conn_hash_key s d sp dp proto) = Some chain /\ p ∈ chain.
Proof.
  intros (_ & Hb & _) (Hp & k & chain & Hk & Hin) Hkey.
  destruct (Hb k chain p Hk Hin) as (e' & He' & Hk'). simplify_eq.
  exists chain. split; [|done]. by rewrite <- Hkey, Hk', Nat2Z.id.
Qed.

Lemma ct_wf_init : ct_wf ct_init.
Proof.
  split_and!.
  - apply length_replicate.
  - intros k chain p Hk Hin. apply lookup_replicate in Hk as [-> _]. by apply elem_of_nil in Hin.
  - intros p _. apply lookup_empty.
  - vm_compute. done.
Qed.

(** Updates that keep the tuple keep the table well formed. *)
Lemma ct_wf_update t t' p f :
  (forall e, entry_key (f e) = entry_key e) -> ct_update t p f = Ok t' -> ct_wf t -> ct_wf t'.
Proof.
  intros Hf Hu (Hlen & Hb & Hfresh & Htot). unfold ct_update in Hu.
  destruct (ct_heap t !! p) as [e|] eqn:Hp; simplify_eq/=. split_and!; simpl; try done.
  - intros k chain q Hk Hin. destruct (Hb k chain q Hk Hin) as (e' & He' & Hkey).
    destruct (decide (q = p)) as [->|Hne].
    + exists (f e). rewrite lookup_insert_eq. split; [done|]. simplify_eq. by rewrite Hf.
    + exists e'. by rewrite lookup_insert_ne.
  - intros q Hq. rewrite lookup_insert_ne; [by apply Hfresh|]. intros ->. by rewrite Hfresh in Hp.
Qed.

Lemma conn_create_ok t s d sp dp proto ty st :
  ct_wf t -> exists t' chain e, conn_create t s d sp dp proto ty st = Ok (t', ct_next t) /\
    ct_wf t' /\ ct_heap t' = <[ct_next t := e]> (ct_heap t) /\
    conn_hash t !! Z.to_nat (conn_hash_key s d sp dp proto) = Some chain /\
    conn_hash t' = <[Z.to_nat (conn_hash_key s d sp dp proto) := ct_next t :: chain]> (conn_hash t) /\
    (orig_src e, orig_dst e, orig_sport e, orig_dport e, protocol e) = (s, d, sp, dp, proto) /\
    state e = st /\ conn_total t' = conn_total t + 1.
Proof.
  intros Hwf. pose proof Hwf as (Hlen & Hb & Hfresh & Htot). unfold conn_create.
  destruct (bucket_get t s d sp dp proto Hwf) as (chain & -> & Hchain).
  pose proof (key_range s d sp dp proto) as Hr. set (k := conn_hash_key s d sp dp proto) in *.
  cbn [mbind exec_bind]. rewrite arr_set_ok by (unfold MAX_CONN in *; lia). cbn [mbind exec_bind].
  do 3 eexists. split; [done|]. simpl. split_and!; try done.
  split_and!; simpl.
  - by rewrite length_insert.
  - intros k' chain' p Hk' Hin. destruct (decide (k' = Z.to_nat k)) as [->|Hne].
    + rewrite list_lookup_insert_eq in Hk' by (unfold MAX_CONN in *; lia). simplify_eq.
      apply elem_of_cons in Hin as [->|Hin].
      * eexists. rewrite lookup_insert_eq. split; [done|]. unfold entry_key. simpl. fold k. lia.
      * destruct (Hb _ _ p Hchain Hin) as (e' & He' & Hkey). exists e'. split; [|done].
        rewrite lookup_insert_ne; [done|]. intros <-. by rewrite Hfresh in He'.
    + rewrite list_lookup_insert_ne in Hk' by done.
      destruct (Hb _ _ p Hk' Hin) as (e' & He' & Hkey). exists e'. split; [|done].
      rewrite lookup_insert_ne; [done|]. intros <-. by rewrite Hfresh in He'.
  - intros p Hp. rewrite lookup_insert_ne by lia. apply Hfresh. lia.
  - rewrite list_fmap_insert. rewrite (sumZ_insert _ _ (Z.of_nat (length chain))).
    + simpl. lia.
    + by rewrite list_lookup_fmap, Hchain.
Qed.

End table.

(** ** Theorems *)

(** What a program can do to the table. *)
Inductive ct_step : ct -> ct -> Prop :=
  | step_create t t' p s d sp dp proto ty st :
      conn_create t s d sp dp proto ty st = Ok (t', p) -> ct_step t t'
  | step_tcp t t' p flags rep line dropped :
      tcp_step t p flags rep = Ok (t', line, dropped) -> ct_step t t'
  | step_reply t t' p rs rd rsp rdp :
      conn_update_reply t p rs rd rsp rdp = Ok t' -> ct_step t t'
  | step_state t t' p st :
      ct_update t p (set_state st) = Ok t' -> ct_step t t'.

Section theorems.
Implicit Types (t : ct) (e : conn_entry).

(** C15: every table reachable from the empty one by any sequence of
    connection creations, TCP steps and reply updates is well formed: 512
    buckets, every chained pointer is a live entry whose tuple hashes to its
    bucket, and [conn_total] counts the chained entries. *)
Theorem conntrack_table_invariant t : rtc ct_step ct_init t -> ct_wf t.
Proof.
  apply (rtc_ind_r (fun t => ct_wf t)); [apply ct_wf_init|].
  intros t1 t2 _ Hstep Hwf. destruct Hstep as [t1 t2 p s d sp dp proto ty st H|t1 t2 p fl rep ln dr H|
    t1 t2 p rs rd rsp rdp H|t1 t2 p st H].
  - destruct (conn_create_ok t1 s d sp dp proto ty st Hwf) as (t' & _ & _ & Heq & Hwf' & _). congruence.
  - unfold tcp_step in H. destruct (ct_heap t1 !! p); [|done]. exec_inv. simplify_eq.
    by eapply ct_wf_update; [|done..].
  - by eapply ct_wf_update; [|done..].
  - by eapply ct_wf_update; [|done..].
Qed.

(** C16: [conn_lookup] is complete: it searches one bucket, and misses no entry
    of the whole table that matches the packet in either direction; what it
    returns is a tracked entry that matches in the direction reported. *)
Theorem conn_lookup_complete t s d sp dp proto flags :
  ct_wf t ->
  exists r, conn_lookup t s d sp dp proto flags = Ok r /\
  match r with
  | None => forall p e, tracked t p e ->
      orig_match e s d sp dp proto = false /\ reply_match e s d sp dp proto = false
  | Some (p, rep) => exists e, tracked t p e /\
      (if (rep : bool) then reply_match e s d sp dp proto else orig_match e s d sp dp proto) = true
  end.
Proof.
  intros Hwf. unfold conn_lookup. destruct (bucket_get t s d sp dp proto Hwf) as (chain & -> & Hchain).
  pose proof Hwf as (_ & Hb & _). cbn [mbind exec_bind].
  destruct (chain_lookup_spec (ct_heap t) chain s d sp dp proto) as (r & -> & Hr).
  { intros p Hp. destruct (Hb _ _ _ Hchain Hp) as (e & He & _). eauto. }
  exists r. split; [done|]. destruct r as [[p rep]|].
  - destruct Hr as (Hin & e & He & Hm). exists e. split; [|done]. split; [done|eauto].
  - intros p e Htr.
    assert (forall b, (b = true -> entry_key e = conn_hash_key s d sp dp proto) -> b = true ->
      orig_match e s d sp dp proto = false /\ reply_match e s d sp dp proto = false) as Hgo.
    { intros b Hkey Hb'. destruct (tracked_bucket t p e s d sp dp proto Hwf Htr (Hkey Hb')) as (c & Hc & Hin).
      simplify_eq. destruct Htr. by eapply Hr. }
    destruct (orig_match e s d sp dp proto) eqn:Ho.
    { by apply (Hgo (orig_match e s d sp dp proto) (orig_match_key e s d sp dp proto)) in Ho as [? _]. }
    destruct (reply_match e s d sp dp proto) eqn:Hrm; [|done].
    by apply (Hgo (reply_match e s d sp dp proto) (reply_match_key e s d sp dp proto)) in Hrm as [_ ?].
Qed.

(** an entry just created is found by a packet of its own tuple as the
    original direction and by a packet of the reversed tuple as a reply (as the
    original direction when the tuple equals its reverse), whatever older
    entries share the bucket. *)
Theorem conn_create_lookup t s d sp dp proto ty st f1 f2 :
  ct_wf t ->
  exists t' p, conn_create t s d sp dp proto ty st = Ok (t', p) /\
    conn_lookup t' s d sp dp proto f1 = Ok (Some (p, false)) /\
    conn_lookup t' d s dp sp proto f2 = Ok (Some (p, negb ((s =? d) && (sp =? dp)))).
Proof.
  intros Hwf. destruct (conn_create_ok t s d sp dp proto ty st Hwf)
    as (t' & chain & e & Hc & _ & Hheap & Hchain & Hhash & Htup & _). simplify_eq.
  exists t', (ct_next t). split; [done|].
  assert (conn_hash t' !! Z.to_nat (conn_hash_key (orig_src e) (orig_dst e) (orig_sport e) (orig_dport e) (protocol e))
    = Some (ct_next t :: chain)) as Hget.
  { rewrite Hhash. apply list_lookup_insert_eq. by eapply lookup_lt_Some. }
  pose proof (key_range (orig_src e) (orig_dst e) (orig_sport e) (orig_dport e) (protocol e)) as Hr.
  unfold conn_lookup. rewrite (key_sym (orig_src e)). rewrite !(arr_get_ok _ _ (ct_next t :: chain)) by first [exact Hget | unfold MAX_CONN in *; lia].
  cbn [mbind exec_bind chain_lookup]. rewrite Hheap, lookup_insert_eq.
  unfold orig_match, reply_match. rewrite !Z.eqb_refl. split; [done|]. simpl.
  rewrite (Z.eqb_sym (orig_dst e)), (Z.eqb_sym (orig_dport e)).
  by destruct (orig_src e =? orig_dst e), (orig_sport e =? orig_dport e).
Qed.

(** The state match of the firewall reports ESTABLISHED exactly for the entries
    [is_established] accepts. *)
Lemma match_state_established (e : option conn_entry) is_reply :
  match_state e is_reply = "ESTABLISHED"%string <-> is_established e = true.
Proof. destruct e as [e|]; simpl; [|done]. by destruct (state e). Qed.

(** ** The segment sequences that establish a connection

    Segments are (flags, is_reply) pairs.  The language is given by itself,
    without the states: the segments each phase ignores, the two ways a
    handshake completes, and the rounds a client's RST starts over. *)

Definition segment : Type := Z * bool.

(** Before the handshake: anything but a SYN-ACK, or a plain ACK of the server. *)
Definition idle (seg : segment) : Prop :=
  seg.1 <> Z.lor TCP_SYN TCP_ACK /\ (seg.1 = TCP_ACK -> seg.2 = false).

(** After the SYN-ACK: anything but the client's plain ACK or the server's FIN. *)
Definition pending (seg : segment) : Prop :=
  (seg.1 = TCP_ACK -> seg.2 = true) /\ (seg.1 = TCP_FIN -> seg.2 = false).

(** Once established: anything but a plain FIN, or a plain RST of the client. *)
Definition keeps_established (seg : segment) : Prop :=
  seg.1 <> TCP_FIN /\ (seg.1 = TCP_RST -> seg.2 = true).

Inductive handshake : list segment -> Prop :=
  | handshake_reply_ack quiet : Forall idle quiet -> handshake (quiet ++ [(TCP_ACK, true)])
  | handshake_three_way quiet dir waiting :
      Forall idle quiet -> Forall pending waiting ->
      handshake (quiet ++ (Z.lor TCP_SYN TCP_ACK, dir) :: waiting ++ [(TCP_ACK, false)]).

Inductive establishes : list segment -> Prop :=
  | establishes_once hs data :
      handshake hs -> Forall keeps_established data -> establishes (hs ++ data)
  | establishes_again hs data rest :
      handshake hs -> Forall keeps_established data -> establishes rest ->
      establishes (hs ++ data ++ (TCP_RST, false) :: rest).

(** The calls [tcp_step(p, flags, is_reply)] of a sequence, one after another. *)
Definition tcp_steps (t : ct) (p : nat) (segs : list segment) : exec ct :=
  foldl (fun mt seg => t ← mt; '(t, _, _) ← tcp_step t p seg.1 seg.2; Ok t) (Ok t) segs.

(** The state after a sequence of segments. *)
Definition tcp_run (st : conn_state) (segs : list segment) : conn_state :=
  foldl (fun st seg => tcp_next st seg.1 seg.2) st segs.

Lemma tcp_run_app st xs ys : tcp_run st (xs ++ ys) = tcp_run (tcp_run st xs) ys.
Proof. apply foldl_app. Qed.

(** Sequences of segments that leave a state alone. *)
Lemma run_ignored (P : segment -> Prop) st segs :
  (forall seg, P seg -> tcp_next st seg.1 seg.2 = st) -> Forall P segs -> tcp_run st segs = st.
Proof. intros HP. induction 1 as [|seg segs Hseg _ IH]; [done|]. simpl. by rewrite HP. Qed.

Ltac step_cases :=
  unfold tcp_next, idle, pending, keeps_established; simpl; repeat case_match; bool_hyps; subst.

Lemma idle_stays seg : tcp_next CT_TCP_SYN_SENT seg.1 seg.2 = CT_TCP_SYN_SENT <-> idle seg.
Proof. destruct seg as [f [|]]; step_cases; intuition congruence. Qed.

Lemma pending_stays seg : tcp_next CT_TCP_SYN_RECV seg.1 seg.2 = CT_TCP_SYN_RECV <-> pending seg.
Proof. destruct seg as [f [|]]; step_cases; intuition congruence. Qed.

Lemma established_stays seg :
  tcp_next CT_TCP_ESTABLISHED seg.1 seg.2 = CT_TCP_ESTABLISHED <-> keeps_established seg.
Proof. destruct seg as [f [|]]; step_cases; intuition congruence. Qed.

(** States a connection enters when it closes. *)
Definition closing (st : conn_state) : bool :=
  match st with CT_TCP_FIN_WAIT | CT_TCP_CLOSE_WAIT | CT_TCP_LAST_ACK | CT_TCP_TIME_WAIT => true | _ => false end.

Lemma closing_run st segs : closing st = true -> closing (tcp_run st segs) = true.
Proof.
  revert st. induction segs as [|[f rep] segs IH]; intros st Hst; [done|]. simpl. apply IH.
  unfold tcp_next. destruct rep, st; simpl in *; try done; by case_match.
Qed.

(** Where one segment leads from each phase of an open connection. *)
Lemma sent_next seg :
  idle seg \/ (seg.1 = Z.lor TCP_SYN TCP_ACK /\ tcp_next CT_TCP_SYN_SENT seg.1 seg.2 = CT_TCP_SYN_RECV) \/
  (seg = (TCP_ACK, true) /\ tcp_next CT_TCP_SYN_SENT seg.1 seg.2 = CT_TCP_ESTABLISHED).
Proof. destruct seg as [f [|]]; step_cases; intuition congruence. Qed.

Lemma recv_next seg :
  pending seg \/ (seg = (TCP_ACK, false) /\ tcp_next CT_TCP_SYN_RECV seg.1 seg.2 = CT_TCP_ESTABLISHED) \/
  closing (tcp_next CT_TCP_SYN_RECV seg.1 seg.2) = true.
Proof. destruct seg as [f [|]]; step_cases; intuition congruence. Qed.

Lemma established_next seg :
  keeps_established seg \/ (seg = (TCP_RST, false) /\ tcp_next CT_TCP_ESTABLISHED seg.1 seg.2 = CT_TCP_SYN_SENT) \/
  closing (tcp_next CT_TCP_ESTABLISHED seg.1 seg.2) = true.
Proof. destruct seg as [f [|]]; step_cases; intuition congruence. Qed.

Lemma closing_not_established st segs : closing st = true -> tcp_run st segs <> CT_TCP_ESTABLISHED.
Proof. intros Hc H. pose proof (closing_run st segs Hc) as Hr. by rewrite H in Hr. Qed.

Lemma handshake_run hs : handshake hs -> tcp_run CT_TCP_SYN_SENT hs = CT_TCP_ESTABLISHED.
Proof.
  intros [quiet Hq|quiet dir waiting Hq Hw]; rewrite tcp_run_app, (run_ignored idle CT_TCP_SYN_SENT quiet) by (done || (intros ??; by apply idle_stays)); [done|].
  change (tcp_run (tcp_next CT_TCP_SYN_SENT (Z.lor TCP_SYN TCP_ACK) dir) (waiting ++ [(TCP_ACK, false)]) = CT_TCP_ESTABLISHED).
  replace (tcp_next CT_TCP_SYN_SENT _ dir) with CT_TCP_SYN_RECV by (by destruct dir).
  by rewrite tcp_run_app, (run_ignored pending CT_TCP_SYN_RECV waiting) by (done || (intros ??; by apply pending_stays)).
Qed.

Lemma establishes_run segs : establishes segs -> tcp_run CT_TCP_SYN_SENT segs = CT_TCP_ESTABLISHED.
Proof.
  induction 1 as [hs data Hh Hd|hs data rest Hh Hd _ IH];
    rewrite !tcp_run_app, handshake_run, (run_ignored keeps_established CT_TCP_ESTABLISHED data) by (done || (intros ??; by apply established_stays)); [done|].
  exact IH.
Qed.

(** Read from any phase, with the segments of the phase so far put back. *)
Lemma run_establishes segs :
  (tcp_run CT_TCP_SYN_SENT segs = CT_TCP_ESTABLISHED -> forall quiet, Forall idle quiet -> establishes (quiet ++ segs)) /\
  (tcp_run CT_TCP_SYN_RECV segs = CT_TCP_ESTABLISHED -> forall quiet dir waiting, Forall idle quiet -> Forall pending waiting ->
    establishes (quiet ++ (Z.lor TCP_SYN TCP_ACK, dir) :: waiting ++ segs)) /\
  (tcp_run CT_TCP_ESTABLISHED segs = CT_TCP_ESTABLISHED -> forall hs data, handshake hs -> Forall keeps_established data ->
    establishes (hs ++ data ++ segs)).
Proof.
  induction segs as [|seg segs (IHs & IHr & IHe)].
  { split_and!; [done|done|]. intros _ hs data Hh Hd. rewrite app_nil_r. by constructor. }
  split_and!; cbn [tcp_run foldl]; fold (tcp_run (tcp_next CT_TCP_SYN_SENT seg.1 seg.2) segs)
    (tcp_run (tcp_next CT_TCP_SYN_RECV seg.1 seg.2) segs) (tcp_run (tcp_next CT_TCP_ESTABLISHED seg.1 seg.2) segs).
  - intros H quiet Hq. destruct (sent_next seg) as [Hi|[[Ef En]|[-> En]]].
    + rewrite (proj2 (idle_stays seg)) in H by done. rewrite cons_middle, app_assoc. apply IHs; [done|].
      apply Forall_app_2; [done|]. by constructor.
    + rewrite En in H. destruct seg as [f dir]. simpl in Ef. subst f. by apply (IHr H quiet dir []).
    + rewrite En in H. rewrite cons_middle, app_assoc. apply (IHe H (quiet ++ _) []); [by constructor|done].
  - intros H quiet dir waiting Hq Hw. destruct (recv_next seg) as [Hp|[[-> En]|Hc]].
    + rewrite (proj2 (pending_stays seg)) in H by done. rewrite (cons_middle seg), (app_assoc waiting).
      apply IHr; [done..|]. apply Forall_app_2; [done|]. by constructor.
    + rewrite En in H. rewrite (cons_middle (TCP_ACK, false)), (app_assoc waiting), app_comm_cons, app_assoc.
      apply (IHe H _ []); [by constructor|done].
    + by destruct (closing_not_established _ segs Hc).
  - intros H hs data Hh Hd. destruct (established_next seg) as [Hk|[[-> En]|Hc]].
    + rewrite (proj2 (established_stays seg)) in H by done. rewrite (cons_middle seg), (app_assoc data).
      apply IHe; [done..|]. apply Forall_app_2; [done|]. by constructor.
    + rewrite En in H. apply establishes_again; [done..|]. by apply (IHs H []).
    + by destruct (closing_not_established _ segs Hc).
Qed.

(** No segment makes a connection UDP. *)
Lemma tcp_run_udp st segs : tcp_run st segs = CT_UDP_REPLIED -> st = CT_UDP_REPLIED.
Proof.
  revert st. induction segs as [|[f rep] segs IH]; intros st H; [done|]. specialize (IH _ H). revert IH. simpl.
  unfold tcp_next. destruct rep, st; simpl; repeat case_match; congruence.
Qed.

Lemma tcp_run_established segs :
  bool_decide (tcp_run CT_TCP_SYN_SENT segs = CT_TCP_ESTABLISHED)
    || bool_decide (tcp_run CT_TCP_SYN_SENT segs = CT_UDP_REPLIED) = true ->
  tcp_run CT_TCP_SYN_SENT segs = CT_TCP_ESTABLISHED.
Proof.
  intros [H|H]%orb_true_iff; apply bool_decide_eq_true in H; [done|]. by apply tcp_run_udp in H.
Qed.

Lemma tcp_steps_run t p e segs :
  ct_heap t !! p = Some e ->
  exists t', tcp_steps t p segs = Ok t' /\ ct_heap t' = <[p := set_state (tcp_run (state e) segs) e]> (ct_heap t).
Proof.
  unfold tcp_steps. revert t e. induction segs as [|seg segs IH]; intros t e Hp.
  { exists t. split; [done|]. simpl. rewrite insert_id; [done|]. rewrite Hp. by destruct e. }
  cbn [foldl mbind exec_bind]. unfold tcp_step, ct_update at 2. rewrite Hp. cbn [mbind exec_bind].
  match goal with |- exists _, foldl _ (Ok ?u) _ = _ /\ _ =>
    destruct (IH u (set_state (tcp_next (state e) seg.1 seg.2) e)) as (t' & E & H') end; [apply lookup_insert_eq|].
  exists t'. split; [exact E|].
  rewrite H'. cbn [ct_heap state]. by rewrite insert_insert_eq.
Qed.

(** C27: a tracked TCP connection in SYN_SENT can take any sequence of
    [tcp_step] calls without a fault; only its own entry changes, in its state
    only; and it is matched as ESTABLISHED afterwards exactly when the sequence
    is in the language [establishes]: ignored segments, then either a plain ACK of
    the server, or a SYN-ACK of either side and later the client's plain ACK with
    no FIN of the server in between, then only segments other than a plain FIN,
    and a plain RST of the client, after which everything starts over.  Flags are
    compared for equality: a FIN that carries ACK or PSH closes nothing. *)
Theorem tcp_established_iff t p e segs :
  ct_heap t !! p = Some e -> state e = CT_TCP_SYN_SENT ->
  exists t' e', tcp_steps t p segs = Ok t' /\ ct_heap t' = <[p := e']> (ct_heap t) /\
    e' = set_state (state e') e /\ (is_established (Some e') = true <-> establishes segs).
Proof.
  intros Hp Hs. destruct (tcp_steps_run t p e segs Hp) as (t' & E & H'). rewrite Hs in H'.
  eexists t', _. split_and!; [exact E|exact H'|done|]. cbn [is_established set_state state].
  destruct (run_establishes segs) as [Hsent _]. pose proof (establishes_run segs) as Hrun. split.
  - intros H. assert (tcp_run CT_TCP_SYN_SENT segs = CT_TCP_ESTABLISHED) as Hr by (apply tcp_run_established; by rewrite H).
    by apply (Hsent Hr []).
  - intros H. by rewrite Hrun.
Qed.

(** closing is final: the entry of a connection that began to close is
    never matched as ESTABLISHED again, and [tcp_step] never sets [*dropped]. *)
Theorem tcp_closing_final t p e segs :
  ct_heap t !! p = Some e -> closing (state e) = true ->
  exists t', tcp_steps t p segs = Ok t' /\
    exists e', ct_heap t' !! p = Some e' /\ is_established (Some e') = false /\
      state e' = tcp_run (state e) segs.
Proof.
  intros Hp Hc. pose proof (closing_run (state e) segs Hc) as Hfin.
  destruct (tcp_steps_run t p e segs Hp) as (t' & E & H'). exists t'. split; [done|].
  eexists. split; [rewrite H'; apply lookup_insert_eq|]. cbn [is_established set_state state].
  by destruct (tcp_run _ _).
Qed.

End theorems.

(** ** Witnesses and examples *)

Definition demo_ip1 : Z := mk_ip 192 168 1 50.
Definition demo_ip2 : Z := mk_ip 192 168 1 100.

Lemma conntrack_table_invariant_witness :
  exists t', conn_create ct_init demo_ip1 demo_ip2 12345 80 6 CONN_TCP CT_TCP_SYN_SENT = Ok (t', 0%nat) /\ ct_wf t'.
Proof.
  eexists. split; [vm_compute; reflexivity|]. apply conntrack_table_invariant. apply rtc_once.
  apply (step_create _ _ 0 demo_ip1 demo_ip2 12345 80 6 CONN_TCP CT_TCP_SYN_SENT). vm_compute. reflexivity.
Defined.

Lemma conn_lookup_complete_witness :
  exists r, conn_lookup ct_init demo_ip1 demo_ip2 12345 80 6 TCP_SYN = Ok r /\
  match r with
  | None => forall p e, tracked ct_init p e ->
      orig_match e demo_ip1 demo_ip2 12345 80 6 = false /\ reply_match e demo_ip1 demo_ip2 12345 80 6 = false
  | Some (p, rep) => exists e, tracked ct_init p e /\
      (if (rep : bool) then reply_match e demo_ip1 demo_ip2 12345 80 6
       else orig_match e demo_ip1 demo_ip2 12345 80 6) = true
  end.
Proof. apply conn_lookup_complete. apply ct_wf_init. Defined.

Lemma conn_create_lookup_witness :
  exists t' p, conn_create ct_init demo_ip1 demo_ip2 12345 80 6 CONN_TCP CT_TCP_SYN_SENT = Ok (t', p) /\
    conn_lookup t' demo_ip1 demo_ip2 12345 80 6 TCP_SYN = Ok (Some (p, false)) /\
    conn_lookup t' demo_ip2 demo_ip1 80 12345 6 TCP_ACK = Ok (Some (p, true)).
Proof.
  exact (conn_create_lookup ct_init demo_ip1 demo_ip2 12345 80 6 CONN_TCP CT_TCP_SYN_SENT
           TCP_SYN TCP_ACK ct_wf_init).
Defined.

(** The entry of a connection whose client has sent its FIN. *)
Definition closing_entry : conn_entry :=
  {| orig_src := demo_ip1; orig_dst := demo_ip2; orig_sport := 12345; orig_dport := 80; protocol := 6;
     ctype := CONN_TCP; state := CT_TCP_FIN_WAIT; dir := 0; reply_src := demo_ip2; reply_dst := demo_ip1;
     reply_sport := 80; reply_dport := 12345; timeout := 0 |}.
Definition closing_table : ct :=
  {| ct_heap := {[ 0%nat := closing_entry ]}; conn_hash := conn_hash ct_init; conn_total := 0; ct_next := 1 |}.

Lemma tcp_closing_final_witness :
  exists t', tcp_steps closing_table 0 [(TCP_ACK, false)] = Ok t' /\
    exists e', ct_heap t' !! 0%nat = Some e' /\ is_established (Some e') = false /\
      state e' = CT_TCP_TIME_WAIT.
Proof. apply (tcp_closing_final closing_table 0 closing_entry [(TCP_ACK, false)]); reflexivity. Defined.

Definition opening_table : ct :=
  {| ct_heap := {[ 0%nat := set_state CT_TCP_SYN_SENT closing_entry ]}; conn_hash := conn_hash ct_init; conn_total := 0;
     ct_next := 1 |}.

(** The three-way handshake, a data segment, and a FIN that carries an ACK. *)
Lemma tcp_established_iff_witness :
  let segs := [(Z.lor TCP_SYN TCP_ACK, true); (TCP_ACK, false); (Z.lor TCP_PSH TCP_ACK, false); (Z.lor TCP_FIN TCP_ACK, true)] in
  establishes segs /\
  exists t' e', tcp_steps opening_table 0 segs = Ok t' /\ ct_heap t' = <[0%nat := e']> (ct_heap opening_table) /\
    e' = set_state (state e') (set_state CT_TCP_SYN_SENT closing_entry) /\
    (is_established (Some e') = true <-> establishes segs).
Proof.
  split; [|apply (tcp_established_iff opening_table 0 (set_state CT_TCP_SYN_SENT closing_entry)); reflexivity].
  apply (establishes_once [_; _] [_; _]); [|repeat constructor; done].
  apply (handshake_three_way [] true []); constructor.
Defined.

(** The demonstration closes through FIN_WAIT and TIME_WAIT; the segment it
    describes as taking the server to CLOSE_WAIT leaves the entry ESTABLISHED. *)
Example demo_tcp_handshake_runs :
  exists t e, demo_tcp_handshake ct_init = Ok (t, 0%nat, ["RELATED"; "ESTABLISHED"; "ESTABLISHED"]%string) /\
    ct_heap t !! 0%nat = Some e /\ state e = CT_TCP_TIME_WAIT.
Proof. eexists _, _. split; [vm_compute; reflexivity|]. split; reflexivity. Qed.

Example demo_all :
  exists t r, (t ← demo_tcp_handshake ct_init; t ← demo_udp_nat t.1.1;
    '(t, _, _, r) ← demo_icmp t.1.1; '(t, _) ← demo_router_forward t; Ok (t, r)) = Ok (t, r) /\
    conn_total t = 4 /\ r = Some (2%nat, true).
Proof. eexists _, _. split; [vm_compute; reflexivity|]. split; reflexivity. Qed.

(** A change from SYN_SENT to SYN_RECV is printed as CLOSED to SYN_SENT. *)
Example printed_names :
  tcp_step_print CT_TCP_SYN_SENT CT_TCP_SYN_RECV = Some (Some "CLOSED", Some "SYN_SENT")%string.
Proof. reflexivity. Qed.

(** No state of a connection is printed under the name of the [tcp_state] that
    corresponds to it; the last three have no name in that table. *)
Definition tcp_state_of (s : conn_state) : option tcp_state :=
  match s with
  | CT_TCP_SYN_SENT => Some TCP_SYN_SENT | CT_TCP_SYN_RECV => Some TCP_SYN_RECV | CT_TCP_ESTABLISHED => Some TCP_ESTABLISHED
  | CT_TCP_FIN_WAIT => Some TCP_FIN_WAIT | CT_TCP_CLOSE_WAIT => Some TCP_CLOSE_WAIT | CT_TCP_LAST_ACK => Some TCP_LAST_ACK
  | CT_TCP_TIME_WAIT => Some TCP_TIME_WAIT | _ => None
  end.

Lemma printed_names_wrong s t : tcp_state_of s = Some t ->
  tcp_state_names !! conn_state_index s <> tcp_state_names !! tcp_state_index t.
Proof. destruct s; intros [= <-]; done. Qed.

Example tcp_flags_printed :
  (tcp_flags_str (Z.lor TCP_SYN TCP_ACK), tcp_flags_str 0) = ("SYN ACK ", "-")%string.
Proof. reflexivity. Qed.
