(* ===== verification/Netfilter.v ===== *)
(** * Netfilter hooks ([demos/netfilter/netfilter.c])

    The rule table walked hook by hook, the connection table of accepted
    segments, the routing decision and the packet path.  The globals [rules],
    [conn_table] and [conn_count] are the state [nf]; the lines that
    [traverse_hooks] prints are returned as events. *)
From Stdlib Require Import ZArith Lia String.
From stdpp Require Import base numbers list option relations.
From S2P Require Import Prelude NetAddr.

Open Scope Z_scope.

Inductive nf_hook_stage := NF_PRE_ROUTING | NF_LOCAL_IN | NF_FORWARD | NF_LOCAL_OUT | NF_POST_ROUTING.

Definition stage_num (s : nf_hook_stage) : Z :=
  match s with
  | NF_PRE_ROUTING => 0 | NF_LOCAL_IN => 1 | NF_FORWARD => 2 | NF_LOCAL_OUT => 3 | NF_POST_ROUTING => 4
  end.

Definition NF_DROP : Z := 0.
Definition NF_ACCEPT : Z := 1.
Definition NF_STOLEN : Z := 2.
Definition NF_QUEUE : Z := 3.
Definition NF_REPEAT : Z := 4.
Definition NF_STOP : Z := 5.

Record packet := Packet {
  src_ip : Z; dst_ip : Z; protocol : Z; src_port : Z; dst_port : Z; flags : Z;
  indev : Z; outdev : Z; routed : bool; local : bool; dropped : bool
}.

Definition packet_create (src dst proto sport dport : Z) : packet :=
  {| src_ip := src; dst_ip := dst; protocol := proto; src_port := sport; dst_port := dport;
     flags := 0; indev := 1; outdev := 0; routed := false; local := false; dropped := false |}.

Definition set_flags (f : Z) (p : packet) : packet :=
  Packet (src_ip p) (dst_ip p) (protocol p) (src_port p) (dst_port p) f (indev p) (outdev p)
    (routed p) (local p) (dropped p).
Definition set_devs (i o : Z) (p : packet) : packet :=
  Packet (src_ip p) (dst_ip p) (protocol p) (src_port p) (dst_port p) (flags p) i o
    (routed p) (local p) (dropped p).
Definition set_dropped (b : bool) (p : packet) : packet :=
  Packet (src_ip p) (dst_ip p) (protocol p) (src_port p) (dst_port p) (flags p) (indev p) (outdev p)
    (routed p) (local p) b.

Definition PROTOCOL_TCP : Z := 6.
Definition PROTOCOL_UDP : Z := 17.
Definition PROTOCOL_ICMP : Z := 1.

Record rule := Rule {
  r_stage : nf_hook_stage; r_chain : string;
  r_protocol : Z; r_src_port : Z; r_dst_port : Z; r_src_ip : Z; r_dst_ip : Z;
  r_verdict : Z; r_comment : string; r_matches : Z
}.

Definition rules : list rule :=
  [ Rule NF_LOCAL_IN "INPUT" PROTOCOL_TCP 0 22 0 0 NF_ACCEPT "允许 SSH 入站" 0;
    Rule NF_LOCAL_IN "INPUT" PROTOCOL_TCP 0 80 0 0 NF_ACCEPT "允许 HTTP 入站" 0;
    Rule NF_LOCAL_IN "INPUT" PROTOCOL_TCP 0 443 0 0 NF_ACCEPT "允许 HTTPS 入站" 0;
    Rule NF_LOCAL_IN "INPUT" 0 0 0 0 0 NF_ACCEPT "允许已建立连接" 0;
    Rule NF_LOCAL_IN "INPUT" PROTOCOL_ICMP 0 0 0 0 NF_DROP "丢弃 ICMP" 0;
    Rule NF_LOCAL_IN "INPUT" 0 0 0 0 0 NF_DROP "默认拒绝 INPUT" 0;
    Rule NF_LOCAL_OUT "OUTPUT" 0 0 0 0 0 NF_ACCEPT "允许 OUTPUT" 0;
    Rule NF_FORWARD "FORWARD" 0 0 0 0 0 NF_DROP "默认丢弃 FORWARD" 0 ]%string.

Record conn_entry := ConnEntry {
  c_src_ip : Z; c_dst_ip : Z; c_src_port : Z; c_dst_port : Z; c_protocol : Z; c_established : bool
}.

Definition MAX_CONN : Z := 256.

Record nf := Nf { nf_rules : list rule; conn_table : list conn_entry; conn_count : Z }.

Definition nf_init : nf :=
  {| nf_rules := rules; conn_table := replicate 256 (ConnEntry 0 0 0 0 0 false); conn_count := 0 |}.

Definition conn_track_add (s : nf) (p : packet) : exec nf :=
  if conn_count s <? MAX_CONN then
    t ← arr_set (conn_table s) (conn_count s)
          (ConnEntry (src_ip p) (dst_ip p) (src_port p) (dst_port p) (protocol p) true);
    Ok {| nf_rules := nf_rules s; conn_table := t; conn_count := conn_count s + 1 |}
  else Ok s.

(** The test of one entry against the reversed tuple of the packet. *)
Definition conn_hit (c : conn_entry) (p : packet) : bool :=
  (c_src_ip c =? dst_ip p) && (c_dst_ip c =? src_ip p) && (c_src_port c =? dst_port p) &&
  (c_dst_port c =? src_port p) && (c_protocol c =? protocol p) && c_established c.

(** The loop of [conn_track_lookup] over [n] entries from [i]. *)
Fixpoint lookup_loop (t : list conn_entry) (p : packet) (i : Z) (n : nat) : exec bool :=
  match n with
  | O => Ok false
  | S n' => c ← arr_get t i; if conn_hit c p then Ok true else lookup_loop t p (i + 1) n'
  end.

Definition conn_track_lookup (s : nf) (p : packet) : exec bool :=
  lookup_loop (conn_table s) p 0 (Z.to_nat (conn_count s)).

Definition routing_decision (p : packet) : packet :=
  Packet (src_ip p) (dst_ip p) (protocol p) (src_port p) (dst_port p) (flags p) (indev p) (outdev p)
    true (100 <? Z.land (Z.shiftr (dst_ip p) 0) 255) (dropped p).

(** [strstr(s, sub) != NULL] *)
Definition strstr (s sub : string) : bool :=
  match String.index 0 sub s with Some _ => true | None => false end.

(** [if (x && x != y) continue;] lets the rule pass exactly on this test. *)
Definition wild (x y : Z) : bool := (x =? 0) || (x =? y).

(** None of the [continue]s of the inner loop is taken; the last one calls
    [conn_track_lookup]. *)
Definition rule_hit (s : nf) (stage : Z) (p : packet) (r : rule) : exec bool :=
  if negb (stage_num (r_stage r) =? stage) then Ok false
  else if negb (wild (r_protocol r) (protocol p)) then Ok false
  else if negb (wild (r_dst_port r) (dst_port p)) then Ok false
  else if negb (wild (r_src_port r) (src_port p)) then Ok false
  else if negb (wild (r_src_ip r) (src_ip p)) then Ok false
  else if negb (wild (r_dst_ip r) (dst_ip p)) then Ok false
  else if strstr (r_comment r) "已建立连接" then conn_track_lookup s p
  else Ok true.

Inductive event := Hook (stage : Z) | Hit (chain comment : string) (verdict : Z).

Definition bump (r : rule) : rule :=
  Rule (r_stage r) (r_chain r) (r_protocol r) (r_src_port r) (r_dst_port r) (r_src_ip r) (r_dst_ip r)
    (r_verdict r) (r_comment r) (r_matches r + 1).

(** The inner loop: the rules with the hit rule's counter bumped, and that rule. *)
Fixpoint scan_rules (s : nf) (stage : Z) (p : packet) (rs : list rule) : exec (option (list rule * rule)) :=
  match rs with
  | [] => Ok None
  | r :: rs' =>
    b ← rule_hit s stage p r;
    if b : bool then Ok (Some (bump r :: rs', r))
    else o ← scan_rules s stage p rs';
         Ok (match o with Some (rs'', h) => Some (r :: rs'', h) | None => None end)
  end.

(** The loop over the stage numbers. *)
Fixpoint stage_loop (s : nf) (p : packet) (stages : list Z) : exec (nf * Z * list event) :=
  match stages with
  | [] => Ok (s, NF_ACCEPT, [])
  | st :: stages' =>
    o ← scan_rules s st p (nf_rules s);
    match o with
    | Some (rs', h) =>
      Ok ({| nf_rules := rs'; conn_table := conn_table s; conn_count := conn_count s |}, r_verdict h,
          [Hook st; Hit (r_chain h) (r_comment h) (r_verdict h)])
    | None => '(s', v, ev) ← stage_loop s p stages'; Ok (s', v, Hook st :: ev)
    end
  end.

Definition traverse_hooks (s : nf) (p : packet) (first last : nf_hook_stage) : exec (nf * Z * list event) :=
  stage_loop s p (seqZ (stage_num first) (stage_num last - stage_num first + 1)).

Definition process_packet (s : nf) (p : packet) : exec (nf * packet) :=
  let p := if negb (routed p) then routing_decision p else p in
  if local p then
    '(s, v, _) ← traverse_hooks s p NF_PRE_ROUTING NF_LOCAL_IN;
    let p := set_dropped (v =? NF_DROP) p in
    if negb (dropped p) && (protocol p =? PROTOCOL_TCP) && negb (Z.land (flags p) 0x10 =? 0) then
      s ← conn_track_add s p; Ok (s, p)
    else Ok (s, p)
  else
    '(s, v, _) ← traverse_hooks s p NF_PRE_ROUTING NF_FORWARD;
    if v =? NF_ACCEPT then
      '(s, v2, _) ← traverse_hooks s p NF_POST_ROUTING NF_POST_ROUTING;
      Ok (s, set_dropped (v2 =? NF_DROP) p)
    else Ok (s, set_dropped (v =? NF_DROP) p).

(** The six scenarios of [main]: the final state and the [dropped] field of
    each scenario's packet as it is printed. *)
Definition main_scenarios (s : nf) : exec (nf * list bool) :=
  let local_ip := mk_ip 192 168 1 100 in
  let remote_ip := mk_ip 192 168 1 50 in
  let external_ip := mk_ip 8 8 8 8 in
  '(s, p1) ← process_packet s (set_flags 0x02 (packet_create remote_ip local_ip PROTOCOL_TCP 12345 80));
  '(s, p2) ← process_packet s (packet_create remote_ip local_ip PROTOCOL_ICMP 0 0);
  let p3 := packet_create local_ip external_ip PROTOCOL_UDP 53 53 in
  '(s, v3, _) ← traverse_hooks s p3 NF_LOCAL_OUT NF_LOCAL_OUT;
  '(s, p3) ← (if v3 =? NF_ACCEPT then
      '(s, v3b, _) ← traverse_hooks s p3 NF_POST_ROUTING NF_POST_ROUTING;
      Ok (s, set_dropped (v3b =? NF_DROP) p3)
    else Ok (s, p3));
  '(s, p4) ← process_packet s (set_flags 0x02 (packet_create remote_ip local_ip PROTOCOL_TCP 20000 22));
  '(s, p5a) ← process_packet s (set_flags 0x02 (packet_create remote_ip local_ip PROTOCOL_TCP 12345 80));
  '(s, p5b) ← process_packet s (set_flags 0x12 (packet_create local_ip remote_ip PROTOCOL_TCP 80 12345));
  let p5c := set_flags 0x10 (packet_create remote_ip local_ip PROTOCOL_TCP 12345 80) in
  s ← conn_track_add s p5a; s ← conn_track_add s p5b; s ← conn_track_add s p5c;
  let p5d := routing_decision (set_flags 0x10 (packet_create local_ip remote_ip PROTOCOL_TCP 80 12345)) in
  '(s, v5, _) ← traverse_hooks s p5d NF_LOCAL_OUT NF_LOCAL_OUT;
  let p6 := routing_decision (set_devs 2 3 (packet_create remote_ip external_ip PROTOCOL_TCP 40000 443)) in
  '(s, v6, _) ← traverse_hooks s p6 NF_PRE_ROUTING NF_FORWARD;
  s ← (if v6 =? NF_ACCEPT then
      '(s, _, _) ← traverse_hooks s p6 NF_POST_ROUTING NF_POST_ROUTING; Ok s
    else Ok s);
  Ok (s, [dropped p1; dropped p2; dropped p3; dropped p4; dropped p5d; dropped p6]).

(** ** Reference semantics *)

(** The recorded connections the packet replies to. *)
Definition tracked (s : nf) (p : packet) : bool :=
  existsb (fun c => conn_hit c p) (take (Z.to_nat (conn_count s)) (conn_table s)).

(** Rule [r] applies to [p] at hook [stage]. *)
Definition applies (s : nf) (stage : Z) (p : packet) (r : rule) : bool :=
  (stage_num (r_stage r) =? stage) && wild (r_protocol r) (protocol p) && wild (r_dst_port r) (dst_port p) &&
  wild (r_src_port r) (src_port p) && wild (r_src_ip r) (src_ip p) && wild (r_dst_ip r) (dst_ip p) &&
  (negb (strstr (r_comment r) "已建立连接") || tracked s p).

Definition table_wf (s : nf) : Prop :=
  length (conn_table s) = 256%nat /\ 0 <= conn_count s <= MAX_CONN.

(** The rule without its counter. *)
Definition erase (r : rule) : rule :=
  Rule (r_stage r) (r_chain r) (r_protocol r) (r_src_port r) (r_dst_port r) (r_src_ip r) (r_dst_ip r)
    (r_verdict r) (r_comment r) 0.

(** The invariant of the program: the table is within bounds, the rules are
    those of the source up to their counters, and the FORWARD rule was never
    hit. *)
Definition nf_wf (s : nf) : Prop :=
  table_wf s /\ erase <$> nf_rules s = rules /\ r_matches <$> (nf_rules s !! 7%nat) = Some 0.

(** What the rule table amounts to. *)
Definition allowed (s : nf) (p : packet) : bool :=
  (protocol p =? PROTOCOL_TCP) && ((dst_port p =? 22) || (dst_port p =? 80) || (dst_port p =? 443)) ||
  tracked s p.

Section rules.
Implicit Types (s : nf) (p : packet).

Lemma lookup_loop_spec t p i n :
  0 <= i -> (Z.to_nat i + n <= length t)%nat ->
  lookup_loop t p i n = Ok (existsb (fun c => conn_hit c p) (take n (drop (Z.to_nat i) t))).
Proof.
  revert i. induction n as [|n IH]; intros i Hi Hn; simpl; [done|].
  destruct (arr_get_total t i) as (c & -> & Hc); [lia|]. cbn [mbind exec_bind].
  erewrite drop_S by exact Hc. simpl. destruct (conn_hit c p); [done|].
  rewrite IH by lia. by replace (Z.to_nat (i + 1)) with (S (Z.to_nat i)) by lia.
Qed.

Lemma conn_track_lookup_spec s p : table_wf s -> conn_track_lookup s p = Ok (tracked s p).
Proof.
  intros [Hlen Hc]. unfold conn_track_lookup, MAX_CONN in *. rewrite lookup_loop_spec by lia. done.
Qed.

Lemma rule_hit_spec s stage p r : table_wf s -> rule_hit s stage p r = Ok (applies s stage p r).
Proof.
  intros Hwf. unfold rule_hit, applies. rewrite conn_track_lookup_spec by done.
  destruct (stage_num (r_stage r) =? stage), (wild (r_protocol r) _), (wild (r_dst_port r) _),
    (wild (r_src_port r) _), (wild (r_src_ip r) _), (wild (r_dst_ip r) _); simpl; try done.
  by destruct (strstr _ _).
Qed.

(** The first rule of a list that applies at a hook. *)
Definition first_rule s stage p (rs : list rule) : option (nat * rule) :=
  list_find (fun r => applies s stage p r = true) rs.

Lemma scan_rules_spec s stage p rs :
  table_wf s ->
  scan_rules s stage p rs = Ok ((fun '(i, r) => (<[i := bump r]> rs, r)) <$> first_rule s stage p rs).
Proof.
  intros Hwf. induction rs as [|r rs IH]; [done|]. simpl. rewrite rule_hit_spec by done.
  cbn [mbind exec_bind]. rewrite IH. unfold first_rule. simpl.
  destruct (applies s stage p r) eqn:E; [by rewrite decide_True|].
  rewrite decide_False by done. cbn [mbind exec_bind].
  destruct (list_find _ rs) as [[i h]|]; simpl; done.
Qed.

Lemma stage_loop_total s p stages :
  table_wf s ->
  exists s' v ev, stage_loop s p stages = Ok (s', v, ev) /\
    conn_table s' = conn_table s /\ conn_count s' = conn_count s /\
    ((v = NF_ACCEPT /\ s' = s /\ Forall (fun st => first_rule s st p (nf_rules s) = None) stages) \/
     (exists pre st post i r, stages = pre ++ st :: post /\
        Forall (fun st => first_rule s st p (nf_rules s) = None) pre /\
        first_rule s st p (nf_rules s) = Some (i, r) /\
        v = r_verdict r /\ nf_rules s' = <[i := bump r]> (nf_rules s))).
Proof.
  intros Hwf. induction stages as [|st stages IH]; simpl.
  { exists s, NF_ACCEPT, []. split_and!; try done. left. split_and!; [done..|constructor]. }
  rewrite scan_rules_spec by done. cbn [mbind exec_bind].
  destruct (first_rule s st p (nf_rules s)) as [[i r]|] eqn:E; simpl.
  { do 3 eexists. split_and!; [done..|]. right. exists [], st, stages, i, r.
    split_and!; [done|constructor|done..]. }
  destruct IH as (s' & v & ev & -> & Ht & Hc & Hcase). cbn [mbind exec_bind].
  do 3 eexists. split_and!; [done..|]. destruct Hcase as [(-> & -> & Hall)|(pre & st' & post & i & r & -> & Hpre & Hrest)].
  - left. split_and!; [done..|]. by constructor.
  - right. exists (st :: pre), st', post, i, r. split_and!; [done|by constructor|apply Hrest..].
Qed.

Lemma applies_erase s st p r : applies s st p (erase r) = applies s st p r.
Proof. done. Qed.

Lemma first_rule_erase s st p rs i r :
  first_rule s st p rs = Some (i, r) -> first_rule s st p (erase <$> rs) = Some (i, erase r).
Proof.
  unfold first_rule. rewrite list_find_fmap. intros H.
  by rewrite (list_find_ext _ (fun r => applies s st p r = true)), H.
Qed.

Lemma first_rule_erase_None s st p rs :
  first_rule s st p rs = None -> first_rule s st p (erase <$> rs) = None.
Proof.
  unfold first_rule. rewrite list_find_fmap. intros H.
  by rewrite (list_find_ext _ (fun r => applies s st p r = true)), H.
Qed.

(** The rules of the source, hook by hook. *)
Lemma rules_other s st p : st = 0 \/ st = 4 -> first_rule s st p rules = None.
Proof. intros [-> | ->]; reflexivity. Qed.

Lemma rules_input s p :
  exists i r, first_rule s 1 p rules = Some (i, r) /\ (i < 6)%nat /\
    r_verdict r = if allowed s p then NF_ACCEPT else NF_DROP.
Proof.
  unfold first_rule, allowed, rules. cbn [list_find]. unfold applies, wild.
  cbn [r_stage r_protocol r_src_port r_dst_port r_src_ip r_dst_ip r_comment stage_num].
  repeat match goal with |- context [strstr ?a ?b] =>
    let v := eval vm_compute in (strstr a b) in change (strstr a b) with v end.
  rewrite (Z.eqb_sym PROTOCOL_TCP (protocol p)), (Z.eqb_sym PROTOCOL_ICMP (protocol p)),
    (Z.eqb_sym 22 (dst_port p)), (Z.eqb_sym 80 (dst_port p)), (Z.eqb_sym 443 (dst_port p)).
  destruct (protocol p =? PROTOCOL_TCP), (dst_port p =? 22), (dst_port p =? 80), (dst_port p =? 443),
    (tracked s p), (protocol p =? PROTOCOL_ICMP); eexists _, _; (split; [reflexivity|]); (split; [vm_compute; lia|reflexivity]).
Qed.

(** Bumping a rule other than the FORWARD rule keeps the invariant. *)
Lemma nf_wf_bump s s' i r :
  nf_wf s -> nf_rules s !! i = Some r -> (i < 6)%nat ->
  conn_table s' = conn_table s -> conn_count s' = conn_count s ->
  nf_rules s' = <[i := bump r]> (nf_rules s) -> nf_wf s'.
Proof.
  intros ([Hlen Hc] & Her & Hfwd) Hr Hi Ht Hcount Hrules. split; [|split].
  - by split; [rewrite Ht|rewrite Hcount].
  - rewrite Hrules, list_fmap_insert. change (erase (bump r)) with (erase r). rewrite <- Her.
    apply list_insert_id. by rewrite list_lookup_fmap, Hr.
  - by rewrite Hrules, list_lookup_insert_ne by lia.
Qed.

(** Both the INPUT traversal and the FORWARD traversal end at a LOCAL_IN rule. *)
Lemma traverse_input s p last :
  nf_wf s -> last = NF_LOCAL_IN \/ last = NF_FORWARD ->
  exists s' ev, traverse_hooks s p NF_PRE_ROUTING last
      = Ok (s', if allowed s p then NF_ACCEPT else NF_DROP, ev) /\
    nf_wf s' /\ conn_table s' = conn_table s /\ conn_count s' = conn_count s.
Proof.
  intros Hwf Hlast. pose proof Hwf as (Htab & Her & _).
  assert (exists post, seqZ (stage_num NF_PRE_ROUTING) (stage_num last - stage_num NF_PRE_ROUTING + 1)
    = 0 :: 1 :: post) as [post Hst] by (destruct Hlast as [-> | ->]; eexists; reflexivity).
  unfold traverse_hooks. rewrite Hst.
  assert (forall st, first_rule s st p (nf_rules s) = None -> first_rule s st p rules = None) as Hnone.
  { intros st H. rewrite <- Her. by apply first_rule_erase_None. }
  destruct (rules_input s p) as (i & r & Hin & Hi & Hv).
  destruct (stage_loop_total s p (0 :: 1 :: post)) as (s' & v & ev & Heq & Ht & Hc & Hcase); [done|].
  destruct Hcase as [(-> & -> & Hall)|(pre & st & post' & i' & r' & Hsplit & Hpre & Hfirst & -> & Hrs)].
  { apply Forall_cons_iff in Hall as [_ [Hall _]%Forall_cons_iff]. apply Hnone in Hall. congruence. }
  assert (first_rule s st p rules = Some (i', erase r')) as Hf by (rewrite <- Her; by apply first_rule_erase).
  assert (st = 1) as ->.
  { destruct pre as [|x [|y pre]]; simpl in Hsplit; [injection Hsplit as <- _|by injection Hsplit|
      injection Hsplit as <- <- _].
    - by rewrite rules_other in Hf by auto.
    - apply Forall_cons_iff in Hpre as [_ [Hall _]%Forall_cons_iff]. apply Hnone in Hall. congruence. }
  rewrite Hin in Hf. injection Hf as -> ->. change (r_verdict (erase r')) with (r_verdict r') in Hv.
  exists s', ev. rewrite Heq, Hv. split; [done|]. split; [|done].
  unfold first_rule in Hfirst. apply list_find_Some in Hfirst as (Hlk & _). by eapply nf_wf_bump.
Qed.

Lemma traverse_post s p :
  nf_wf s -> exists ev, traverse_hooks s p NF_POST_ROUTING NF_POST_ROUTING = Ok (s, NF_ACCEPT, ev).
Proof.
  intros (Htab & Her & _). unfold traverse_hooks. change (seqZ _ _) with [4]. simpl.
  rewrite scan_rules_spec by done.
  replace (first_rule s 4 p (nf_rules s)) with (@None (nat * rule)); [by eexists|].
  destruct (first_rule s 4 p (nf_rules s)) as [[i r]|] eqn:E; [|done].
  apply first_rule_erase in E. rewrite Her, rules_other in E by auto. done.
Qed.

Lemma conn_track_add_ok s p :
  nf_wf s -> exists s', conn_track_add s p = Ok s' /\ nf_wf s' /\
    conn_count s' = Z.min MAX_CONN (conn_count s + 1) /\
    (conn_count s < MAX_CONN ->
      take (Z.to_nat (conn_count s')) (conn_table s') = take (Z.to_nat (conn_count s)) (conn_table s) ++
        [ConnEntry (src_ip p) (dst_ip p) (src_port p) (dst_port p) (protocol p) true]).
Proof.
  intros ([Hlen Hc] & Hr). unfold conn_track_add, MAX_CONN in *.
  destruct (Z.ltb_spec (conn_count s) 256) as [Hlt|Hge].
  - rewrite arr_set_ok by lia. cbn [mbind exec_bind]. eexists. split; [done|]. simpl.
    split_and!; [split; [split|done]|lia|]; simpl; [by rewrite length_insert|unfold MAX_CONN; lia|].
    intros _. replace (Z.to_nat (conn_count s + 1)) with (S (Z.to_nat (conn_count s))) by lia.
    erewrite take_S_r by (apply list_lookup_insert_eq; lia). by rewrite take_insert_ge.
  - exists s. split; [done|]. split; [done|]. lia.
Qed.

(** Processing one packet, whichever way it is routed. *)
Lemma process_packet_ok s p :
  nf_wf s -> exists s' p', process_packet s p = Ok (s', p') /\ nf_wf s' /\
    p' = set_dropped (negb (allowed s p)) (if routed p then p else routing_decision p) /\
    let add := local p' && allowed s p && (protocol p =? PROTOCOL_TCP) && negb (Z.land (flags p) 0x10 =? 0) in
    if add then exists s0, conn_track_add s0 p' = Ok s' /\ nf_wf s0 /\
                  conn_table s0 = conn_table s /\ conn_count s0 = conn_count s
    else conn_table s' = conn_table s /\ conn_count s' = conn_count s.
Proof.
  intros Hwf. unfold process_packet.
  set (q := if negb (routed p) then routing_decision p else p).
  replace (if routed p then p else routing_decision p) with q by (subst q; by destruct (routed p)).
  assert (allowed s q = allowed s p /\ protocol q = protocol p /\ flags q = flags p) as (Ha & Hp & Hf)
    by (subst q; by destruct (routed p)).
  clearbody q. rewrite <- Ha, <- Hp, <- Hf. destruct (local q) eqn:Hl.
  - destruct (traverse_input s q NF_LOCAL_IN) as (s' & ev & -> & Hwf' & Ht & Hc); [done|by left|].
    cbn [mbind exec_bind]. replace (_ =? NF_DROP) with (negb (allowed s q)) by (by destruct (allowed s q)).
    change (dropped (set_dropped ?b q)) with b. change (protocol (set_dropped _ q)) with (protocol q).
    change (flags (set_dropped _ q)) with (flags q).
    rewrite negb_involutive.
    destruct (allowed s q && _ && _) eqn:E.
    + destruct (conn_track_add_ok s' (set_dropped (negb (allowed s q)) q) Hwf') as (s2 & Hadd & Hwf2 & _).
      rewrite Hadd. cbn [mbind exec_bind]. eexists _, _. split; [done|]. split; [done|]. split; [done|].
      cbn zeta. change (local (set_dropped _ q)) with (local q). rewrite Hl, andb_true_l, E. eauto.
    + eexists _, _. split; [done|]. split; [done|]. split; [done|].
      cbn zeta. change (local (set_dropped _ q)) with (local q). by rewrite Hl, andb_true_l, E.
  - destruct (traverse_input s q NF_FORWARD) as (s' & ev & -> & Hwf' & Ht & Hc); [done|by right|].
    cbn [mbind exec_bind]. destruct (traverse_post s' q Hwf') as [ev' Hpost].
    destruct (allowed s q); simpl; rewrite ?Hpost; cbn [mbind exec_bind];
      (eexists _, _; split; [done|]; split; [done|]; split; [done|]; simpl; by rewrite Hl).
Qed.

End rules.

(** ** Theorems *)

Section theorems.
Implicit Types (s : nf) (p : packet).

(** C39: [traverse_hooks] never reads outside the connection table and returns
    the verdict of the first applicable rule: hooks in increasing order, rules
    of a hook in table order; that rule's counter and nothing else changes, and
    with no applicable rule the packet is accepted. *)
Theorem traverse_hooks_first_match s p first last :
  table_wf s ->
  exists s' v ev, traverse_hooks s p first last = Ok (s', v, ev) /\
    conn_table s' = conn_table s /\ conn_count s' = conn_count s /\
    ((v = NF_ACCEPT /\ s' = s /\
      forall st r, stage_num first <= st <= stage_num last -> r ∈ nf_rules s -> applies s st p r = false) \/
     (exists st i r, stage_num first <= st <= stage_num last /\
        nf_rules s !! i = Some r /\ applies s st p r = true /\
        v = r_verdict r /\ nf_rules s' = <[i := bump r]> (nf_rules s) /\
        (forall j r', nf_rules s !! j = Some r' -> (j < i)%nat -> applies s st p r' = false) /\
        (forall st' r', stage_num first <= st' < st -> r' ∈ nf_rules s -> applies s st' p r' = false))).
Proof.
  intros Hwf. unfold traverse_hooks. set (n := stage_num last - stage_num first + 1).
  destruct (stage_loop_total s p (seqZ (stage_num first) n) Hwf) as (s' & v & ev & Heq & Ht & Hc & Hcase).
  assert (forall st, first_rule s st p (nf_rules s) = None -> forall r, r ∈ nf_rules s -> applies s st p r = false)
    as Hnone.
  { intros st Hst r Hr. unfold first_rule in Hst. rewrite list_find_None, Forall_forall in Hst.
    specialize (Hst r Hr). by destruct (applies s st p r). }
  exists s', v, ev. split_and!; [done..|].
  destruct Hcase as [(-> & -> & Hall)|(pre & st & post & i & r & Hsplit & Hpre & Hfirst & -> & Hrs)].
  - left. split_and!; [done..|]. intros st r Hst. apply Hnone. rewrite Forall_forall in Hall.
    apply Hall, elem_of_seqZ. subst n. lia.
  - right. apply list_find_Some in Hfirst as (Hlk & Happ & Hbefore).
    assert (seqZ (stage_num first) n !! length pre = Some st) as Hat by (rewrite Hsplit; apply list_lookup_middle; done).
    apply lookup_seqZ in Hat as [-> Hlt].
    exists (stage_num first + Z.of_nat (length pre)), i, r. split_and!; try done; [subst n; lia..| |].
    + intros j r' Hj Hji. specialize (Hbefore j r' Hj Hji). by destruct (applies _ _ p r').
    + intros st' r' Hst'. apply Hnone. rewrite Forall_forall in Hpre. apply Hpre.
      assert (seqZ (stage_num first) n !! Z.to_nat (st' - stage_num first) = Some st') as Hat
        by (apply lookup_seqZ; lia).
      rewrite Hsplit, lookup_app_l in Hat by lia. by eapply list_elem_of_lookup_2.
Qed.

(** C26: the policy of the rule table: whether a packet is delivered locally or
    forwarded, it passes exactly when it is TCP to port 22, 80 or 443 or the
    reply of a recorded connection.  The FORWARD hook is reached only through
    LOCAL_IN, whose last rule catches everything, so the default-drop rule of
    FORWARD never decides. *)
Theorem netfilter_policy s p :
  nf_wf s ->
  exists s' p', process_packet s p = Ok (s', p') /\ nf_wf s' /\
    dropped p' = negb (allowed s p).
Proof.
  intros Hwf. destruct (process_packet_ok s p Hwf) as (s' & p' & Heq & Hwf' & -> & _).
  exists s', (set_dropped (negb (allowed s p)) (if routed p then p else routing_decision p)). done.
Qed.

(** The program processing a list of packets. *)
Definition process_all s (ps : list packet) : exec nf :=
  foldl (fun ms p => s ← ms; '(s, _) ← process_packet s p; Ok s) (Ok s) ps.

Lemma nf_wf_init : nf_wf nf_init.
Proof. split; [split; [reflexivity|unfold MAX_CONN; simpl; lia]|]. split; reflexivity. Qed.

(** every sequence of packets is processed without an out-of-bounds
    access; the connection table never exceeds its 256 entries, and the
    FORWARD rule's counter is still zero at the end. *)
Theorem netfilter_run_safe ps :
  exists s, process_all nf_init ps = Ok s /\ 0 <= conn_count s <= MAX_CONN /\
    exists r, nf_rules s !! 7%nat = Some r /\ r_stage r = NF_FORWARD /\ r_matches r = 0.
Proof.
  assert (forall s, nf_wf s -> exists s', process_all s ps = Ok s' /\ nf_wf s') as Hrun.
  { induction ps as [|p ps IH]; intros s Hwf; [by exists s|]. unfold process_all. simpl.
    destruct (process_packet_ok s p Hwf) as (s' & p' & -> & Hwf' & _). cbn [mbind exec_bind]. by apply IH. }
  destruct (Hrun nf_init nf_wf_init) as (s & Hs & [_ Hc] & Her & Hfwd). exists s. split_and!; [done|lia..|].
  destruct (nf_rules s !! 7%nat) as [r|] eqn:Hr; [|done]. exists r. split; [done|].
  split; [|by injection Hfwd].
  assert ((erase <$> nf_rules s) !! 7%nat = rules !! 7%nat) as H by (by rewrite Her).
  rewrite list_lookup_fmap, Hr in H. by injection H as ->.
Qed.

(** an accepted TCP segment with ACK that is delivered locally while the
    table has room opens the reverse direction: every later packet of the
    reversed tuple is allowed. *)
Theorem netfilter_tracks_reply s p q :
  nf_wf s -> conn_count s < MAX_CONN -> routed p = true -> local p = true -> allowed s p = true ->
  protocol p = PROTOCOL_TCP -> Z.land (flags p) 0x10 <> 0 ->
  src_ip q = dst_ip p -> dst_ip q = src_ip p -> src_port q = dst_port p -> dst_port q = src_port p ->
  protocol q = protocol p ->
  exists s' p', process_packet s p = Ok (s', p') /\ conn_count s' = conn_count s + 1 /\ allowed s' q = true.
Proof.
  intros Hwf Hroom Hr Hl Ha Hp Hf H1 H2 H3 H4 H5.
  destruct (process_packet_ok s p Hwf) as (s' & p' & Heq & _ & Hp' & Hadd). exists s', p'. split; [done|].
  rewrite Hr in Hp'. subst p'. cbn zeta in Hadd. change (local (set_dropped _ p)) with (local p) in Hadd.
  rewrite Hl, Ha, Hp, Z.eqb_refl in Hadd. rewrite (proj2 (Z.eqb_neq _ _) Hf) in Hadd. simpl in Hadd.
  destruct Hadd as (s0 & Hadd & Hwf0 & Ht & Hc).
  destruct (conn_track_add_ok s0 (set_dropped false p) Hwf0) as (s2 & Hadd2 & _ & Hc2 & Htake).
  change (negb true) with false in Hadd. assert (s2 = s') as -> by congruence.
  rewrite Hc in Hc2, Htake. split; [lia|]. unfold allowed, tracked. rewrite (Htake Hroom), existsb_app. simpl.
  unfold conn_hit. simpl. rewrite H1, H2, H3, H4, H5, !Z.eqb_refl. simpl. by rewrite !orb_true_r.
Qed.

End theorems.

(** ** Witnesses and examples *)

Definition web_request : packet :=
  set_flags 0x10 (packet_create (mk_ip 192 168 1 50) (mk_ip 192 168 1 200) PROTOCOL_TCP 12345 80).

Lemma traverse_hooks_first_match_witness :
  exists s' v ev, traverse_hooks nf_init web_request NF_PRE_ROUTING NF_FORWARD = Ok (s', v, ev) /\ v = NF_ACCEPT.
Proof.
  destruct (traverse_hooks_first_match nf_init web_request NF_PRE_ROUTING NF_FORWARD) as (s' & v & ev & Heq & _).
  - exact (proj1 nf_wf_init).
  - exists s', v, ev. split; [exact Heq|]. vm_compute in Heq. injection Heq as _ <- _. reflexivity.
Defined.

Lemma netfilter_policy_witness :
  exists s' p', process_packet nf_init web_request = Ok (s', p') /\ nf_wf s' /\ dropped p' = false.
Proof. exact (netfilter_policy nf_init web_request nf_wf_init). Defined.

Lemma netfilter_tracks_reply_witness :
  exists s' p', process_packet nf_init (routing_decision web_request) = Ok (s', p') /\
    conn_count s' = 1 /\
    allowed s' (packet_create (mk_ip 192 168 1 200) (mk_ip 192 168 1 50) PROTOCOL_TCP 80 12345) = true.
Proof.
  apply (netfilter_tracks_reply nf_init (routing_decision web_request)); try reflexivity; [apply nf_wf_init|done].
Defined.

(** In the demonstration the local address ends in 100, so its packets take
    the forwarding branch; they are decided by the INPUT rules all the same. *)
Example netfilter_main_runs :
  exists s, main_scenarios nf_init = Ok (s, [false; true; false; false; false; false]) /\
    conn_count s = 3 /\ r_matches <$> nf_rules s = [1; 2; 1; 0; 1; 1; 2; 0].
Proof. eexists. split; [vm_compute; reflexivity|]. split; reflexivity. Qed.

Example local_address_is_forwarded :
  local (routing_decision (packet_create (mk_ip 192 168 1 50) (mk_ip 192 168 1 100) PROTOCOL_TCP 12345 80)) = false.
Proof. reflexivity. Qed.
