(* ===== verification/Iptables.v ===== *)
(** * Rule chains and NAT ([demos/iptables/iptables.c])

    The chains of the filter and nat tables, the packet matcher, the chain
    evaluator and the path of a packet.  A chain's rules are the linked list
    [rules] from its head; the globals [filter_chains] and [nat_chains] are the
    state [ipt], in which [eval_chain] bumps [packet_count]. *)
From Stdlib Require Import ZArith Lia String.
From stdpp Require Import base numbers list option.
From S2P Require Import Prelude NetAddr.

Open Scope Z_scope.

Definition proto_name (p : Z) : string :=
  if p =? 6 then "TCP" else if p =? 17 then "UDP" else if p =? 1 then "ICMP" else "OTHER".

Inductive iptables_table := TABLE_FILTER | TABLE_NAT | TABLE_MANGLE | TABLE_RAW.
Inductive target_type :=
  | TARGET_ACCEPT | TARGET_DROP | TARGET_REJECT | TARGET_LOG
  | TARGET_DNAT | TARGET_SNAT | TARGET_MASQUERADE | TARGET_RETURN.

#[export] Instance target_type_eq_dec : EqDecision target_type.
Proof. solve_decision. Defined.

Record match_t := Match {
  m_protocol : Z; dport_lo : Z; dport_hi : Z; sport_lo : Z; sport_hi : Z;
  m_src_ip : Z; m_src_mask : Z; m_dst_ip : Z; m_dst_mask : Z;
  m_established : bool; m_new_conn : bool
}.

(** [if (x && bad) return false;] *)
Definition when_set (x : Z) (bad : bool) : bool := negb (x =? 0) && bad.

Definition match_packet (m : match_t) (proto sport dport sip dip tcp_flags : Z) (established : bool) : bool :=
  if when_set (m_protocol m) (negb (m_protocol m =? proto)) then false
  else if when_set (dport_lo m) ((dport <? dport_lo m) || (dport_hi m <? dport)) then false
  else if when_set (sport_lo m) ((sport <? sport_lo m) || (sport_hi m <? sport)) then false
  else if when_set (m_src_ip m) (negb (Z.land sip (m_src_mask m) =? Z.land (m_src_ip m) (m_src_mask m))) then false
  else if when_set (m_dst_ip m) (negb (Z.land dip (m_dst_mask m) =? Z.land (m_dst_ip m) (m_dst_mask m))) then false
  else if m_established m && negb established then false
  else if m_new_conn m && negb (tcp_flags =? 0x02) then false
  else true.

Record target_t := Target { t_type : target_type; nat_ip : Z; nat_port : Z; log_prefix : string }.

Record rule_t := RuleT { r_match : match_t; r_target : target_t; r_comment : string }.

Record chain_t := Chain {
  ch_name : string; ch_table : iptables_table; ch_rules : list rule_t;
  default_policy : target_type; packet_count : Z
}.

Record pkt_t := Pkt {
  protocol : Z; sport : Z; dport : Z; sip : Z; dip : Z; tcp_flags : Z; established : bool
}.

Record ipt := Ipt { filter_chains : list chain_t; nat_chains : list chain_t }.

(** [find_chain]: the position of the first chain of that name. *)
Definition find_chain (c : list chain_t) (name : string) : option (nat * chain_t) :=
  list_find (fun ch => ch_name ch = name) c.

Definition add_rule (ch : chain_t) (m : match_t) (t : target_t) (cmt : string) : chain_t :=
  {| ch_name := ch_name ch; ch_table := ch_table ch; ch_rules := RuleT m t cmt :: ch_rules ch;
     default_policy := default_policy ch; packet_count := packet_count ch |}.

(** [strncpy(c->name, name, 31)] into a zeroed array keeps 31 characters. *)
Definition make_chain (name : string) (tbl : iptables_table) (def : target_type) : chain_t :=
  {| ch_name := String.substring 0 31 name; ch_table := tbl; ch_rules := [];
     default_policy := def; packet_count := 0 |}.

(** Designated initialisers: the fields not named are zero. *)
Definition match_any : match_t := Match 0 0 0 0 0 0 0 0 0 false false.
Definition match_established : match_t := Match 0 0 0 0 0 0 0 0 0 true false.
Definition match_proto (p : Z) : match_t := Match p 0 0 0 0 0 0 0 0 false false.
Definition match_port (p lo hi : Z) (new : bool) : match_t := Match p lo hi 0 0 0 0 0 0 false new.
Definition match_src (ip mask : Z) : match_t := Match 0 0 0 0 0 ip mask 0 0 false false.
Definition target (t : target_type) : target_t := Target t 0 0 "".

Definition build_iptables : ipt :=
  let input := make_chain "INPUT" TABLE_FILTER TARGET_DROP in
  let output := make_chain "OUTPUT" TABLE_FILTER TARGET_ACCEPT in
  let forward := make_chain "FORWARD" TABLE_FILTER TARGET_DROP in
  let input := add_rule input match_established (target TARGET_ACCEPT) "允许已建立连接" in
  let input := add_rule input (match_port 6 22 22 true) (target TARGET_ACCEPT) "允许 SSH 新连接" in
  let input := add_rule input (match_port 6 80 80 false) (target TARGET_ACCEPT) "允许 HTTP" in
  let input := add_rule input (match_port 6 443 443 false) (target TARGET_ACCEPT) "允许 HTTPS" in
  let input := add_rule input (match_proto 1) (target TARGET_ACCEPT) "允许 ICMP" in
  let input := add_rule input (match_port 6 23 23 false) (Target TARGET_LOG 0 0 "FIREWALL TELNET ") "LOG telnet" in
  let forward := add_rule forward match_established (target TARGET_ACCEPT) "允许已建立转发" in
  let forward := add_rule forward (match_port 6 80 80 false) (target TARGET_ACCEPT) "允许转发 HTTP" in
  let forward := add_rule forward (match_port 6 443 443 false) (target TARGET_ACCEPT) "允许转发 HTTPS" in
  let prerouting := make_chain "PREROUTING" TABLE_NAT TARGET_ACCEPT in
  let postrouting := make_chain "POSTROUTING" TABLE_NAT TARGET_ACCEPT in
  let output_nat := make_chain "OUTPUT" TABLE_NAT TARGET_ACCEPT in
  let prerouting := add_rule prerouting (match_port 6 8080 8080 false) (Target TARGET_DNAT 0 80 "") "DNAT 8080→80" in
  let output_nat := add_rule output_nat (match_port 6 8080 8080 false) (Target TARGET_DNAT 0 80 "") "本地 DNAT 8080→80" in
  let lan_net := mk_ip 192 168 1 0 in
  let postrouting := add_rule postrouting (match_src lan_net 0xFFFFFF00) (target TARGET_MASQUERADE) "内网 MASQUERADE" in
  {| filter_chains := [input; output; forward]; nat_chains := [prerouting; postrouting; output_nat] |}.

(** The call [match_packet(&r->match, p->protocol, ...)]. *)
Definition rule_matches (r : rule_t) (p : pkt_t) : bool :=
  match_packet (r_match r) (protocol p) (sport p) (dport p) (sip p) (dip p) (tcp_flags p) (established p).

(** The loop of [eval_chain]: the packets counted, and the target if a rule
    ended it. *)
Fixpoint eval_rules (rs : list rule_t) (p : pkt_t) (count : Z) : Z * option target_type :=
  match rs with
  | [] => (count, None)
  | r :: rs' =>
    if rule_matches r p then
      if bool_decide (t_type (r_target r) = TARGET_LOG) then eval_rules rs' p (count + 1)
      else (count + 1, Some (t_type (r_target r)))
    else eval_rules rs' p count
  end.

Definition eval_chain (ch : chain_t) (p : pkt_t) : chain_t * target_type :=
  let '(count, o) := eval_rules (ch_rules ch) p (packet_count ch) in
  ({| ch_name := ch_name ch; ch_table := ch_table ch; ch_rules := ch_rules ch;
      default_policy := default_policy ch; packet_count := count |},
   match o with Some t => t | None => default_policy ch end).

(** [eval_chain(find_chain(filter_chains, name), p)] *)
Definition eval_filter (s : ipt) (name : string) (p : pkt_t) : exec (ipt * target_type) :=
  match find_chain (filter_chains s) name with
  | None => Crash NullPointer
  | Some (i, ch) =>
    let '(ch', t) := eval_chain ch p in
    Ok ({| filter_chains := <[i := ch']> (filter_chains s); nat_chains := nat_chains s |}, t)
  end.

(** The first rule of a nat chain with the given target that matches. *)
Fixpoint nat_find (rs : list rule_t) (ty : target_type) (p : pkt_t) : option rule_t :=
  match rs with
  | [] => None
  | r :: rs' => if bool_decide (t_type (r_target r) = ty) && rule_matches r p then Some r else nat_find rs' ty p
  end.

Definition nat_lookup (s : ipt) (name : string) (ty : target_type) (p : pkt_t) : option rule_t :=
  match find_chain (nat_chains s) name with
  | None => None
  | Some (_, ch) => nat_find (ch_rules ch) ty p
  end.

Definition set_dport (d : Z) (p : pkt_t) : pkt_t :=
  Pkt (protocol p) (sport p) d (sip p) (dip p) (tcp_flags p) (established p).

(** The names of the hook points. *)
Definition chain_names : list string := ["PREROUTING"; "INPUT"; "FORWARD"; "OUTPUT"; "POSTROUTING"]%string.

(** [process]: the state, the packet, the target [result], and whether the
    MASQUERADE line is printed.  The line that names the hook reads
    [chain_names[hook < 5 ? hook : 0]] first. *)
Definition process (s : ipt) (p : pkt_t) (hook : Z) : exec (ipt * pkt_t * target_type * bool) :=
  _ ← arr_get chain_names (if hook <? 5 then hook else 0);
  let to_local := 100 <? Z.land (Z.shiftr (dip p) 0) 255 in
  let from_local := 100 <? Z.land (Z.shiftr (sip p) 0) 255 in
  let p := if hook =? 0 then
      match nat_lookup s "PREROUTING" TARGET_DNAT p with
      | Some r => set_dport (nat_port (r_target r)) p
      | None => p
      end
    else p in
  '(s, result) ← (if hook =? 1 then eval_filter s "INPUT" p
    else if hook =? 3 then eval_filter s "OUTPUT" p
    else if to_local then eval_filter s "INPUT" p
    else if from_local then eval_filter s "OUTPUT" p
    else eval_filter s "FORWARD" p);
  let masq := if (hook =? 4) || (hook =? 3) then
      match nat_lookup s "POSTROUTING" TARGET_MASQUERADE p with Some _ => true | None => false end
    else false in
  Ok (s, p, result, masq).

(** The six scenarios of [main] and the target each one prints. *)
Definition main_scenarios : exec (ipt * list target_type) :=
  let s := build_iptables in
  let local_ip := mk_ip 192 168 1 100 in
  let remote_ip := mk_ip 192 168 1 50 in
  let dns_ip := mk_ip 8 8 8 8 in
  let lan_ip := mk_ip 192 168 1 50 in
  '(s, _, r1, _) ← process s (Pkt 6 12345 80 remote_ip local_ip 0x02 false) 1;
  '(s, _, r2, _) ← process s (Pkt 1 0 0 remote_ip local_ip 0 false) 1;
  '(s, _, r3, _) ← process s (Pkt 6 20000 23 remote_ip local_ip 0x02 false) 1;
  '(s, _, r4, _) ← process s (Pkt 6 30000 8080 remote_ip local_ip 0x02 false) 0;
  '(s, _, r5, _) ← process s (Pkt 17 53 53 local_ip dns_ip 0 false) 3;
  '(s, _, r6, _) ← process s (Pkt 6 40000 443 lan_ip dns_ip 0x02 false) 2;
  Ok (s, [r1; r2; r3; r4; r5; r6]).

(** ** Reference semantics *)

(** A rule that ends the evaluation when it matches. *)
Definition terminal (r : rule_t) : Prop := t_type (r_target r) <> TARGET_LOG.
#[export] Instance terminal_dec r : Decision (terminal r).
Proof. unfold terminal. apply _. Defined.

(** The chain without its counter. *)
Definition erase (c : chain_t) : chain_t :=
  {| ch_name := ch_name c; ch_table := ch_table c; ch_rules := ch_rules c;
     default_policy := default_policy c; packet_count := 0 |}.

(** Same chains up to the counters. *)
Definition same_rules (s1 s2 : ipt) : Prop :=
  erase <$> filter_chains s1 = erase <$> filter_chains s2 /\ nat_chains s1 = nat_chains s2.

#[export] Instance same_rules_equiv : Equivalence same_rules.
Proof.
  split.
  - by intros s.
  - intros s1 s2 [H1 H2]. by split.
  - intros s1 s2 s3 [H1 H2] [H3 H4]. split; [by rewrite H1|by rewrite H2].
Qed.

(** What the rule set of [build_iptables] amounts to. *)
Definition tcp_to (p : pkt_t) (port : Z) : bool := (protocol p =? 6) && (dport p =? port).

Definition input_policy (p : pkt_t) : target_type :=
  if (protocol p =? 1) || tcp_to p 443 || tcp_to p 80 || (tcp_to p 22 && (tcp_flags p =? 0x02)) || established p
  then TARGET_ACCEPT else TARGET_DROP.

Definition forward_policy (p : pkt_t) : target_type :=
  if tcp_to p 443 || tcp_to p 80 || established p then TARGET_ACCEPT else TARGET_DROP.

(** The packet after the DNAT stage. *)
Definition dnat_pkt (p : pkt_t) (hook : Z) : pkt_t :=
  if (hook =? 0) && tcp_to p 8080 then set_dport 80 p else p.

(** The MASQUERADE line: for what leaves the LAN, at OUTPUT and POSTROUTING. *)
Definition masqueraded (p : pkt_t) (hook : Z) : bool :=
  ((hook =? 4) || (hook =? 3)) && (Z.land (sip p) 0xFFFFFF00 =? mk_ip 192 168 1 0).

Definition path_policy (p : pkt_t) (hook : Z) : target_type :=
  let to_local := 100 <? Z.land (dip p) 255 in
  let from_local := 100 <? Z.land (sip p) 255 in
  if (hook =? 1) || (negb (hook =? 3) && to_local) then input_policy p
  else if (hook =? 3) || from_local then TARGET_ACCEPT
  else forward_policy p.

Section chains.
Implicit Types (s : ipt) (p : pkt_t).

(** Evaluation finds the first terminal match. *)
Lemma eval_rules_result rs p n :
  (eval_rules rs p n).2 =
  (fun r => t_type (r_target r.2)) <$> list_find (fun r => terminal r /\ rule_matches r p = true) rs.
Proof.
  revert n. induction rs as [|r rs IH]; intros n; [done|]. simpl.
  destruct (rule_matches r p) eqn:Hm.
  - case_bool_decide as Hlog.
    + rewrite decide_False by (intros [? _]; done). rewrite IH. by destruct (list_find _ rs) as [[]|].
    + by rewrite decide_True.
  - rewrite decide_False by (intros [_ ?]; done). rewrite IH. by destruct (list_find _ rs) as [[]|].
Qed.

Lemma eval_rules_skip_log rs p n n' :
  (eval_rules (filter terminal rs) p n').2 = (eval_rules rs p n).2.
Proof.
  revert n n'. induction rs as [|r rs IH]; intros n n'; [done|]. rewrite filter_cons. simpl.
  destruct (decide (terminal r)) as [Ht|Ht]; simpl.
  - destruct (rule_matches r p); [by rewrite bool_decide_false|apply IH].
  - destruct (rule_matches r p); [|apply IH].
    rewrite bool_decide_true; [apply IH|]. by destruct (decide (t_type (r_target r) = TARGET_LOG)).
Qed.

(** The rules a packet meets: those up to and including the first terminal match. *)
Definition met (rs : list rule_t) p : list rule_t :=
  match list_find (fun r => terminal r /\ rule_matches r p = true) rs with
  | Some (i, _) => take (S i) rs
  | None => rs
  end.

Lemma eval_rules_count rs p n :
  (eval_rules rs p n).1 = n + Z.of_nat (length (filter (fun r => rule_matches r p = true) (met rs p))).
Proof.
  revert n. induction rs as [|r rs IH]; intros n; [simpl; lia|]. unfold met. simpl.
  destruct (rule_matches r p) eqn:Hm.
  - case_bool_decide as Hlog.
    + rewrite decide_False by (intros [? _]; done). rewrite IH. unfold met.
      destruct (list_find _ rs) as [[i h]|]; simpl; rewrite filter_cons_True by done; simpl; lia.
    + rewrite decide_True by done. simpl. rewrite filter_cons_True by done. rewrite take_0. simpl. lia.
  - rewrite decide_False by (intros [_ ?]; done). rewrite IH. unfold met.
    destruct (list_find _ rs) as [[i h]|]; simpl; rewrite filter_cons_False by congruence; done.
Qed.

Lemma match_port_spec pr k new p c t :
  0 < pr -> 0 < k ->
  rule_matches (RuleT (match_port pr k k new) t c) p
  = (protocol p =? pr) && (dport p =? k) && (negb new || (tcp_flags p =? 0x02)).
Proof.
  intros Hpr Hk. unfold rule_matches, match_packet, match_port, when_set. simpl.
  rewrite (Z.eqb_sym pr (protocol p)). destruct (Z.eqb_spec pr 0), (Z.eqb_spec k 0); [lia..|]. simpl.
  destruct (protocol p =? pr); [|done]. simpl.
  destruct (Z.eqb_spec (dport p) k), (Z.ltb_spec (dport p) k), (Z.ltb_spec k (dport p)); try lia; simpl; try done.
  by destruct new, (tcp_flags p =? 2).
Qed.

Lemma match_proto_spec pr p c t :
  0 < pr -> rule_matches (RuleT (match_proto pr) t c) p = (protocol p =? pr).
Proof.
  intros Hpr. unfold rule_matches, match_packet, match_proto, when_set. simpl.
  rewrite (Z.eqb_sym pr (protocol p)). destruct (Z.eqb_spec pr 0); [lia|]. by destruct (protocol p =? pr).
Qed.

Lemma match_established_spec p c t : rule_matches (RuleT match_established t c) p = established p.
Proof. unfold rule_matches, match_packet. simpl. by destruct (established p). Qed.

(** The three filter chains of the rule set. *)
Lemma chain_policies p ch ch' i :
  filter_chains build_iptables !! i = Some ch' -> erase ch = erase ch' ->
  (eval_chain ch p).2 =
    match i with 0 => input_policy p | 1 => TARGET_ACCEPT | _ => forward_policy p end%nat.
Proof.
  intros Hi Her. assert ((eval_chain ch p).2 = (eval_chain ch' p).2) as ->.
  { unfold eval_chain. injection Her as _ _ -> ->.
    pose proof (eval_rules_result (ch_rules ch') p (packet_count ch)) as H1.
    pose proof (eval_rules_result (ch_rules ch') p (packet_count ch')) as H2.
    destruct (eval_rules _ p (packet_count ch)), (eval_rules _ p (packet_count ch')). simpl in *. by rewrite H1, H2. }
  clear Her. destruct i as [|[|[|i]]]; [..|done]; injection Hi as <-;
    unfold eval_chain, input_policy, forward_policy, tcp_to; cbn [ch_rules add_rule make_chain eval_rules];
    rewrite ?match_port_spec, ?match_proto_spec, ?match_established_spec by done;
    cbn [r_target t_type target negb orb]; rewrite ?andb_true_r; [|done|].
  - destruct (Z.eqb_spec (protocol p) 6) as [->|Hp]; simpl.
    + destruct (Z.eqb_spec (dport p) 23) as [->|]; simpl; [by destruct (established p)|].
      destruct (dport p =? 443), (dport p =? 80), (dport p =? 22), (tcp_flags p =? 2), (established p); done.
    + by destruct (protocol p =? 1), (established p).
  - by destruct (protocol p =? 6), (dport p =? 443), (dport p =? 80), (established p).
Qed.

Lemma find_chain_erase cs name i ch :
  find_chain cs name = Some (i, ch) <-> cs !! i = Some ch /\ find_chain (erase <$> cs) name = Some (i, erase ch).
Proof.
  unfold find_chain. rewrite list_find_fmap.
  change (list_find ((fun ch => ch_name ch = name) ∘ erase) cs) with (list_find (fun ch => ch_name ch = name) cs).
  split.
  - intros H. pose proof (proj1 (proj1 (list_find_Some _ _ _ _) H)). by rewrite H.
  - intros [Hlk H]. destruct (list_find _ cs) as [[j c]|] eqn:E; simpl in H; [|done].
    injection H as <- H. apply list_find_Some in E as (E & _). by simplify_eq.
Qed.

Lemma filter_chain_at s i name :
  same_rules s build_iptables ->
  (i, name) ∈ [(0, "INPUT"); (1, "OUTPUT"); (2, "FORWARD")]%nat%string ->
  forall p, exists s', eval_filter s name p = Ok (s',
    match i with 0 => input_policy p | 1 => TARGET_ACCEPT | _ => forward_policy p end%nat) /\ same_rules s' build_iptables.
Proof.
  intros [Hf Hn] Hin p.
  assert (exists ch', filter_chains build_iptables !! i = Some ch' /\
    find_chain (erase <$> filter_chains build_iptables) name = Some (i, erase ch')) as (ch' & Hch' & Hfind).
  { rewrite !elem_of_cons, elem_of_nil in Hin.
    destruct Hin as [[= -> ->]|[[= -> ->]|[[= -> ->]|[]]]]; eexists; split; reflexivity. }
  assert (exists ch, filter_chains s !! i = Some ch /\ erase ch = erase ch') as (ch & Hch & Her).
  { assert ((erase <$> filter_chains s) !! i = Some (erase ch')) as H
      by (rewrite Hf, list_lookup_fmap, Hch'; done).
    rewrite list_lookup_fmap in H. destruct (filter_chains s !! i) as [ch|]; [|done].
    exists ch. split; [done|]. by apply (inj Some) in H. }
  unfold eval_filter. rewrite (proj2 (find_chain_erase (filter_chains s) name i ch)).
  2: { split; [done|]. by rewrite Hf, Her. }
  pose proof (chain_policies p ch ch' i Hch' Her) as Hpol.
  destruct (eval_chain ch p) as [ch2 t] eqn:E. simpl in Hpol. subst t. eexists. split; [done|].
  split; [|exact Hn]. change (filter_chains (Ipt ?l _)) with l. rewrite list_fmap_insert.
  assert (erase ch2 = erase ch) as -> by (unfold eval_chain in E; destruct (eval_rules _ _ _); by injection E as <- _).
  rewrite <- Hf. apply list_insert_id. by rewrite list_lookup_fmap, Hch.
Qed.

Lemma dnat_lookup s p :
  same_rules s build_iptables ->
  nat_lookup s "PREROUTING" TARGET_DNAT p
  = if tcp_to p 8080 then Some (RuleT (match_port 6 8080 8080 false) (Target TARGET_DNAT 0 80 "") "DNAT 8080→80")
    else None.
Proof.
  intros [_ Hn]. unfold nat_lookup. rewrite Hn. change (find_chain (nat_chains build_iptables) "PREROUTING")
    with (Some (0%nat, add_rule (make_chain "PREROUTING" TABLE_NAT TARGET_ACCEPT)
      (match_port 6 8080 8080 false) (Target TARGET_DNAT 0 80 "") "DNAT 8080→80")).
  cbn [ch_rules add_rule make_chain nat_find]. rewrite match_port_spec by done. unfold tcp_to.
  cbn [r_target t_type negb orb]. by rewrite andb_true_r.
Qed.

Lemma masq_lookup s p :
  same_rules s build_iptables ->
  match nat_lookup s "POSTROUTING" TARGET_MASQUERADE p with Some _ => true | None => false end
  = (Z.land (sip p) 0xFFFFFF00 =? mk_ip 192 168 1 0).
Proof.
  intros [_ Hn]. unfold nat_lookup. rewrite Hn. change (find_chain (nat_chains build_iptables) "POSTROUTING")
    with (Some (1%nat, add_rule (make_chain "POSTROUTING" TABLE_NAT TARGET_ACCEPT)
      (match_src (mk_ip 192 168 1 0) 0xFFFFFF00) (target TARGET_MASQUERADE) "内网 MASQUERADE")).
  cbn [ch_rules add_rule make_chain nat_find]. unfold rule_matches, match_packet. cbn.
  by destruct (_ =? _).
Qed.

(** The line that names the hook faults exactly at a negative hook. *)
Lemma hook_named hook :
  0 <= hook -> exists n, arr_get chain_names (if hook <? 5 then hook else 0) = Ok n.
Proof.
  intros H. destruct (arr_get_total chain_names (if hook <? 5 then hook else 0)) as (n & E & _); [|eauto].
  cbn. destruct (Z.ltb_spec hook 5); lia.
Qed.

End chains.

(** ** Theorems *)

Section theorems.
Implicit Types (s : ipt) (p : pkt_t).

(** [eval_chain] returns the target of the first matching rule that is
    not a LOG rule, or the chain's default policy; deleting the LOG rules does
    not change the result; the counter grows by the matching rules met, LOG
    rules included. *)
Theorem eval_chain_correct ch p :
  let '(ch', t) := eval_chain ch p in
  t = match list_find (fun r => terminal r /\ rule_matches r p = true) (ch_rules ch) with
      | Some (_, r) => t_type (r_target r)
      | None => default_policy ch
      end /\
  t = (eval_chain {| ch_name := ch_name ch; ch_table := ch_table ch; ch_rules := filter terminal (ch_rules ch);
                     default_policy := default_policy ch; packet_count := packet_count ch |} p).2 /\
  packet_count ch' = packet_count ch
    + Z.of_nat (length (filter (fun r => rule_matches r p = true) (met (ch_rules ch) p))) /\
  ch_rules ch' = ch_rules ch.
Proof.
  unfold eval_chain. simpl.
  pose proof (eval_rules_result (ch_rules ch) p (packet_count ch)) as Hr.
  pose proof (eval_rules_count (ch_rules ch) p (packet_count ch)) as Hc.
  pose proof (eval_rules_skip_log (ch_rules ch) p (packet_count ch) (packet_count ch)) as Hs.
  destruct (eval_rules (ch_rules ch) p _) as [n o], (eval_rules (filter _ _) p _) as [n' o']. simpl in *.
  subst o' n. split_and!; try done. rewrite Hr. by destruct (list_find _ _) as [[]|].
Qed.

(** C25: the whole path of a packet through the built tables, at every hook,
    whatever was processed before: a negative hook reads before [chain_names];
    at every other hook no chain lookup fails, DNAT rewrites exactly TCP 8080
    to 80 and only at hook 0 (not at the local OUTPUT hook), the target is
    the one the policy gives for the rewritten packet (TCP 80/443, ICMP, SSH
    SYN and established traffic in; everything out; TCP 80/443 and established
    forwarded; else DROP; at the hooks other than 1 and 3 the chain is chosen
    by the two addresses), and the MASQUERADE line is printed exactly at the
    hooks 3 and 4 for a source in 192.168.1.0/24. *)
Theorem iptables_process_policy s p hook :
  same_rules s build_iptables ->
  (hook < 0 -> process s p hook = Crash OutOfBounds) /\
  (0 <= hook -> let q := dnat_pkt p hook in
    exists s', process s p hook = Ok (s', q, path_policy q hook, masqueraded q hook) /\
      same_rules s' build_iptables).
Proof.
  intros Hs. split.
  { intros H. unfold process, arr_get. destruct (Z.ltb_spec hook 5); [|lia]. by destruct (Z.leb_spec 0 hook); [lia|]. }
  intros H. unfold process. destruct (hook_named hook H) as [n ->]. cbn [mbind exec_bind].
  rewrite dnat_lookup by done.
  replace (if hook =? 0 then _ else p) with (dnat_pkt p hook)
    by (unfold dnat_pkt; by destruct (hook =? 0), (tcp_to p 8080)).
  assert (sip (dnat_pkt p hook) = sip p /\ dip (dnat_pkt p hook) = dip p) as [Hsip Hdip]
    by (unfold dnat_pkt; by destruct (_ && _)).
  unfold path_policy, masqueraded. rewrite Hsip, Hdip, !Z.shiftr_0_r. set (q := dnat_pkt p hook) in *.
  destruct (filter_chain_at s 0 "INPUT" Hs ltac:(rewrite !elem_of_cons; auto) q) as (si & Ei & Hi).
  destruct (filter_chain_at s 1 "OUTPUT" Hs ltac:(rewrite !elem_of_cons; auto) q) as (so & Eo & Ho).
  destruct (filter_chain_at s 2 "FORWARD" Hs ltac:(rewrite !elem_of_cons; auto) q) as (sf & Ef & Hf).
  rewrite Ei, Eo, Ef.
  destruct (hook =? 1), (hook =? 3), (100 <? Z.land (dip p) 255), (100 <? Z.land (sip p) 255);
    cbn [mbind exec_bind negb andb orb]; rewrite masq_lookup, Hsip by done; destruct (hook =? 4); eauto.
Qed.

End theorems.

(** ** Witnesses and examples *)

Definition proxy_request : pkt_t := Pkt 6 30000 8080 (mk_ip 192 168 1 50) (mk_ip 192 168 1 100) 0x02 false.

Lemma iptables_process_policy_witness :
  (exists s', process build_iptables proxy_request 0
    = Ok (s', set_dport 80 proxy_request, TARGET_ACCEPT, false) /\ same_rules s' build_iptables) /\
  (exists s', process build_iptables proxy_request 3
    = Ok (s', proxy_request, TARGET_ACCEPT, true) /\ same_rules s' build_iptables) /\
  process build_iptables proxy_request (-1) = Crash OutOfBounds.
Proof.
  pose proof (fun h => iptables_process_policy build_iptables proxy_request h (reflexivity build_iptables)) as H.
  split_and!; [apply (proj2 (H 0))|apply (proj2 (H 3))|apply (proj1 (H (-1)))]; lia.
Defined.

(** What main's table of hooks says and [process] does not do: at the local
    OUTPUT hook nothing is rewritten, although the OUTPUT chain of the nat table
    holds a DNAT rule for the packet; at FORWARD a packet for a local address
    meets INPUT's policy, which drops what FORWARD drops too, but accepts ICMP. *)
Example output_dnat_never_applied :
  bool_decide (is_Some (nat_lookup build_iptables "OUTPUT" TARGET_DNAT proxy_request)) = true /\
  exists s, process build_iptables proxy_request 3 = Ok (s, proxy_request, TARGET_ACCEPT, true).
Proof. split; [reflexivity|]. eexists. vm_compute. reflexivity. Qed.

Example forward_hook_uses_input :
  let ping := Pkt 1 0 0 (mk_ip 192 168 1 50) (mk_ip 192 168 1 200) 0 false in
  (exists s, process build_iptables ping 2 = Ok (s, ping, TARGET_ACCEPT, false)) /\
  forward_policy ping = TARGET_DROP.
Proof. split; [|reflexivity]. eexists. vm_compute. reflexivity. Qed.

Example iptables_main_runs :
  exists s, main_scenarios = Ok (s, [TARGET_ACCEPT; TARGET_ACCEPT; TARGET_DROP; TARGET_ACCEPT; TARGET_ACCEPT; TARGET_ACCEPT]).
Proof. eexists. vm_compute. reflexivity. Qed.

(** Rules are evaluated in the reverse of the order in which they were added. *)
Example last_added_first :
  r_comment <$> match find_chain (filter_chains build_iptables) "INPUT" with Some (_, ch) => ch_rules ch | None => [] end
  = ["LOG telnet"; "允许 ICMP"; "允许 HTTPS"; "允许 HTTP"; "允许 SSH 新连接"; "允许已建立连接"]%string.
Proof. reflexivity. Qed.
