(* ===== verification/Congestion.v ===== *)
(** * TCP congestion control ([demos/tcp-congestion-control/congestion.c])

    Slow start, congestion avoidance, fast retransmit and timeout on 32-bit
    unsigned windows, with the division of [cc_on_ack_ca] able to trap.  The
    theorems compare the machine with the same algorithm on unbounded integers,
    for every sequence of events. *)
From Stdlib Require Import ZArith Lia.
From stdpp Require Import base numbers list option.
From S2P Require Import Prelude.

Open Scope Z_scope.

Definition MSS : Z := 1460.
Definition INIT_CWND_MSS : Z := 2.
Definition INIT_SSTHRESH : Z := 64.

Inductive tcp_state_t := SS | CA.

#[export] Instance tcp_state_t_eq_dec : EqDecision tcp_state_t.
Proof. solve_decision. Defined.

Record congestion_control_t := CC {
  cwnd_bytes : Z; ssthresh_bytes : Z; state : tcp_state_t; dupack_count : Z; last_cwnd_mss : Z
}.

Definition cc_init : congestion_control_t :=
  {| cwnd_bytes := INIT_CWND_MSS * MSS; ssthresh_bytes := INIT_SSTHRESH * MSS; state := SS;
     dupack_count := 0; last_cwnd_mss := INIT_CWND_MSS |}.

Definition set_cwnd (c : Z) (cc : congestion_control_t) : congestion_control_t :=
  CC c (ssthresh_bytes cc) (state cc) (dupack_count cc) (last_cwnd_mss cc).
Definition set_cc_state (st : tcp_state_t) (cc : congestion_control_t) : congestion_control_t :=
  CC (cwnd_bytes cc) (ssthresh_bytes cc) st (dupack_count cc) (last_cwnd_mss cc).

Definition cc_on_ack_ss (cc : congestion_control_t) : congestion_control_t :=
  set_cwnd (u32 (cwnd_bytes cc + MSS)) cc.

Definition cc_on_ack_ca (cc : congestion_control_t) : exec congestion_control_t :=
  if cwnd_bytes cc =? 0 then Crash DivideByZero
  else Ok (set_cwnd (u32 (cwnd_bytes cc + (MSS * MSS) / cwnd_bytes cc)) cc).

Definition cc_check_threshold (cc : congestion_control_t) : congestion_control_t :=
  if bool_decide (state cc = SS) && (ssthresh_bytes cc <=? cwnd_bytes cc) then set_cc_state CA cc else cc.

Definition cc_on_ack (cc : congestion_control_t) : exec congestion_control_t :=
  match state cc with
  | SS => Ok (cc_check_threshold (cc_on_ack_ss cc))
  | CA => cc_on_ack_ca cc
  end.

(** [(cc->cwnd_bytes + MSS - 1) / MSS] in [uint32_t]. *)
Definition cwnd_mss (cc : congestion_control_t) : Z := u32 (cwnd_bytes cc + MSS - 1) / MSS.

Definition cc_on_dupack (cc : congestion_control_t) : congestion_control_t :=
  let d := u32 (dupack_count cc + 1) in
  if d =? 3 then
    let new_ssthresh := cwnd_mss cc / 2 in
    let ssthresh := u32 (new_ssthresh * MSS) in
    CC (u32 (ssthresh + 3 * MSS)) ssthresh CA 0 (last_cwnd_mss cc)
  else CC (cwnd_bytes cc) (ssthresh_bytes cc) (state cc) d (last_cwnd_mss cc).

Definition cc_on_timeout (cc : congestion_control_t) : congestion_control_t :=
  CC MSS (u32 (cwnd_mss cc / 2 * MSS)) SS 0 (last_cwnd_mss cc).

(** [n] calls of [cc_on_ack]. *)
Fixpoint acks (n : nat) (cc : congestion_control_t) : exec congestion_control_t :=
  match n with
  | O => Ok cc
  | S n' => cc ← cc_on_ack cc; acks n' cc
  end.

(** The [while] loop of [simulate_slow_start] with [rounds] rounds left. *)
Fixpoint slow_start_loop (rounds : nat) (cc : congestion_control_t) : exec congestion_control_t :=
  match rounds with
  | O => Ok cc
  | S r =>
    match state cc with
    | CA => Ok cc
    | SS => cc ← acks (Z.to_nat (cwnd_mss cc)) cc; slow_start_loop r cc
    end
  end.

Definition simulate_slow_start (cc : congestion_control_t) : exec congestion_control_t :=
  slow_start_loop 10 cc.

Fixpoint simulate_congestion_avoidance (cc : congestion_control_t) (rtt_count : nat)
    : exec congestion_control_t :=
  match rtt_count with
  | O => Ok cc
  | S n => cc ← acks (Z.to_nat (cwnd_mss cc)) cc; simulate_congestion_avoidance cc n
  end.

Definition simulate_fast_retransmit (cc : congestion_control_t) : congestion_control_t :=
  cc_on_dupack (cc_on_dupack (cc_on_dupack cc)).

Definition simulate_rto_timeout (cc : congestion_control_t) : congestion_control_t := cc_on_timeout cc.

Definition main_sim : exec congestion_control_t :=
  cc ← simulate_slow_start cc_init;
  cc ← simulate_congestion_avoidance cc 5;
  let cc := simulate_fast_retransmit cc in
  cc ← simulate_congestion_avoidance cc 3;
  let cc := simulate_rto_timeout cc in
  simulate_slow_start cc.

(** ** Events and the reference machine *)

Inductive cc_event := Ack | Dupack | Timeout.

Definition cc_step (cc : congestion_control_t) (e : cc_event) : exec congestion_control_t :=
  match e with
  | Ack => cc_on_ack cc
  | Dupack => Ok (cc_on_dupack cc)
  | Timeout => Ok (cc_on_timeout cc)
  end.

Definition cc_run (cc : congestion_control_t) (es : list cc_event) : exec congestion_control_t :=
  foldl (fun m e => cc ← m; cc_step cc e) (Ok cc) es.

(** The algorithm on unbounded integers. *)
Definition ceil_mss (c : Z) : Z := (c + MSS - 1) / MSS.

Definition ideal_step (cc : congestion_control_t) (e : cc_event) : congestion_control_t :=
  match e with
  | Ack =>
    match state cc with
    | SS => let c := cwnd_bytes cc + MSS in
            CC c (ssthresh_bytes cc) (if ssthresh_bytes cc <=? c then CA else SS) (dupack_count cc) (last_cwnd_mss cc)
    | CA => set_cwnd (cwnd_bytes cc + MSS * MSS / cwnd_bytes cc) cc
    end
  | Dupack =>
    if dupack_count cc =? 2 then
      let s := ceil_mss (cwnd_bytes cc) / 2 * MSS in CC (s + 3 * MSS) s CA 0 (last_cwnd_mss cc)
    else CC (cwnd_bytes cc) (ssthresh_bytes cc) (state cc) (dupack_count cc + 1) (last_cwnd_mss cc)
  | Timeout => CC MSS (ceil_mss (cwnd_bytes cc) / 2 * MSS) SS 0 (last_cwnd_mss cc)
  end.

(** The window never exceeds [MSS * MSS + 1] bytes; below that bound half a
    window is at most 730 segments. *)
Definition cc_inv (cc : congestion_control_t) : Prop :=
  MSS <= cwnd_bytes cc <= MSS * MSS + 1 /\
  0 <= ssthresh_bytes cc <= 730 * MSS /\
  0 <= dupack_count cc <= 2 /\
  (state cc = SS -> cwnd_bytes cc < ssthresh_bytes cc \/ cwnd_bytes cc = MSS).

#[export] Instance cc_event_eq_dec : EqDecision cc_event.
Proof. solve_decision. Defined.

(** Events without a timeout, and the number of duplicate ACKs among events. *)
Definition no_timeout (es : list cc_event) : Prop := Forall (fun e => e <> Timeout) es.
Definition dupacks (es : list cc_event) : Z := Z.of_nat (length (filter (fun e => e = Dupack) es)).

Section machine.
Implicit Types cc : congestion_control_t.

Lemma cc_inv_init : cc_inv cc_init.
Proof. unfold cc_inv, cc_init, MSS, INIT_CWND_MSS, INIT_SSTHRESH. simpl. lia. Qed.

(** A congestion-avoidance increment stays below the bound. *)
Lemma ca_bound c : MSS <= c <= MSS * MSS + 1 -> 0 <= MSS * MSS / c <= MSS /\ c + MSS * MSS / c <= MSS * MSS + 1.
Proof.
  intros Hc. unfold MSS in *.
  assert (0 <= 1460 * 1460 / c) by (apply Z.div_pos; lia).
  assert (c * (1460 * 1460 / c) <= 1460 * 1460) by (apply Z.mul_div_le; lia).
  split; nia.
Qed.

Lemma half_window c : MSS <= c <= MSS * MSS + 1 -> 0 <= ceil_mss c / 2 <= 730.
Proof.
  intros Hc. unfold ceil_mss, MSS in *.
  assert (0 <= (c + 1460 - 1) / 1460 <= 1461).
  { split; [apply Z.div_pos; lia|]. apply Z.div_le_upper_bound; lia. }
  split; [apply Z.div_pos; lia|]. apply Z.lt_succ_r, Z.div_lt_upper_bound; lia.
Qed.

Lemma cwnd_mss_exact cc : cc_inv cc -> cwnd_mss cc = ceil_mss (cwnd_bytes cc).
Proof. intros (Hc & _). unfold cwnd_mss, ceil_mss, MSS in *. rewrite wrapu_small by lia. done. Qed.

(** One step of the 32-bit machine is one step of the ideal one. *)
Lemma step_exact cc e : cc_inv cc -> cc_step cc e = Ok (ideal_step cc e) /\ cc_inv (ideal_step cc e).
Proof.
  intros Hinv. pose proof Hinv as (Hc & Hs & Hd & Hss). pose proof (ca_bound _ Hc) as [Hinc Hsum].
  pose proof (half_window _ Hc) as Hhalf. pose proof (cwnd_mss_exact cc Hinv) as Hmss.
  destruct e; simpl.
  - unfold cc_on_ack. destruct (state cc) eqn:Hst.
    + specialize (Hss eq_refl). unfold cc_check_threshold, cc_on_ack_ss, set_cwnd, set_cc_state; simpl;
        rewrite wrapu_small by (unfold MSS in *; lia); rewrite Hst; rewrite bool_decide_true by done; simpl;
        destruct (Z.leb_spec (ssthresh_bytes cc) (cwnd_bytes cc + MSS)); (split; [done|]);
        unfold cc_inv; simpl; split_and!; unfold MSS in *; try lia; done.
    + unfold cc_on_ack_ca. destruct (Z.eqb_spec (cwnd_bytes cc) 0) as [E|_]; [unfold MSS in *; lia|].
      rewrite wrapu_small by (unfold MSS in *; lia). split; [done|].
      unfold cc_inv. simpl. split_and!; try done; try lia. by rewrite Hst.
  - unfold cc_on_dupack. rewrite (wrapu_small 32 (dupack_count cc + 1)) by lia. rewrite Hmss.
    replace (dupack_count cc + 1 =? 3) with (dupack_count cc =? 2) by (split_bool; lia).
    destruct (Z.eqb_spec (dupack_count cc) 2).
    + rewrite (wrapu_small 32 (ceil_mss _ / 2 * MSS)) by (unfold MSS in *; lia).
      rewrite wrapu_small by (unfold MSS in *; lia). split; [done|].
      unfold cc_inv. simpl. split_and!; try done; unfold MSS in *; lia.
    + split; [done|]. unfold cc_inv. simpl. split_and!; try done; lia.
  - unfold cc_on_timeout. rewrite Hmss. rewrite wrapu_small by (unfold MSS in *; lia). split; [done|].
    unfold cc_inv. simpl. split_and!; try done; unfold MSS in *; lia.
Qed.

Lemma run_exact cc es : cc_inv cc ->
  cc_run cc es = Ok (foldl ideal_step cc es) /\ cc_inv (foldl ideal_step cc es).
Proof.
  revert cc. induction es as [|e es IH]; intros cc Hinv; [done|]. unfold cc_run. simpl.
  destruct (step_exact cc e Hinv) as [-> Hinv']. by apply IH.
Qed.

Lemma acks_exact n cc : cc_inv cc ->
  acks n cc = Ok (foldl ideal_step cc (replicate n Ack)) /\ cc_inv (foldl ideal_step cc (replicate n Ack)).
Proof.
  revert cc. induction n as [|n IH]; intros cc Hinv; [done|].
  destruct (step_exact cc Ack Hinv) as [Hstep Hinv']. simpl in Hstep.
  cbn [acks replicate foldl]. rewrite Hstep. cbn [mbind exec_bind]. by apply IH.
Qed.

(** Slow start adds one segment per ACK until the threshold is reached. *)
Lemma ss_acks n cc :
  state cc = SS -> cwnd_bytes cc + Z.of_nat n * MSS < ssthresh_bytes cc ->
  let cc' := foldl ideal_step cc (replicate n Ack) in
  cwnd_bytes cc' = cwnd_bytes cc + Z.of_nat n * MSS /\ state cc' = SS /\ ssthresh_bytes cc' = ssthresh_bytes cc.
Proof.
  revert cc. induction n as [|n IH]; intros cc Hst Hlt; simpl; [split_and!; [lia|done..]|].
  rewrite Hst. destruct (Z.leb_spec (ssthresh_bytes cc) (cwnd_bytes cc + MSS)); [unfold MSS in *; lia|].
  destruct (IH (CC (cwnd_bytes cc + MSS) (ssthresh_bytes cc) SS (dupack_count cc) (last_cwnd_mss cc)))
    as (H1 & H2 & H3); simpl in *; [done|unfold MSS in *; lia|]. split_and!; [lia|done..].
Qed.

(** Congestion avoidance is left only by a timeout. *)
Lemma ca_acks n cc :
  cc_inv cc -> state cc = CA ->
  let cc' := foldl ideal_step cc (replicate n Ack) in
  state cc' = CA /\ ssthresh_bytes cc' = ssthresh_bytes cc /\ cwnd_bytes cc <= cwnd_bytes cc' /\
  cwnd_bytes cc' - cwnd_bytes cc <= Z.of_nat n * (MSS * MSS / cwnd_bytes cc) /\
  Z.of_nat n * (MSS * MSS / cwnd_bytes cc') <= cwnd_bytes cc' - cwnd_bytes cc.
Proof.
  revert cc. induction n as [|n IH]; intros cc Hinv Hst; cbn [replicate foldl]; [split_and!; (done || lia)|].
  destruct (step_exact cc Ack Hinv) as [_ Hinv']. pose proof Hinv as (Hc & _).
  pose proof (ca_bound _ Hc) as [Hinc _]. cbn [ideal_step] in *. rewrite Hst in *.
  destruct (IH _ Hinv' Hst) as (H1 & H2 & H3 & H4 & H5). simpl in H3, H4, H5. cbn zeta in *.
  assert (MSS * MSS / (cwnd_bytes cc + MSS * MSS / cwnd_bytes cc) <= MSS * MSS / cwnd_bytes cc).
  { apply Z.div_le_compat_l; unfold MSS in *; lia. }
  set (cc' := foldl ideal_step _ (replicate n Ack)) in *.
  assert (MSS * MSS / cwnd_bytes cc' <= MSS * MSS / cwnd_bytes cc).
  { apply Z.div_le_compat_l; unfold MSS in *; lia. }
  split_and!; [done..|lia| |].
  - transitivity (MSS * MSS / cwnd_bytes cc + Z.of_nat n * (MSS * MSS / cwnd_bytes cc)); [nia|lia].
  - replace (Z.of_nat (S n)) with (Z.of_nat n + 1) by lia. lia.
Qed.

(** A run of ACKs in slow start either reaches congestion avoidance or adds
    one segment per ACK. *)
Lemma ss_acks_or_ca n cc :
  cc_inv cc -> state cc = SS ->
  let cc' := foldl ideal_step cc (replicate n Ack) in
  state cc' = CA \/ (state cc' = SS /\ cwnd_bytes cc' = cwnd_bytes cc + Z.of_nat n * MSS).
Proof.
  revert cc. induction n as [|n IH]; intros cc Hinv Hst; cbn [replicate foldl]; [right; split; [done|lia]|].
  destruct (step_exact cc Ack Hinv) as [_ Hinv']. destruct (state (ideal_step cc Ack)) eqn:Hst'.
  - destruct (IH _ Hinv' Hst') as [H|[H1 H2]]; [by left|]. right. split; [done|]. cbn zeta in H2. rewrite H2.
    simpl. rewrite Hst. simpl. lia.
  - left. by apply ca_acks.
Qed.

Lemma ceil_mss_pos c : MSS <= c -> c <= ceil_mss c * MSS /\ 1 <= ceil_mss c.
Proof.
  intros Hc. unfold ceil_mss, MSS in *.
  pose proof (Z.div_mod (c + 1460 - 1) 1460). pose proof (Z.mod_pos_bound (c + 1460 - 1) 1460). lia.
Qed.

(** Each round at least doubles the window or ends slow start. *)
Lemma slow_start_loop_progress r cc k :
  cc_inv cc -> 0 <= k -> (state cc = SS -> 2 ^ k * MSS <= cwnd_bytes cc) ->
  exists cc', slow_start_loop r cc = Ok cc' /\ cc_inv cc' /\
    (state cc' = SS -> 2 ^ (k + Z.of_nat r) * MSS <= cwnd_bytes cc').
Proof.
  revert cc k. induction r as [|r IH]; intros cc k Hinv Hk Hpow; simpl.
  { exists cc. by rewrite Z.add_0_r. }
  destruct (state cc) eqn:Hst; [|by exists cc; rewrite Hst].
  rewrite cwnd_mss_exact by done. set (n := Z.to_nat (ceil_mss (cwnd_bytes cc))).
  destruct (acks_exact n cc Hinv) as [-> Hinv']. cbn [mbind exec_bind].
  replace (k + Z.of_nat (S r)) with ((k + 1) + Z.of_nat r) by lia.
  apply IH; [done|lia|]. intros Hss. pose proof Hinv as (Hc & _).
  destruct (ceil_mss_pos (cwnd_bytes cc)) as [Hceil Hpos]; [lia|].
  destruct (ss_acks_or_ca n cc Hinv Hst) as [H|[_ H]]; [congruence|]. cbn zeta in H. rewrite H.
  rewrite Z.pow_add_r by lia. specialize (Hpow eq_refl). subst n.
  change (2 ^ 1) with 2. rewrite Z2Nat.id by lia. lia.
Qed.

(** ACKs leave the duplicate count alone. *)
Lemma dupacks_counted cc es :
  no_timeout es -> dupack_count cc + dupacks es <= 2 ->
  dupack_count (foldl ideal_step cc es) = dupack_count cc + dupacks es.
Proof.
  intros Hnt. revert cc. unfold dupacks. induction Hnt as [|e es He _ IH]; intros cc Hd; [simpl; lia|].
  cbn [foldl]. rewrite filter_cons in *. destruct e; [|..|done].
  - rewrite decide_False in * by done. rewrite IH; cbn [ideal_step]; destruct (state cc); simpl; (done || lia).
  - rewrite decide_True in * by done. cbn [length] in *. cbn [ideal_step].
    destruct (Z.eqb_spec (dupack_count cc) 2); [lia|]. rewrite IH; simpl; lia.
Qed.

End machine.

(** ** Theorems *)

Section theorems.
Implicit Types cc : congestion_control_t.

(** C8: for every sequence of ACKs, duplicate ACKs and timeouts the 32-bit
    machine computes what the algorithm computes on unbounded integers: no
    addition or product wraps and the division is never by zero, because the
    window stays between one segment and [MSS * MSS + 1] bytes. *)
Theorem cc_run_matches_ideal es :
  cc_run cc_init es = Ok (foldl ideal_step cc_init es) /\ cc_inv (foldl ideal_step cc_init es).
Proof. apply run_exact, cc_inv_init. Qed.

(** slow start is exponential: below the threshold a round of one ACK per
    segment of the window doubles it. *)
Theorem slow_start_doubles cc n :
  cc_inv cc -> state cc = SS -> cwnd_bytes cc = n * MSS -> 2 * cwnd_bytes cc < ssthresh_bytes cc ->
  exists cc', acks (Z.to_nat (cwnd_mss cc)) cc = Ok cc' /\
    cwnd_bytes cc' = 2 * cwnd_bytes cc /\ state cc' = SS /\ ssthresh_bytes cc' = ssthresh_bytes cc.
Proof.
  intros Hinv Hst Hn Hlt. pose proof Hinv as (Hc & _). rewrite cwnd_mss_exact by done.
  assert (ceil_mss (cwnd_bytes cc) = n) as ->.
  { unfold ceil_mss. rewrite Hn. symmetry. apply (Z.div_unique _ _ n (MSS - 1)); unfold MSS; lia. }
  destruct (acks_exact (Z.to_nat n) cc Hinv) as [-> _]. eexists. split; [done|].
  destruct (ss_acks (Z.to_nat n) cc Hst) as (H1 & H2 & H3); [unfold MSS in *; lia|].
  split_and!; [cbn zeta in H1; unfold MSS in *; lia|done..].
Qed.

(** the ten rounds of [simulate_slow_start] always suffice: started in any
    reachable state it ends in congestion avoidance, so the branch that reports
    slow start after ten rounds is dead. *)
Theorem simulate_slow_start_reaches_ca cc :
  cc_inv cc -> exists cc', simulate_slow_start cc = Ok cc' /\ cc_inv cc' /\ state cc' = CA.
Proof.
  intros Hinv. pose proof Hinv as (Hc & _).
  destruct (slow_start_loop_progress 10 cc 0 Hinv) as (cc' & Heq & Hinv' & Hpow); [lia|intros _; lia|].
  exists cc'. split_and!; [done..|]. destruct (state cc') eqn:Hst; [|done].
  specialize (Hpow eq_refl). pose proof Hinv' as (_ & Hs & _ & Hss). specialize (Hss Hst).
  change (2 ^ (0 + Z.of_nat 10)) with 1024 in Hpow. unfold MSS in *. lia.
Qed.

(** congestion avoidance is linear: over the ACKs of one round trip the
    window grows by at least (at most) the number of ACKs times the increment
    at the final (initial) window, so by at most one segment when the window is
    a whole number of segments; the threshold and the state do not change. *)
Theorem congestion_avoidance_growth cc :
  cc_inv cc -> state cc = CA ->
  exists cc', acks (Z.to_nat (cwnd_mss cc)) cc = Ok cc' /\ state cc' = CA /\
    ssthresh_bytes cc' = ssthresh_bytes cc /\
    let n := ceil_mss (cwnd_bytes cc) in
    n * (MSS * MSS / cwnd_bytes cc') <= cwnd_bytes cc' - cwnd_bytes cc <= n * (MSS * MSS / cwnd_bytes cc) /\
    (cwnd_bytes cc = n * MSS -> cwnd_bytes cc' - cwnd_bytes cc <= MSS).
Proof.
  intros Hinv Hst. pose proof Hinv as (Hc & _). rewrite cwnd_mss_exact by done.
  set (n := ceil_mss (cwnd_bytes cc)). destruct (ceil_mss_pos (cwnd_bytes cc)) as [_ Hpos]; [lia|]. fold n in Hpos.
  destruct (acks_exact (Z.to_nat n) cc Hinv) as [-> _]. eexists. split; [done|].
  destruct (ca_acks (Z.to_nat n) cc Hinv Hst) as (H1 & H2 & _ & H4 & H5). cbn zeta in *.
  rewrite Z2Nat.id in H4, H5 by lia. split_and!; try done. intros Hn.
  etransitivity; [exact H4|]. pose proof (Z.mul_div_le (MSS * MSS) (cwnd_bytes cc)).
  rewrite Hn in *. unfold MSS in *. nia.
Qed.

(** ACKs do not reset the duplicate count: any three duplicate ACKs not
    separated by a timeout trigger the fast retransmit, however many new ACKs
    arrive in between; it halves the window (rounded up to segments) into the
    threshold, adds three segments and enters congestion avoidance. *)
Theorem fast_retransmit_ignores_acks cc es :
  cc_inv cc -> no_timeout es -> dupack_count cc + dupacks es = 2 ->
  exists cc1 cc', cc_run cc es = Ok cc1 /\ cc_run cc (es ++ [Dupack]) = Ok cc' /\
    ssthresh_bytes cc' = ceil_mss (cwnd_bytes cc1) / 2 * MSS /\
    cwnd_bytes cc' = ssthresh_bytes cc' + 3 * MSS /\ state cc' = CA /\ dupack_count cc' = 0.
Proof.
  intros Hinv Hnt Hd. exists (foldl ideal_step cc es), (ideal_step (foldl ideal_step cc es) Dupack).
  destruct (run_exact cc es Hinv) as [Hrun Hinv1]. destruct (run_exact cc (es ++ [Dupack]) Hinv) as [Hrun' _].
  rewrite foldl_app in Hrun'. do 2 (split; [done|]). cbn [ideal_step].
  rewrite dupacks_counted by (done || lia). rewrite Hd. done.
Qed.

End theorems.

(** ** Witnesses and examples *)

Lemma slow_start_doubles_witness :
  exists cc', acks (Z.to_nat (cwnd_mss cc_init)) cc_init = Ok cc' /\
    cwnd_bytes cc' = 4 * MSS /\ state cc' = SS /\ ssthresh_bytes cc' = 64 * MSS.
Proof. apply (slow_start_doubles cc_init 2); [apply cc_inv_init|reflexivity..]. Defined.

Lemma simulate_slow_start_reaches_ca_witness :
  exists cc', simulate_slow_start cc_init = Ok cc' /\ cc_inv cc' /\ state cc' = CA.
Proof. apply simulate_slow_start_reaches_ca. apply cc_inv_init. Defined.

(** The state in which the demonstration leaves slow start. *)
Definition cc_ca : congestion_control_t := CC (64 * MSS) (64 * MSS) CA 0 2.

Lemma cc_ca_inv : cc_inv cc_ca.
Proof. unfold cc_inv, cc_ca, MSS. simpl. split_and!; try lia. done. Qed.

Lemma congestion_avoidance_growth_witness :
  exists cc', acks (Z.to_nat (cwnd_mss cc_ca)) cc_ca = Ok cc' /\ state cc' = CA /\
    cwnd_bytes cc' - cwnd_bytes cc_ca <= MSS.
Proof.
  destruct (congestion_avoidance_growth cc_ca cc_ca_inv eq_refl) as (cc' & H1 & H2 & _ & _ & H3).
  exists cc'. split; [exact H1|]. split; [exact H2|]. apply H3. reflexivity.
Defined.

Lemma fast_retransmit_ignores_acks_witness :
  exists cc1 cc', cc_run cc_ca [Dupack; Ack; Dupack; Ack] = Ok cc1 /\
    cc_run cc_ca ([Dupack; Ack; Dupack; Ack] ++ [Dupack]) = Ok cc' /\
    ssthresh_bytes cc' = ceil_mss (cwnd_bytes cc1) / 2 * MSS /\
    cwnd_bytes cc' = ssthresh_bytes cc' + 3 * MSS /\ state cc' = CA /\ dupack_count cc' = 0.
Proof.
  apply fast_retransmit_ignores_acks; [apply cc_ca_inv|by repeat constructor|reflexivity].
Defined.

(** The simulation of [main]. *)
Example main_sim_run :
  main_sim = Ok (CC 30059 (20 * MSS) CA 0 2).
Proof. vm_compute. reflexivity. Qed.
