(* ===== verification/ListHead.v ===== *)
(** * Intrusive doubly linked lists ([list.h])

    The block-layer sources include [list.h], which is not part of the
    repository: [init_list_head], [list_add_tail], [list_del], [list_empty], the
    [next] field of a head and the iteration macro are parameters, the fields
    of [ListHead], with the documented behaviour of such lists as [ListLaws].
    A store of links is seen through [list_view s h]: the nodes linked behind
    the head [h], in order, when [h] has been initialised.  The instance
    [view_store] shows that the laws can hold. *)
From Stdlib Require Import ZArith Lia.
From stdpp Require Import base numbers list option.
From S2P Require Import Prelude.

(** ** The interface *)

Class ListHead (N L : Type) := {
  (** nodes linked behind a head, [None] when it is not the head of a list *)
  list_view : L -> N -> option (list N);
  init_list_head : N -> L -> L;
  (** [list_add_tail(new, head)]: [new] goes just before [head], which is a
      head (so at the end of its list) or a node of a list. *)
  list_add_tail : N -> N -> L -> L;
  list_del : N -> L -> L;
  list_empty : N -> L -> bool;
  (** [head.next] *)
  list_next : N -> L -> N;
  (** the nodes the iteration macro visits *)
  list_nodes : N -> L -> list N
}.

(** [n] is in no list. *)
Definition off_lists {N L} `{ListHead N L} (n : N) (s : L) : Prop := forall h xs, list_view s h = Some xs -> n ∉ xs.

(** [n] is in no list, and is not the head of one that has nodes: a fresh node,
    initialised (it then looks like the head of an empty list) or not. *)
Definition unlinked {N L} `{ListHead N L} (n : N) (s : L) : Prop :=
  (list_view s n = None \/ list_view s n = Some []) /\ off_lists n s.

(** The store is well formed: lists are disjoint and without repetition, and
    a linked node is not itself a head. *)
Record links_wf {N L} `{ListHead N L} (s : L) : Prop := {
  links_disjoint : forall h1 h2 xs ys n,
    list_view s h1 = Some xs -> list_view s h2 = Some ys -> n ∈ xs -> n ∈ ys -> h1 = h2;
  links_nodup : forall h xs, list_view s h = Some xs -> NoDup xs;
  links_node : forall h xs n, list_view s h = Some xs -> n ∈ xs -> list_view s n = None
}.

(** Insertion of [n] before the first [p]. *)
Fixpoint insert_before {N} `{EqDecision N} (n p : N) (xs : list N) : list N :=
  match xs with
  | [] => []
  | x :: xs' => if decide (x = p) then n :: x :: xs' else x :: insert_before n p xs'
  end.

Class ListLaws (N L : Type) `{EqDecision N} `{ListHead N L} := {
  view_init h k s : off_lists h s -> list_view (init_list_head h s) k = if decide (k = h) then Some [] else list_view s k;
  view_add_tail n h k s xs :
    links_wf s -> unlinked n s -> list_view s h = Some xs -> n <> h ->
    list_view (list_add_tail n h s) k =
      if decide (k = n) then None else if decide (k = h) then Some (xs ++ [n]) else list_view s k;
  view_add_before n p h k s xs :
    links_wf s -> unlinked n s -> list_view s h = Some xs -> n <> h -> p ∈ xs ->
    list_view (list_add_tail n p s) k =
      if decide (k = n) then None else if decide (k = h) then Some (insert_before n p xs) else list_view s k;
  view_del n h k s xs :
    links_wf s -> list_view s h = Some xs -> n ∈ xs ->
    list_view (list_del n s) k = if decide (k = h) then Some (filter (.≠ n) xs) else list_view s k;
  empty_spec h s xs : list_view s h = Some xs -> list_empty h s = match xs with [] => true | _ => false end;
  next_spec h s x xs : list_view s h = Some (x :: xs) -> list_next h s = x;
  nodes_spec h s xs : list_view s h = Some xs -> list_nodes h s = xs
}.

(** ** Facts about every implementation of the interface *)

Lemma insert_before_here {N} `{EqDecision N} (n p : N) l1 l2 :
  p ∉ l1 -> insert_before n p (l1 ++ p :: l2) = l1 ++ n :: p :: l2.
Proof.
  induction l1 as [|x l1 IH]; intros Hp; simpl; [by rewrite decide_True|].
  apply not_elem_of_cons in Hp as [Hne Hp]. rewrite decide_False by done. by rewrite IH.
Qed.

Lemma filter_ne_notin {N} `{EqDecision N} (n : N) (xs : list N) : n ∉ xs -> filter (.≠ n) xs = xs.
Proof.
  induction xs as [|x xs IH]; intros Hn; [done|]. apply not_elem_of_cons in Hn as [Hne Hn].
  by rewrite filter_cons_True, IH.
Qed.

Lemma filter_ne_middle {N} `{EqDecision N} (n : N) (l1 l2 : list N) :
  NoDup (l1 ++ n :: l2) -> filter (.≠ n) (l1 ++ n :: l2) = l1 ++ l2.
Proof.
  intros (Hl1 & Hdisj & Hl2)%list.NoDup_app. apply list.NoDup_cons in Hl2 as [Hn _].
  rewrite list.filter_app, filter_cons_False by (by intros ?). rewrite !filter_ne_notin; [done| |]; [done|].
  intros Hin. apply (Hdisj n Hin). left.
Qed.

(** Removal from a list of nodes, seen on what the nodes stand for. *)
Lemma filter_ne_fmap {A N} `{EqDecision A} `{EqDecision N} (f : A -> N) `{!Inj (=) (=) f} (a : A) (l : list A) :
  filter (.≠ f a) (f <$> l) = f <$> filter (.≠ a) l.
Proof.
  induction l as [|y l IH]; [done|]. rewrite fmap_cons, !filter_cons, IH.
  destruct (decide (y = a)) as [->|Hne]; [by rewrite !decide_False by (by intros ?)|].
  rewrite !decide_True; [done|done|by intros ?%(inj f)].
Qed.

Lemma insert_before_notin {N} `{EqDecision N} (n p : N) xs : p ∉ xs -> insert_before n p xs = xs.
Proof.
  induction xs as [|x xs IH]; intros Hp; simpl; [done|]. apply not_elem_of_cons in Hp as [Hne Hp].
  rewrite decide_False by done. by rewrite IH.
Qed.

Lemma insert_before_perm {N} `{EqDecision N} (n p : N) xs : p ∈ xs -> insert_before n p xs ≡ₚ n :: xs.
Proof.
  induction xs as [|x xs IH]; [by intros ?%elem_of_nil|]. intros Hp. simpl. case_decide as Hx; [done|].
  apply elem_of_cons in Hp as [->|Hp]; [done|]. rewrite IH by done. constructor.
Qed.

Section laws.
Context {N L : Type} `{EqDecision N} `{!ListHead N L} `{!ListLaws N L}.
Implicit Types (s : L).

(** Initialising a node that is in no list keeps the store well formed. *)
Lemma links_wf_init h s :
  links_wf s -> off_lists h s -> links_wf (init_list_head h s).
Proof.
  intros [Hd Hn Hk] Hh. split.
  - intros h1 h2 xs ys n. rewrite !view_init by done.
    case_decide; case_decide; intros; simplify_eq; try done; [by exfalso; eapply not_elem_of_nil..|by eapply Hd].
  - intros k xs. rewrite view_init by done. case_decide; [intros [= <-]; constructor|apply Hn].
  - intros k xs n. rewrite !view_init by done. case_decide; [intros [= <-] ?%elem_of_nil; done|].
    intros Hv Hin. rewrite decide_False; [by eapply Hk|]. intros ->. by eapply Hh.
Qed.

(** A store in which nothing is linked: nodes may be initialised, lists are empty. *)
Definition no_nodes s : Prop := forall k xs, list_view s k = Some xs -> xs = [].

Lemma no_nodes_off h s : no_nodes s -> off_lists h s.
Proof. intros Hn k xs Hk. rewrite (Hn k xs Hk). apply not_elem_of_nil. Qed.

Lemma no_nodes_init h s : no_nodes s -> no_nodes (init_list_head h s).
Proof. intros Hn k xs. rewrite view_init by (by apply no_nodes_off). case_decide; [by intros [= <-]|apply Hn]. Qed.

Lemma no_nodes_wf s : no_nodes s -> links_wf s.
Proof.
  intros Hn. split.
  - intros h1 h2 xs ys n H1 _ Hin. rewrite (Hn _ _ H1) in Hin. by apply elem_of_nil in Hin.
  - intros h xs Hv. rewrite (Hn _ _ Hv). constructor.
  - intros h xs n Hv Hin. rewrite (Hn _ _ Hv) in Hin. by apply elem_of_nil in Hin.
Qed.

(** A change of one list that links one fresh node. *)
Lemma links_wf_grow n h s s' xs xs' :
  links_wf s -> unlinked n s -> list_view s h = Some xs -> n <> h -> xs' ≡ₚ n :: xs ->
  (forall k, list_view s' k = if decide (k = n) then None else if decide (k = h) then Some xs' else list_view s k) ->
  links_wf s'.
Proof.
  intros [Hd Hn Hk] [_ Hu] Hh Hne Hp Hv.
  assert (forall m, m ∈ xs' <-> m = n \/ m ∈ xs) as Hin by (intros m; rewrite Hp; apply elem_of_cons).
  split.
  - intros h1 h2 ys zs m. rewrite !Hv. intros H1 H2 Hm1 Hm2.
    destruct (decide (h1 = n)), (decide (h2 = n)); try done.
    destruct (decide (h1 = h)) as [->|], (decide (h2 = h)) as [->|]; simplify_eq; try done.
    + apply Hin in Hm1 as [->|Hm1]; [by exfalso; eapply Hu|]. by eapply Hd.
    + apply Hin in Hm2 as [->|Hm2]; [by exfalso; eapply Hu|]. by eapply Hd.
    + by eapply Hd.
  - intros k ys. rewrite Hv. repeat case_decide; intros; simplify_eq; [|by eapply Hn].
    rewrite Hp. apply list.NoDup_cons. split; [by eapply Hu|by eapply Hn].
  - intros k ys m. rewrite !Hv. intros Hkv Hm. destruct (decide (m = n)); [done|].
    destruct (decide (k = n)); [done|]. destruct (decide (m = h)) as [->|].
    + exfalso. destruct (decide (k = h)) as [->|]; simplify_eq.
      * apply Hin in Hm as [?|Hm]; [done|]. by rewrite (Hk h xs h) in Hh.
      * by rewrite (Hk k ys h) in Hh.
    + destruct (decide (k = h)) as [->|]; simplify_eq.
      * apply Hin in Hm as [?|Hm]; [done|]. by eapply Hk.
      * by eapply Hk.
Qed.

Lemma links_wf_add_tail n h s xs :
  links_wf s -> unlinked n s -> list_view s h = Some xs -> n <> h -> links_wf (list_add_tail n h s).
Proof.
  intros. eapply (links_wf_grow n h s); [done..| |intros; by apply view_add_tail].
  by rewrite Permutation_app_comm.
Qed.

Lemma links_wf_add_before n p h s xs :
  links_wf s -> unlinked n s -> list_view s h = Some xs -> n <> h -> p ∈ xs -> links_wf (list_add_tail n p s).
Proof.
  intros. eapply (links_wf_grow n h s); [done..| |intros; by apply view_add_before].
  by apply insert_before_perm.
Qed.

Lemma links_wf_del n h s xs : links_wf s -> list_view s h = Some xs -> n ∈ xs -> links_wf (list_del n s).
Proof.
  intros Hwf Hh Hn. pose proof Hwf as [Hd Hnd Hk].
  assert (forall k ys, list_view (list_del n s) k = Some ys -> exists zs, list_view s k = Some zs /\
    NoDup ys /\ forall m, m ∈ ys -> m ∈ zs) as Hsub.
  { intros k ys. rewrite (view_del n h k s xs) by done. case_decide as Hkh; intros; simplify_eq.
    - exists xs. split; [done|]. split; [by apply list.NoDup_filter, (Hnd h)|]. intros m. by rewrite list_elem_of_filter; intros [].
    - exists ys. split; [done|]. split; [by eapply Hnd|done]. }
  split.
  - intros h1 h2 ys zs m (ys' & ? & _ & Hy)%Hsub (zs' & ? & _ & Hz)%Hsub ? ?. eapply Hd; eauto.
  - intros k ys (zs & _ & ? & _)%Hsub. done.
  - intros k ys m (zs & Hz & _ & Hy)%Hsub Hm. rewrite (view_del n h m s xs) by done.
    rewrite decide_False; [eapply Hk; eauto|]. intros ->.
    assert (list_view s h = None) by (eapply Hk; eauto). congruence.
Qed.

(** Removal leaves the node unlinked. *)
Lemma unlinked_del n h s xs :
  links_wf s -> list_view s h = Some xs -> n ∈ xs -> unlinked n (list_del n s).
Proof.
  intros Hwf Hh Hn. pose proof Hwf as [Hd Hnd Hk]. split.
  - left. rewrite (view_del n h n s xs) by done. rewrite decide_False; [by eapply Hk|].
    intros ->. assert (list_view s h = None) by (eapply Hk; eauto). congruence.
  - intros k ys. rewrite (view_del n h k s xs) by done. case_decide as Hkh.
    + intros [= <-]. rewrite list_elem_of_filter. by intros [? _].
    + intros Hv Hin. apply Hkh. by eapply Hd.
Qed.

(** Initialising a node links nothing. *)
Lemma off_lists_init h n s : off_lists h s -> off_lists n s -> off_lists n (init_list_head h s).
Proof. intros Hh Hn k xs. rewrite view_init by done. case_decide; [intros [= <-]; apply not_elem_of_nil|apply Hn]. Qed.

Lemma unlinked_init h n s : off_lists h s -> unlinked n s -> n <> h -> unlinked n (init_list_head h s).
Proof.
  intros Hh [H1 H2] Hne. split; [by rewrite view_init, decide_False|by apply off_lists_init].
Qed.

(** Linking one node leaves another one unlinked. *)
Lemma unlinked_add n m h s xs :
  links_wf s -> unlinked n s -> unlinked m s -> list_view s h = Some xs -> m <> n -> n <> h ->
  unlinked m (list_add_tail n h s) \/ m = h.
Proof.
  intros Hwf Hn [H1 H2] Hh Hmn Hnh. destruct (decide (m = h)) as [->|Hmh]; [by right|left]. split.
  - rewrite (view_add_tail n h m s xs) by done. by rewrite !decide_False.
  - intros k ys. rewrite (view_add_tail n h k s xs) by done. repeat case_decide; intros; simplify_eq.
    + rewrite elem_of_app, list_elem_of_singleton. intros [Hk|Hk]; [by eapply H2|done].
    + by eapply H2.
Qed.

End laws.

(** ** An implementation *)

(** The store as the function from heads to their nodes. *)
Section view_store.
Context {N : Type} `{EqDecision N}.

Definition store : Type := N -> option (list N).

#[export] Instance view_store : ListHead N store := {
  list_view s h := s h;
  init_list_head h s := fun k => if decide (k = h) then Some [] else s k;
  list_add_tail n p s := fun k =>
    if decide (k = n) then None else
    match s p with
    | Some xs => if decide (k = p) then Some (xs ++ [n]) else s k
    | None => insert_before n p <$> s k
    end;
  list_del n s := fun k => filter (.≠ n) <$> s k;
  list_empty h s := match s h with Some (_ :: _) => false | _ => true end;
  list_next h s := match s h with Some (x :: _) => x | _ => h end;
  list_nodes h s := default [] (s h)
}.

(** A node of the list of [h] is in no other list. *)
Lemma disjoint_notin (s : store) h k xs ys n :
  links_wf s -> list_view s h = Some xs -> n ∈ xs -> list_view s k = Some ys -> k <> h -> n ∉ ys.
Proof. intros Hd Hh Hn Hk Hne Hin. apply Hne. by eapply (links_disjoint s Hd). Qed.

#[export] Instance view_store_laws : ListLaws N store.
Proof.
  split; simpl.
  - done.
  - intros n h k s xs _ _ -> _. done.
  - intros n p h k s xs Hwf _ Hh _ Hp. case_decide; [done|].
    assert (s p = None) as -> by (by eapply (links_node s Hwf)). case_decide as Hk; [by subst; rewrite Hh|].
    destruct (s k) as [ys|] eqn:Hy; [|done]. simpl. f_equal. apply insert_before_notin.
    by eapply (disjoint_notin s h k).
  - intros n h k s xs Hwf Hh Hn. case_decide as Hk; [by subst; rewrite Hh|].
    destruct (s k) as [ys|] eqn:Hy; [|done]. simpl. f_equal. apply filter_ne_notin.
    by eapply (disjoint_notin s h k).
  - intros h s xs ->. done.
  - intros h s x xs ->. done.
  - intros h s xs ->. done.
Qed.

End view_store.
