(* ===== verification/Bio.v ===== *)
(** * Block I/O descriptors ([demos/bio/bio.c], [demos/bio/bio.h])

    A [bio] is a slot of the static pool, and its [bi_io_vec] an array on the
    heap whose cells are uninitialised until [bio_add_page] writes them.
    [kmalloc] is not part of the sources: whether it succeeds is an argument.
    [bio_pool_used] has the [BIO_POOL_SIZE / 64] words of its declaration. *)
From Stdlib Require Import ZArith Lia.
From stdpp Require Import base numbers list option gmap.
From S2P Require Import Prelude Bitmap.

Open Scope Z_scope.

Definition BIO_OP_READ : Z := 0.
Definition BIO_OP_WRITE : Z := 1.
Definition BIO_OP_FLUSH : Z := 2.
Definition BIO_OP_DISCARD : Z := 3.
Definition BIO_UPTODATE : Z := 0.

(** Pages, block devices and callbacks are opaque addresses. *)
Record bio_vec := BioVec { bv_page : nat; bv_len : Z; bv_offset : Z }.

Record bio := Bio {
  bi_sector : Z; bi_io_vec : option nat; bi_vcnt : Z; bi_max_vecs : Z; bi_size : Z; bi_idx : Z;
  bi_op : Z; bi_flags : Z; bi_next : option nat; bi_private : option nat; bi_end_io : option nat; bi_bdev : option nat
}.

(** [memset(bio, 0, sizeof(struct bio))] *)
Definition bio_zero : bio := Bio 0 None 0 0 0 0 0 0 None None None None.

Definition BIO_POOL_SIZE : Z := 32.

(** The globals and the heap of [bio_vec] arrays. *)
Record bs := Bs {
  bio_pool : list bio; bio_pool_used : list Z;
  vecs : gmap nat (list (option bio_vec)); next_vec : nat
}.

Definition bio_pools_init : bs :=
  {| bio_pool := replicate (Z.to_nat BIO_POOL_SIZE) bio_zero;
     bio_pool_used := replicate (Z.to_nat (BIO_POOL_SIZE / 64)) 0; vecs := ∅; next_vec := 0 |}.

Definition set_pool (p : list bio) (s : bs) : bs := Bs p (bio_pool_used s) (vecs s) (next_vec s).
Definition set_used (u : list Z) (s : bs) : bs := Bs (bio_pool s) u (vecs s) (next_vec s).
Definition set_vecs (v : gmap nat (list (option bio_vec))) (s : bs) : bs :=
  Bs (bio_pool s) (bio_pool_used s) v (next_vec s).

(** [bio->field] through a pointer to a slot of the pool. *)
Definition get_bio (s : bs) (b : nat) : exec bio := arr_get (bio_pool s) (Z.of_nat b).
Definition put_bio (s : bs) (b : nat) (x : bio) : exec bs :=
  p ← arr_set (bio_pool s) (Z.of_nat b) x; Ok (set_pool p s).

(** [bio_pool_used[idx / 64] &= ~(1UL << (idx % 64))] *)
Definition pool_release (used : list Z) (b : nat) : exec (list Z) := bm_clear used (Z.of_nat b).

(** [bio_alloc]; [mem] is the success of [kmalloc]. *)
Definition bio_alloc (s : bs) (nr_vecs : Z) (mem : bool) : exec (bs * option nat) :=
  o ← bm_claim (bio_pool_used s) 0 (Z.to_nat BIO_POOL_SIZE);
  match o with
  | None => Ok (s, None)
  | Some (used, b) =>
    let s := set_used used s in
    let x := Bio 0 None 0 (u16 nr_vecs) 0 0 BIO_OP_READ 0 None None None None in
    if 0 <? nr_vecs then
      if mem then
        let v := next_vec s in
        let s := Bs (bio_pool s) (bio_pool_used s)
                   (<[v := replicate (Z.to_nat nr_vecs) None]> (vecs s)) (S v) in
        s ← put_bio s b (Bio 0 (Some v) 0 (u16 nr_vecs) 0 0 BIO_OP_READ 0 None None None None);
        Ok (s, Some b)
      else
        s ← put_bio s b x;
        u ← pool_release (bio_pool_used s) b;
        Ok (set_used u s, None)
    else s ← put_bio s b x; Ok (s, Some b)
  end.

Definition with_vec (v : option nat) (x : bio) : bio :=
  Bio (bi_sector x) v (bi_vcnt x) (bi_max_vecs x) (bi_size x) (bi_idx x) (bi_op x) (bi_flags x)
    (bi_next x) (bi_private x) (bi_end_io x) (bi_bdev x).

Definition bio_free (s : bs) (b : option nat) : exec bs :=
  match b with
  | None => Ok s
  | Some b =>
    x ← get_bio s b;
    s ← (match bi_io_vec x with
         | None => Ok s
         | Some v =>
           match vecs s !! v with
           | None => Crash UseAfterFree
           | Some _ => put_bio (set_vecs (delete v (vecs s)) s) b (with_vec None x)
           end
         end);
    u ← pool_release (bio_pool_used s) b;
    Ok (set_used u s)
  end.

(** [&bio->bi_io_vec[i]] written, then read. *)
Definition vec_write (s : bs) (x : bio) (i : Z) (bv : bio_vec) : exec bs :=
  match bi_io_vec x with
  | None => Crash NullPointer
  | Some v =>
    match vecs s !! v with
    | None => Crash UseAfterFree
    | Some arr => arr' ← arr_set arr i (Some bv); Ok (set_vecs (<[v := arr']> (vecs s)) s)
    end
  end.

Definition vec_read (s : bs) (x : bio) (i : Z) : exec bio_vec :=
  match bi_io_vec x with
  | None => Crash NullPointer
  | Some v =>
    match vecs s !! v with
    | None => Crash UseAfterFree
    | Some arr => c ← arr_get arr i; match c with Some bv => Ok bv | None => Crash Uninitialised end
    end
  end.

Definition with_size (vcnt size idx : Z) (x : bio) : bio :=
  Bio (bi_sector x) (bi_io_vec x) vcnt (bi_max_vecs x) size idx (bi_op x) (bi_flags x)
    (bi_next x) (bi_private x) (bi_end_io x) (bi_bdev x).

Definition bio_add_page (s : bs) (b : nat) (page : nat) (len offset : Z) : exec (bs * Z) :=
  x ← get_bio s b;
  if bi_max_vecs x <=? bi_vcnt x then Ok (s, - ENOMEM)
  else
    s ← vec_write s x (bi_vcnt x) (BioVec page len offset);
    s ← put_bio s b (with_size (u16 (bi_vcnt x + 1)) (u32 (bi_size x + len)) (bi_idx x) x);
    Ok (s, 0).

Definition bio_add_pc_page (s : bs) (b : nat) (page : nat) (len offset : Z) : exec (bs * Z) :=
  bio_add_page s b page len offset.

(** The [while] loop of [bio_advance]; the length is read before the index is
    compared, and the index grows to at most [bi_vcnt]. *)
Fixpoint advance_loop (s : bs) (x : bio) (idx : Z) (fuel : nat) : exec Z :=
  bv ← vec_read s x idx;
  if (bv_len bv =? 0) && (idx <? bi_vcnt x) then
    match fuel with O => Ok idx | S f => advance_loop s x (idx + 1) f end
  else Ok idx.

Definition bio_advance (s : bs) (b : nat) (bytes : Z) : exec bs :=
  x ← get_bio s b;
  bv ← vec_read s x (bi_idx x);
  s ← vec_write s x (bi_idx x) (BioVec (bv_page bv) (u32 (bv_len bv - bytes)) (u32 (bv_offset bv + bytes)));
  idx ← advance_loop s x (bi_idx x) (S (Z.to_nat (bi_vcnt x)));
  put_bio s b (with_size (bi_vcnt x) (u32 (bi_size x - bytes)) idx x).

Definition with_flags (f : Z) (x : bio) : bio :=
  Bio (bi_sector x) (bi_io_vec x) (bi_vcnt x) (bi_max_vecs x) (bi_size x) (bi_idx x) (bi_op x) f
    (bi_next x) (bi_private x) (bi_end_io x) (bi_bdev x).

(** [bio_endio]: the callback called, if any, with its error. *)
Definition bio_endio (s : bs) (b : nat) (error : Z) : exec (bs * option (nat * Z)) :=
  x ← get_bio s b;
  s ← (if error <? 0 then put_bio s b (with_flags (Z.lor (bi_flags x) (Z.shiftl 1 BIO_UPTODATE)) x) else Ok s);
  x ← get_bio s b;
  Ok (s, (fun cb => (cb, error)) <$> bi_end_io x).

(** [submit_bio]: the request function of a device, when there is one, is a
    parameter; the result is the device reached or the completion called. *)
Inductive submitted := Requested (fn : nat) (b : nat) | Completed (cb : option (nat * Z)).

Definition submit_bio (bd_queue : nat -> option (option nat)) (s : bs) (b : nat) : exec (bs * submitted) :=
  x ← get_bio s b;
  match bi_bdev x with
  | None => '(s, cb) ← bio_endio s b (- ENODEV); Ok (s, Completed cb)
  | Some bdev =>
    match bd_queue bdev with
    | Some (Some make_request_fn) => Ok (s, Requested make_request_fn b)
    | _ => '(s, cb) ← bio_endio s b (- ENODEV); Ok (s, Completed cb)
    end
  end.

(** The copy loop of [bio_clone], [n] entries from [i]. *)
Fixpoint clone_vecs (s : bs) (x clone : bio) (i : Z) (n : nat) : exec bs :=
  match n with
  | O => Ok s
  | S n' => bv ← vec_read s x i; s ← vec_write s clone i bv; clone_vecs s x clone (i + 1) n'
  end.

Definition bio_clone (s : bs) (b : nat) (mem : bool) : exec (bs * option nat) :=
  x ← get_bio s b;
  '(s, o) ← bio_alloc s (bi_max_vecs x) mem;
  match o with
  | None => Ok (s, None)
  | Some c =>
    y ← get_bio s c;
    let y := Bio (bi_sector x) (bi_io_vec y) (bi_vcnt x) (bi_max_vecs y) (bi_size x) 0 (bi_op x) (bi_flags y)
               (bi_next y) (bi_private x) (bi_end_io x) (bi_bdev x) in
    s ← put_bio s c y;
    s ← clone_vecs s x y 0 (Z.to_nat (bi_vcnt x));
    Ok (s, Some c)
  end.

(** [bio_split]; [bytes >= bio->bi_size] compares as unsigned. *)
Definition bio_split (s : bs) (b : nat) (sectors : Z) (mem : bool) : exec (bs * nat) :=
  x ← get_bio s b;
  let bytes := s32 (Z.shiftl sectors 9) in
  if bi_size x <=? u32 bytes then Ok (s, b)
  else
    '(s, o) ← bio_clone s b mem;
    match o with
    | None => Ok (s, b)
    | Some c =>
      y ← get_bio s c;
      s ← put_bio s c (Bio (u64 (bi_sector y + sectors)) (bi_io_vec y) (bi_vcnt y) (bi_max_vecs y)
             (u32 (bi_size y - bytes)) (bi_idx y) (bi_op y) (bi_flags y) (bi_next y) (bi_private y)
             (bi_end_io y) (bi_bdev y));
      s ← bio_advance s b (u32 bytes);
      Ok (s, c)
    end.

Definition bio_sectors (x : bio) : Z := Z.shiftr (bi_size x) 9.
Definition bio_has_data (x : bio) : bool := 0 <? bi_size x.

(** ** Well-formed descriptors *)

Definition cell_len (c : option bio_vec) : Z := match c with Some bv => bv_len bv | None => 0 end.

(** Bytes described by the entries from [idx] to [vcnt]. *)
Definition bytes_from (arr : list (option bio_vec)) (idx vcnt : Z) : Z :=
  sumZ (cell_len <$> drop (Z.to_nat idx) (take (Z.to_nat vcnt) arr)).

(** Descriptor [b] is [x], its array [arr]: the first [bi_vcnt] cells are
    written and [bi_size] is the number of bytes from [bi_idx] on. *)
Record bio_wf (s : bs) (b : nat) (x : bio) (v : nat) (arr : list (option bio_vec)) : Prop := {
  wf_get : bio_pool s !! b = Some x;
  wf_vec : bi_io_vec x = Some v;
  wf_arr : vecs s !! v = Some arr;
  wf_len : Z.of_nat (length arr) = bi_max_vecs x;
  wf_max : bi_max_vecs x < 2 ^ 16;
  wf_cnt : 0 <= bi_idx x <= bi_vcnt x /\ bi_vcnt x <= bi_max_vecs x;
  wf_cells : Forall (fun c => exists bv, c = Some bv /\ 0 <= bv_len bv < 2 ^ 32) (take (Z.to_nat (bi_vcnt x)) arr);
  wf_size : bi_size x = u32 (bytes_from arr (bi_idx x) (bi_vcnt x))
}.

Section descriptors.
Implicit Types (s : bs) (x : bio).

Lemma get_bio_ok s b x : bio_pool s !! b = Some x -> get_bio s b = Ok x.
Proof. intros H. unfold get_bio. apply arr_get_ok; [lia|]. by rewrite Nat2Z.id. Qed.

Lemma put_bio_ok s b x y : bio_pool s !! b = Some x -> put_bio s b y = Ok (set_pool (<[b := y]> (bio_pool s)) s).
Proof.
  intros H%lookup_lt_Some. unfold put_bio. rewrite arr_set_ok by lia. cbn [mbind exec_bind]. by rewrite Nat2Z.id.
Qed.

Lemma vec_write_ok s b x v arr i bv :
  bio_wf s b x v arr -> 0 <= i < bi_max_vecs x ->
  vec_write s x i bv = Ok (set_vecs (<[v := <[Z.to_nat i := Some bv]> arr]> (vecs s)) s).
Proof.
  intros [] Hi. unfold vec_write. rewrite wf_vec0, wf_arr0. rewrite arr_set_ok by lia. done.
Qed.

Lemma vec_read_ok s b x v arr i :
  bio_wf s b x v arr -> 0 <= i < bi_vcnt x ->
  exists bv, vec_read s x i = Ok bv /\ arr !! Z.to_nat i = Some (Some bv) /\ 0 <= bv_len bv < 2 ^ 32.
Proof.
  intros [] Hi. unfold vec_read. rewrite wf_vec0, wf_arr0.
  destruct (arr_get_total arr i) as (c & -> & Hc); [lia|]. cbn [mbind exec_bind].
  destruct (proj1 (Forall_lookup _ _) wf_cells0 (Z.to_nat i) c) as (bv & -> & Hlen).
  - by rewrite lookup_take_lt by lia.
  - eauto.
Qed.

(** Appending a cell. *)
Lemma bytes_from_snoc arr idx vcnt bv :
  0 <= idx <= vcnt -> vcnt < Z.of_nat (length arr) ->
  bytes_from (<[Z.to_nat vcnt := Some bv]> arr) idx (vcnt + 1) = bytes_from arr idx vcnt + bv_len bv.
Proof.
  intros Hidx Hv. unfold bytes_from. replace (Z.to_nat (vcnt + 1)) with (S (Z.to_nat vcnt)) by lia.
  erewrite take_S_r by (apply list_lookup_insert_eq; lia). rewrite take_insert_ge by done.
  rewrite drop_app_le by (rewrite length_take; lia). rewrite fmap_app, sumZ_app. simpl. lia.
Qed.

(** The cell at [idx] and the cells after it. *)
Lemma bytes_from_cons arr idx vcnt bv :
  0 <= idx < vcnt -> arr !! Z.to_nat idx = Some (Some bv) ->
  bytes_from arr idx vcnt = bv_len bv + bytes_from arr (idx + 1) vcnt.
Proof.
  intros Hidx Hlk. unfold bytes_from. rewrite (drop_S _ (Some bv) (Z.to_nat idx)).
  - replace (Z.to_nat (idx + 1)) with (S (Z.to_nat idx)) by lia. done.
  - by rewrite lookup_take_lt by lia.
Qed.

Lemma bytes_from_insert_lt arr idx j vcnt c :
  0 <= j < idx -> bytes_from (<[Z.to_nat j := c]> arr) idx vcnt = bytes_from arr idx vcnt.
Proof.
  intros Hj. unfold bytes_from. destruct (decide (Z.to_nat j < Z.to_nat vcnt)%nat).
  - rewrite take_insert_lt by lia. by rewrite drop_insert_lt by lia.
  - by rewrite take_insert_ge by lia.
Qed.

Lemma u32_add_l a c : u32 (u32 a + c) = u32 (a + c).
Proof. apply Zplus_mod_idemp_l. Qed.

Lemma u32_sub_l a c : u32 (u32 a - c) = u32 (a - c).
Proof. apply Zminus_mod_idemp_l. Qed.

End descriptors.

(** ** Theorems *)

(** The static bitmap has [32 / 64 = 0] words: the first test of [bio_alloc]
    already reads outside it. *)
Theorem bio_alloc_out_of_bounds s nr_vecs mem :
  length (bio_pool_used s) = length (bio_pool_used bio_pools_init) ->
  bio_alloc s nr_vecs mem = Crash OutOfBounds.
Proof.
  change (length (bio_pool_used bio_pools_init)) with 0%nat. intros H%nil_length_inv.
  unfold bio_alloc. rewrite H. reflexivity.
Qed.

Section pool.
Implicit Types (s : bs).

(** with a bitmap that has room for the 32 slots the pool allocator is
    first fit: it fails exactly when every slot is taken, and otherwise returns
    the lowest free slot, marks it and nothing else, and hands out an empty
    well-formed descriptor with a fresh array. *)
Theorem bio_alloc_first_fit s nr_vecs :
  bm_words (bio_pool_used s) -> BIO_POOL_SIZE <= bm_bits (bio_pool_used s) ->
  length (bio_pool s) = Z.to_nat BIO_POOL_SIZE -> vecs s !! next_vec s = None -> 0 < nr_vecs < 2 ^ 16 ->
  exists s' o, bio_alloc s nr_vecs true = Ok (s', o) /\
  match o with
  | None => s' = s /\ forall j, 0 <= j < BIO_POOL_SIZE -> bit (bio_pool_used s) j = true
  | Some b => exists x arr, bio_wf s' b x (next_vec s) arr /\ bi_vcnt x = 0 /\ bi_size x = 0 /\
      0 <= Z.of_nat b < BIO_POOL_SIZE /\ bit (bio_pool_used s) (Z.of_nat b) = false /\
      (forall j, 0 <= j < Z.of_nat b -> bit (bio_pool_used s) j = true) /\
      (forall j, 0 <= j -> bit (bio_pool_used s') j = if j =? Z.of_nat b then true else bit (bio_pool_used s) j) /\
      (forall c, c <> b -> bio_pool s' !! c = bio_pool s !! c)
  end.
Proof.
  intros Hw Hbits Hpool Hfresh Hnr. unfold bio_alloc, BIO_POOL_SIZE in *.
  change (Z.to_nat 32) with 32%nat in *.
  destruct (bm_claim_spec (bio_pool_used s) 0 32 Hw) as (o & -> & Ho); [lia..|]. cbn [mbind exec_bind].
  destruct o as [[used b]|]; [|exists s, None; split; [done|]; split; [done|]; exact Ho].
  destruct Ho as (Hb & Hfree & Hbefore & Hlen & Hw' & Hbit). destruct (Z.ltb_spec 0 nr_vecs); [|lia].
  destruct (lookup_lt_is_Some_2 (bio_pool s) b) as [y Hy]; [lia|].
  erewrite put_bio_ok by exact Hy. cbn [mbind exec_bind]. eexists _, (Some b). split; [done|].
  exists (Bio 0 (Some (next_vec s)) 0 (u16 nr_vecs) 0 0 BIO_OP_READ 0 None None None None),
    (replicate (Z.to_nat nr_vecs) None). split.
  - assert (u16 nr_vecs = nr_vecs) as Hu by (apply wrapu_small; lia).
    split; simpl; rewrite ?Hu; try done; try lia.
    + apply list_lookup_insert_eq. lia.
    + apply lookup_insert_eq.
    + rewrite length_replicate. lia.
  - simpl. split_and!; try done; try lia. intros c Hc. by rewrite list_lookup_insert_ne.
Qed.

(** [bio_add_page] keeps a descriptor well formed: a full array is refused
    with [-ENOMEM] and nothing changes, otherwise the segment is appended in
    bounds, the byte count is the sum of the segments modulo 2^32, and no other
    descriptor changes. *)
Theorem bio_add_page_correct s b x v arr page len offset :
  bio_wf s b x v arr -> 0 <= len < 2 ^ 32 ->
  (bi_vcnt x = bi_max_vecs x /\ bio_add_page s b page len offset = Ok (s, - ENOMEM)) \/
  (exists s' x', bi_vcnt x < bi_max_vecs x /\ bio_add_page s b page len offset = Ok (s', 0) /\
    bio_wf s' b x' v (<[Z.to_nat (bi_vcnt x) := Some (BioVec page len offset)]> arr) /\
    bi_vcnt x' = bi_vcnt x + 1 /\ bi_size x' = u32 (bi_size x + len) /\
    (forall c, c <> b -> bio_pool s' !! c = bio_pool s !! c)).
Proof.
  intros Hwf Hlen. pose proof Hwf as [Hget Hvec Harr Hl Hmax Hcnt Hcells Hsize].
  unfold bio_add_page. rewrite (get_bio_ok _ _ _ Hget). cbn [mbind exec_bind].
  destruct (Z.leb_spec (bi_max_vecs x) (bi_vcnt x)) as [Hfull|Hroom]; [left; split; [lia|done]|right].
  rewrite (vec_write_ok s b x v arr) by (done || lia). cbn [mbind exec_bind].
  erewrite put_bio_ok by exact Hget. cbn [mbind exec_bind].
  eexists _, (with_size (u16 (bi_vcnt x + 1)) (u32 (bi_size x + len)) (bi_idx x) x). split; [done|]. split; [done|].
  assert (u16 (bi_vcnt x + 1) = bi_vcnt x + 1) as Hu by (apply wrapu_small; lia).
  split; [|simpl; split_and!; try done; intros c Hc; by rewrite list_lookup_insert_ne].
  split; simpl; rewrite ?Hu; try done; try lia.
  - apply list_lookup_insert_eq. by eapply lookup_lt_Some.
  - apply lookup_insert_eq.
  - rewrite length_insert. lia.
  - replace (Z.to_nat (bi_vcnt x + 1)) with (S (Z.to_nat (bi_vcnt x))) by lia.
    erewrite take_S_r by (apply list_lookup_insert_eq; lia). rewrite take_insert_ge by done.
    apply Forall_app. split; [done|]. constructor; [|done]. eexists. split; [done|]. simpl. lia.
  - rewrite bytes_from_snoc by lia. simpl. by rewrite Hsize, u32_add_l.
Qed.

End pool.

(** ** Advancing *)

Section advance.
Implicit Types (s : bs) (x : bio).

Lemma vec_read_cell s x v arr i bv :
  bi_io_vec x = Some v -> vecs s !! v = Some arr -> 0 <= i -> arr !! Z.to_nat i = Some (Some bv) ->
  vec_read s x i = Ok bv.
Proof.
  intros Hv Ha Hi Hc. unfold vec_read. rewrite Hv, Ha. by rewrite (arr_get_ok _ _ (Some bv)).
Qed.

(** All cells from [i] to [k] are exhausted. *)
Definition empty_cells (arr : list (option bio_vec)) (i k : Z) : Prop :=
  forall j, i <= j < k -> exists bv, arr !! Z.to_nat j = Some (Some bv) /\ bv_len bv = 0.

Lemma bytes_from_skip arr i k vcnt :
  0 <= i <= k -> k <= vcnt -> empty_cells arr i k -> bytes_from arr i vcnt = bytes_from arr k vcnt.
Proof.
  intros Hi Hk He. replace k with (i + Z.of_nat (Z.to_nat (k - i))) by lia.
  assert (Z.to_nat (k - i) <= Z.to_nat (k - i))%nat as Hn by lia. revert Hn.
  generalize (Z.to_nat (k - i)) at 1 3 as n. induction n as [|n IH]; intros Hn; [by rewrite Z.add_0_r|].
  rewrite IH by lia. destruct (He (i + Z.of_nat n)) as (bv & Hbv & Hz); [lia|].
  rewrite (bytes_from_cons arr (i + Z.of_nat n) vcnt bv) by (done || lia). rewrite Hz.
  replace (i + Z.of_nat (S n)) with (i + Z.of_nat n + 1) by lia. lia.
Qed.

Lemma advance_loop_first s x v arr i k fuel bv :
  bi_io_vec x = Some v -> vecs s !! v = Some arr ->
  0 <= i <= k -> k < bi_vcnt x -> empty_cells arr i k ->
  arr !! Z.to_nat k = Some (Some bv) -> bv_len bv <> 0 -> (Z.to_nat (k - i) <= fuel)%nat ->
  advance_loop s x i fuel = Ok k.
Proof.
  intros Hv Ha Hi Hk He Hc Hnz. revert i Hi He. induction fuel as [|fuel IH]; intros i Hi He Hf; simpl.
  - replace i with k by lia. rewrite (vec_read_cell s x v arr k bv) by (done || lia). cbn [mbind exec_bind].
    by destruct (Z.eqb_spec (bv_len bv) 0).
  - destruct (decide (i = k)) as [->|Hne].
    + rewrite (vec_read_cell s x v arr k bv) by (done || lia). cbn [mbind exec_bind].
      by destruct (Z.eqb_spec (bv_len bv) 0).
    + destruct (He i) as (b' & Hb' & Hz); [lia|].
      rewrite (vec_read_cell s x v arr i b') by (done || lia). cbn [mbind exec_bind]. rewrite Hz. simpl.
      destruct (Z.ltb_spec i (bi_vcnt x)); [|lia]. apply IH; [lia| |lia]. intros j Hj. apply He. lia.
Qed.

Lemma advance_loop_end s x v arr i fuel :
  bi_io_vec x = Some v -> vecs s !! v = Some arr -> Z.of_nat (length arr) = bi_vcnt x ->
  0 <= i <= bi_vcnt x -> empty_cells arr i (bi_vcnt x) -> (Z.to_nat (bi_vcnt x - i) <= fuel)%nat ->
  advance_loop s x i fuel = Crash OutOfBounds.
Proof.
  intros Hv Ha Hlen. revert i. induction fuel as [|fuel IH]; intros i Hi He Hf.
  all: destruct (decide (i = bi_vcnt x)) as [->|Hne]; simpl.
  1,3: unfold vec_read; rewrite Hv, Ha; unfold arr_get;
    (destruct (Z.leb_spec 0 (bi_vcnt x)); [|lia]); by rewrite lookup_ge_None_2 by lia.
  - lia.
  - destruct (He i) as (b' & Hb' & Hz); [lia|].
    rewrite (vec_read_cell s x v arr i b') by (done || lia). cbn [mbind exec_bind]. rewrite Hz. simpl.
    destruct (Z.ltb_spec i (bi_vcnt x)); [|lia]. apply IH; [lia| |lia]. intros j Hj. apply He. lia.
Qed.

(** The current cell after [bytes] of it were consumed. *)
Definition consume (bytes : Z) (bv : bio_vec) : bio_vec :=
  BioVec (bv_page bv) (u32 (bv_len bv - bytes)) (u32 (bv_offset bv + bytes)).

Lemma bio_advance_unfold s b x v arr bv bytes :
  bio_wf s b x v arr -> bi_idx x < bi_vcnt x -> arr !! Z.to_nat (bi_idx x) = Some (Some bv) ->
  let arr' := <[Z.to_nat (bi_idx x) := Some (consume bytes bv)]> arr in
  bio_advance s b bytes =
    (idx ← advance_loop (set_vecs (<[v := arr']> (vecs s)) s) x (bi_idx x) (S (Z.to_nat (bi_vcnt x)));
     put_bio (set_vecs (<[v := arr']> (vecs s)) s) b (with_size (bi_vcnt x) (u32 (bi_size x - bytes)) idx x)).
Proof.
  intros Hwf Hlt Hbv. pose proof Hwf as [Hget Hvec Harr Hl Hmax Hcnt Hcells Hsize]. unfold bio_advance.
  rewrite (get_bio_ok _ _ _ Hget). cbn [mbind exec_bind].
  rewrite (vec_read_cell s x v arr (bi_idx x) bv) by (done || lia). cbn [mbind exec_bind].
  by rewrite (vec_write_ok s b x v arr) by (done || lia).
Qed.

(** [bio_advance] within the current segment: it consumes the bytes, moves
    to the next segment that still has some, and keeps the descriptor well
    formed: [bi_size] stays the number of bytes that remain. *)
Theorem bio_advance_correct s b x v arr bv bytes k bv' :
  bio_wf s b x v arr -> bi_idx x <= k < bi_vcnt x ->
  arr !! Z.to_nat (bi_idx x) = Some (Some bv) -> 0 <= bytes <= bv_len bv ->
  let arr' := <[Z.to_nat (bi_idx x) := Some (consume bytes bv)]> arr in
  empty_cells arr' (bi_idx x) k -> arr' !! Z.to_nat k = Some (Some bv') -> bv_len bv' <> 0 ->
  exists s' x', bio_advance s b bytes = Ok s' /\ bio_wf s' b x' v arr' /\
    bi_idx x' = k /\ bi_size x' = u32 (bi_size x - bytes) /\ bi_sector x' = bi_sector x.
Proof.
  intros Hwf Hk Hbv Hbytes arr' He Hk' Hnz. pose proof Hwf as [Hget Hvec Harr Hl Hmax Hcnt Hcells Hsize].
  rewrite (bio_advance_unfold s b x v arr bv) by (done || lia). fold arr'. cbn zeta.
  rewrite (advance_loop_first _ x v arr' (bi_idx x) k _ bv') by (done || lia || apply lookup_insert_eq).
  cbn [mbind exec_bind]. rewrite (put_bio_ok _ _ x) by done.
  eexists _, (with_size (bi_vcnt x) (u32 (bi_size x - bytes)) k x). split; [done|].
  assert (0 <= bv_len bv < 2 ^ 32) as Hlen.
  { destruct (vec_read_ok s b x v arr (bi_idx x) Hwf) as (b2 & _ & Hb2 & Hr); [lia|]. by simplify_eq. }
  split; [|done]. split; simpl; try done; try lia.
  - apply list_lookup_insert_eq. by eapply lookup_lt_Some.
  - apply lookup_insert_eq.
  - subst arr'. by rewrite length_insert.
  - subst arr'. rewrite take_insert_lt by lia. apply Forall_insert; [done|].
    eexists. split; [done|]. simpl. apply wrapu_range. lia.
  - rewrite Hsize, u32_sub_l. f_equal. rewrite <- (bytes_from_skip arr' (bi_idx x) k) by (done || lia).
    rewrite (bytes_from_cons arr (bi_idx x) (bi_vcnt x) bv) by (done || lia).
    rewrite (bytes_from_cons arr' (bi_idx x) (bi_vcnt x) (consume bytes bv)).
    + subst arr'. rewrite bytes_from_insert_lt by lia. simpl. rewrite wrapu_small by lia. lia.
    + lia.
    + subst arr'. apply list_lookup_insert_eq. lia.
Qed.

(** consuming the last bytes of a full descriptor reads past its array: the
    loop tests the length of the segment after the last one before it compares
    the index. *)
Theorem bio_advance_end_out_of_bounds s b x v arr bv :
  bio_wf s b x v arr -> bi_vcnt x = bi_max_vecs x -> bi_idx x < bi_vcnt x ->
  arr !! Z.to_nat (bi_idx x) = Some (Some bv) -> empty_cells arr (bi_idx x + 1) (bi_vcnt x) ->
  bio_advance s b (bv_len bv) = Crash OutOfBounds.
Proof.
  intros Hwf Hfull Hlt Hbv He. pose proof Hwf as [Hget Hvec Harr Hl Hmax Hcnt Hcells Hsize].
  rewrite (bio_advance_unfold s b x v arr bv) by (done || lia). cbn zeta.
  erewrite (advance_loop_end _ x v); [done|done|apply lookup_insert_eq|rewrite length_insert; lia|lia| |lia].
  intros j Hj. destruct (decide (j = bi_idx x)) as [->|Hne].
  - eexists. split; [apply list_lookup_insert_eq; lia|]. simpl. by rewrite Z.sub_diag.
  - rewrite list_lookup_insert_ne by lia. apply He. lia.
Qed.

(** Completion with an error sets the flag that says the data is valid, and
    completion without an error leaves it alone. *)
Theorem bio_endio_marks_errors s b x error :
  bio_pool s !! b = Some x ->
  exists s' x', bio_endio s b error = Ok (s', (fun cb => (cb, error)) <$> bi_end_io x) /\
    bio_pool s' !! b = Some x' /\
    (error < 0 -> Z.testbit (bi_flags x') BIO_UPTODATE = true) /\ (0 <= error -> x' = x).
Proof.
  intros Hget. unfold bio_endio. rewrite (get_bio_ok _ _ _ Hget). cbn [mbind exec_bind].
  destruct (Z.ltb_spec error 0).
  - rewrite (put_bio_ok _ _ x) by done. cbn [mbind exec_bind].
    assert (bio_pool (set_pool (<[b := with_flags (Z.lor (bi_flags x) (Z.shiftl 1 BIO_UPTODATE)) x]> (bio_pool s)) s) !! b
      = Some (with_flags (Z.lor (bi_flags x) (Z.shiftl 1 BIO_UPTODATE)) x)) as Hb
      by (apply list_lookup_insert_eq; by eapply lookup_lt_Some).
    rewrite (get_bio_ok _ _ _ Hb). cbn [mbind exec_bind]. eexists _, _. split; [done|]. split; [done|].
    split; [|lia]. intros _. cbn [with_flags bi_flags]. rewrite Z.lor_spec. apply orb_true_r.
  - cbn [mbind exec_bind]. rewrite (get_bio_ok _ _ _ Hget). cbn [mbind exec_bind].
    exists s, x. split_and!; (done || lia).
Qed.

End advance.

(** ** Witnesses and examples *)

(** A pool whose bitmap has one word, with one descriptor of two pages. *)
Definition page_vec (p : nat) : bio_vec := BioVec p 4096 0.
Definition demo_bio : bio := Bio 100 (Some 0%nat) 2 2 8192 0 BIO_OP_WRITE 0 None None None None.
Definition demo_arr : list (option bio_vec) := [Some (page_vec 1); Some (page_vec 2)].
Definition demo_bs : bs :=
  {| bio_pool := demo_bio :: replicate 31 bio_zero; bio_pool_used := [1]; vecs := {[ 0%nat := demo_arr ]}; next_vec := 1 |}.

Lemma demo_bio_wf : bio_wf demo_bs 0 demo_bio 0 demo_arr.
Proof.
  split; try reflexivity; try (simpl; lia). repeat constructor; eexists; (split; [done|]); simpl; lia.
Qed.

Lemma bio_alloc_out_of_bounds_witness : bio_alloc bio_pools_init 4 true = Crash OutOfBounds.
Proof. apply bio_alloc_out_of_bounds. reflexivity. Defined.

Lemma bio_alloc_first_fit_witness :
  exists s' b, bio_alloc demo_bs 4 true = Ok (s', Some b) /\ b = 1%nat.
Proof.
  destruct (bio_alloc_first_fit demo_bs 4) as (s' & o & Heq & _).
  - constructor; [lia|constructor].
  - unfold BIO_POOL_SIZE, bm_bits. simpl. lia.
  - reflexivity.
  - reflexivity.
  - lia.
  - vm_compute in Heq. injection Heq as <- <-. eexists _, _. split; reflexivity.
Defined.

Lemma bio_add_page_correct_witness :
  bio_add_page demo_bs 0 3 4096 0 = Ok (demo_bs, - ENOMEM).
Proof.
  destruct (bio_add_page_correct demo_bs 0 demo_bio 0 demo_arr 3 4096 0 demo_bio_wf) as [[_ H]|(s' & x' & H & _)];
    [lia|exact H|]. simpl in H. lia.
Defined.

Lemma bio_advance_correct_witness :
  exists s' x', bio_advance demo_bs 0 4096 = Ok s' /\
    bio_wf s' 0 x' 0 [Some (BioVec 1 0 4096); Some (page_vec 2)] /\ bi_idx x' = 1 /\ bi_size x' = 4096 /\ bi_sector x' = 100.
Proof.
  apply (bio_advance_correct demo_bs 0 demo_bio 0 demo_arr (page_vec 1) 4096 1 (page_vec 2) demo_bio_wf).
  - simpl. lia.
  - reflexivity.
  - simpl. lia.
  - intros j Hj. simpl in Hj. replace j with 0 by lia. eexists. split; reflexivity.
  - reflexivity.
  - done.
Defined.

Definition last_bio : bio := Bio 100 (Some 0%nat) 1 1 4096 0 BIO_OP_WRITE 0 None None None None.
Definition last_bs : bs :=
  {| bio_pool := last_bio :: replicate 31 bio_zero; bio_pool_used := [1];
     vecs := {[ 0%nat := [Some (page_vec 1)] ]}; next_vec := 1 |}.

Lemma bio_advance_end_out_of_bounds_witness : bio_advance last_bs 0 4096 = Crash OutOfBounds.
Proof.
  apply (bio_advance_end_out_of_bounds last_bs 0 last_bio 0 [Some (page_vec 1)] (page_vec 1)); try reflexivity.
  - split; try reflexivity; try (simpl; lia). repeat constructor. eexists. split; [done|]. simpl. lia.
  - intros j Hj. simpl in Hj. lia.
Defined.

(** Splitting eight sectors off the two-page descriptor of sectors 100 to 115:
    the original keeps sector 100 but now describes the second page, the new
    one starts at sector 108 with the first page; the pages are exchanged. *)
Example bio_split_exchanges :
  match bio_split demo_bs 0 8 true with
  | Ok (s, c) =>
    match get_bio s 0, get_bio s c with
    | Ok x, Ok y =>
      match vec_read s x (bi_idx x), vec_read s y (bi_idx y) with
      | Ok v, Ok w => Some ((bi_sector x, bi_size x, bv_page v), (bi_sector y, bi_size y, bv_page w))
      | _, _ => None
      end
    | _, _ => None
    end
  | Crash _ => None
  end = Some ((100, 4096, 2%nat), (108, 4096, 1%nat)).
Proof. vm_compute. reflexivity. Qed.

(** With three pages the two parts together describe more bytes than the whole. *)
Example bio_split_sizes :
  let s := {| bio_pool := Bio 100 (Some 0%nat) 3 3 12288 0 BIO_OP_WRITE 0 None None None None :: replicate 31 bio_zero;
              bio_pool_used := [1]; vecs := {[ 0%nat := Some (page_vec 1) :: demo_arr ]}; next_vec := 1 |} in
  match bio_split s 0 8 true with
  | Ok (s, c) => match get_bio s 0, get_bio s c with Ok x, Ok y => Some (bi_size x + bi_size y) | _, _ => None end
  | Crash _ => None
  end = Some 16384.
Proof. vm_compute. reflexivity. Qed.
