(* ===== verification/IoSched.v ===== *)
(** * I/O schedulers ([demos/iosched/iosched.c], [demos/iosched/iosched.h])

    Requests and process queues are heap objects linked into lists through the
    nodes embedded in them; the lists are those of the [ListHead] interface.
    [get_jiffies], the pid of [current] and the success of [kmalloc] are
    arguments of the operations that read them, [jiffies_to_msecs] is a
    parameter of the section. *)
From Stdlib Require Import ZArith Lia String Sorted.
From stdpp Require Import base numbers list option gmap sorting.
From S2P Require Import Prelude ListHead Bio.

Open Scope Z_scope.

Record request := Request {
  sector : Z; nr_sectors : Z; bytes : Z; op : Z; r_bio : nat; jiffies : Z; refcount : Z
}.

Inductive algorithm := IOSCHED_NONE | IOSCHED_DEADLINE | IOSCHED_CFQ.

#[export] Instance algorithm_eq_dec : EqDecision algorithm.
Proof. solve_decision. Defined.

(** The [struct list_head]s of the program: heads in the scheduler structures
    and process queues, nodes in requests and process queues. *)
Inductive node :=
  | DispatchHead (a : algorithm) | FifoHead (a : algorithm)
  | ReadFifo | WriteFifo | CfqQueues | CfqHead (q : nat)
  | QueueNode (r : nat) | FioNode (r : nat) | CfqNode (q : nat).

#[export] Instance node_eq_dec : EqDecision node.
Proof. solve_decision. Defined.

Record cfq_queue := CfqQueue { pid : Z; dispatched : Z; last_jiffies : Z; weight : Z }.

Record sched (L : Type) := Sched {
  reqs : gmap nat request; next_req : nat;
  links : L;
  read_deadline : Z; write_deadline : Z;
  queues : gmap nat cfq_queue; next_queue : nat;
  active_queue : option nat; cfq_slice : Z;
  current_iosched : option algorithm
}.
Arguments Sched {L}.
Arguments reqs {L}.
Arguments next_req {L}.
Arguments links {L}.
Arguments read_deadline {L}.
Arguments write_deadline {L}.
Arguments queues {L}.
Arguments next_queue {L}.
Arguments active_queue {L}.
Arguments cfq_slice {L}.
Arguments current_iosched {L}.

(** ** Merging *)

(** [request_end] and the ends of [request_can_merge], in [sector_t]. *)
Definition request_end (r : request) : Z := u64 (sector r + nr_sectors r).

Definition request_can_merge (a b : request) : bool :=
  if negb (op a =? op b) then false
  else (request_end a =? sector b) || (request_end b =? sector a).

(** [request_merge]: [a] afterwards. *)
Definition request_merge (a b : request) : request :=
  let sec := if sector b <? sector a then sector b else sector a in
  Request sec
    (Z.max (u32 (nr_sectors a + nr_sectors b)) (u32 (sector b + nr_sectors b - sec)))
    (u32 (bytes a + bytes b)) (op a) (r_bio a) (jiffies a) (refcount a).

Section schedulers.
Context {L : Type} `{!ListHead node L}.
Variable jiffies_to_msecs : Z -> Z.
Implicit Types s : sched L.

Definition set_links (l : L) s : sched L :=
  Sched (reqs s) (next_req s) l (read_deadline s) (write_deadline s) (queues s) (next_queue s)
    (active_queue s) (cfq_slice s) (current_iosched s).
Definition set_reqs (m : gmap nat request) s : sched L :=
  Sched m (next_req s) (links s) (read_deadline s) (write_deadline s) (queues s) (next_queue s)
    (active_queue s) (cfq_slice s) (current_iosched s).
Definition set_deadlines (r w : Z) s : sched L :=
  Sched (reqs s) (next_req s) (links s) r w (queues s) (next_queue s)
    (active_queue s) (cfq_slice s) (current_iosched s).
Definition set_cfq (qs : gmap nat cfq_queue) (act : option nat) s : sched L :=
  Sched (reqs s) (next_req s) (links s) (read_deadline s) (write_deadline s) qs (next_queue s)
    act (cfq_slice s) (current_iosched s).
Definition set_current (a : option algorithm) s : sched L :=
  Sched (reqs s) (next_req s) (links s) (read_deadline s) (write_deadline s) (queues s) (next_queue s)
    (active_queue s) (cfq_slice s) a.

(** [list_entry] of a request node, and the object behind a pointer. *)
Definition entry (n : node) : exec nat :=
  match n with QueueNode r | FioNode r => Ok r | _ => Crash OutOfBounds end.
Definition cfq_entry (n : node) : exec nat :=
  match n with CfqNode q => Ok q | _ => Crash OutOfBounds end.
Definition get_req s (r : nat) : exec request :=
  match reqs s !! r with Some x => Ok x | None => Crash UseAfterFree end.
Definition get_queue s (q : nat) : exec cfq_queue :=
  match queues s !! q with Some x => Ok x | None => Crash UseAfterFree end.

Definition alloc_request s (b : nat) (x : bio) (now : Z) (mem : bool) : sched L * option nat :=
  if mem then
    let r := next_req s in
    let req := Request (bi_sector x) (Z.shiftr (bi_size x) 9) (bi_size x) (bi_op x) b now 1 in
    (Sched (<[r := req]> (reqs s)) (S r) (init_list_head (FioNode r) (init_list_head (QueueNode r) (links s)))
       (read_deadline s) (write_deadline s) (queues s) (next_queue s) (active_queue s) (cfq_slice s)
       (current_iosched s), Some r)
  else (s, None).

Definition free_request s (r : option nat) : exec (sched L) :=
  match r with
  | None => Ok s
  | Some r => match reqs s !! r with Some _ => Ok (set_reqs (delete r (reqs s)) s) | None => Crash UseAfterFree end
  end.

(** ** noop *)

Definition noop_init s : sched L :=
  set_links (init_list_head (FifoHead IOSCHED_NONE) (init_list_head (DispatchHead IOSCHED_NONE) (links s))) s.

Definition noop_exit s : sched L := s.

Definition noop_add_request s (r : nat) : sched L :=
  set_links (list_add_tail (QueueNode r) (DispatchHead IOSCHED_NONE) (links s)) s.

Definition noop_dispatch s : exec (sched L * option nat) :=
  if list_empty (DispatchHead IOSCHED_NONE) (links s) then Ok (s, None)
  else
    r ← entry (list_next (DispatchHead IOSCHED_NONE) (links s));
    Ok (set_links (list_del (QueueNode r) (links s)) s, Some r).

Definition noop_finish_request s (r : nat) : exec (sched L) := free_request s (Some r).

(** ** deadline *)

Definition DEADLINE_DEFAULT_READ_DEADLINE : Z := 500.
Definition DEADLINE_DEFAULT_WRITE_DEADLINE : Z := 5000.

Definition deadline_init s : sched L :=
  set_deadlines DEADLINE_DEFAULT_READ_DEADLINE DEADLINE_DEFAULT_WRITE_DEADLINE
    (set_links (init_list_head WriteFifo (init_list_head ReadFifo
       (init_list_head (DispatchHead IOSCHED_DEADLINE) (links s)))) s).

Definition deadline_exit s : sched L := s.

(** The iteration that looks for the first queued request of a larger sector. *)
Fixpoint find_larger s (sec : Z) (ns : list node) : exec (option node) :=
  match ns with
  | [] => Ok None
  | n :: ns' =>
    r ← entry n;
    pos ← get_req s r;
    if sec <? sector pos then Ok (Some n) else find_larger s sec ns'
  end.

(** Insertion into a sector-sorted queue. *)
Definition insert_sorted s (h : node) (r : nat) (sec : Z) : exec (sched L) :=
  o ← find_larger s sec (list_nodes h (links s));
  match o with
  | Some pos => Ok (set_links (list_add_tail (QueueNode r) pos (links s)) s)
  | None => Ok (set_links (list_add_tail (QueueNode r) h (links s)) s)
  end.

Definition deadline_add_request s (r : nat) : exec (sched L) :=
  req ← get_req s r;
  let s := if op req =? BIO_OP_READ then set_links (list_add_tail (FioNode r) ReadFifo (links s)) s
           else set_links (list_add_tail (FioNode r) WriteFifo (links s)) s in
  insert_sorted s (DispatchHead IOSCHED_DEADLINE) r (sector req).

(** [deadline_read_expired] and [deadline_write_expired]. *)
Definition fifo_expired s (fifo : node) (limit now : Z) : exec bool :=
  if list_empty fifo (links s) then Ok false
  else
    r ← entry (list_next fifo (links s));
    req ← get_req s r;
    Ok (limit <=? jiffies_to_msecs (u64 (now - jiffies req))).

Definition deadline_read_expired s (now : Z) : exec bool := fifo_expired s ReadFifo (read_deadline s) now.
Definition deadline_write_expired s (now : Z) : exec bool := fifo_expired s WriteFifo (write_deadline s) now.

(** Each test reads the clock: [now.1] is the first reading, [now.2] the second. *)
Definition deadline_dispatch s (now : Z * Z) : exec (sched L * option nat) :=
  e ← deadline_read_expired s now.1;
  if e : bool then
    r ← entry (list_next ReadFifo (links s));
    Ok (set_links (list_del (QueueNode r) (list_del (FioNode r) (links s))) s, Some r)
  else
    e ← deadline_write_expired s now.2;
    if e : bool then
      r ← entry (list_next WriteFifo (links s));
      Ok (set_links (list_del (QueueNode r) (list_del (FioNode r) (links s))) s, Some r)
    else if negb (list_empty (DispatchHead IOSCHED_DEADLINE) (links s)) then
      r ← entry (list_next (DispatchHead IOSCHED_DEADLINE) (links s));
      Ok (set_links (list_del (FioNode r) (list_del (QueueNode r) (links s))) s, Some r)
    else Ok (s, None).

Definition deadline_finish_request s (r : nat) : exec (sched L) := free_request s (Some r).

(** ** cfq *)

Definition CFQ_DEFAULT_TIME_SLICE : Z := 100.

(** The search of [cfq_get_queue]. *)
Fixpoint find_pid s (p : Z) (ns : list node) : exec (option nat) :=
  match ns with
  | [] => Ok None
  | n :: ns' => q ← cfq_entry n; x ← get_queue s q; if pid x =? p then Ok (Some q) else find_pid s p ns'
  end.

Definition cfq_get_queue s (p : Z) (mem : bool) : exec (sched L * option nat) :=
  o ← find_pid s p (list_nodes CfqQueues (links s));
  match o with
  | Some q => Ok (s, Some q)
  | None =>
    if mem then
      let q := next_queue s in
      let l := list_add_tail (CfqNode q) CfqQueues (init_list_head (CfqHead q) (links s)) in
      Ok (Sched (reqs s) (next_req s) l (read_deadline s) (write_deadline s)
            (<[q := CfqQueue p 0 0 100]> (queues s)) (S q) (active_queue s) (cfq_slice s) (current_iosched s), Some q)
    else Ok (s, None)
  end.

Definition cfq_init s : sched L :=
  Sched (reqs s) (next_req s) (init_list_head CfqQueues (init_list_head (DispatchHead IOSCHED_CFQ) (links s)))
    (read_deadline s) (write_deadline s) (queues s) (next_queue s) None CFQ_DEFAULT_TIME_SLICE (current_iosched s).

Definition cfq_exit s : sched L := s.

Definition cfq_add_request s (r : nat) (p : Z) (mem : bool) : exec (sched L) :=
  '(s, o) ← cfq_get_queue s p mem;
  match o with
  | None => Ok s
  | Some q => req ← get_req s r; insert_sorted s (CfqHead q) r (sector req)
  end.

(** The search for the first queue with requests. *)
Fixpoint find_busy s (ns : list node) : exec (option nat) :=
  match ns with
  | [] => Ok None
  | n :: ns' =>
    q ← cfq_entry n;
    if negb (list_empty (CfqHead q) (links s)) then Ok (Some q) else find_busy s ns'
  end.

(** The switch at the start of [cfq_dispatch]. *)
Definition cfq_select s : exec (sched L) :=
  over ← (match active_queue s with
          | None => Ok true
          | Some q => x ← get_queue s q; Ok (cfq_slice s <=? dispatched x)
          end);
  if over : bool then
    o ← find_busy s (list_nodes CfqQueues (links s));
    match o with
    | Some q => x ← get_queue s q;
                Ok (set_cfq (<[q := CfqQueue (pid x) 0 (last_jiffies x) (weight x)]> (queues s)) (Some q) s)
    | None => Ok s
    end
  else Ok s.

Definition cfq_dispatch s (now : Z) : exec (sched L * option nat) :=
  s ← cfq_select s;
  match active_queue s with
  | None => Ok (s, None)
  | Some q =>
    if list_empty (CfqHead q) (links s) then Ok (s, None)
    else
      r ← entry (list_next (CfqHead q) (links s));
      req ← get_req s r;
      x ← get_queue s q;
      Ok (set_links (list_del (QueueNode r) (links s))
            (set_cfq (<[q := CfqQueue (pid x) (u32 (dispatched x + bytes req)) now (weight x)]> (queues s)) (Some q) s),
          Some r)
  end.

Definition cfq_finish_request s (r : nat) : exec (sched L) := free_request s (Some r).

(** ** The current scheduler *)


Definition init_fn (a : algorithm) s : sched L :=
  match a with IOSCHED_NONE => noop_init s | IOSCHED_DEADLINE => deadline_init s | IOSCHED_CFQ => cfq_init s end.

Definition io_sched_init s : sched L := init_fn IOSCHED_DEADLINE (set_current (Some IOSCHED_DEADLINE) s).

Definition io_sched_set s (name : string) : sched L * Z :=
  let switch a := (init_fn a (set_current (Some a) s), 0) in
  if bool_decide (name = "noop"%string) then switch IOSCHED_NONE
  else if bool_decide (name = "deadline"%string) then switch IOSCHED_DEADLINE
  else if bool_decide (name = "cfq"%string) then switch IOSCHED_CFQ
  else (s, - EINVAL).

Definition iosched_add_request s (r : nat) (p : Z) (mem : bool) : exec (sched L) :=
  match current_iosched s with
  | None => Ok s
  | Some IOSCHED_NONE => Ok (noop_add_request s r)
  | Some IOSCHED_DEADLINE => deadline_add_request s r
  | Some IOSCHED_CFQ => cfq_add_request s r p mem
  end.

Definition iosched_dispatch s (now : Z * Z) : exec (sched L * option nat) :=
  match current_iosched s with
  | None => Ok (s, None)
  | Some IOSCHED_NONE => noop_dispatch s
  | Some IOSCHED_DEADLINE => deadline_dispatch s now
  | Some IOSCHED_CFQ => cfq_dispatch s now.1
  end.

Definition iosched_finish_request s (r : nat) : exec (sched L) :=
  match current_iosched s with
  | None => Ok s
  | Some IOSCHED_NONE => noop_finish_request s r
  | Some IOSCHED_DEADLINE => deadline_finish_request s r
  | Some IOSCHED_CFQ => cfq_finish_request s r
  end.

End schedulers.

(** ** Merged ranges *)

Definition covers (r : request) (sec : Z) : Prop := sector r <= sec < sector r + nr_sectors r.

(** Requests that stay inside the 64-bit sector space and whose lengths add up
    within 32 bits. *)
Definition range_wf (r : request) : Prop :=
  0 <= sector r /\ 0 <= nr_sectors r < 2 ^ 32 /\ sector r + nr_sectors r < 2 ^ 64.

Lemma request_end_small r : range_wf r -> request_end r = sector r + nr_sectors r.
Proof. intros (H1 & H2 & H3). apply wrapu_small. lia. Qed.

(** merging two requests that may be merged gives exactly the union of their
    sectors, in either order. *)
Theorem request_merge_union a b :
  range_wf a -> range_wf b -> nr_sectors a + nr_sectors b < 2 ^ 32 -> request_can_merge a b = true ->
  range_wf (request_merge a b) /\ op (request_merge a b) = op b /\
  nr_sectors (request_merge a b) = nr_sectors a + nr_sectors b /\
  forall sec, covers (request_merge a b) sec <-> covers a sec \/ covers b sec.
Proof.
  intros Ha Hb Hsum. unfold request_can_merge. rewrite !request_end_small by done.
  destruct (Z.eqb_spec (op a) (op b)) as [Hop|]; [|done]. simpl. intros Hadj.
  destruct Ha as (Ha1 & Ha2 & Ha3), Hb as (Hb1 & Hb2 & Hb3).
  assert (sector a + nr_sectors a = sector b \/ sector b + nr_sectors b = sector a) as Hcase.
  { apply orb_true_iff in Hadj. rewrite !Z.eqb_eq in Hadj. done. }
  unfold request_merge, covers, range_wf. cbn [sector nr_sectors op].
  rewrite (wrapu_small 32 (nr_sectors a + nr_sectors b)) by lia.
  destruct (Z.ltb_spec (sector b) (sector a));
    (rewrite wrapu_small by lia); rewrite Z.max_l by lia; split_and!; try done; try lia.
Qed.

(** ** The deadline scheduler against its specification *)

(** The abstract state: requests in sector order, reads and writes in arrival
    order. *)
Record dq := Dq { dq_sorted : list nat; dq_reads : list nat; dq_writes : list nat }.

Definition dq_remove (r : nat) (d : dq) : dq :=
  Dq (filter (.≠ r) (dq_sorted d)) (filter (.≠ r) (dq_reads d)) (filter (.≠ r) (dq_writes d)).

#[export] Instance QueueNode_inj : Inj (=) (=) QueueNode.
Proof. by intros ?? [= ->]. Qed.
#[export] Instance FioNode_inj : Inj (=) (=) FioNode.
Proof. by intros ?? [= ->]. Qed.
#[export] Instance CfqNode_inj : Inj (=) (=) CfqNode.
Proof. by intros ?? [= ->]. Qed.

Section sorted.
Context {L : Type} `{!ListHead node L} `{!ListLaws node L}.
Implicit Types s : sched L.

(** Sector of a request pointer. *)
Definition sector_of s (r : nat) : Z := match reqs s !! r with Some x => sector x | None => 0 end.

Definition live s (rs : list nat) : Prop := forall r, r ∈ rs -> is_Some (reqs s !! r).

Definition by_sector s (rs : list nat) : Prop := StronglySorted (fun a b => sector_of s a <= sector_of s b) rs.

Lemma find_larger_spec s sec rs :
  live s rs ->
  (find_larger s sec (QueueNode <$> rs) = Ok None /\ Forall (fun r => sector_of s r <= sec) rs) \/
  (exists l1 p l2, rs = l1 ++ p :: l2 /\ find_larger s sec (QueueNode <$> rs) = Ok (Some (QueueNode p)) /\
     Forall (fun r => sector_of s r <= sec) l1 /\ sec < sector_of s p).
Proof.
  induction rs as [|r rs IH]; intros Hlive; [by left|]. rewrite fmap_cons. cbn [find_larger entry mbind exec_bind].
  destruct (Hlive r) as [x Hx]; [left|]. unfold get_req. rewrite Hx. cbn [mbind exec_bind].
  assert (sector_of s r = sector x) as Hsec by (unfold sector_of; by rewrite Hx).
  destruct (Z.ltb_spec sec (sector x)).
  - right. exists [], r, rs. split_and!; [done|done|constructor|lia].
  - destruct IH as [[-> Hall]|(l1 & p & l2 & -> & -> & Hall & Hlt)]; [intros p Hp; apply Hlive; by right|..].
    + left. split; [done|]. constructor; [lia|done].
    + right. exists (r :: l1), p, l2. split_and!; [done|done| |done]. constructor; [lia|done].
Qed.

(** Insertion keeps the queue sorted and puts the request after the equal ones. *)
Lemma insert_sorted_spec s h r sec rs :
  links_wf (links s) -> list_view (links s) h = Some (QueueNode <$> rs) -> live s rs -> by_sector s rs ->
  unlinked (QueueNode r) (links s) -> QueueNode r <> h ->
  exists l1 l2 l, rs = l1 ++ l2 /\ Forall (fun p => sector_of s p <= sec) l1 /\ Forall (fun p => sec < sector_of s p) l2 /\
    insert_sorted s h r sec = Ok (set_links l s) /\ links_wf l /\
    forall k, list_view l k = if decide (k = QueueNode r) then None
      else if decide (k = h) then Some (QueueNode <$> l1 ++ r :: l2) else list_view (links s) k.
Proof.
  intros Hwf Hview Hlive Hsort Hun Hne. unfold insert_sorted. rewrite (nodes_spec h _ _ Hview).
  destruct (find_larger_spec s sec rs Hlive) as [[-> Hall]|(l1 & p & l2 & -> & -> & Hall & Hlt)]; cbn [mbind exec_bind].
  - exists rs, [], (list_add_tail (QueueNode r) h (links s)). split_and!; [by rewrite app_nil_r|done|done|done| |].
    + by eapply links_wf_add_tail.
    + intros k. rewrite (view_add_tail _ _ _ _ _ Hwf Hun Hview Hne). by rewrite fmap_app.
  - assert (QueueNode p ∈ QueueNode <$> l1 ++ p :: l2) as Hin
      by (apply list_elem_of_fmap_2, elem_of_app; right; left).
    exists l1, (p :: l2), (list_add_tail (QueueNode r) (QueueNode p) (links s)). split_and!; [done|done| |done| |].
    + constructor; [done|]. unfold by_sector in Hsort. apply StronglySorted_app_1_r in Hsort.
      inversion Hsort as [|? ? _ Hp]; subst. eapply Forall_impl; [exact Hp|]. simpl. lia.
    + by eapply links_wf_add_before.
    + intros k. rewrite (view_add_before _ _ _ _ _ _ Hwf Hun Hview Hne Hin).
      rewrite !fmap_app, !fmap_cons. rewrite insert_before_here; [done|].
      pose proof (links_nodup _ Hwf _ _ Hview) as Hnd. rewrite fmap_app, fmap_cons in Hnd.
      apply list.NoDup_app in Hnd as (_ & Hdis & _). intros Hl1. apply (Hdis _ Hl1). left.
Qed.

Lemma by_sector_insert s l1 l2 r :
  by_sector s (l1 ++ l2) -> Forall (fun p => sector_of s p <= sector_of s r) l1 ->
  Forall (fun p => sector_of s r < sector_of s p) l2 -> by_sector s (l1 ++ r :: l2).
Proof.
  intros Hs H1 H2. induction l1 as [|x l1 IH]; simpl in *.
  - constructor; [done|]. eapply Forall_impl; [exact H2|]. simpl. lia.
  - inversion Hs as [|? ? Hs' Hx]; subst. apply Forall_cons_iff in H1 as [Hxr H1].
    constructor; [by apply IH|]. apply Forall_app in Hx as [Hx1 Hx2]. apply Forall_app. split; [done|].
    by constructor.
Qed.

Lemma by_sector_filter s (P : nat -> Prop) `{!forall x, Decision (P x)} rs :
  by_sector s rs -> by_sector s (filter P rs).
Proof.
  intros Hs. induction Hs as [|r rs Hs IH Hr]; [constructor|]. rewrite filter_cons. case_decide; [|done].
  constructor; [done|]. rewrite Forall_forall in *. intros x. rewrite list_elem_of_filter. intros [_ Hx]. by apply Hr.
Qed.

Lemma live_filter s (P : nat -> Prop) `{!forall x, Decision (P x)} rs : live s rs -> live s (filter P rs).
Proof. intros Hl r. rewrite list_elem_of_filter. intros [_ Hr]. by apply Hl. Qed.

End sorted.

Section deadline.
Context {L : Type} `{!ListHead node L} `{!ListLaws node L}.
Variable jiffies_to_msecs : Z -> Z.
Implicit Types (s : sched L) (d : dq).

(** The scheduler state [s] implements the abstract state [d]. *)
Record dq_rel s d : Prop := {
  rel_wf : links_wf (links s);
  rel_sorted : list_view (links s) (DispatchHead IOSCHED_DEADLINE) = Some (QueueNode <$> dq_sorted d);
  rel_reads : list_view (links s) ReadFifo = Some (FioNode <$> dq_reads d);
  rel_writes : list_view (links s) WriteFifo = Some (FioNode <$> dq_writes d);
  rel_perm : dq_sorted d ≡ₚ dq_reads d ++ dq_writes d;
  rel_live : live s (dq_sorted d);
  rel_order : by_sector s (dq_sorted d);
  rel_ops : Forall (fun r => exists x, reqs s !! r = Some x /\ op x = BIO_OP_READ) (dq_reads d) /\
            Forall (fun r => exists x, reqs s !! r = Some x /\ op x <> BIO_OP_READ) (dq_writes d)
}.

(** The request is older than the limit. *)
Definition expired s (limit now : Z) (r : nat) : bool :=
  match reqs s !! r with
  | Some x => limit <=? jiffies_to_msecs (u64 (now - jiffies x))
  | None => false
  end.

(** The choice of the scheduler: the read at the head of its FIFO if that is too
    old, else the write at the head of its FIFO if that is too old, else the
    lowest sector. *)
Definition dq_choice s (now : Z * Z) d : option nat :=
  match dq_reads d, dq_writes d with
  | r :: _, _ => if expired s (read_deadline s) now.1 r then Some r
                 else match dq_writes d with
                      | w :: _ => if expired s (write_deadline s) now.2 w then Some w else head (dq_sorted d)
                      | [] => head (dq_sorted d)
                      end
  | [], w :: _ => if expired s (write_deadline s) now.2 w then Some w else head (dq_sorted d)
  | [], [] => None
  end.

Lemma dq_nodup s d : dq_rel s d -> NoDup (dq_sorted d) /\ NoDup (dq_reads d ++ dq_writes d).
Proof.
  intros H. destruct H. pose proof (links_nodup _ rel_wf0 _ _ rel_sorted0) as Hnd.
  apply NoDup_fmap_1 in Hnd. split; [done|]. by rewrite <- rel_perm0.
Qed.

Lemma dq_member s d r : dq_rel s d -> r ∈ dq_sorted d <-> r ∈ dq_reads d \/ r ∈ dq_writes d.
Proof. intros []. rewrite rel_perm0. apply elem_of_app. Qed.

Lemma Forall_filter_sub (P Q : nat -> Prop) `{!forall x, Decision (P x)} (l : list nat) :
  Forall Q l -> Forall Q (filter P l).
Proof. rewrite !Forall_forall. intros Hl x. rewrite list_elem_of_filter. intros [_ Hx]. by apply Hl. Qed.

Lemma filter_ne_perm (r : nat) (l k : list nat) : l ≡ₚ k -> filter (.≠ r) l ≡ₚ filter (.≠ r) k.
Proof. by intros ->. Qed.

(** The FIFO a queued request is in. *)
Lemma dq_fifo s d r :
  dq_rel s d -> r ∈ dq_sorted d ->
  exists fifo xs, list_view (links s) fifo = Some (FioNode <$> xs) /\ r ∈ xs /\
    ((fifo = ReadFifo /\ xs = dq_reads d /\ r ∉ dq_writes d) \/
     (fifo = WriteFifo /\ xs = dq_writes d /\ r ∉ dq_reads d)).
Proof.
  intros Hrel Hr. pose proof Hrel as []. pose proof (dq_nodup s d Hrel) as [_ Hnd].
  apply list.NoDup_app in Hnd as (_ & Hdis & _).
  apply (dq_member s d r Hrel) in Hr as [Hr|Hr].
  - exists ReadFifo, (dq_reads d). split_and!; [done..|]. left. split_and!; [done..|]. by apply Hdis.
  - exists WriteFifo, (dq_writes d). split_and!; [done..|]. right. split_and!; [done..|].
    intros Hrd. by eapply Hdis.
Qed.

(** The heads of the scheduler's three lists. *)
Definition deadline_heads : list node := [DispatchHead IOSCHED_DEADLINE; ReadFifo; WriteFifo].

(** The lists after both nodes of a queued request were unlinked. *)
Definition unlinked_view (l l0 : L) (r : nat) (fifo : node) (xs sorted : list nat) : Prop :=
  forall k, list_view l k = if decide (k = fifo) then Some (FioNode <$> filter (.≠ r) xs)
    else if decide (k = DispatchHead IOSCHED_DEADLINE) then Some (QueueNode <$> filter (.≠ r) sorted)
    else list_view l0 k.

Lemma unlink_both (l l0 : L) r fifo xs sorted :
  links_wf l0 -> list_view l0 fifo = Some (FioNode <$> xs) -> r ∈ xs ->
  list_view l0 (DispatchHead IOSCHED_DEADLINE) = Some (QueueNode <$> sorted) -> r ∈ sorted ->
  fifo <> DispatchHead IOSCHED_DEADLINE ->
  l = list_del (QueueNode r) (list_del (FioNode r) l0) \/ l = list_del (FioNode r) (list_del (QueueNode r) l0) ->
  links_wf l /\ unlinked_view l l0 r fifo xs sorted.
Proof.
  intros Hwf Hf Hx Hs Hr Hne Hl.
  assert (FioNode r ∈ FioNode <$> xs) as Hin by (by apply list_elem_of_fmap_2).
  assert (QueueNode r ∈ QueueNode <$> sorted) as Hqin by (by apply list_elem_of_fmap_2).
  destruct Hl as [-> | ->].
  - pose proof (links_wf_del _ _ _ _ Hwf Hf Hin) as Hwf'.
    assert (list_view (list_del (FioNode r) l0) (DispatchHead IOSCHED_DEADLINE) = Some (QueueNode <$> sorted))
      as Hs' by (rewrite (view_del _ _ _ _ _ Hwf Hf Hin), decide_False by done; exact Hs).
    split; [by eapply links_wf_del|]. intros k.
    rewrite (view_del _ _ _ _ _ Hwf' Hs' Hqin), (view_del _ _ _ _ _ Hwf Hf Hin).
    rewrite !filter_ne_fmap by apply _. by repeat case_decide; subst.
  - pose proof (links_wf_del _ _ _ _ Hwf Hs Hqin) as Hwf'.
    assert (list_view (list_del (QueueNode r) l0) fifo = Some (FioNode <$> xs))
      as Hf' by (rewrite (view_del _ _ _ _ _ Hwf Hs Hqin), decide_False by done; exact Hf).
    split; [by eapply links_wf_del|]. intros k.
    rewrite (view_del _ _ _ _ _ Hwf' Hf' Hin), (view_del _ _ _ _ _ Hwf Hs Hqin).
    by rewrite !filter_ne_fmap by apply _.
Qed.

(** Neither node of the request is linked afterwards. *)
Lemma unlink_both_unlinked (l l0 : L) r fifo xs sorted :
  links_wf l0 -> list_view l0 fifo = Some (FioNode <$> xs) -> r ∈ xs ->
  list_view l0 (DispatchHead IOSCHED_DEADLINE) = Some (QueueNode <$> sorted) -> r ∈ sorted ->
  unlinked_view l l0 r fifo xs sorted -> fifo = ReadFifo \/ fifo = WriteFifo ->
  unlinked (QueueNode r) l /\ unlinked (FioNode r) l.
Proof.
  intros Hwf Hf Hx Hs Hr Hv Hfifo.
  assert (FioNode r ∈ FioNode <$> xs) as Hin by (by apply list_elem_of_fmap_2).
  assert (QueueNode r ∈ QueueNode <$> sorted) as Hqin by (by apply list_elem_of_fmap_2).
  assert (forall n, n = QueueNode r \/ n = FioNode r -> list_view l0 n = None) as Hnone.
  { intros n [-> | ->]; [exact (links_node _ Hwf _ _ _ Hs Hqin)|exact (links_node _ Hwf _ _ _ Hf Hin)]. }
  assert (forall n, n = QueueNode r \/ n = FioNode r -> unlinked n l) as Hun; [|by split; apply Hun; auto].
  intros n Hn. split.
  - left. rewrite Hv, !decide_False; [by apply Hnone|by destruct Hn as [-> | ->]|].
    destruct Hn as [-> | ->], Hfifo as [-> | ->]; done.
  - intros k ys. rewrite Hv. destruct (decide (k = fifo)) as [->|Hk1].
    { intros [= <-] (y & Heq & Hy)%list_elem_of_fmap. apply list_elem_of_filter in Hy as [Hne _].
      by destruct Hn as [-> | ->]; simplify_eq. }
    destruct (decide (k = _)) as [->|Hk2].
    { intros [= <-] (y & Heq & Hy)%list_elem_of_fmap. apply list_elem_of_filter in Hy as [Hne _].
      by destruct Hn as [-> | ->]; simplify_eq. }
    intros Hy Hmem. destruct Hn as [-> | ->].
    + apply Hk2. exact (links_disjoint _ Hwf _ _ _ _ _ Hy Hs Hmem Hqin).
    + apply Hk1. exact (links_disjoint _ Hwf _ _ _ _ _ Hy Hf Hmem Hin).
Qed.

(** Unlinking both nodes of a queued request, in either order, removes it from
    the abstract state. *)
Lemma dq_unlink s d r l :
  dq_rel s d -> r ∈ dq_sorted d ->
  l = list_del (QueueNode r) (list_del (FioNode r) (links s)) \/
  l = list_del (FioNode r) (list_del (QueueNode r) (links s)) ->
  dq_rel (set_links l s) (dq_remove r d) /\ (unlinked (QueueNode r) l /\ unlinked (FioNode r) l) /\
  forall k, k ∉ deadline_heads -> list_view l k = list_view (links s) k.
Proof.
  intros Hrel Hr Hl. pose proof Hrel as [Hwf Hs Hrd Hwr Hp Hlive Hord [Hor How]].
  destruct (dq_fifo s d r Hrel Hr) as (fifo & xs & Hf & Hx & Hcase).
  assert (fifo = ReadFifo \/ fifo = WriteFifo) as Hfifo by tauto.
  destruct (unlink_both l (links s) r fifo xs (dq_sorted d)) as [Hwf' Hv]; try done.
  { by destruct Hfifo as [-> | ->]. }
  split; [|split; [by apply (unlink_both_unlinked l (links s) r fifo xs (dq_sorted d))|]].
  2: { intros k Hk. unfold deadline_heads in Hk. rewrite !not_elem_of_cons in Hk. destruct Hk as (? & ? & ? & _).
       rewrite Hv, !decide_False; [done|done|]. by destruct Hfifo as [-> | ->]. }
  split; simpl; try done.
  - rewrite Hv, decide_False, decide_True; [done|done|by destruct Hfifo as [-> | ->]].
  - rewrite Hv. destruct Hcase as [(-> & -> & Hn)|(-> & -> & Hn)]; [done|].
    rewrite !decide_False by done. by rewrite filter_ne_notin.
  - rewrite Hv. destruct Hcase as [(-> & -> & Hn)|(-> & -> & Hn)]; [|done].
    rewrite !decide_False by done. by rewrite filter_ne_notin.
  - rewrite <- list.filter_app. by apply filter_ne_perm.
  - by apply live_filter.
  - by apply by_sector_filter.
  - split; by apply Forall_filter_sub.
Qed.

(** The test of one FIFO. *)
Lemma fifo_expired_spec s fifo limit now xs :
  list_view (links s) fifo = Some (FioNode <$> xs) -> live s xs ->
  fifo_expired jiffies_to_msecs s fifo limit now
  = Ok (match xs with r :: _ => expired s limit now r | [] => false end).
Proof.
  intros Hv Hlive. unfold fifo_expired. rewrite (empty_spec _ _ _ Hv). destruct xs as [|r xs]; [done|]. simpl.
  rewrite fmap_cons in Hv. rewrite (next_spec _ _ _ _ Hv). cbn [entry mbind exec_bind].
  unfold get_req, expired. destruct (Hlive r) as [x ->]; [left|]. done.
Qed.

Lemma dq_live_fifos s d : dq_rel s d -> live s (dq_reads d) /\ live s (dq_writes d).
Proof.
  intros Hrel. pose proof Hrel as []. split; intros r Hr; apply rel_live0, (dq_member s d r Hrel); auto.
Qed.

(** What a dispatch of [o] leaves behind. *)
Definition dispatched_as s d (s' : sched L) (o : option nat) : Prop :=
  match o with
  | None => s' = s /\ dq_sorted d = []
  | Some r => r ∈ dq_sorted d /\ dq_rel s' (dq_remove r d) /\
              unlinked (QueueNode r) (links s') /\ unlinked (FioNode r) (links s') /\
              reqs s' = reqs s /\ current_iosched s' = current_iosched s /\
              forall k, k ∉ deadline_heads -> list_view (links s') k = list_view (links s) k
  end.

Lemma unlink_dispatched s d r l :
  dq_rel s d -> r ∈ dq_sorted d ->
  l = list_del (QueueNode r) (list_del (FioNode r) (links s)) \/
  l = list_del (FioNode r) (list_del (QueueNode r) (links s)) ->
  dispatched_as s d (set_links l s) (Some r).
Proof. intros Hrel Hr Hl. destruct (dq_unlink s d r l Hrel Hr Hl) as (H1 & [H2 H3] & H4). by split_and!. Qed.

(** The last case: the request of the lowest sector. *)
Lemma dispatch_lowest s d :
  dq_rel s d ->
  exists s', (if negb (list_empty (DispatchHead IOSCHED_DEADLINE) (links s)) then
      r ← entry (list_next (DispatchHead IOSCHED_DEADLINE) (links s));
      Ok (set_links (list_del (FioNode r) (list_del (QueueNode r) (links s))) s, Some r)
    else Ok (s, None)) = Ok (s', head (dq_sorted d)) /\ dispatched_as s d s' (head (dq_sorted d)).
Proof.
  intros Hrel. pose proof (rel_sorted _ _ Hrel) as Hs. rewrite (empty_spec _ _ _ Hs).
  pose proof (fun r l => unlink_dispatched s d r l Hrel) as Hgo. unfold dispatched_as in *.
  destruct (dq_sorted d) as [|r rs]; [by exists s|]. rewrite fmap_cons in *. simpl negb. cbn iota.
  rewrite (next_spec _ _ _ _ Hs). cbn [entry mbind exec_bind head]. eexists. split; [done|].
  apply Hgo; [left|by right].
Qed.

Lemma deadline_dispatch_effect s d now :
  dq_rel s d ->
  exists s', deadline_dispatch jiffies_to_msecs s now = Ok (s', dq_choice s now d) /\
    dispatched_as s d s' (dq_choice s now d).
Proof.
  intros Hrel. pose proof Hrel as [Hwf Hs Hrd Hwr Hp Hlive Hord Hops].
  destruct (dq_live_fifos s d Hrel) as [Hlr Hlw].
  unfold deadline_dispatch, deadline_read_expired, deadline_write_expired.
  rewrite (fifo_expired_spec s ReadFifo _ now.1 (dq_reads d)), (fifo_expired_spec s WriteFifo _ now.2 (dq_writes d)) by done.
  cbn [mbind exec_bind].
  pose proof (fun r l => unlink_dispatched s d r l Hrel) as Hgo.
  assert (forall r, r ∈ dq_reads d \/ r ∈ dq_writes d -> r ∈ dq_sorted d) as Hmem
    by (intros; by apply (dq_member s d _ Hrel)).
  pose proof (dispatch_lowest s d Hrel) as Hsorted.
  unfold dq_choice. destruct (dq_reads d) as [|r rds] eqn:Er.
  - destruct (dq_writes d) as [|w wrs] eqn:Ew.
    + assert (dq_sorted d = []) as E by (by apply Permutation_nil). rewrite E in Hsorted. exact Hsorted.
    + destruct (expired s (write_deadline s) now.2 w); [|exact Hsorted].
      rewrite fmap_cons in Hwr. rewrite (next_spec _ _ _ _ Hwr). cbn [entry mbind exec_bind].
      eexists. split; [done|]. apply Hgo; [apply Hmem; right; left|by left].
  - destruct (expired s (read_deadline s) now.1 r).
    { rewrite fmap_cons in Hrd. rewrite (next_spec _ _ _ _ Hrd). cbn [entry mbind exec_bind].
      eexists. split; [done|]. apply Hgo; [apply Hmem; left; left|by left]. }
    destruct (dq_writes d) as [|w wrs] eqn:Ew; [exact Hsorted|].
    destruct (expired s (write_deadline s) now.2 w); [|exact Hsorted].
    rewrite fmap_cons in Hwr. rewrite (next_spec _ _ _ _ Hwr). cbn [entry mbind exec_bind].
    eexists. split; [done|]. apply Hgo; [apply Hmem; right; left|by left].
Qed.

(** C4: whenever requests are pending a dispatch returns one: the read that
    was added first if it is past its deadline at the first reading of the
    clock, else the write that was added first if it is past its deadline at the
    second reading, else the request of the lowest sector; it leaves its FIFO and
    the sorted list, and the remaining requests are unchanged.  Only the heads of
    the FIFOs are tested, which are in the order of addition. *)
Theorem deadline_dispatch_correct s d now :
  dq_rel s d ->
  exists s', deadline_dispatch jiffies_to_msecs s now = Ok (s', dq_choice s now d) /\
    dispatched_as s d s' (dq_choice s now d).
Proof. apply deadline_dispatch_effect. Qed.

(** The first half of the addition: the FIFO. *)
Lemma add_fifo (l : L) r fifo xs :
  links_wf l -> list_view l fifo = Some (FioNode <$> xs) -> fifo = ReadFifo \/ fifo = WriteFifo ->
  unlinked (FioNode r) l -> unlinked (QueueNode r) l ->
  links_wf (list_add_tail (FioNode r) fifo l) /\ unlinked (QueueNode r) (list_add_tail (FioNode r) fifo l) /\
  forall k, list_view (list_add_tail (FioNode r) fifo l) k =
    if decide (k = FioNode r) then None else if decide (k = fifo) then Some (FioNode <$> xs ++ [r]) else list_view l k.
Proof.
  intros Hwf Hf Hfifo Hu [Hq1 Hq2]. assert (FioNode r <> fifo) as Hne by (by destruct Hfifo as [-> | ->]).
  pose proof (fun k => view_add_tail _ _ k _ _ Hwf Hu Hf Hne) as Hv.
  split; [by eapply links_wf_add_tail|]. split; [split|].
  - rewrite Hv, !decide_False; [done|by destruct Hfifo as [-> | ->]|done].
  - intros k ys. rewrite Hv. repeat case_decide; intros; simplify_eq; [|by eapply Hq2].
    rewrite elem_of_app, list_elem_of_singleton. intros [?|?]; [by eapply Hq2|done].
  - intros k. rewrite Hv. by rewrite fmap_app.
Qed.

Lemma deadline_add_effect s d r req :
  dq_rel s d -> reqs s !! r = Some req -> r ∉ dq_sorted d ->
  unlinked (QueueNode r) (links s) -> unlinked (FioNode r) (links s) ->
  exists s' l1 l2, deadline_add_request s r = Ok s' /\ dq_sorted d = l1 ++ l2 /\
    Forall (fun p => sector_of s p <= sector req) l1 /\ Forall (fun p => sector req < sector_of s p) l2 /\
    reqs s' = reqs s /\ current_iosched s' = current_iosched s /\
    (forall k, k ∉ deadline_heads -> k <> QueueNode r -> k <> FioNode r -> list_view (links s') k = list_view (links s) k) /\
    dq_rel s' (if op req =? BIO_OP_READ then Dq (l1 ++ r :: l2) (dq_reads d ++ [r]) (dq_writes d)
               else Dq (l1 ++ r :: l2) (dq_reads d) (dq_writes d ++ [r])).
Proof.
  intros Hrel Hreq Hnew Hq Hf. pose proof Hrel as [Hwf Hs Hrd Hwr Hp Hlive Hord [Hor How]].
  assert (sector_of s r = sector req) as Hsec by (unfold sector_of; by rewrite Hreq).
  set (rd := op req =? BIO_OP_READ). set (fifo := if rd then ReadFifo else WriteFifo).
  set (xs := if rd then dq_reads d else dq_writes d).
  assert (list_view (links s) fifo = Some (FioNode <$> xs)) as Hfv by (by subst fifo xs; destruct rd).
  assert (fifo = ReadFifo \/ fifo = WriteFifo) as Hfifo by (subst fifo; destruct rd; auto).
  destruct (add_fifo (links s) r fifo xs Hwf Hfv Hfifo Hf Hq) as (Hwf1 & Hq1 & Hv1).
  unfold deadline_add_request, get_req. rewrite Hreq. cbn [mbind exec_bind].
  replace (if op req =? BIO_OP_READ then _ else _) with (set_links (list_add_tail (FioNode r) fifo (links s)) s)
    by (subst fifo; fold rd; by destruct rd).
  assert (list_view (list_add_tail (FioNode r) fifo (links s)) (DispatchHead IOSCHED_DEADLINE)
    = Some (QueueNode <$> dq_sorted d)) as Hs1.
  { rewrite Hv1, !decide_False; [done|by destruct Hfifo as [-> | ->]|done]. }
  destruct (insert_sorted_spec (set_links (list_add_tail (FioNode r) fifo (links s)) s)
    (DispatchHead IOSCHED_DEADLINE) r (sector req) (dq_sorted d)) as (l1 & l2 & l & Hsplit & H1 & H2 & -> & Hwf2 & Hv2);
    try done.
  assert (forall k, list_view l k = if decide (k = QueueNode r) then None
    else if decide (k = DispatchHead IOSCHED_DEADLINE) then Some (QueueNode <$> l1 ++ r :: l2)
    else if decide (k = FioNode r) then None else if decide (k = fifo) then Some (FioNode <$> xs ++ [r])
    else list_view (links s) k) as Hv by (intros k; rewrite Hv2; simpl; by rewrite Hv1).
  exists (set_links l (set_links (list_add_tail (FioNode r) fifo (links s)) s)), l1, l2. split_and!; try done.
  { intros k Hk Hkq Hkf. unfold deadline_heads in Hk. rewrite !not_elem_of_cons in Hk. destruct Hk as (? & ? & ? & _).
    rewrite Hv, !decide_False; [done| |done..]. subst fifo. by destruct rd. }
  assert (live s (l1 ++ r :: l2)) as Hlive'.
  { intros p. rewrite elem_of_app, elem_of_cons. intros Hin. destruct (decide (p = r)) as [->|]; [eauto|].
    apply Hlive. rewrite Hsplit, elem_of_app. tauto. }
  assert (by_sector s (l1 ++ r :: l2)) as Hord'.
  { rewrite Hsplit in Hord. apply by_sector_insert; [done|by rewrite Hsec..]. }
  assert (l1 ++ r :: l2 ≡ₚ r :: dq_sorted d) as Hperm by (rewrite Hsplit; by rewrite Permutation_middle).
  clear Hv1 Hv2. subst fifo xs. destruct rd eqn:Erd; subst rd;
    (split; simpl; [done|rewrite Hv; by rewrite ?decide_False, ?decide_True by done..| |done|done|]).
  - rewrite Hperm, Hp, <- app_assoc. simpl. apply Permutation_middle.
  - split; [|done]. apply Forall_app. split; [done|]. constructor; [|done]. exists req. split; [done|]. by apply Z.eqb_eq.
  - rewrite Hperm, Hp, app_assoc. apply Permutation_cons_append.
  - split; [done|]. apply Forall_app. split; [done|]. constructor; [|done]. exists req. split; [done|]. by apply Z.eqb_neq.
Qed.

(** Adding a request queues it in sector order, behind the pending requests
    of the same sector, and at the end of the FIFO of its direction; no other
    request moves. *)
Theorem deadline_add_correct s d r req :
  dq_rel s d -> reqs s !! r = Some req -> r ∉ dq_sorted d ->
  unlinked (QueueNode r) (links s) -> unlinked (FioNode r) (links s) ->
  exists s' l1 l2, deadline_add_request s r = Ok s' /\ dq_sorted d = l1 ++ l2 /\
    Forall (fun p => sector_of s p <= sector req) l1 /\ Forall (fun p => sector req < sector_of s p) l2 /\
    reqs s' = reqs s /\ current_iosched s' = current_iosched s /\
    (forall k, k ∉ deadline_heads -> k <> QueueNode r -> k <> FioNode r -> list_view (links s') k = list_view (links s) k) /\
    dq_rel s' (if op req =? BIO_OP_READ then Dq (l1 ++ r :: l2) (dq_reads d ++ [r]) (dq_writes d)
               else Dq (l1 ++ r :: l2) (dq_reads d) (dq_writes d ++ [r])).
Proof. apply deadline_add_effect. Qed.

End deadline.

(** ** noop and cfq *)

Section others.
Context {L : Type} `{!ListHead node L} `{!ListLaws node L}.
Variable jiffies_to_msecs : Z -> Z.
Implicit Types s : sched L.

(** noop is a FIFO: a request is appended, and the oldest one is dispatched. *)
Theorem noop_fifo s q r :
  links_wf (links s) -> list_view (links s) (DispatchHead IOSCHED_NONE) = Some (QueueNode <$> q) ->
  unlinked (QueueNode r) (links s) ->
  links_wf (links (noop_add_request s r)) /\
  list_view (links (noop_add_request s r)) (DispatchHead IOSCHED_NONE) = Some (QueueNode <$> q ++ [r]) /\
  exists s', noop_dispatch (noop_add_request s r) = Ok (s', head (q ++ [r])) /\
    list_view (links s') (DispatchHead IOSCHED_NONE) = Some (QueueNode <$> tail (q ++ [r])).
Proof.
  intros Hwf Hq Hr. unfold noop_add_request. simpl.
  assert (links_wf (list_add_tail (QueueNode r) (DispatchHead IOSCHED_NONE) (links s))) as Hwf'
    by (by eapply links_wf_add_tail).
  assert (list_view (list_add_tail (QueueNode r) (DispatchHead IOSCHED_NONE) (links s)) (DispatchHead IOSCHED_NONE)
    = Some (QueueNode <$> q ++ [r])) as Hv.
  { rewrite (view_add_tail _ _ _ _ _ Hwf Hr Hq) by done. by rewrite decide_False, decide_True, fmap_app by done. }
  split_and!; [done..|]. unfold noop_dispatch. simpl. rewrite (empty_spec _ _ _ Hv).
  destruct (q ++ [r]) as [|x xs] eqn:E; [by destruct q|]. rewrite fmap_cons in *. simpl.
  rewrite (next_spec _ _ _ _ Hv). cbn [entry mbind exec_bind]. eexists. split; [done|]. simpl.
  rewrite (view_del _ _ _ _ _ Hwf' Hv) by left. rewrite decide_True by done.
  pose proof (links_nodup _ Hwf' _ _ Hv) as Hnd. by rewrite (filter_ne_middle (QueueNode x) [] _ Hnd).
Qed.

(** The switch ends at the first queue, if that has requests. *)
Lemma cfq_select_first s q qs n ns x :
  list_view (links s) CfqQueues = Some (CfqNode <$> q :: qs) -> list_view (links s) (CfqHead q) = Some (n :: ns) ->
  queues s !! q = Some x -> active_queue s = None \/ active_queue s = Some q ->
  exists s1 x1, cfq_select s = Ok s1 /\ active_queue s1 = Some q /\ queues s1 !! q = Some x1 /\
    links s1 = links s /\ reqs s1 = reqs s.
Proof.
  intros Hqs Hq Hx Hact.
  assert (find_busy s (list_nodes CfqQueues (links s)) = Ok (Some q)) as Hbusy.
  { rewrite (nodes_spec _ _ _ Hqs), fmap_cons. cbn [find_busy cfq_entry mbind exec_bind].
    by rewrite (empty_spec _ _ _ Hq). }
  unfold cfq_select, get_queue. rewrite Hbusy. cbn [mbind exec_bind]. rewrite Hx.
  destruct Hact as [Ha|Ha]; rewrite Ha; rewrite ?Hx; cbn [mbind exec_bind].
  - eexists _, _. split; [done|]. split; [done|]. split; [apply lookup_insert_eq|done].
  - destruct (cfq_slice s <=? dispatched x); [|by exists s, x].
    eexists _, _. split; [done|]. split; [done|]. split; [apply lookup_insert_eq|done].
Qed.

(** cfq does not rotate: when its slice ends, the switch picks the first
    process queue that has requests, counting from the head of the list; so
    while the first queue has requests every dispatch serves it and no other
    process is served. *)
Theorem cfq_serves_first_queue s now q qs r rs x req :
  links_wf (links s) -> list_view (links s) CfqQueues = Some (CfqNode <$> q :: qs) ->
  list_view (links s) (CfqHead q) = Some (QueueNode <$> r :: rs) ->
  queues s !! q = Some x -> reqs s !! r = Some req ->
  active_queue s = None \/ active_queue s = Some q ->
  exists s', cfq_dispatch s now = Ok (s', Some r) /\ active_queue s' = Some q /\
    list_view (links s') (CfqHead q) = Some (QueueNode <$> rs) /\
    list_view (links s') CfqQueues = Some (CfqNode <$> q :: qs) /\
    forall p, p <> q -> list_view (links s') (CfqHead p) = list_view (links s) (CfqHead p).
Proof.
  intros Hwf Hqs Hq Hx Hr Hact. rewrite fmap_cons in Hq.
  destruct (cfq_select_first s q qs (QueueNode r) (QueueNode <$> rs) x) as (s1 & x1 & Hsel & Hact1 & Hx1 & Hl1 & Hr1);
    [done..|].
  unfold cfq_dispatch. rewrite Hsel. cbn [mbind exec_bind]. rewrite Hact1, Hl1, (empty_spec _ _ _ Hq).
  rewrite (next_spec _ _ _ _ Hq). cbn [entry mbind exec_bind]. unfold get_req, get_queue. rewrite Hr1, Hr, Hx1.
  cbn [mbind exec_bind]. eexists. split; [done|]. simpl.
  pose proof (fun k => view_del (QueueNode r) (CfqHead q) k (links s) _ Hwf Hq ltac:(left)) as Hv.
  split_and!; [done|..].
  - rewrite Hv, decide_True by done. pose proof (links_nodup _ Hwf _ _ Hq) as Hnd.
    by rewrite (filter_ne_middle (QueueNode r) [] _ Hnd).
  - by rewrite Hv, decide_False by done.
  - intros p Hp. rewrite Hv, decide_False by congruence. done.
Qed.

(** The heads the initialisation functions reset. *)
Definition sched_heads : list node :=
  [DispatchHead IOSCHED_NONE; FifoHead IOSCHED_NONE; DispatchHead IOSCHED_DEADLINE; ReadFifo; WriteFifo;
   DispatchHead IOSCHED_CFQ; CfqQueues].

(** switching schedulers (also to the one in use) reinitialises the lists:
    whatever was pending, the next dispatch finds nothing. *)
Theorem io_sched_set_forgets s name now :
  (forall h, h ∈ sched_heads -> off_lists h (links s)) -> name = "noop"%string \/ name = "deadline"%string \/ name = "cfq"%string ->
  (io_sched_set s name).2 = 0 /\
  iosched_dispatch jiffies_to_msecs (io_sched_set s name).1 now = Ok ((io_sched_set s name).1, None).
Proof.
  intros Hoff%Forall_forall. unfold sched_heads in Hoff. rewrite !Forall_cons in Hoff. destruct Hoff as (? & ? & ? & ? & ? & ? & ? & _).
  intros [-> | [-> | ->]]; (split; [done|]); unfold iosched_dispatch; simpl.
  - unfold noop_dispatch. simpl. rewrite (empty_spec _ _ []); [done|]. rewrite !view_init by (repeat apply off_lists_init; done).
    by rewrite decide_False, decide_True by done.
  - unfold deadline_dispatch, deadline_read_expired, deadline_write_expired, fifo_expired. simpl.
    rewrite !(empty_spec _ _ []); [done|rewrite !view_init by (repeat apply off_lists_init; done); by repeat case_decide..].
  - unfold cfq_dispatch, cfq_select. simpl. rewrite (nodes_spec _ _ []); [done|].
    rewrite view_init by (repeat apply off_lists_init; done). by rewrite decide_True.
Qed.

(** An unknown name is refused and nothing changes. *)
Lemma io_sched_set_unknown s name :
  name <> "noop"%string -> name <> "deadline"%string -> name <> "cfq"%string ->
  io_sched_set s name = (s, - EINVAL).
Proof. intros H1 H2 H3. unfold io_sched_set. by rewrite !bool_decide_false. Qed.

End others.

(** ** Witnesses *)

Section initial.
Context {L : Type} `{!ListHead node L} `{!ListLaws node L}.

Lemma dq_rel_init (s : sched L) : no_nodes (links s) -> dq_rel (deadline_init s) (Dq [] [] []).
Proof.
  intros Hn. split; simpl; try done; rewrite ?view_init by (repeat apply off_lists_init; by apply no_nodes_off); try (by repeat case_decide).
  - by apply no_nodes_wf, no_nodes_init, no_nodes_init, no_nodes_init.
  - by intros r ?%elem_of_nil.
  - constructor.
Qed.

End initial.

(** One request and no links, before and after initialisation. *)
Definition read_req : request := Request 64 8 4096 BIO_OP_READ 0 100 1.
Definition one_req : sched (@store node) :=
  Sched {[ 0%nat := read_req ]} 1 (fun _ => None) 0 0 ∅ 0 None 0 None.

Lemma one_req_unlinked (n : node) :
  n = QueueNode 0 \/ n = FioNode 0 -> unlinked n (links (deadline_init one_req)).
Proof.
  intros [-> | ->]; (split; [by left|]); intros h xs; simpl; repeat case_decide; by intros [= <-] ?%elem_of_nil.
Qed.

Lemma request_merge_union_witness :
  let a := Request 64 8 4096 BIO_OP_READ 0 100 1 in
  let b := Request 72 16 8192 BIO_OP_READ 1 101 1 in
  nr_sectors (request_merge a b) = 24 /\ covers (request_merge a b) 80.
Proof.
  destruct (request_merge_union (Request 64 8 4096 BIO_OP_READ 0 100 1) (Request 72 16 8192 BIO_OP_READ 1 101 1))
    as (_ & _ & Hn & Hc).
  - unfold range_wf. simpl. lia.
  - unfold range_wf. simpl. lia.
  - simpl. lia.
  - reflexivity.
  - split; [exact Hn|]. apply Hc. right. unfold covers. simpl. lia.
Defined.

Lemma deadline_add_correct_witness :
  exists s', deadline_add_request (deadline_init one_req) 0 = Ok s' /\ dq_rel s' (Dq [0%nat] [0%nat] []).
Proof.
  destruct (deadline_add_correct (deadline_init one_req) (Dq [] [] []) 0 read_req)
    as (s' & l1 & l2 & Hadd & Hsplit & _ & _ & _ & _ & _ & Hrel).
  - apply dq_rel_init. discriminate.
  - reflexivity.
  - apply not_elem_of_nil.
  - apply one_req_unlinked. left. reflexivity.
  - apply one_req_unlinked. right. reflexivity.
  - exists s'. split; [exact Hadd|]. symmetry in Hsplit. apply app_nil in Hsplit as [-> ->]. exact Hrel.
Defined.

(** One queued read. *)
Definition one_queued : sched (@store node) :=
  Sched {[ 0%nat := read_req ]} 1
    (fun k => match k with
              | DispatchHead IOSCHED_DEADLINE => Some [QueueNode 0]
              | ReadFifo => Some [FioNode 0]
              | WriteFifo => Some []
              | _ => None
              end) 500 5000 ∅ 0 None 0 (Some IOSCHED_DEADLINE).

Lemma one_queued_rel : dq_rel one_queued (Dq [0%nat] [0%nat] []).
Proof.
  split; try reflexivity.
  - split.
    + intros h1 h2 xs ys n. destruct h1 as [[]| | | | | | | |], h2 as [[]| | | | | | | |]; simpl; try done;
        intros [= <-] [= <-]; rewrite ?list_elem_of_singleton, ?elem_of_nil; naive_solver.
    + intros h xs. destruct h as [[]| | | | | | | |]; simpl; try done; intros [= <-]; apply NoDup_singleton || constructor.
    + intros h xs n. destruct h as [[]| | | | | | | |]; simpl; try done; intros [= <-];
        rewrite ?list_elem_of_singleton, ?elem_of_nil; naive_solver.
  - intros r ->%list_elem_of_singleton. eexists. reflexivity.
  - repeat constructor.
  - split; [|constructor]. constructor; [|constructor]. exists read_req. split; reflexivity.
Qed.

(** Past its deadline the read is dispatched as expired. *)
Lemma deadline_dispatch_correct_witness :
  exists s', deadline_dispatch (fun j => j) one_queued (700, 701) = Ok (s', Some 0%nat) /\
    dispatched_as one_queued (Dq [0%nat] [0%nat] []) s' (Some 0%nat).
Proof. exact (deadline_dispatch_correct (fun j => j) one_queued (Dq [0%nat] [0%nat] []) (700, 701) one_queued_rel). Defined.

(** Two process queues, each with a request; the first one is served. *)
Definition two_queues : sched (@store node) :=
  Sched {[ 0%nat := read_req; 1%nat := read_req ]} 2
    (fun k => match k with
              | CfqQueues => Some [CfqNode 0; CfqNode 1]
              | CfqHead 0 => Some [QueueNode 0]
              | CfqHead 1 => Some [QueueNode 1]
              | _ => None
              end) 0 0
    {[ 0%nat := CfqQueue 10 4096 0 100; 1%nat := CfqQueue 20 0 0 100 ]} 2 (Some 0%nat) 100 (Some IOSCHED_CFQ).

Lemma two_queues_wf : links_wf (links two_queues).
Proof.
  split.
  - intros h1 h2 xs ys n. destruct h1 as [| | | | |[|[|?]]| | |], h2 as [| | | | |[|[|?]]| | |]; simpl; try done;
      intros [= <-] [= <-]; rewrite ?elem_of_cons, elem_of_nil; naive_solver.
  - intros h xs. destruct h as [| | | | |[|[|?]]| | |]; simpl; try done; intros [= <-];
      repeat (apply list.NoDup_cons; split; [rewrite ?elem_of_cons, elem_of_nil; naive_solver|]); constructor.
  - intros h xs n. destruct h as [| | | | |[|[|?]]| | |]; simpl; try done; intros [= <-];
      rewrite ?elem_of_cons, elem_of_nil; naive_solver.
Qed.

Lemma cfq_serves_first_queue_witness :
  exists s', cfq_dispatch two_queues 700 = Ok (s', Some 0%nat) /\ active_queue s' = Some 0%nat /\
    list_view (links s') (CfqHead 1) = Some [QueueNode 1].
Proof.
  destruct (cfq_serves_first_queue two_queues 700 0 [1%nat] 0 [] (CfqQueue 10 4096 0 100) read_req)
    as (s' & Hd & Ha & _ & _ & Hother); try reflexivity.
  - apply two_queues_wf.
  - right. reflexivity.
  - exists s'. split; [exact Hd|]. split; [exact Ha|]. apply (Hother 1%nat). done.
Defined.

Lemma io_sched_set_forgets_witness :
  (io_sched_set two_queues "cfq").2 = 0 /\
  iosched_dispatch (fun j => j) (io_sched_set two_queues "cfq").1 (700, 701) = Ok ((io_sched_set two_queues "cfq").1, None).
Proof.
  apply io_sched_set_forgets; [|right; right; reflexivity]. intros h Hh k xs.
  destruct k as [| | | | |[|[|?]]| | |]; simpl; try discriminate; intros Hk; injection Hk as <-; intros Hin;
    (rewrite list_elem_of_In in Hh, Hin; simpl in Hh, Hin; intuition congruence).
Defined.

Lemma noop_fifo_witness :
  exists s', noop_dispatch (noop_add_request (noop_init one_req) 0) = Ok (s', Some 0%nat).
Proof.
  destruct (noop_fifo (noop_init one_req) [] 0) as (_ & _ & s' & Hd & _).
  - apply no_nodes_wf, no_nodes_init, no_nodes_init. discriminate.
  - reflexivity.
  - split; [by left|]. intros h xs. simpl. repeat case_decide; by intros [= <-] ?%elem_of_nil.
  - exists s'. exact Hd.
Defined.
