(* ===== verification/Futex.v ===== *)
(** * The four locks ([demos/futex/futex_v1_spinlock.c] to [futex_v4_final.c])

    The demos run workers that repeat lock, [counter++], unlock.  A worker is a
    thread of an interleaving semantics in which each atomic instruction, each
    load and store of [counter] and each system call is one step.  A lock is an
    implementation of the interface [LockAlgo]: the local program points of its
    lock and unlock functions and what one step does to the lock word.  The
    theorems are proved against the promises [LockLaws], which the four
    implementations discharge.

    The kernel is not part of the sources: [futex_wait] sleeps exactly when the
    word still has the expected value, sleepers may wake spuriously at any time,
    and which sleeper [futex_wake(&lock, 1)] wakes is the parameter [wakes] of
    [FutexKernel]; it wakes a sleeper when there is one.  Memory is sequentially
    consistent. *)
From Stdlib Require Import ZArith Lia.
From stdpp Require Import base numbers list option relations.
From S2P Require Import Prelude.

Open Scope Z_scope.

(** ** Interfaces *)

(** Outcome of one step inside the lock function. *)
Inductive lock_out (P : Type) := LGoto (p : P) | LEnter | LBlock (p : P).
Arguments LGoto {P} _.
Arguments LEnter {P}.
Arguments LBlock {P} _.

(** Outcome of one step inside the unlock function; [UWake] is the call of
    [futex_wake(&lock, 1)] that ends it. *)
Inductive unlock_out (U : Type) := UGoto (u : U) | ULeave | UWake.
Arguments UGoto {U} _.
Arguments ULeave {U}.
Arguments UWake {U}.

Class LockAlgo := {
  lpc : Type;
  upc : Type;
  lock_entry : lpc;
  unlock_entry : upc;
  lock_run : lpc -> Z -> Z * lock_out lpc;
  unlock_run : upc -> Z -> Z * unlock_out upc
}.

(** What a lock promises to its users. *)
Class LockLaws (A : LockAlgo) := {
  (** program points of the lock function that can occur *)
  lock_ok : lpc -> Prop;
  (** program points of the unlock function before the word is cleared *)
  uholds : upc -> bool;
  (** the lock can put a thread to sleep *)
  blocks : bool;
  lock_ok_entry : lock_ok lock_entry;
  lock_enter p l l' : lock_ok p -> 0 <= l <= 1 -> lock_run p l = (l', LEnter) -> l = 0 /\ l' = 1;
  lock_goto p l l' q : lock_ok p -> 0 <= l <= 1 -> lock_run p l = (l', LGoto q) -> l' = l /\ lock_ok q;
  lock_block p l l' q : lock_ok p -> 0 <= l <= 1 -> lock_run p l = (l', LBlock q) ->
    l' = l /\ l = 1 /\ lock_ok q /\ blocks = true;
  unlock_entry_holds : uholds unlock_entry = true;
  unlock_goto u l l' v : unlock_run u l = (l', UGoto v) ->
    if uholds u then (uholds v = true /\ l' = l) \/ (uholds v = false /\ l' = 0)
    else uholds v = false /\ l' = l;
  unlock_leave u l l' : unlock_run u l = (l', ULeave) -> blocks = false /\ l' = if uholds u then 0 else l;
  unlock_wake u l l' : unlock_run u l = (l', UWake) -> l' = if uholds u then 0 else l
}.

(** [futex_wake(&lock, 1)]: from the list of sleepers, whom the kernel wakes. *)
Class FutexKernel := {
  wakes : list nat -> option nat -> Prop;
  wakes_waiter ws i : wakes ws (Some i) -> i ∈ ws;
  wakes_someone ws : wakes ws None -> ws = [];
  wakes_total ws : exists o, wakes ws o
}.

(** A kernel that wakes the first sleeper. *)
#[export] Instance fifo_kernel : FutexKernel.
Proof.
  refine {| wakes ws o := o = head ws |}.
  - intros [|x ws] i; intros [=]; subst; left.
  - by intros [|x ws].
  - eauto.
Defined.

(** ** The workers *)

Section machine.
Context {A : LockAlgo} {K : FutexKernel}.

(** A thread is inside lock, before the load or the store of [counter++], inside
    unlock, asleep in [futex_wait] (to resume inside lock), or finished. *)
Inductive tstate :=
  | AtLock (p : lpc) | AtLoad | AtStore (r : Z) | AtUnlock (u : upc) | Asleep (p : lpc) | Finished.

(** The iterations left, the current one included. *)
Record thread := Thread { th_state : tstate; th_left : nat }.

Record config := Config { cf_lock : Z; cf_counter : Z; cf_threads : list thread }.

(** The end of an iteration of [worker]. *)
Definition next_iteration (n : nat) : thread :=
  match n with
  | S (S n') => Thread (AtLock lock_entry) (S n')
  | _ => Thread Finished 0
  end.

(** Indices of the sleeping threads. *)
Definition asleep (t : thread) : bool := match th_state t with Asleep _ => true | _ => false end.
Definition sleepers (ts : list thread) : list nat :=
  imap (fun i t => (i, t)) ts ≫= fun '(i, t) => if asleep t then [i] else [].

(** A sleeper resumes. *)
Definition resume (t : thread) : thread :=
  match th_state t with Asleep p => Thread (AtLock p) (th_left t) | _ => t end.

Inductive cstep : config -> config -> Prop :=
  | step_lock_goto l c ts i p n l' q :
      ts !! i = Some (Thread (AtLock p) n) -> lock_run p l = (l', LGoto q) ->
      cstep (Config l c ts) (Config l' c (<[i := Thread (AtLock q) n]> ts))
  | step_lock_enter l c ts i p n l' :
      ts !! i = Some (Thread (AtLock p) n) -> lock_run p l = (l', LEnter) ->
      cstep (Config l c ts) (Config l' c (<[i := Thread AtLoad n]> ts))
  | step_lock_block l c ts i p n l' q :
      ts !! i = Some (Thread (AtLock p) n) -> lock_run p l = (l', LBlock q) ->
      cstep (Config l c ts) (Config l' c (<[i := Thread (Asleep q) n]> ts))
  | step_load l c ts i n :
      ts !! i = Some (Thread AtLoad n) ->
      cstep (Config l c ts) (Config l c (<[i := Thread (AtStore c) n]> ts))
  | step_store l c ts i r n :
      ts !! i = Some (Thread (AtStore r) n) ->
      cstep (Config l c ts) (Config l (r + 1) (<[i := Thread (AtUnlock unlock_entry) n]> ts))
  | step_unlock_goto l c ts i u n l' v :
      ts !! i = Some (Thread (AtUnlock u) n) -> unlock_run u l = (l', UGoto v) ->
      cstep (Config l c ts) (Config l' c (<[i := Thread (AtUnlock v) n]> ts))
  | step_unlock_leave l c ts i u n l' :
      ts !! i = Some (Thread (AtUnlock u) n) -> unlock_run u l = (l', ULeave) ->
      cstep (Config l c ts) (Config l' c (<[i := next_iteration n]> ts))
  | step_unlock_wake l c ts i u n l' o :
      ts !! i = Some (Thread (AtUnlock u) n) -> unlock_run u l = (l', UWake) ->
      wakes (sleepers ts) o ->
      cstep (Config l c ts)
        (Config l' c (match o with Some j => alter resume j (<[i := next_iteration n]> ts)
                                 | None => <[i := next_iteration n]> ts end)).

(** A spurious wakeup. *)
Inductive spurious : config -> config -> Prop :=
  | step_spurious l c ts i p n :
      ts !! i = Some (Thread (Asleep p) n) ->
      spurious (Config l c ts) (Config l c (<[i := Thread (AtLock p) n]> ts)).

Definition any_step (c1 c2 : config) : Prop := cstep c1 c2 \/ spurious c1 c2.

(** [main] starts [n] workers of [iters] iterations. *)
Definition start (n iters : nat) : config :=
  {| cf_lock := 0; cf_counter := 0;
     cf_threads := replicate n (match iters with O => Thread Finished 0
                                            | S _ => Thread (AtLock lock_entry) iters end) |}.

Definition reachable (n iters : nat) (c : config) : Prop := rtc any_step (start n iters) c.

(** All workers returned, so [pthread_join] of each returns. *)
Definition finished (t : thread) : bool := match th_state t with Finished => true | _ => false end.
Definition all_joined (c : config) : Prop := Forall (fun t => finished t = true) (cf_threads c).

End machine.
Arguments tstate A : clear implicits.
Arguments thread A : clear implicits.
Arguments config A : clear implicits.

(** ** The implementations *)

(** [spin_lock] and [spin_unlock] of version 1. *)
Definition v1 : LockAlgo := {|
  lpc := unit; upc := unit; lock_entry := tt; unlock_entry := tt;
  lock_run _ l := if l =? 0 then (1, LEnter) else (l, LGoto tt);
  unlock_run _ _ := (0, ULeave)
|}.

(** [spin_lock_yield] of version 2: the local state is [spin_count]; yielding
    changes nothing but the schedule. *)
Definition v2 : LockAlgo := {|
  lpc := Z; upc := unit; lock_entry := 0; unlock_entry := tt;
  lock_run spin_count l :=
    if l =? 0 then (1, LEnter)
    else let spin_count := spin_count + 1 in
         (l, LGoto (if 1000 <? spin_count then 0 else spin_count));
  unlock_run _ _ := (0, ULeave)
|}.

(** [futex_wait(&lock, val)] followed by [next]. *)
Definition futex_wait {P} (l val : Z) (next : P) : Z * lock_out P :=
  if l =? val then (l, LBlock next) else (l, LGoto next).

(** Program points of [futex_lock] of version 3: the first CAS, the first wait,
    the CAS of the loop, the wait of the loop. *)
Inductive v3_pc := V3Cas1 | V3Wait1 | V3Cas2 | V3Wait2.
(** and of [futex_unlock], after the barrier: the store, the wake. *)
Inductive futex_upc := UStore | UWakeCall.

Definition futex_unlock_run (u : futex_upc) (l : Z) : Z * unlock_out futex_upc :=
  match u with
  | UStore => (0, UGoto UWakeCall)
  | UWakeCall => (l, UWake)
  end.

Definition v3 : LockAlgo := {|
  lpc := v3_pc; upc := futex_upc; lock_entry := V3Cas1; unlock_entry := UStore;
  lock_run p l :=
    match p with
    | V3Cas1 => if l =? 0 then (1, LEnter) else (l, LGoto V3Wait1)
    | V3Wait1 => futex_wait l 1 V3Cas2
    | V3Cas2 => if l =? 0 then (1, LEnter) else (l, LGoto V3Wait2)
    | V3Wait2 => futex_wait l 1 V3Cas2
    end;
  unlock_run := futex_unlock_run
|}.

(** Program points of [futex_lock] of version 4: the first CAS, the read of the
    loop, the wait on the value read, the CAS of the loop. *)
Inductive v4_pc := V4Cas1 | V4Read | V4Wait (old : Z) | V4Cas2.

Definition v4 : LockAlgo := {|
  lpc := v4_pc; upc := futex_upc; lock_entry := V4Cas1; unlock_entry := UStore;
  lock_run p l :=
    match p with
    | V4Cas1 => if l =? 0 then (1, LEnter) else (l, LGoto V4Read)
    | V4Read => let old := l in
                if negb (old =? 0) then (l, LGoto (V4Wait old)) else (l, LGoto V4Cas2)
    | V4Wait old => futex_wait l old V4Read
    | V4Cas2 => if l =? 0 then (1, LEnter) else (l, LGoto V4Read)
    end;
  unlock_run := futex_unlock_run
|}.

(** Split the tests of an implementation's step. *)
Ltac lock_cases :=
  intros; repeat match goal with
  | H : context [if ?b then _ else _] |- _ => destruct b eqn:?
  | p : v3_pc |- _ => destruct p
  | p : v4_pc |- _ => destruct p
  | u : futex_upc |- _ => destruct u
  | |- context [if ?b then _ else _] => destruct b eqn:?
  end; simplify_eq; bool_hyps; subst; auto with lia.

#[export] Instance v1_laws : LockLaws v1.
Proof.
  refine {| lock_ok (_ : @lpc v1) := True; uholds (_ : @upc v1) := true; blocks := false |}; simpl; lock_cases; done.
Defined.

#[export] Instance v2_laws : LockLaws v2.
Proof.
  refine {| lock_ok (_ : @lpc v2) := True; uholds (_ : @upc v2) := true; blocks := false |}; simpl; lock_cases; done.
Defined.

#[export] Instance v3_laws : LockLaws v3.
Proof.
  refine {| lock_ok (_ : @lpc v3) := True; blocks := true;
            uholds (u : @upc v3) := match u with UStore => true | UWakeCall => false end |};
    simpl; unfold futex_wait, futex_unlock_run; lock_cases; done.
Defined.

#[export] Instance v4_laws : LockLaws v4.
Proof.
  refine {| lock_ok (p : @lpc v4) := match p with V4Wait old => old <> 0 | _ => True end; blocks := true;
            uholds (u : @upc v4) := match u with UStore => true | UWakeCall => false end |};
    simpl; unfold futex_wait, futex_unlock_run; lock_cases; try done; try lia.
Defined.

(** ** The invariant of every lock *)

Section invariant.
Context {A : LockAlgo} {LL : LockLaws A} {K : FutexKernel}.
Variable iters : nat.
Implicit Types (t : thread A) (ts : list (thread A)).

(** The thread owns the lock word. *)
Definition holder t : bool :=
  match th_state t with AtLoad | AtStore _ => true | AtUnlock u => uholds u | _ => false end.

(** The thread can run without being woken. *)
Definition awake t : bool := negb (asleep t) && negb (finished t).

Definition b2z (b : bool) : Z := if b then 1 else 0.

(** Increments of [counter] the thread has completed. *)
Definition completed t : Z :=
  Z.of_nat iters - Z.of_nat (th_left t) + match th_state t with AtUnlock _ => 1 | _ => 0 end.

Definition thread_ok (c : Z) t : Prop :=
  match th_state t with
  | AtLock p => lock_ok p /\ (1 <= th_left t)%nat
  | Asleep p => lock_ok p /\ (1 <= th_left t)%nat /\ blocks = true
  | AtStore r => r = c /\ (1 <= th_left t)%nat
  | AtLoad | AtUnlock _ => (1 <= th_left t)%nat
  | Finished => th_left t = 0%nat
  end.

Definition core (l c : Z) ts : Prop :=
  0 <= l <= 1 /\ sumZ (b2z ∘ holder <$> ts) = l /\ c = sumZ (completed <$> ts) /\ Forall (thread_ok c) ts.

Definition inv (c : config A) : Prop :=
  core (cf_lock c) (cf_counter c) (cf_threads c) /\
  (Exists (fun t => asleep t = true) (cf_threads c) -> Exists (fun t => awake t = true) (cf_threads c)).

Lemma b2z_nonneg ts : Forall (fun x => 0 <= x) (b2z ∘ holder <$> ts).
Proof. apply Forall_fmap, Forall_true. intros t. unfold compose, b2z. destruct (holder t); lia. Qed.

(** At most one holder. *)
Lemma core_one_holder l c ts i j t t' :
  core l c ts -> ts !! i = Some t -> ts !! j = Some t' -> holder t = true -> holder t' = true -> i = j.
Proof.
  intros (Hl & Hsum & _) Hi Hj Ht Ht'. destruct (decide (i = j)) as [|Hne]; [done|exfalso].
  assert ((b2z ∘ holder <$> ts) !! i = Some 1) as Hi1 by (rewrite list_lookup_fmap, Hi; simpl; by rewrite Ht).
  assert ((b2z ∘ holder <$> ts) !! j = Some 1) as Hj1 by (rewrite list_lookup_fmap, Hj; simpl; by rewrite Ht').
  pose proof (sumZ_insert _ i 1 0 Hi1) as Hins.
  assert (1 <= sumZ (<[i := 0]> (b2z ∘ holder <$> ts))); [|lia]. apply sumZ_elem_le.
  - apply Forall_insert; [apply b2z_nonneg|lia].
  - apply (list_elem_of_lookup_2 _ j). by rewrite list_lookup_insert_ne.
Qed.

(** One thread changes. *)
Lemma core_update l c ts i t t' l' c' :
  core l c ts -> ts !! i = Some t ->
  l' = l - b2z (holder t) + b2z (holder t') -> 0 <= l' <= 1 ->
  c' = c - completed t + completed t' -> thread_ok c' t' -> c' = c \/ holder t = true ->
  core l' c' (<[i := t']> ts).
Proof.
  intros Hcore Hi Hl' Hr Hc' Ht' Hsame. pose proof Hcore as (Hl & Hsum & Hc & Hok). split_and!; [lia..| | |].
  - rewrite list_fmap_insert, (sumZ_insert _ i (b2z (holder t))); [unfold compose in *; lia|].
    by rewrite list_lookup_fmap, Hi.
  - rewrite list_fmap_insert, (sumZ_insert _ i (completed t)); [lia|]. by rewrite list_lookup_fmap, Hi.
  - apply Forall_lookup. intros j u Hj. destruct (decide (i = j)) as [<-|Hne].
    { rewrite list_lookup_insert_eq in Hj by (by eapply lookup_lt_Some). by simplify_eq. }
    rewrite list_lookup_insert_ne in Hj by done. pose proof (Forall_lookup_1 _ _ _ _ Hok Hj) as Hu.
    destruct Hsame as [-> | Hh]; [done|]. unfold thread_ok in *. destruct (th_state u) eqn:Eu; try done.
    exfalso. apply Hne, (core_one_holder l c ts i j t u); try done. unfold holder. by rewrite Eu.
Qed.

Lemma exists_insert ts i t t' : ts !! i = Some t -> awake t' = true -> Exists (fun t => awake t = true) (<[i := t']> ts).
Proof.
  intros Hi Ht. apply Exists_exists. exists t'. split; [|done].
  apply (list_elem_of_lookup_2 _ i), list_lookup_insert_eq. by eapply lookup_lt_Some.
Qed.

(** A step after which the stepping thread is awake. *)
Lemma inv_awake l c ts i t t' l' c' :
  core l c ts -> ts !! i = Some t -> core l' c' (<[i := t']> ts) -> awake t' = true -> inv (Config l' c' (<[i := t']> ts)).
Proof. intros _ Hi Hcore Ht. split; [done|]. intros _. by eapply exists_insert. Qed.

(** A set lock word has an owner, which is awake. *)
Lemma core_holder l c ts : core l c ts -> l = 1 -> exists j t, ts !! j = Some t /\ holder t = true /\ awake t = true.
Proof.
  intros (_ & Hsum & _) ->.
  assert (exists j t, ts !! j = Some t /\ holder t = true) as (j & t & Hj & Ht).
  { induction ts as [|t ts IH]; [done|]. rewrite fmap_cons in Hsum. cbn [sumZ foldr] in Hsum.
    destruct (holder t) eqn:Et; [by exists 0%nat, t|].
    destruct IH as (j & u & Hj & Hu); [unfold compose at 1, b2z at 1 in Hsum; by rewrite Et in Hsum|].
    by exists (S j), u. }
  exists j, t. split; [done|]. split; [done|]. unfold awake, holder, asleep, finished in *. by destruct (th_state t).
Qed.

Lemma sleepers_elem ts i : i ∈ sleepers ts <-> exists t, ts !! i = Some t /\ asleep t = true.
Proof.
  unfold sleepers. rewrite list_elem_of_bind. split.
  - intros ([j t] & Hin & Hj). apply elem_of_lookup_imap in Hj as (j' & t' & [= -> ->] & Hj).
    destruct (asleep t') eqn:Et; [|by apply elem_of_nil in Hin]. apply list_elem_of_singleton in Hin as ->. eauto.
  - intros (t & Ht & Hs). exists (i, t). rewrite Hs. split; [by apply list_elem_of_singleton|].
    apply elem_of_lookup_imap. eauto.
Qed.

Lemma sleepers_nil ts : sleepers ts = [] -> ~ Exists (fun t => asleep t = true) ts.
Proof.
  intros Hn (t & Hin & Ht)%Exists_exists. apply list_elem_of_lookup in Hin as [i Hi].
  assert (i ∈ sleepers ts) as Hs by (apply sleepers_elem; eauto). rewrite Hn in Hs. by apply elem_of_nil in Hs.
Qed.

Lemma next_iteration_spec n : (1 <= n)%nat ->
  th_left (next_iteration n) = (n - 1)%nat /\ holder (next_iteration n) = false /\
  asleep (next_iteration n) = false /\ completed (next_iteration n) = Z.of_nat iters - Z.of_nat n + 1 /\
  forall c, thread_ok c (next_iteration n).
Proof.
  intros Hn. pose proof lock_ok_entry. unfold completed, holder, asleep, thread_ok.
  destruct n as [|[|n]]; simpl; [lia|..]; split_and!; try done; try lia; intros c; simpl; split; [done|lia].
Qed.

Lemma core_thread l c ts i t : core l c ts -> ts !! i = Some t -> thread_ok c t.
Proof. intros (_ & _ & _ & Hok) Hi. by eapply Forall_lookup_1. Qed.

(** The steps inside the lock function. *)
Lemma inv_lock l c ts i p n l' out :
  inv (Config l c ts) -> ts !! i = Some (Thread (AtLock p) n) -> lock_run p l = (l', out) ->
  match out with
  | LGoto q => inv (Config l' c (<[i := Thread (AtLock q) n]> ts))
  | LEnter => inv (Config l' c (<[i := Thread AtLoad n]> ts))
  | LBlock q => inv (Config l' c (<[i := Thread (Asleep q) n]> ts))
  end.
Proof.
  intros [Hcore Haw] Hi Hrun. simpl in *. pose proof Hcore as (Hl & _).
  pose proof (core_thread _ _ _ _ _ Hcore Hi) as [Hok Hn]. simpl in Hn.
  destruct out as [q| |q].
  - destruct (lock_goto p l l' q Hok Hl Hrun) as [-> Hq]. eapply inv_awake; [done..| |done].
    eapply core_update; [done..|simpl; lia|done|unfold completed; simpl; lia|done|by left].
  - destruct (lock_enter p l l' Hok Hl Hrun) as [-> ->]. eapply inv_awake; [done..| |done].
    eapply core_update; [done..|simpl; lia|lia|unfold completed; simpl; lia|done|by left].
  - destruct (lock_block p l l' q Hok Hl Hrun) as (-> & Hl1 & Hq & Hb). split; simpl.
    + eapply core_update; [done..|simpl; lia|done|unfold completed; simpl; lia|done|by left].
    + intros _. destruct (core_holder l c ts Hcore Hl1) as (j & t & Hj & Ht & Ha).
      apply Exists_exists. exists t. split; [|done]. apply (list_elem_of_lookup_2 _ j).
      rewrite list_lookup_insert_ne; [done|]. intros <-. simplify_eq.
Qed.

(** The end of the unlock function, before anyone is woken. *)
Lemma core_leave l c ts i u n l' :
  core l c ts -> ts !! i = Some (Thread (AtUnlock u) n) -> l' = (if uholds u then 0 else l) ->
  core l' c (<[i := next_iteration n]> ts).
Proof.
  intros Hcore Hi Hl'. pose proof Hcore as (Hl & _). pose proof (core_thread _ _ _ _ _ Hcore Hi) as Hn. simpl in Hn.
  destruct (next_iteration_spec n Hn) as (H1 & H2 & H3 & H4 & H5).
  assert (uholds u = true -> l = 1) as Hone.
  { intros Hu. pose proof Hcore as (_ & Hsum & _).
    assert (1 <= sumZ (b2z ∘ holder <$> ts)); [|lia]. apply sumZ_elem_le; [apply b2z_nonneg|].
    apply (list_elem_of_lookup_2 _ i). rewrite list_lookup_fmap, Hi. simpl. unfold holder. simpl. by rewrite Hu. }
  eapply core_update; [done..| | | |apply H5|by left].
  - rewrite H2. unfold holder. simpl. destruct (uholds u); simpl; [|lia]. rewrite Hone by done. lia.
  - destruct (uholds u); lia.
  - rewrite H4. unfold completed. simpl. lia.
Qed.

Lemma core_resume l c ts j t :
  core l c ts -> ts !! j = Some t -> core l c (<[j := resume t]> ts).
Proof.
  intros Hcore Hj. pose proof (core_thread _ _ _ _ _ Hcore Hj) as Hok. pose proof Hcore as (Hl & _).
  assert (holder (resume t) = holder t /\ completed (resume t) = completed t /\ thread_ok c (resume t)) as (H1 & H2 & H3).
  { unfold holder, completed, resume, thread_ok in *. destruct (th_state t) eqn:E; rewrite ?E; simpl; rewrite ?E; tauto. }
  eapply core_update; [done..| | | |done|by left]; rewrite ?H1, ?H2; lia.
Qed.

Lemma alter_resume ts j t : ts !! j = Some t -> alter resume j ts = <[j := resume t]> ts.
Proof.
  intros Hj. apply list_eq. intros k. destruct (decide (j = k)) as [<-|Hne].
  - rewrite list_lookup_alter_eq, Hj, list_lookup_insert_eq by (by eapply lookup_lt_Some). done.
  - by rewrite list_lookup_alter_ne, list_lookup_insert_ne.
Qed.

Lemma inv_wake l c ts i u n l' o :
  inv (Config l c ts) -> ts !! i = Some (Thread (AtUnlock u) n) -> unlock_run u l = (l', UWake) ->
  wakes (sleepers ts) o ->
  inv (Config l' c (match o with Some j => alter resume j (<[i := next_iteration n]> ts)
                               | None => <[i := next_iteration n]> ts end)).
Proof.
  intros [Hcore _] Hi Hrun Hw. simpl in *.
  pose proof (core_leave _ _ _ _ _ _ l' Hcore Hi (unlock_wake _ _ _ Hrun)) as Hcore'.
  destruct o as [j|].
  - apply wakes_waiter, sleepers_elem in Hw as (t & Hj & Ht).
    assert (i <> j) by (intros ->; by simplify_eq).
    assert (<[i := next_iteration n]> ts !! j = Some t) as Hj' by (by rewrite list_lookup_insert_ne).
    rewrite (alter_resume _ _ _ Hj'). split; simpl; [by apply core_resume|]. intros _.
    eapply exists_insert; [done|]. unfold awake, resume, asleep, finished in *. by destruct (th_state t).
  - apply wakes_someone in Hw. split; simpl; [done|]. intros (t & Hin & Ht)%Exists_exists. exfalso.
    apply list_elem_of_lookup in Hin as [j Hj]. destruct (decide (i = j)) as [<-|Hne].
    + rewrite list_lookup_insert_eq in Hj by (by eapply lookup_lt_Some).
      pose proof (core_thread _ _ _ _ _ Hcore Hi) as Hn. simpl in Hn.
      destruct (next_iteration_spec n Hn) as (_ & _ & Hs & _). congruence.
    + rewrite list_lookup_insert_ne in Hj by done. apply (sleepers_nil ts Hw), Exists_exists.
      exists t. split; [by eapply list_elem_of_lookup_2|done].
Qed.

Lemma inv_leave l c ts i u n l' :
  inv (Config l c ts) -> ts !! i = Some (Thread (AtUnlock u) n) -> unlock_run u l = (l', ULeave) ->
  inv (Config l' c (<[i := next_iteration n]> ts)).
Proof.
  intros [Hcore _] Hi Hrun. simpl in *. destruct (unlock_leave _ _ _ Hrun) as [Hb Hl'].
  pose proof (core_leave _ _ _ _ _ _ l' Hcore Hi Hl') as Hcore'. split; [done|]. simpl.
  intros (t & Hin & Ht)%Exists_exists. exfalso. apply list_elem_of_lookup in Hin as [j Hj].
  pose proof (core_thread _ _ _ _ _ Hcore' Hj) as Hok. unfold asleep, thread_ok in *.
  destruct (th_state t); try done. destruct Hok as (_ & _ & Hb'). congruence.
Qed.

Lemma inv_cstep c1 c2 : inv c1 -> cstep c1 c2 -> inv c2.
Proof.
  intros Hinv Hstep. pose proof Hinv as [Hcore _]. destruct Hstep as [l c ts i p n l' q Hi Hrun|l c ts i p n l' Hi Hrun|
    l c ts i p n l' q Hi Hrun|l c ts i n Hi|l c ts i r n Hi|l c ts i u n l' v Hi Hrun|l c ts i u n l' Hi Hrun|
    l c ts i u n l' o Hi Hrun Hw]; simpl in Hcore.
  - exact (inv_lock _ _ _ _ _ _ _ _ Hinv Hi Hrun).
  - exact (inv_lock _ _ _ _ _ _ _ _ Hinv Hi Hrun).
  - exact (inv_lock _ _ _ _ _ _ _ _ Hinv Hi Hrun).
  - pose proof (core_thread _ _ _ _ _ Hcore Hi) as Hn. pose proof Hcore as (Hl & _). eapply inv_awake; [done..| |done].
    eapply core_update; [done..|simpl; lia|done|unfold completed; simpl; lia|done|by left].
  - pose proof (core_thread _ _ _ _ _ Hcore Hi) as [-> Hn]. pose proof Hcore as (Hl & _).
    eapply inv_awake; [done..| |done]. eapply core_update; [done..| |done| |done|by right].
    + unfold holder. simpl. rewrite unlock_entry_holds. simpl. lia.
    + unfold completed. simpl. lia.
  - pose proof (core_thread _ _ _ _ _ Hcore Hi) as Hn. pose proof Hcore as (Hl & Hsum & _).
    pose proof (unlock_goto _ _ _ _ Hrun) as Hv. eapply inv_awake; [done..| |done].
    assert (uholds u = true -> l = 1) as Hone.
    { intros Hu. assert (1 <= sumZ (b2z ∘ holder <$> ts)); [|lia]. apply sumZ_elem_le; [apply b2z_nonneg|].
      apply (list_elem_of_lookup_2 _ i). rewrite list_lookup_fmap, Hi. simpl. unfold holder. simpl. by rewrite Hu. }
    assert (0 <= l' <= 1 /\ l' = l - b2z (uholds u) + b2z (uholds v)) as [Hr Hl'].
    { destruct (uholds u); [specialize (Hone eq_refl); destruct Hv as [[Hv ->]|[Hv ->]]|destruct Hv as [Hv ->]];
        rewrite Hv; unfold b2z; lia. }
    by eapply core_update; [done..|unfold completed; simpl; lia|done|left].
  - by eapply inv_leave.
  - by eapply inv_wake.
Qed.

Lemma inv_any c1 c2 : inv c1 -> any_step c1 c2 -> inv c2.
Proof.
  intros Hinv [Hstep|Hstep]; [by eapply inv_cstep|]. destruct Hstep as [l c ts i p n Hi]. destruct Hinv as [Hcore _].
  simpl in Hcore. pose proof (core_thread _ _ _ _ _ Hcore Hi) as (Hp & Hn & _). pose proof Hcore as (Hl & _).
  eapply inv_awake; [done..| |done].
  eapply core_update; [done..|simpl; lia|done|unfold completed; simpl; lia|done|by left].
Qed.

Lemma inv_start n : inv (start n iters).
Proof.
  split.
  - simpl. set (t0 := match iters with O => _ | S _ => _ end).
    assert (b2z (holder t0) = 0 /\ completed t0 = 0 /\ thread_ok 0 t0) as (H1 & H2 & H3).
    { pose proof lock_ok_entry. subst t0. unfold completed, holder, thread_ok.
      destruct iters as [|k]; simpl; split_and!; try done; try lia. }
    assert (forall f : thread A -> Z, f t0 = 0 -> sumZ (f <$> replicate n t0) = 0) as Hsum.
    { intros f Hf. rewrite fmap_replicate, Hf. clear. induction n as [|n IH]; [done|exact IH]. }
    split_and!; [lia..|by apply Hsum|by rewrite Hsum|by apply Forall_replicate].
  - simpl. intros (t & Hin & Ht)%Exists_exists. exfalso. apply elem_of_replicate_inv in Hin as ->.
    by destruct iters.
Qed.

Lemma inv_reachable n c : reachable n iters c -> inv c.
Proof.
  unfold reachable. apply (rtc_ind_r (fun c => inv c)); [apply inv_start|].
  intros c1 c2 _ Hstep Hinv. by eapply inv_any.
Qed.

(** The number of threads does not change. *)
Lemma any_step_threads (c1 c2 : config A) : any_step c1 c2 -> length (cf_threads c2) = length (cf_threads c1).
Proof.
  intros [Hs|Hs]; destruct Hs; simpl; try (by rewrite length_insert). destruct o; by rewrite ?length_alter, length_insert.
Qed.

Lemma reachable_threads n c : reachable n iters c -> length (cf_threads c) = n.
Proof.
  unfold reachable. apply (rtc_ind_r (fun c => length (cf_threads c) = n)); [apply length_replicate|].
  intros c1 c2 _ Hstep IH. by rewrite (any_step_threads c1 c2).
Qed.

(** The sums of the invariant when every thread has finished. *)
Lemma joined_sums c ts :
  Forall (fun t => finished t = true) ts -> Forall (thread_ok c) ts ->
  sumZ (completed <$> ts) = Z.of_nat (length ts) * Z.of_nat iters /\ sumZ (b2z ∘ holder <$> ts) = 0.
Proof.
  induction 1 as [|t ts Ht _ IH]; intros Hok; [done|]. apply Forall_cons_iff in Hok as [Hokt Hok].
  destruct (IH Hok) as [IH1 IH2]. rewrite !fmap_cons. cbn [sumZ foldr length] in *. unfold sumZ in *.
  rewrite IH1, IH2. unfold compose, completed, holder, finished, thread_ok in *.
  destruct (th_state t); try done. rewrite Hokt. simpl. lia.
Qed.

(** An awake thread can take a step that is not a spurious wakeup. *)
Lemma awake_steps (c : config A) i t :
  cf_threads c !! i = Some t -> awake t = true -> exists c', cstep c c'.
Proof.
  intros Hi Ht. destruct c as [l cnt ts]. destruct t as [st n]. simpl in Hi.
  unfold awake, asleep, finished in Ht. destruct st as [p| |r|u|p|]; try done.
  - destruct (lock_run p l) as [l' [q| |q]] eqn:E; eexists; by econstructor.
  - eexists. by econstructor.
  - eexists. by econstructor.
  - destruct (unlock_run u l) as [l' [v| |]] eqn:E; [eexists; by econstructor..|].
    destruct (wakes_total (sleepers ts)) as [o Ho]. eexists. by econstructor.
Qed.

(** When all workers have returned. *)
Lemma joined_counter n c :
  reachable n iters c -> all_joined c -> cf_counter c = Z.of_nat n * Z.of_nat iters /\ cf_lock c = 0.
Proof.
  intros Hr Hj. destruct (inv_reachable n c Hr) as [(_ & Hsum & Hc & Hok) _].
  destruct (joined_sums (cf_counter c) (cf_threads c) Hj Hok) as [H1 H2].
  by rewrite Hc, H1, (reachable_threads n c Hr), <- Hsum, H2.
Qed.

End invariant.

(** [demos/concurrency/race.c]: two workers and a million iterations each, under
    a pthread mutex, which is any lock that has the laws. *)
Definition race_main {A : LockAlgo} : config A := start 2 (Z.to_nat 1000000).

Theorem race_counter {K : FutexKernel} {A : LockAlgo} `{!LockLaws A} (c : config A) :
  rtc any_step race_main c -> all_joined c -> cf_counter c = 2000000.
Proof. intros Hr Hj. destruct (joined_counter (Z.to_nat 1000000) 2 c Hr Hj) as [-> _]. by rewrite Z2Nat.id. Qed.

(** ** Theorems *)

(** The four files. *)
Inductive version := V1 | V2 | V3 | V4.

Definition algo (v : version) : LockAlgo := match v with V1 => v1 | V2 => v2 | V3 => v3 | V4 => v4 end.

#[export] Instance algo_laws v : LockLaws (algo v).
Proof. destruct v; [exact v1_laws|exact v2_laws|exact v3_laws|exact v4_laws]. Defined.

(** Between lock and unlock. *)
Definition in_critical {A : LockAlgo} (t : thread A) : bool :=
  match th_state t with AtLoad | AtStore _ => true | _ => false end.

Section theorems.
Context {K : FutexKernel}.

(** C2: mutual exclusion: in every interleaving of any number of workers, with
    any choice of the kernel and spurious wakeups at any time, no two threads
    are between lock and unlock, in each of the four versions. *)
Theorem locks_mutual_exclusion v n iters (c : config (algo v)) i j t t' :
  reachable n iters c -> cf_threads c !! i = Some t -> cf_threads c !! j = Some t' ->
  in_critical t = true -> in_critical t' = true -> i = j.
Proof.
  intros Hr Hi Hj Ht Ht'. destruct (inv_reachable iters n c Hr) as [Hcore _].
  apply (core_one_holder iters _ _ _ i j t t' Hcore Hi Hj); unfold in_critical, holder in *.
  - by destruct (th_state t).
  - by destruct (th_state t').
Qed.

(** C12: the demos' assertion: when all workers have been joined the counter is
    exactly the number of workers times the iterations, and the lock is free,
    although [counter++] is a separate load and store. *)
Theorem workers_counter_exact v n iters (c : config (algo v)) :
  reachable n iters c -> all_joined c ->
  cf_counter c = Z.of_nat n * Z.of_nat iters /\ cf_lock c = 0.
Proof.
  apply joined_counter.
Qed.

(** no lost wakeup: as long as some worker has not finished, some thread can
    take a step other than a spurious wakeup; sleepers never wait for a wakeup
    that is not coming. *)
Theorem locks_no_deadlock v n iters (c : config (algo v)) :
  reachable n iters c -> all_joined c \/ exists c', cstep c c'.
Proof.
  intros Hr. destruct (inv_reachable iters n c Hr) as [_ Haw].
  destruct (decide (Forall (fun t => finished t = true) (cf_threads c))) as [|Hnot]; [by left|right].
  apply not_Forall_Exists in Hnot; [|apply _]. apply Exists_exists in Hnot as (t & Hin & Ht).
  assert (Exists (fun t => awake t = true) (cf_threads c)) as (u & Hu & Hawake)%Exists_exists.
  { destruct (asleep t) eqn:Ha; [apply Haw, Exists_exists; by exists t|].
    apply Exists_exists. exists t. split; [done|]. unfold awake. apply not_true_is_false in Ht. by rewrite Ha, Ht. }
  apply list_elem_of_lookup in Hu as [i Hi]. by eapply awake_steps.
Qed.

End theorems.

(** ** Witnesses *)

Lemma locks_mutual_exclusion_witness :
  let c := Config 1 0 [Thread AtLoad 2; Thread (AtLock (tt : @lpc v1)) 2] : config (algo V1) in
  reachable 2 2 c /\ (forall i, cf_threads c !! i = Some (Thread AtLoad 2) -> i = 0%nat).
Proof.
  intros c. assert (reachable 2 2 c) as Hr.
  { apply rtc_once. left. refine (step_lock_enter (A := v1) 0 0 _ 0 tt 2 1 _ _); reflexivity. }
  split; [exact Hr|]. intros i Hi.
  apply (locks_mutual_exclusion V1 2 2 c i 0 (Thread AtLoad 2) (Thread AtLoad 2)); [exact Hr|exact Hi|reflexivity..].
Defined.

Lemma workers_counter_exact_witness :
  let c := Config 0 1 [Thread Finished 0] : config (algo V3) in cf_counter c = 1 /\ cf_lock c = 0.
Proof.
  apply (workers_counter_exact V3 1 1).
  - eapply rtc_l; [left; refine (step_lock_enter (A := v3) 0 0 _ 0 V3Cas1 1 1 _ _); reflexivity|].
    eapply rtc_l; [left; refine (step_load (A := v3) 1 0 _ 0 1 _); reflexivity|].
    eapply rtc_l; [left; refine (step_store (A := v3) 1 0 _ 0 0 1 _); reflexivity|].
    eapply rtc_l; [left; refine (step_unlock_goto (A := v3) 1 1 _ 0 UStore 1 0 UWakeCall _ _); reflexivity|].
    eapply rtc_l; [left; refine (step_unlock_wake (A := v3) 0 1 _ 0 UWakeCall 1 0 None _ _ _); reflexivity|].
    apply rtc_refl.
  - constructor; [reflexivity|constructor].
Defined.

Lemma locks_no_deadlock_witness :
  let c := start 2 1 : config (algo V4) in all_joined c \/ exists c', cstep c c'.
Proof. apply (locks_no_deadlock V4 2 1). apply rtc_refl. Defined.
