(* ===== verification/Writeback.v ===== *)
(** * Dirty pages and writeback ([demos/writeback/wb_sim.c], [wb_sim.h])

    Per-inode lists of dirty pages (through the [ListHead] interface), the
    per-inode and global counters and the writeback loop.  The block device is
    seen through the calls made to it: [wb_log] records every
    [block_device_write_page] with the data the page had then.  [PAGE_SIZE] and
    the available memory are not defined in the sources and are arguments.
    Operations run under their locks; the loop body of [writeback_inode]
    releases the lock in the middle and is split there into three parts, so
    that another thread can be interleaved. *)
From Stdlib Require Import ZArith Lia.
From stdpp Require Import base numbers list option gmap.
From S2P Require Import Prelude ListHead.

Open Scope Z_scope.

(** [page->private] of a page is its [dirty_page]; both have one address. *)
Record page := Page { p_dirty : bool; p_index : Z; p_data : Z }.
Record dirty_page := DirtyPage { dp_inode : nat; dp_offset : Z; dp_synced : bool }.
Record inode_wb_state := WbState { nr_dirty : Z; writeback_in_progress : bool; flush_pending : bool }.

(** List nodes: the head in an inode's state and the node in a descriptor. *)
Inductive wnode := DirtyPages (i : nat) | DirtyNode (p : nat).

#[export] Instance wnode_eq_dec : EqDecision wnode.
Proof. solve_decision. Defined.

#[export] Instance DirtyNode_inj : Inj (=) (=) DirtyNode.
Proof. by intros ?? [= ->]. Qed.

(** A call of [block_device_write_page]: inode, page, offset, data. *)
Record wb_write := WbWrite { w_inode : nat; w_page : nat; w_offset : Z; w_data : Z }.

Record wb (L : Type) := Wb {
  pages : gmap nat page; dps : gmap nat dirty_page; inodes : gmap nat inode_wb_state;
  wb_links : L; g_dirty_count : Z; wb_log : list wb_write
}.
Arguments Wb {L}.
Arguments pages {L}.
Arguments dps {L}.
Arguments inodes {L}.
Arguments wb_links {L}.
Arguments g_dirty_count {L}.
Arguments wb_log {L}.

Definition DIRTY_BACKGROUND_RATIO : Z := 10.

Section operations.
Context {L : Type} `{!ListHead wnode L}.
Variable PAGE_SIZE : Z.
Implicit Types s : wb L.

Definition get_page s (p : nat) : exec page :=
  match pages s !! p with Some x => Ok x | None => Crash UseAfterFree end.
Definition get_dp s (p : nat) : exec dirty_page :=
  match dps s !! p with Some x => Ok x | None => Crash NullPointer end.
Definition get_state s (i : nat) : exec inode_wb_state :=
  match inodes s !! i with Some x => Ok x | None => Crash NullPointer end.

Definition set_dirty (b : bool) (x : page) : page := Page b (p_index x) (p_data x).
Definition set_nr (n : Z) (x : inode_wb_state) : inode_wb_state :=
  WbState n (writeback_in_progress x) (flush_pending x).
Definition set_progress (b : bool) (x : inode_wb_state) : inode_wb_state := WbState (nr_dirty x) b (flush_pending x).
Definition set_pending (b : bool) (x : inode_wb_state) : inode_wb_state := WbState (nr_dirty x) (writeback_in_progress x) b.

Definition put_state (i : nat) (x : inode_wb_state) s : wb L :=
  Wb (pages s) (dps s) (<[i := x]> (inodes s)) (wb_links s) (g_dirty_count s) (wb_log s).

(** [inode_wb_state_init] for inode [i]. *)
Definition inode_wb_state_init s (i : nat) : wb L :=
  Wb (pages s) (dps s) (<[i := WbState 0 false false]> (inodes s)) (init_list_head (DirtyPages i) (wb_links s))
    (g_dirty_count s) (wb_log s).

Definition mark_page_dirty s (p i : nat) : exec (wb L) :=
  st ← get_state s i;
  x ← get_page s p;
  if p_dirty x then Ok s
  else
    _ ← get_dp s p;
    Ok (Wb (<[p := set_dirty true x]> (pages s))
           (<[p := DirtyPage i (u64 (p_index x * PAGE_SIZE)) false]> (dps s))
           (<[i := set_nr (u32 (nr_dirty st + 1)) st]> (inodes s))
           (list_add_tail (DirtyNode p) (DirtyPages i) (wb_links s))
           (u64 (g_dirty_count s + 1)) (wb_log s)).

Definition unmark_page_dirty s (p i : nat) : exec (wb L) :=
  st ← get_state s i;
  x ← get_page s p;
  if negb (p_dirty x) then Ok s
  else
    _ ← get_dp s p;
    Ok (Wb (<[p := set_dirty false x]> (pages s)) (dps s)
           (<[i := set_nr (u32 (nr_dirty st - 1)) st]> (inodes s))
           (list_del (DirtyNode p) (wb_links s))
           (u64 (g_dirty_count s - 1)) (wb_log s)).

Definition should_start_writeback s (available : Z) : bool :=
  let dirty := u64 (g_dirty_count s * (PAGE_SIZE / 1024)) in
  if available =? 0 then true else DIRTY_BACKGROUND_RATIO <=? u64 (dirty * 100) / available.

Definition global_dirty_page_count s : Z := g_dirty_count s.

(** The body of the loop: what is done under the lock, *)
Definition wb_take s (i p : nat) : exec (wb L) :=
  dp ← get_dp s p;
  st ← get_state s i;
  Ok (Wb (pages s) (<[p := DirtyPage (dp_inode dp) (dp_offset dp) false]> (dps s))
         (<[i := set_nr (u32 (nr_dirty st - 1)) st]> (inodes s))
         (list_del (DirtyNode p) (wb_links s)) (g_dirty_count s) (wb_log s)).

(** the write to the device, *)
Definition wb_device s (i p : nat) : exec (wb L) :=
  dp ← get_dp s p;
  x ← get_page s p;
  Ok (Wb (pages s) (dps s) (inodes s) (wb_links s) (g_dirty_count s)
         (wb_log s ++ [WbWrite i p (dp_offset dp) (p_data x)])).

(** and the marking as clean, without the lock of the inode. *)
Definition wb_clean s (p : nat) : exec (wb L) :=
  dp ← get_dp s p;
  x ← get_page s p;
  Ok (Wb (<[p := set_dirty false x]> (pages s)) (<[p := DirtyPage (dp_inode dp) (dp_offset dp) true]> (dps s))
         (inodes s) (wb_links s) (u64 (g_dirty_count s - 1)) (wb_log s)).

Definition dp_entry (n : wnode) : exec nat :=
  match n with DirtyNode p => Ok p | DirtyPages _ => Crash OutOfBounds end.

Fixpoint wb_loop s (i : nat) (ns : list wnode) : exec (wb L) :=
  match ns with
  | [] => Ok s
  | n :: ns' =>
    p ← dp_entry n;
    s ← wb_take s i p;
    s ← wb_device s i p;
    s ← wb_clean s p;
    wb_loop s i ns'
  end.

Definition writeback_inode s (i : nat) : exec (wb L) :=
  st ← get_state s i;
  let s := put_state i (set_progress true st) s in
  s ← wb_loop s i (list_nodes (DirtyPages i) (wb_links s));
  st ← get_state s i;
  Ok (put_state i (set_progress false st) s).

(** [all_inodes] is the list of the inodes. *)
Fixpoint writeback_all_inodes s (all_inodes : list nat) : exec (wb L) :=
  match all_inodes with
  | [] => Ok s
  | i :: rest =>
    st ← get_state s i;
    s ← (if 0 <? nr_dirty st then writeback_inode s i else Ok s);
    writeback_all_inodes s rest
  end.

(** [fsync_inode] up to the first test of its waiting loop: [Some 0] when that
    test ends it, [None] when it has to wait for another thread. *)
Definition fsync_inode s (i : nat) : exec (wb L * option Z) :=
  st ← get_state s i;
  let s := put_state i (set_pending true st) s in
  s ← (if 0 <? nr_dirty st then writeback_inode s i else Ok s);
  st ← get_state s i;
  Ok (s, if (nr_dirty st =? 0) && negb (writeback_in_progress st) then Some 0 else None).

(** One round of the flush thread. *)
Definition flush_round s (available : Z) (all_inodes : list nat) : exec (wb L) :=
  if should_start_writeback s available then writeback_all_inodes s all_inodes else Ok s.

(** Another thread stores to a page and marks it dirty. *)
Definition store_page s (p i : nat) (data : Z) : exec (wb L) :=
  x ← get_page s p;
  mark_page_dirty (Wb (<[p := Page (p_dirty x) (p_index x) data]> (pages s)) (dps s) (inodes s) (wb_links s)
                      (g_dirty_count s) (wb_log s)) p i.

End operations.

(** ** The invariant *)

Definition upd (d : nat -> list nat) (i : nat) (xs : list nat) : nat -> list nat :=
  fun j => if decide (j = i) then xs else d j.

Definition total (d : nat -> list nat) (inos : list nat) : Z := sumZ ((fun i => Z.of_nat (length (d i))) <$> inos).

Lemma upd_eq d i xs : upd d i xs i = xs.
Proof. unfold upd. by rewrite decide_True. Qed.

Lemma upd_ne d i j xs : j <> i -> upd d i xs j = d j.
Proof. intros. unfold upd. by rewrite decide_False. Qed.

Lemma total_upd d inos i xs :
  NoDup inos -> i ∈ inos -> total (upd d i xs) inos = total d inos - Z.of_nat (length (d i)) + Z.of_nat (length xs).
Proof.
  unfold total. induction 1 as [|j inos Hj Hnd IH]; [by intros ?%elem_of_nil|]. rewrite !fmap_cons. cbn [sumZ foldr].
  intros [->|Hi]%elem_of_cons.
  - rewrite upd_eq. fold (sumZ ((fun k => Z.of_nat (length (upd d j xs k))) <$> inos)).
    fold (sumZ ((fun k => Z.of_nat (length (d k))) <$> inos)).
    replace ((fun k => Z.of_nat (length (upd d j xs k))) <$> inos) with ((fun k => Z.of_nat (length (d k))) <$> inos); [lia|].
    apply list_fmap_ext. intros k y Hk. rewrite upd_ne; [done|]. intros ->. apply Hj. by eapply list_elem_of_lookup_2.
  - specialize (IH Hi). unfold sumZ in *. rewrite IH, (upd_ne d i j); [lia|]. by intros ->.
Qed.

Lemma total_length d l : total d l = Z.of_nat (length (l ≫= d)).
Proof. induction l as [|i l IH]; [done|]. by rewrite bind_cons, length_app, Nat2Z.inj_add, <- IH. Qed.

Section invariant.
Context {L : Type} `{!ListHead wnode L} `{!ListLaws wnode L}.
Variable PAGE_SIZE : Z.
(** The inodes of the system. *)
Variable inos : list nat.
Implicit Types (s : wb L) (d : nat -> list nat).

(** Inode [i] has the dirty pages [d i], in the order they were marked. *)
Record wb_inv s d : Prop := {
  inv_wf : links_wf (wb_links s);
  inv_inodes : NoDup inos;
  inv_view : forall i, i ∈ inos -> list_view (wb_links s) (DirtyPages i) = Some (DirtyNode <$> d i);
  inv_state : forall i, i ∈ inos -> exists st, inodes s !! i = Some st /\ nr_dirty st = Z.of_nat (length (d i));
  inv_listed : forall i p, i ∈ inos -> p ∈ d i -> exists x, pages s !! p = Some x /\ p_dirty x = true;
  inv_dirty : forall p x, pages s !! p = Some x -> p_dirty x = true -> exists i, i ∈ inos /\ p ∈ d i;
  inv_clean : forall p, (forall i, i ∈ inos -> p ∉ d i) -> unlinked (DirtyNode p) (wb_links s);
  inv_private : forall p x, pages s !! p = Some x -> is_Some (dps s !! p);
  inv_count : g_dirty_count s = total d inos;
  inv_small : total d inos < 2 ^ 32
}.

Lemma total_ge d i : i ∈ inos -> Z.of_nat (length (d i)) <= total d inos.
Proof.
  intros Hi. unfold total. apply sumZ_elem_le.
  - apply Forall_fmap, Forall_true. intros j. unfold compose. lia.
  - by apply (list_elem_of_fmap_2 (fun j => Z.of_nat (length (d j)))).
Qed.

Lemma listed_once s d i j p : wb_inv s d -> i ∈ inos -> j ∈ inos -> p ∈ d i -> p ∈ d j -> i = j.
Proof.
  intros Hinv Hi Hj Hpi Hpj. pose proof Hinv as [].
  assert (DirtyPages i = DirtyPages j) as [= ->]; [|done].
  eapply (links_disjoint _ inv_wf0); [by apply inv_view0..| |]; by apply list_elem_of_fmap_2.
Qed.

Lemma listed_nodup s d i : wb_inv s d -> i ∈ inos -> NoDup (d i).
Proof.
  intros Hinv Hi. pose proof Hinv as []. eapply (NoDup_fmap_1 DirtyNode), (links_nodup _ inv_wf0). by apply inv_view0.
Qed.

Lemma listed_nodup_all s d : wb_inv s d -> NoDup (inos ≫= d).
Proof.
  intros Hinv. apply NoDup_bind; [|intros i Hi; by apply (listed_nodup s d)|apply Hinv].
  intros i j p Hi Hj Hpi Hpj. by apply (listed_once s d i j p).
Qed.

(** The invariant only depends on lists, counters and flags. *)
Lemma wb_inv_same s s' d : wb_inv s d -> wb_links s' = wb_links s -> inodes s' = inodes s ->
  g_dirty_count s' = g_dirty_count s -> (forall p, p_dirty <$> pages s' !! p = p_dirty <$> pages s !! p) ->
  (forall p, is_Some (dps s !! p) -> is_Some (dps s' !! p)) -> wb_inv s' d.
Proof.
  intros [Hwf Hnd Hview Hst Hlist Hdir Hclean Hpriv Hcnt Htot] Hl Hi Hc Hp Hdp. split; rewrite ?Hl, ?Hi, ?Hc; try done.
  - intros i p Hin Hpd. destruct (Hlist i p Hin Hpd) as (x & Hx & Hd). specialize (Hp p). rewrite Hx in Hp. cbn in Hp.
    destruct (pages s' !! p) as [y|]; [|done]. exists y. split; [done|]. cbn in Hp. congruence.
  - intros p x Hx Hd. specialize (Hp p). rewrite Hx in Hp. cbn in Hp. destruct (pages s !! p) as [y|] eqn:Hy; [|done].
    apply (Hdir p y Hy). cbn in Hp. congruence.
  - intros p x Hx. specialize (Hp p). rewrite Hx in Hp. destruct (pages s !! p) as [y|] eqn:Hy; [|done]. by apply Hdp, (Hpriv p y).
Qed.

(** The lists together have no more pages than there are, and one fewer if some
    page is clean. *)
Lemma listed_bound s d q x : wb_inv s d -> pages s !! q = Some x -> p_dirty x = false ->
  total d inos + 1 <= Z.of_nat (size (pages s)).
Proof.
  intros Hinv Hq Hx. pose proof Hinv as [Hwf Hnd Hview Hst Hlist Hdir Hclean Hpriv Hcnt Htot].
  rewrite total_length. assert (Hnodup : NoDup (q :: (inos ≫= d))).
  { apply list.NoDup_cons. split; [|by apply (listed_nodup_all s)].
    intros (i & Hqi & Hi)%list_elem_of_bind. destruct (Hlist i q Hi Hqi) as (y & Hy & Hd). simplify_eq. congruence. }
  assert (Hsub : (list_to_set (q :: (inos ≫= d)) : gset nat) ⊆ dom (pages s)).
  { intros p Hp. apply elem_of_list_to_set, elem_of_cons in Hp as [->|(i & Hpi & Hi)%list_elem_of_bind]; apply elem_of_dom; [by eexists|].
    destruct (Hlist i p Hi Hpi) as (y & Hy & _). by eexists. }
  apply subseteq_size in Hsub. rewrite size_dom, size_list_to_set in Hsub by done. cbn [length] in Hsub. lia.
Qed.

(** Changing the flags of an inode's state keeps the invariant. *)
Lemma inv_flags s d i st st' :
  wb_inv s d -> inodes s !! i = Some st -> nr_dirty st' = nr_dirty st -> wb_inv (put_state i st' s) d.
Proof.
  intros [] Hi Hn. split; simpl; try done. intros j Hj. destruct (inv_state0 j Hj) as (sj & Hsj & Hnj).
  destruct (decide (j = i)) as [->|Hne].
  - exists st'. rewrite lookup_insert_eq. simplify_eq. split; [done|congruence].
  - exists sj. by rewrite lookup_insert_ne.
Qed.

Lemma inode_small s d i st : wb_inv s d -> i ∈ inos -> inodes s !! i = Some st -> nr_dirty st = Z.of_nat (length (d i)).
Proof. intros [] Hi Hst. destruct (inv_state0 i Hi) as (st' & Hst' & Hn). by simplify_eq. Qed.

(** A node that becomes linked or unlinked does not affect other unlinked ones. *)
Lemma unlinked_other (l l' : L) i p q xs xs' :
  unlinked (DirtyNode q) l -> q <> p -> DirtyNode q ∉ xs' -> list_view l (DirtyPages i) = Some xs ->
  (forall k, k <> DirtyNode p -> list_view l' k = if decide (k = DirtyPages i) then Some xs' else list_view l k) ->
  list_view l' (DirtyNode p) = None -> unlinked (DirtyNode q) l'.
Proof.
  intros [H1 H2] Hne Hq Hv Hl Hp. split.
  - rewrite Hl by congruence. by rewrite decide_False.
  - intros k ys Hk. destruct (decide (k = DirtyNode p)) as [->|Hkp]; [by simplify_eq|].
    rewrite Hl in Hk by done. case_decide; simplify_eq; [done|by eapply H2].
Qed.

(** Marking a clean page. *)
Lemma mark_clean s d i p x :
  wb_inv s d -> i ∈ inos -> pages s !! p = Some x -> p_dirty x = false -> total d inos + 1 < 2 ^ 32 ->
  exists s', mark_page_dirty PAGE_SIZE s p i = Ok s' /\ wb_inv s' (upd d i (d i ++ [p])) /\
    pages s' = <[p := set_dirty true x]> (pages s) /\ wb_log s' = wb_log s.
Proof.
  intros Hinv Hi Hx Hcl Hsmall. pose proof Hinv as [Hwf Hnd Hview Hst Hlist Hdir Hclean Hpriv Hcnt Htot].
  assert (forall j, j ∈ inos -> p ∉ d j) as Hnew.
  { intros j Hj Hp. destruct (Hlist j p Hj Hp) as (y & Hy & Hd). simplify_eq. congruence. }
  destruct (Hst i Hi) as (st & Hsti & Hn). destruct (Hpriv p x Hx) as [dp Hdp].
  pose proof (total_ge d i Hi) as Hge.
  unfold mark_page_dirty, get_state, get_page, get_dp. rewrite Hsti, Hx, Hdp. cbn [mbind exec_bind]. rewrite Hcl.
  eexists. split; [done|]. split; [|done].
  pose proof (fun k => view_add_tail (DirtyNode p) (DirtyPages i) k _ _ Hwf (Hclean p Hnew) (Hview i Hi) ltac:(done)) as Hv.
  assert (total (upd d i (d i ++ [p])) inos = total d inos + 1) as Ht
    by (rewrite total_upd, length_app by done; simpl; lia).
  split; simpl; try done.
  - by apply (links_wf_add_tail _ _ _ _ Hwf (Hclean p Hnew) (Hview i Hi)).
  - intros j Hj. rewrite Hv, decide_False by done. destruct (decide (j = i)) as [->|Hne].
    + by rewrite decide_True, upd_eq, fmap_app by done.
    + rewrite decide_False by congruence. rewrite upd_ne by done. by apply Hview.
  - intros j Hj. destruct (decide (j = i)) as [->|Hne].
    + eexists. rewrite lookup_insert_eq. split; [done|]. simpl. rewrite upd_eq, length_app, wrapu_small by lia.
      simpl. lia.
    + rewrite lookup_insert_ne, upd_ne by done. by apply Hst.
  - intros j q Hj Hq. destruct (decide (q = p)) as [->|Hne].
    { exists (set_dirty true x). by rewrite lookup_insert_eq. }
    rewrite lookup_insert_ne by done. apply (Hlist j q Hj). unfold upd in Hq. case_decide; [|done]. subst j.
    apply elem_of_app in Hq as [?|?%list_elem_of_singleton]; done.
  - intros q y Hy Hd. destruct (decide (q = p)) as [->|Hne].
    { exists i. split; [done|]. rewrite upd_eq. apply elem_of_app. right. by apply list_elem_of_singleton. }
    rewrite lookup_insert_ne in Hy by done. destruct (Hdir q y Hy Hd) as (j & Hj & Hq). exists j. split; [done|].
    unfold upd. case_decide; [|done]. subst j. apply elem_of_app. by left.
  - intros q Hq. assert (q <> p) as Hqp.
    { intros ->. apply (Hq i Hi). rewrite upd_eq. apply elem_of_app. right. by apply list_elem_of_singleton. }
    apply (unlinked_other (wb_links s) _ i p q (DirtyNode <$> d i) ((DirtyNode <$> d i) ++ [DirtyNode p])); try done.
    + apply Hclean. intros j Hj Hqj. apply (Hq j Hj). unfold upd. case_decide; [|done]. subst j. apply elem_of_app. by left.
    + rewrite elem_of_app, list_elem_of_singleton. intros [(y & [= <-] & Hy)%list_elem_of_fmap|[= ->]]; [|done].
      apply (Hq i Hi). rewrite upd_eq. apply elem_of_app. by left.
    + by apply Hview.
    + intros k Hk. by rewrite Hv, decide_False.
    + by rewrite Hv, decide_True.
  - intros q y Hy. destruct (decide (q = p)) as [->|Hne]; [rewrite lookup_insert_eq; eauto|].
    rewrite lookup_insert_ne in Hy by done. rewrite lookup_insert_ne by done. exact (Hpriv q y Hy).
  - pose proof (total_ge d i Hi). rewrite Ht, Hcnt. apply wrapu_small. lia.
  - lia.
Qed.

(** The lists without page [p] of inode [i]. *)
Lemma unlink_page s d i p :
  wb_inv s d -> i ∈ inos -> p ∈ d i ->
  links_wf (list_del (DirtyNode p) (wb_links s)) /\ unlinked (DirtyNode p) (list_del (DirtyNode p) (wb_links s)) /\
  forall k, list_view (list_del (DirtyNode p) (wb_links s)) k =
    if decide (k = DirtyPages i) then Some (DirtyNode <$> filter (.≠ p) (d i)) else list_view (wb_links s) k.
Proof.
  intros Hinv Hi Hp. pose proof Hinv as [Hwf _ Hview _ _ _ _ _ _ _].
  assert (DirtyNode p ∈ DirtyNode <$> d i) as Hin by (by apply list_elem_of_fmap_2).
  split; [by eapply links_wf_del; [|apply Hview|]|]. split; [by eapply unlinked_del; [|apply Hview|]|].
  intros k. rewrite (view_del _ _ _ _ _ Hwf (Hview i Hi) Hin). case_decide; [|done]. by rewrite (filter_ne_fmap DirtyNode).
Qed.

(** Removing page [p] from the list of inode [i], cleaning it and counting it
    keeps the invariant. *)
Lemma remove_page s s' d i p x y xs :
  wb_inv s d -> i ∈ inos -> p ∈ d i -> pages s !! p = Some x -> xs = filter (.≠ p) (d i) ->
  wb_links s' = list_del (DirtyNode p) (wb_links s) -> pages s' = <[p := y]> (pages s) -> p_dirty y = false ->
  (forall q, is_Some (dps s !! q) -> is_Some (dps s' !! q)) ->
  (exists st st', inodes s !! i = Some st /\ nr_dirty st' = u32 (nr_dirty st - 1) /\ inodes s' = <[i := st']> (inodes s)) ->
  g_dirty_count s' = u64 (g_dirty_count s - 1) -> wb_inv s' (upd d i xs).
Proof.
  intros Hinv Hi Hp Hx -> Hl Hpg Hyd Hdp (st & st' & Hst & Hn & Hin) Hc.
  destruct (unlink_page s d i p Hinv Hi Hp) as (Hwf' & Hun & Hv).
  pose proof Hinv as [Hwf Hnd Hview Hsta Hlist Hdir Hclean Hpriv Hcnt Htot].
  assert (forall j q, j ∈ inos -> q ∈ upd d i (filter (.≠ p) (d i)) j <-> q ∈ d j /\ q <> p) as Hmem.
  { intros j q Hj. unfold upd. case_decide as E; [subst j; rewrite list_elem_of_filter; tauto|].
    split; [|by intros []]. intros Hq. split; [done|]. intros ->. apply E. by eapply (listed_once s d). }
  assert (length (d i) = S (length (filter (.≠ p) (d i)))) as Hlen.
  { apply list_elem_of_split in Hp as (l1 & l2 & E). pose proof (listed_nodup s d i Hinv Hi) as Hnodup.
    rewrite E in *. rewrite filter_ne_middle by done. rewrite !length_app. simpl. lia. }
  pose proof (total_ge d i Hi) as Hge. pose proof (inode_small s d i st Hinv Hi Hst) as Hnst.
  assert (total (upd d i (filter (.≠ p) (d i))) inos = total d inos - 1) as Ht by (rewrite total_upd by done; lia).
  split; rewrite ?Hl; try done.
  - intros j Hj. rewrite Hv. destruct (decide (j = i)) as [->|Hne]; [by rewrite decide_True, upd_eq|].
    rewrite decide_False by congruence. rewrite upd_ne by done. by apply Hview.
  - intros j Hj. rewrite Hin. destruct (decide (j = i)) as [->|Hne].
    + exists st'. rewrite lookup_insert_eq. split; [done|]. rewrite upd_eq, Hn, wrapu_small by lia. lia.
    + rewrite lookup_insert_ne, upd_ne by done. by apply Hsta.
  - intros j q Hj [Hq Hne]%(Hmem j q Hj). rewrite Hpg, lookup_insert_ne by done. by eapply Hlist.
  - intros q z. rewrite Hpg. destruct (decide (q = p)) as [->|Hne]; [rewrite lookup_insert_eq; intros [= <-]; congruence|].
    rewrite lookup_insert_ne by done. intros Hy Hd. destruct (Hdir q z Hy Hd) as (j & Hj & Hq). exists j. by rewrite Hmem.
  - intros q Hq. destruct (decide (q = p)) as [->|Hne]; [done|].
    assert (forall j, j ∈ inos -> q ∉ d j) as Hq'.
    { intros j Hj Hqj. apply (Hq j Hj). by apply Hmem. }
    apply (unlinked_other (wb_links s) _ i p q (DirtyNode <$> d i) (DirtyNode <$> filter (.≠ p) (d i))); try done.
    + by apply Hclean.
    + intros (z & [= <-] & Hy)%list_elem_of_fmap. apply list_elem_of_filter in Hy as [_ Hy]. by eapply Hq'.
    + by apply Hview.
    + rewrite Hv, decide_False by done. eapply (links_node _ Hwf); [by apply (Hview i)|]. by apply list_elem_of_fmap_2.
  - intros q z. rewrite Hpg. destruct (decide (q = p)) as [->|Hne]; [intros _; eauto|].
    rewrite lookup_insert_ne by done. eauto.
  - rewrite Hc, Hcnt, Ht. apply wrapu_small. lia.
  - lia.
Qed.

(** One iteration of the writeback loop. *)
Lemma wb_body s d i p rest :
  wb_inv s d -> i ∈ inos -> d i = p :: rest ->
  exists s1 s2 s' x w st st', wb_take s i p = Ok s1 /\ wb_device s1 i p = Ok s2 /\ wb_clean s2 p = Ok s' /\
    wb_inv s' (upd d i rest) /\ pages s !! p = Some x /\ pages s' = <[p := set_dirty false x]> (pages s) /\
    wb_log s' = wb_log s ++ [w] /\ w_inode w = i /\ w_page w = p /\ w_data w = p_data x /\
    inodes s !! i = Some st /\ inodes s' !! i = Some st' /\
    writeback_in_progress st' = writeback_in_progress st.
Proof.
  intros Hinv Hi Hd. pose proof Hinv as [Hwf Hnd Hview Hsta Hlist Hdir Hclean Hpriv Hcnt Htot].
  assert (p ∈ d i) as Hp by (rewrite Hd; left). destruct (Hlist i p Hi Hp) as (x & Hx & Hxd).
  destruct (Hpriv p x Hx) as [dp Hdp]. destruct (Hsta i Hi) as (st & Hst & Hn).
  unfold wb_take, get_dp, get_state. rewrite Hdp, Hst. cbn [mbind exec_bind]. do 3 eexists.
  exists x, (WbWrite i p (dp_offset dp) (p_data x)), st, (set_nr (u32 (nr_dirty st - 1)) st). split; [done|].
  unfold wb_device, get_dp, get_page. simpl. rewrite lookup_insert_eq, Hx. cbn [mbind exec_bind]. split; [done|].
  unfold wb_clean, get_dp, get_page. simpl. rewrite lookup_insert_eq, Hx. cbn [mbind exec_bind]. split; [done|].
  split; [|split_and!; try done; apply lookup_insert_eq].
  eapply (remove_page s _ d i p x (set_dirty false x) rest); try done.
  - pose proof (listed_nodup s d i Hinv Hi) as Hnodup. rewrite Hd in *. by rewrite (filter_ne_middle p [] rest).
  - intros q Hq. simpl. rewrite insert_insert_eq. destruct (decide (q = p)) as [->|]; [rewrite lookup_insert_eq; eauto|].
    by rewrite lookup_insert_ne.
  - exists st, (set_nr (u32 (nr_dirty st - 1)) st). done.
Qed.

Lemma upd_upd d i xs ys : forall j, upd (upd d i xs) i ys j = upd d i ys j.
Proof. intros j. unfold upd. by case_decide. Qed.

Lemma wb_inv_ext s d d' : (forall i, d i = d' i) -> wb_inv s d -> wb_inv s d'.
Proof.
  intros He [H1 H2 H3 H4 H5 H6 H7 H8 H9 H10].
  assert (total d inos = total d' inos) as Ht
    by (unfold total; f_equal; apply list_fmap_ext; intros ? i _; by rewrite He).
  split; try done; try congruence.
  - intros i Hi. rewrite <- He. by apply H3.
  - intros i Hi. rewrite <- He. by apply H4.
  - intros i p Hi. rewrite <- He. by apply H5.
  - intros p x Hp Hd. destruct (H6 p x Hp Hd) as (i & Hi & Hin). exists i. by rewrite <- He.
  - intros p Hp. apply H7. intros i Hi. rewrite He. by apply Hp.
Qed.

(** The data a page has. *)
Definition data_of s (p : nat) : option Z := p_data <$> pages s !! p.

(** The writes issued for the pages [ps] of inode [i]. *)
Definition writes_of s (i : nat) (ps : list nat) (ws : list wb_write) : Prop :=
  w_page <$> ws = ps /\ Forall (fun w => w_inode w = i /\ data_of s (w_page w) = Some (w_data w)) ws.

Lemma wb_loop_ok s d i ps :
  wb_inv s d -> i ∈ inos -> d i = ps ->
  exists s' ws st st', wb_loop s i (DirtyNode <$> ps) = Ok s' /\ wb_inv s' (upd d i []) /\
    wb_log s' = wb_log s ++ ws /\ writes_of s i ps ws /\
    (forall p, data_of s' p = data_of s p) /\
    inodes s !! i = Some st /\ inodes s' !! i = Some st' /\ writeback_in_progress st' = writeback_in_progress st.
Proof.
  revert s d. induction ps as [|p ps IH]; intros s d Hinv Hi Hd.
  - pose proof (inv_state _ _ Hinv i Hi) as (st & Hst & _). exists s, [], st, st.
    split; [done|]. split; [|rewrite app_nil_r; by repeat split].
    apply (wb_inv_ext s d); [|done]. intros j. unfold upd. case_decide; [by subst|done].
  - destruct (wb_body s d i p ps Hinv Hi Hd) as (s1 & s2 & s3 & x & w & st & st1 & H1 & H2 & H3 & Hinv3 & Hx & Hpg &
      Hlog & Hwi & Hwp & Hwd & Hst & Hst1 & Hprog).
    destruct (IH s3 (upd d i ps) Hinv3 Hi (upd_eq _ _ _)) as (s' & ws & st2 & st' & Hloop & Hinv' & Hlog' & [Hws1 Hws2] &
      Hdata & Hst2 & Hst' & Hprog').
    assert (forall q, data_of s3 q = data_of s q) as Hd3.
    { intros q. unfold data_of. rewrite Hpg. destruct (decide (q = p)) as [->|]; [by rewrite lookup_insert_eq, Hx|].
      by rewrite lookup_insert_ne. }
    exists s', (w :: ws), st, st'. rewrite fmap_cons. cbn [wb_loop dp_entry mbind exec_bind].
    rewrite H1. cbn [mbind exec_bind]. rewrite H2. cbn [mbind exec_bind]. rewrite H3. cbn [mbind exec_bind].
    split; [done|]. split; [by eapply wb_inv_ext; [|exact Hinv']; apply upd_upd|].
    split; [by rewrite Hlog', Hlog, <- app_assoc|]. split.
    { split; [by rewrite fmap_cons, Hwp, Hws1|]. constructor.
      - split; [done|]. unfold data_of. by rewrite Hwp, Hx, Hwd.
      - eapply Forall_impl; [exact Hws2|]. intros v [Hv1 Hv2]. split; [done|]. by rewrite <- Hd3. }
    split; [intros q; by rewrite Hdata, Hd3|]. simplify_eq. split_and!; [done..|congruence].
Qed.

Lemma writeback_inode_ok s d i :
  wb_inv s d -> i ∈ inos ->
  exists s' ws st', writeback_inode s i = Ok s' /\ wb_inv s' (upd d i []) /\
    wb_log s' = wb_log s ++ ws /\ writes_of s i (d i) ws /\ (forall p, data_of s' p = data_of s p) /\
    inodes s' !! i = Some st' /\ nr_dirty st' = 0 /\ writeback_in_progress st' = false.
Proof.
  intros Hinv Hi. pose proof (inv_state _ _ Hinv i Hi) as (st & Hst & Hn).
  unfold writeback_inode, get_state. rewrite Hst. cbn [mbind exec_bind].
  pose proof (inv_flags s d i st (set_progress true st) Hinv Hst eq_refl) as Hinv1.
  rewrite (nodes_spec _ _ (DirtyNode <$> d i)) by (by apply (inv_view s d Hinv)).
  destruct (wb_loop_ok _ d i (d i) Hinv1 Hi eq_refl) as (s2 & ws & st1 & st2 & -> & Hinv2 & Hlog & Hws & Hdata & _ & Hst2 & _).
  cbn [mbind exec_bind]. rewrite Hst2. cbn [mbind exec_bind].
  eexists _, ws, (set_progress false st2). split; [done|].
  split; [by apply (inv_flags s2 _ i st2)|]. split; [exact Hlog|]. split; [exact Hws|]. split; [exact Hdata|].
  split; [apply lookup_insert_eq|]. split; [|done].
  pose proof (inode_small s2 _ i st2 Hinv2 Hi Hst2) as Hn2. rewrite upd_eq in Hn2. exact Hn2.
Qed.

(** marking a page keeps the accounting: a page already dirty changes
    nothing; a clean one is appended to its inode's list, and the inode's and
    the global counter both grow by one and still equal the list lengths. *)
Theorem mark_page_dirty_correct s d i p x :
  wb_inv s d -> i ∈ inos -> pages s !! p = Some x -> total d inos + 1 < 2 ^ 32 ->
  if p_dirty x then mark_page_dirty PAGE_SIZE s p i = Ok s
  else exists s', mark_page_dirty PAGE_SIZE s p i = Ok s' /\ wb_inv s' (upd d i (d i ++ [p])) /\
    global_dirty_page_count s' = global_dirty_page_count s + 1.
Proof.
  intros Hinv Hi Hx Hsmall. destruct (p_dirty x) eqn:Hd.
  - unfold mark_page_dirty, get_state, get_page. destruct (inv_state _ _ Hinv i Hi) as (st & -> & _).
    rewrite Hx. cbn [mbind exec_bind]. by rewrite Hd.
  - destruct (mark_clean s d i p x Hinv Hi Hx Hd Hsmall) as (s' & Hm & Hinv' & _). exists s'. split_and!; [done..|].
    unfold global_dirty_page_count. rewrite (inv_count _ _ Hinv'), (inv_count _ _ Hinv), total_upd, length_app;
      [simpl; lia|apply (inv_inodes _ _ Hinv)|done].
Qed.

(** C19: an undisturbed [fsync_inode] returns 0 at its first test, with no dirty
    page left on the inode; it issued exactly one write per dirty page, in the
    order the pages were marked and with the data they held, and left all other
    inodes' lists and all page contents alone. *)
Theorem fsync_writes_all s d i :
  wb_inv s d -> i ∈ inos ->
  (forall st, inodes s !! i = Some st -> writeback_in_progress st = false) ->
  exists s' ws, fsync_inode s i = Ok (s', Some 0) /\ wb_inv s' (upd d i []) /\
    wb_log s' = wb_log s ++ ws /\ writes_of s i (d i) ws /\
    (forall p, data_of s' p = data_of s p) /\
    (forall p, p ∈ d i -> exists y, pages s' !! p = Some y /\ p_dirty y = false).
Proof.
  intros Hinv Hi Hidle. pose proof (inv_state _ _ Hinv i Hi) as (st & Hst & Hn).
  unfold fsync_inode, get_state. rewrite Hst. cbn [mbind exec_bind].
  pose proof (inv_flags s d i st (set_pending true st) Hinv Hst eq_refl) as Hinv1.
  assert (forall s', wb_inv s' (upd d i []) -> (forall p, data_of s' p = data_of s p) ->
    forall p, p ∈ d i -> exists y, pages s' !! p = Some y /\ p_dirty y = false) as Hclean.
  { intros s' Hinv' Hdata p Hp. destruct (inv_listed _ _ Hinv i p Hi Hp) as (x & Hx & _).
    specialize (Hdata p). unfold data_of in Hdata. rewrite Hx in Hdata.
    destruct (pages s' !! p) as [y|] eqn:Hy; [|done]. exists y. split; [done|].
    destruct (p_dirty y) eqn:Hd; [|done]. destruct (inv_dirty _ _ Hinv' p y Hy Hd) as (j & Hj & Hpj).
    unfold upd in Hpj. case_decide as E; [by apply elem_of_nil in Hpj|].
    exfalso. apply E. by eapply (listed_once s d). }
  destruct (writeback_inode_ok _ d i Hinv1 Hi) as (s' & ws & st' & Hwb & Hinv' & Hlog & Hws & Hdata & Hst' & Hn' & Hp').
  destruct (Z.ltb_spec 0 (nr_dirty st)) as [Hpos|Hzero].
  - rewrite Hwb. cbn [mbind exec_bind]. rewrite Hst'. cbn [mbind exec_bind]. rewrite Hn', Hp'.
    exists s', ws. split_and!; try done. by apply Hclean.
  - assert (d i = []) as Hnil by (destruct (d i); [done|simpl in Hn; lia]).
    assert (wb_inv (put_state i (set_pending true st) s) (upd d i [])) as Hinv2.
    { apply (wb_inv_ext _ d); [|done]. intros j. unfold upd. case_decide; [by subst|done]. }
    cbn [mbind exec_bind]. change (inodes (put_state i ?y s)) with (<[i := y]> (inodes s)).
    rewrite lookup_insert_eq. cbn [mbind exec_bind].
    assert (nr_dirty (set_pending true st) = 0) as -> by (simpl; lia).
    assert (writeback_in_progress (set_pending true st) = false) as -> by exact (Hidle st Hst).
    eexists _, []. split; [done|]. split; [done|]. split; [by rewrite app_nil_r|]. split; [by rewrite Hnil; repeat constructor|].
    split; [done|]. by apply Hclean.
Qed.

(** the unlocked window of the loop loses updates: a store that another
    thread makes (and marks dirty) between the write to the device and the
    clearing of the flag leaves the page clean and unlisted, although the device
    was given the old data; no later writeback will write it. *)
Theorem writeback_loses_redirty s d i p rest x v :
  wb_inv s d -> i ∈ inos -> d i = p :: rest -> pages s !! p = Some x -> v <> p_data x ->
  exists s1 s2 s3 s4, wb_take s i p = Ok s1 /\ wb_device s1 i p = Ok s2 /\
    store_page PAGE_SIZE s2 p i v = Ok s3 /\ wb_clean s3 p = Ok s4 /\
    wb_inv s4 (upd d i rest) /\ (forall j, j ∈ inos -> p ∉ upd d i rest j) /\
    data_of s4 p = Some v /\
    (exists w, wb_log s4 = wb_log s ++ [w] /\ w_page w = p /\ w_data w = p_data x /\ w_data w <> v) /\
    (exists y, pages s4 !! p = Some y /\ p_dirty y = false).
Proof.
  intros Hinv Hi Hd Hx Hv. pose proof Hinv as [Hwf Hnd Hview Hsta Hlist Hdir Hclean Hpriv Hcnt Htot].
  assert (p ∈ d i) as Hp by (rewrite Hd; left). destruct (Hlist i p Hi Hp) as (x' & Hx' & Hxd). simplify_eq.
  destruct (Hpriv p x Hx) as [dp Hdp]. destruct (Hsta i Hi) as (st & Hst & Hn).
  unfold wb_take, get_dp, get_state. rewrite Hdp, Hst. cbn [mbind exec_bind]. do 4 eexists. split; [done|].
  unfold wb_device, get_dp, get_page. cbn [dps pages]. rewrite lookup_insert_eq, Hx. cbn [mbind exec_bind]. split; [done|].
  unfold store_page, mark_page_dirty, get_page, get_state. cbn [dps pages inodes]. rewrite Hx. cbn [mbind exec_bind].
  cbn [dps pages inodes]. rewrite !lookup_insert_eq. cbn [mbind exec_bind p_dirty]. rewrite Hxd. split; [done|].
  unfold wb_clean, get_dp, get_page. cbn [dps pages]. rewrite !lookup_insert_eq. cbn [mbind exec_bind]. split; [done|].
  pose proof (listed_nodup s d i Hinv Hi) as Hnodup.
  assert (rest = filter (.≠ p) (d i)) as Hrest by (rewrite Hd in *; by rewrite (filter_ne_middle p [] rest)).
  split; [|split].
  - eapply (remove_page s _ d i p x (Page false (p_index x) v) rest); try done.
    + cbn [pages]. by rewrite insert_insert_eq.
    + intros q Hq. cbn [dps]. rewrite insert_insert_eq.
      destruct (decide (q = p)) as [->|]; [rewrite lookup_insert_eq; eauto|by rewrite lookup_insert_ne].
    + exists st, (set_nr (u32 (nr_dirty st - 1)) st). done.
  - intros j Hj. unfold upd. case_decide as E; [|intros Hpj; apply E; by eapply (listed_once s d)].
    rewrite Hd in Hnodup. by apply list.NoDup_cons in Hnodup as [? _].
  - unfold data_of. cbn [pages wb_log]. rewrite insert_insert_eq, lookup_insert_eq. split; [done|]. split; [|eauto].
    eexists. split; [done|]. simpl. by split_and!.
Qed.

End invariant.

(** ** Witnesses *)

(** One inode with one dirty page; page 1 is clean. *)
Definition demo_wb : wb (@store wnode) :=
  Wb {[ 0%nat := Page true 3 7; 1%nat := Page false 4 0 ]}
     {[ 0%nat := DirtyPage 0 12288 false; 1%nat := DirtyPage 0 0 true ]}
     {[ 0%nat := WbState 1 false false ]}
     (fun k => match k with DirtyPages 0 => Some [DirtyNode 0] | _ => None end) 1 [].
Definition demo_dirty (i : nat) : list nat := match i with O => [0%nat] | _ => [] end.

Lemma demo_wb_inv : wb_inv [0%nat] demo_wb demo_dirty.
Proof.
  assert (forall h xs, list_view (wb_links demo_wb) h = Some xs -> h = DirtyPages 0 /\ xs = [DirtyNode 0]) as Hone.
  { intros [[|i]|p] xs; simpl; try done. by intros [= <-]. }
  split; try reflexivity.
  - split.
    + intros h1 h2 xs ys n [-> _]%Hone [-> _]%Hone. done.
    + intros h xs [_ ->]%Hone. apply NoDup_singleton.
    + intros h xs n [_ ->]%Hone ->%list_elem_of_singleton. done.
  - apply NoDup_singleton.
  - intros i ->%list_elem_of_singleton. done.
  - intros i ->%list_elem_of_singleton. eexists. split; reflexivity.
  - intros i p ->%list_elem_of_singleton ->%list_elem_of_singleton. eexists. split; reflexivity.
  - intros p x Hx Hd. destruct p as [|[|p]]; [|vm_compute in Hx; injection Hx as <-; discriminate Hd|
      unfold demo_wb in Hx; cbn [pages] in Hx; by rewrite lookup_insert_ne, lookup_singleton_ne in Hx by done].
    exists 0%nat. split; by apply list_elem_of_singleton.
  - intros p Hp. split; [by left|]. intros h xs [_ ->]%Hone Hin%list_elem_of_singleton. injection Hin as ->.
    apply (Hp 0%nat); by apply list_elem_of_singleton.
  - intros p x Hx. destruct p as [|[|p]]; [eexists; reflexivity..|].
    unfold demo_wb in Hx. cbn [pages] in Hx. by rewrite lookup_insert_ne, lookup_singleton_ne in Hx by done.
Qed.

Lemma mark_page_dirty_correct_witness :
  exists s', mark_page_dirty 4096 demo_wb 1 0 = Ok s' /\ global_dirty_page_count s' = 2.
Proof.
  destruct (mark_page_dirty_correct 4096 [0%nat] demo_wb demo_dirty 0 1 (Page false 4 0) demo_wb_inv) as (s' & Hm & _ & Hc).
  - by apply list_elem_of_singleton.
  - reflexivity.
  - unfold total. simpl. lia.
  - exists s'. split; [exact Hm|exact Hc].
Defined.

Lemma fsync_writes_all_witness :
  exists s' ws, fsync_inode demo_wb 0 = Ok (s', Some 0) /\ wb_log s' = ws /\ w_page <$> ws = [0%nat].
Proof.
  destruct (fsync_writes_all [0%nat] demo_wb demo_dirty 0 demo_wb_inv) as (s' & ws & Hf & _ & Hlog & [Hws _] & _).
  - by apply list_elem_of_singleton.
  - intros st [= <-]. reflexivity.
  - exists s', ws. split; [exact Hf|]. split; [exact Hlog|exact Hws].
Defined.

Lemma writeback_loses_redirty_witness :
  exists s1 s2 s3 s4, wb_take demo_wb 0 0 = Ok s1 /\ wb_device s1 0 0 = Ok s2 /\
    store_page 4096 s2 0 0 8 = Ok s3 /\ wb_clean s3 0 = Ok s4 /\ data_of s4 0 = Some 8.
Proof.
  destruct (writeback_loses_redirty 4096 [0%nat] demo_wb demo_dirty 0 0 [] (Page true 3 7) 8 demo_wb_inv)
    as (s1 & s2 & s3 & s4 & H1 & H2 & H3 & H4 & _ & _ & H5 & _); [by apply list_elem_of_singleton|reflexivity..|done|].
  exists s1, s2, s3, s4. split; [exact H1|]. split; [exact H2|]. split; [exact H3|]. split; [exact H4|exact H5].
Defined.
