(* ===== verification/Vfs.v ===== *)
(** * The virtual file system layer ([demos/vfs/vfs.c], [vfs.h])

    Inodes live in the static table [inode_table], whose free slots the bitmap
    [inode_inuse] tracks; dentries, files and superblocks are on the heap.  The
    lists of the layer (hash buckets, the inodes of a superblock, the dentries
    of an inode, the registered types) go through the [ListHead] interface.
    The operation tables of a file system are the interface [FsOps]: an inode
    holds the name of a table, and the class says what its entries do.
    Fields that [vfs.c] uses but [vfs.h] does not declare ([i_sb_node],
    [dentry_node], [child_node], [evict_inode], [i_block]) are modelled as it
    uses them.  [kmalloc] is not part of the sources: the [n]-th call succeeds
    when [kmem n] says so and returns an address never used before.  Strings
    are the list of their bytes before the terminating zero. *)
From Stdlib Require Import ZArith Lia.
From stdpp Require Import base numbers list option gmap.
From S2P Require Import Prelude Bitmap ListHead.

Open Scope Z_scope.

Definition S_IFMT : Z := 61440.
Definition S_IFDIR : Z := 16384.
Definition S_IFREG : Z := 32768.
Definition S_ISDIR (m : Z) : bool := Z.land m S_IFMT =? S_IFDIR.

Definition MAX_INODES : Z := 1024.
Definition DENTRY_HASH_SIZE : Z := 256.

(** List nodes and heads; inodes are slots, the rest addresses. *)
Inductive vnode :=
  | IDentry (i : nat) | DentryNode (d : nat)
  | HashBucket (h : nat) | HashNode (d : nat)
  | Children (d : nat) | ChildNode (d : nat)
  | SInodes (sb : nat) | SDirty (sb : nat) | SbNode (i : nat)
  | Registered | FsNode (t : nat).

#[export] Instance vnode_eq_dec : EqDecision vnode.
Proof. solve_decision. Defined.

(** [i_dentry_prev] is the field [i_dentry.prev] when it leads to a dentry
    ([None]: to the head itself): the object that the next [list_add_tail] on the
    list of names writes to.
    [F] and [I] name the tables of file and inode operations. *)
Record inode (F I : Type) := Inode {
  ino : Z; i_mode : Z; i_size : Z; i_private : option nat; i_op : option I; i_fop : option F;
  i_sb : option nat; i_count : Z; i_block0 : Z; i_dentry_prev : option nat
}.
Arguments Inode {F I}.
Arguments ino {F I}.
Arguments i_mode {F I}.
Arguments i_size {F I}.
Arguments i_private {F I}.
Arguments i_op {F I}.
Arguments i_fop {F I}.
Arguments i_sb {F I}.
Arguments i_count {F I}.
Arguments i_block0 {F I}.
Arguments i_dentry_prev {F I}.

Record dentry := Dentry { d_name : list Z; d_inode : option nat; d_parent : option nat; refcount : Z }.

Record file (F : Type) := File {
  f_dentry : option nat; f_op : option F; f_pos : Z; f_flags : Z; private_data : option nat
}.
Arguments File {F}.
Arguments f_dentry {F}.
Arguments f_op {F}.
Arguments f_pos {F}.
Arguments f_flags {F}.
Arguments private_data {F}.

(** [P] is what [s_fs_info] points to. *)
Record super_block (P : Type) := SuperBlock {
  mnt_point : list Z; s_type : nat; s_fs_info : option P; s_root_inode : option nat
}.
Arguments SuperBlock {P}.
Arguments mnt_point {P}.
Arguments s_type {P}.
Arguments s_fs_info {P}.
Arguments s_root_inode {P}.

Record vfs (L F I P : Type) := Vfs {
  inode_table : list (inode F I); inode_inuse : list Z; next_ino : Z;
  dentries : gmap nat dentry; files : gmap nat (file F); sbs : gmap nat (super_block P);
  fs_names : gmap nat (list Z); vlinks : L; vfs_root_dentry : option nat; heap : nat
}.
Arguments Vfs {L F I P}.
Arguments inode_table {L F I P}.
Arguments inode_inuse {L F I P}.
Arguments next_ino {L F I P}.
Arguments dentries {L F I P}.
Arguments files {L F I P}.
Arguments sbs {L F I P}.
Arguments fs_names {L F I P}.
Arguments vlinks {L F I P}.
Arguments vfs_root_dentry {L F I P}.
Arguments heap {L F I P}.

(** What a read or write reports: the return value, the bytes stored in the
    caller's buffer, and the new [*pos]. *)
Record io := Io { io_ret : Z; io_buf : list Z; io_pos : Z }.

(** The entries of the operation tables; [None] is a null pointer ([rmdir] and
    [rename] are set and called nowhere). *)
Class FsOps (L F I P : Type) := {
  fop_open : F -> option (vfs L F I P -> nat -> nat -> exec (vfs L F I P * Z));
  fop_read : F -> option (vfs L F I P -> nat -> Z -> Z -> exec (vfs L F I P * io));
  fop_write : F -> option (vfs L F I P -> nat -> list Z -> Z -> Z -> exec (vfs L F I P * io));
  fop_release : F -> option (vfs L F I P -> nat -> nat -> exec (vfs L F I P));
  fop_fsync : F -> option (vfs L F I P -> nat -> Z -> exec (vfs L F I P * Z));
  iop_create : I -> option (vfs L F I P -> nat -> list Z -> Z -> exec (vfs L F I P * Z * option nat));
  iop_mkdir : I -> option (vfs L F I P -> nat -> list Z -> Z -> exec (vfs L F I P * Z));
  iop_lookup : I -> option (vfs L F I P -> nat -> list Z -> exec (vfs L F I P * option nat));
  iop_evict : I -> option (vfs L F I P -> nat -> exec (vfs L F I P))
}.

(** ** The dentry hash *)

(** A [char] is signed. *)
Definition char_value (c : Z) : Z := if c <? 128 then c else c - 256.

Definition hash_loop (hash : Z) (name : list Z) : Z :=
  foldl (fun hash c => u32 (u32 (u32 (Z.shiftl hash 5) + hash) + char_value c)) hash name.

Definition hash_dentry (name : list Z) : Z := hash_loop 5381 name mod DENTRY_HASH_SIZE.

(** The bucket index is inside the table. *)
Lemma hash_dentry_range name : 0 <= hash_dentry name < DENTRY_HASH_SIZE.
Proof. apply Z.mod_pos_bound. done. Qed.

Section operations.
Context {L F I P : Type} `{!ListHead vnode L} `{!FsOps L F I P}.
(** Success of the [n]-th [kmalloc]. *)
Variable kmem : nat -> bool.
Implicit Types s : vfs L F I P.

Definition inode_zero : inode F I := Inode 0 0 0 None None None None 0 0 None.

Definition set_inodes (t : list (inode F I)) s : vfs L F I P :=
  Vfs t (inode_inuse s) (next_ino s) (dentries s) (files s) (sbs s) (fs_names s) (vlinks s) (vfs_root_dentry s) (heap s).
Definition set_inuse (u : list Z) s : vfs L F I P :=
  Vfs (inode_table s) u (next_ino s) (dentries s) (files s) (sbs s) (fs_names s) (vlinks s) (vfs_root_dentry s) (heap s).
Definition set_next_ino (n : Z) s : vfs L F I P :=
  Vfs (inode_table s) (inode_inuse s) n (dentries s) (files s) (sbs s) (fs_names s) (vlinks s) (vfs_root_dentry s) (heap s).
Definition set_dentries (d : gmap nat dentry) s : vfs L F I P :=
  Vfs (inode_table s) (inode_inuse s) (next_ino s) d (files s) (sbs s) (fs_names s) (vlinks s) (vfs_root_dentry s) (heap s).
Definition set_files (f : gmap nat (file F)) s : vfs L F I P :=
  Vfs (inode_table s) (inode_inuse s) (next_ino s) (dentries s) f (sbs s) (fs_names s) (vlinks s) (vfs_root_dentry s) (heap s).
Definition set_sbs (b : gmap nat (super_block P)) s : vfs L F I P :=
  Vfs (inode_table s) (inode_inuse s) (next_ino s) (dentries s) (files s) b (fs_names s) (vlinks s) (vfs_root_dentry s) (heap s).
Definition set_vlinks (l : L) s : vfs L F I P :=
  Vfs (inode_table s) (inode_inuse s) (next_ino s) (dentries s) (files s) (sbs s) (fs_names s) l (vfs_root_dentry s) (heap s).
Definition set_root (r : option nat) s : vfs L F I P :=
  Vfs (inode_table s) (inode_inuse s) (next_ino s) (dentries s) (files s) (sbs s) (fs_names s) (vlinks s) r (heap s).

Definition kmalloc s : vfs L F I P * option nat :=
  (Vfs (inode_table s) (inode_inuse s) (next_ino s) (dentries s) (files s) (sbs s) (fs_names s) (vlinks s)
       (vfs_root_dentry s) (S (heap s)),
   if kmem (heap s) then Some (heap s) else None).

Definition get_inode s (i : nat) : exec (inode F I) := arr_get (inode_table s) (Z.of_nat i).
Definition put_inode (i : nat) (x : inode F I) s : vfs L F I P := set_inodes (<[i := x]> (inode_table s)) s.
Definition get_dentry s (d : nat) : exec dentry :=
  match dentries s !! d with Some x => Ok x | None => Crash UseAfterFree end.
Definition get_file s (f : nat) : exec (file F) :=
  match files s !! f with Some x => Ok x | None => Crash UseAfterFree end.
Definition get_sb s (b : option nat) : exec (super_block P) :=
  match b with
  | None => Crash NullPointer
  | Some b => match sbs s !! b with Some x => Ok x | None => Crash UseAfterFree end
  end.

Definition with_count (n : Z) (x : inode F I) : inode F I :=
  Inode (ino x) (i_mode x) (i_size x) (i_private x) (i_op x) (i_fop x) (i_sb x) n (i_block0 x) (i_dentry_prev x).
Definition with_prev (d : option nat) (x : inode F I) : inode F I :=
  Inode (ino x) (i_mode x) (i_size x) (i_private x) (i_op x) (i_fop x) (i_sb x) (i_count x) (i_block0 x) d.

(** ** Inodes and dentries *)

Definition vfs_init s : vfs L F I P :=
  let s := set_inodes (replicate (Z.to_nat MAX_INODES) inode_zero) s in
  let s := set_inuse (replicate (Z.to_nat (MAX_INODES / 64)) 0) s in
  set_vlinks (foldl (fun l h => init_list_head (HashBucket h) l) (vlinks s) (seq 0 (Z.to_nat DENTRY_HASH_SIZE))) s.

Definition vfs_alloc_ino s : vfs L F I P * Z := (set_next_ino (u64 (next_ino s + 1)) s, next_ino s).

Definition vfs_new_inode s (sb : nat) (mode : Z) : exec (vfs L F I P * option nat) :=
  o ← bm_claim (inode_inuse s) 0 (Z.to_nat MAX_INODES);
  match o with
  | None => Ok (s, None)
  | Some (used, i) =>
    let s := set_inuse used s in
    _ ← get_inode s i;
    let '(s, n) := vfs_alloc_ino s in
    let s := put_inode i (Inode n mode 0 None None None (Some sb) 1 0 None) s in
    let s := set_vlinks (init_list_head (IDentry i) (vlinks s)) s in
    _ ← get_sb s (Some sb);
    Ok (set_vlinks (list_add_tail (SbNode i) (SInodes sb) (vlinks s)) s, Some i)
  end.

Definition vfs_new_dentry s (name : list Z) (i : nat) : exec (vfs L F I P * option nat) :=
  let '(s, o) := kmalloc s in
  match o with
  | None => Ok (s, None)
  | Some d =>
    let s := set_dentries (<[d := Dentry (take 255 name) (Some i) None 1]> (dentries s)) s in
    let s := set_vlinks (init_list_head (HashNode d) (init_list_head (Children d) (vlinks s))) s in
    x ← get_inode s i;
    let s := put_inode i (with_count (s32 (i_count x + 1)) x) s in
    _ ← match i_dentry_prev x with Some d' => _ ← get_dentry s d'; Ok tt | None => Ok tt end;
    let s := put_inode i (with_prev (Some d) (with_count (s32 (i_count x + 1)) x)) s in
    let s := set_vlinks (list_add_tail (DentryNode d) (IDentry i) (vlinks s)) s in
    let h := Z.to_nat (hash_dentry name) in
    Ok (set_vlinks (list_add_tail (HashNode d) (HashBucket h) (vlinks s)) s, Some d)
  end.

Definition vfs_put_inode s (o : option nat) : exec (vfs L F I P) :=
  match o with
  | None => Ok s
  | Some i =>
    x ← get_inode s i;
    let c := s32 (i_count x - 1) in
    let s := put_inode i (with_count c x) s in
    if c =? 0 then
      s ← match i_op x ≫= iop_evict with Some evict_inode => evict_inode s i | None => Ok s end;
      x ← get_inode s i;
      _ ← get_sb s (i_sb x);
      let s := set_vlinks (list_del (SbNode i) (vlinks s)) s in
      used ← bm_clear (inode_inuse s) (Z.of_nat i);
      Ok (set_inuse used s)
    else Ok s
  end.

Definition vfs_put_dentry s (o : option nat) : exec (vfs L F I P) :=
  match o with
  | None => Ok s
  | Some d =>
    x ← get_dentry s d;
    let r := s32 (refcount x - 1) in
    let s := set_dentries (<[d := Dentry (d_name x) (d_inode x) (d_parent x) r]> (dentries s)) s in
    if 0 <? r then Ok s
    else
      let s := set_vlinks (list_del (HashNode d) (vlinks s)) s in
      let s := match d_parent x with Some _ => set_vlinks (list_del (ChildNode d) (vlinks s)) s | None => s end in
      s ← match d_inode x with
          | Some i =>
            y ← get_inode s i;
            let s := put_inode i (with_count (s32 (i_count y - 1)) y) s in
            vfs_put_inode s (Some i)
          | None => Ok s
          end;
      Ok (set_dentries (delete d (dentries s)) s)
  end.

(** ** Registration and mounting *)

Definition fs_entry (n : vnode) : exec nat :=
  match n with FsNode t => Ok t | _ => Crash OutOfBounds end.
Definition get_fs_name s (t : nat) : exec (list Z) :=
  match fs_names s !! t with Some x => Ok x | None => Crash UseAfterFree end.

Fixpoint registered_as s (name : list Z) (ns : list vnode) : exec bool :=
  match ns with
  | [] => Ok false
  | n :: ns' =>
    t ← fs_entry n;
    e ← get_fs_name s t;
    if decide (e = name) then Ok true else registered_as s name ns'
  end.

Definition register_filesystem s (fs : nat) : exec (vfs L F I P * Z) :=
  name ← get_fs_name s fs;
  b ← registered_as s name (list_nodes Registered (vlinks s));
  if b : bool then Ok (s, - EEXIST)
  else Ok (set_vlinks (list_add_tail (FsNode fs) Registered (vlinks s)) s, 0).

(** [mount] is the callback of the type [fs_type]. *)
Definition vfs_mount s (fs_type : nat) (mount : option (vfs L F I P -> nat -> exec (vfs L F I P * Z)))
    (mnt_point : list Z) : exec (vfs L F I P * Z) :=
  let '(s, o) := kmalloc s in
  match o with
  | None => Ok (s, - ENOMEM)
  | Some sb =>
    let s := set_sbs (<[sb := SuperBlock (take 255 mnt_point) fs_type None None]> (sbs s)) s in
    let s := set_vlinks (init_list_head (SDirty sb) (init_list_head (SInodes sb) (vlinks s))) s in
    match mount with
    | None => Ok (s, 0)
    | Some mount =>
      '(s, ret) ← mount s sb;
      if ret <? 0 then Ok (set_sbs (delete sb (sbs s)) s, ret) else Ok (s, 0)
    end
  end.

(** ** Files *)

(** The path lookup of [vfs_open]: the dentry of the path, if any. *)
Definition open_lookup s (pathname : list Z) : exec (vfs L F I P * option nat) :=
  if decide (pathname = [47]) then Ok (s, vfs_root_dentry s)
  else
    match vfs_root_dentry s with
    | None => Ok (s, None)
    | Some r =>
      x ← get_dentry s r;
      match d_inode x with
      | None => Ok (s, None)
      | Some i =>
        y ← get_inode s i;
        match i_op y ≫= iop_lookup with
        | None => Ok (s, None)
        | Some lookup =>
          match pathname with
          | [] => Crash OutOfBounds
          | _ :: name => lookup s i name
          end
        end
      end
    end.

Definition vfs_open s (pathname : list Z) (flags : Z) : exec (vfs L F I P * option nat) :=
  '(s, o) ← open_lookup s pathname;
  match o with
  | None => Ok (s, None)
  | Some d =>
    x ← get_dentry s d;
    match d_inode x with
    | None => Ok (s, None)
    | Some i =>
      y ← get_inode s i;
      if S_ISDIR (i_mode y) then Ok (s, None)
      else
        let '(s, o) := kmalloc s in
        match o with
        | None => Ok (s, None)
        | Some f =>
          let s := set_files (<[f := File (Some d) None 0 (u32 flags) None]> (files s)) s in
          match i_fop y ≫= fop_open with
          | None => Ok (s, Some f)
          | Some open =>
            '(s, ret) ← open s i f;
            if ret <? 0 then Ok (set_files (delete f (files s)) s, None) else Ok (s, Some f)
          end
        end
    end
  end.

(** The inode of [filp->f_dentry->inode], when no pointer on the way is null. *)
Definition file_inode s (filp : option nat) : exec (option (nat * inode F I)) :=
  match filp with
  | None => Ok None
  | Some f =>
    x ← get_file s f;
    match f_dentry x with
    | None => Ok None
    | Some d =>
      y ← get_dentry s d;
      match d_inode y with
      | None => Ok None
      | Some i => z ← get_inode s i; Ok (Some (i, z))
      end
    end
  end.

Definition vfs_read s (filp : option nat) (count pos : Z) : exec (vfs L F I P * io) :=
  o ← file_inode s filp;
  match o, filp with
  | Some (_, x), Some f =>
    match i_fop x ≫= fop_read with
    | None => Ok (s, Io (- ENOSYS) [] pos)
    | Some read => read s f count pos
    end
  | _, _ => Ok (s, Io (- EFAULT) [] pos)
  end.

Definition vfs_write s (filp : option nat) (buf : list Z) (count pos : Z) : exec (vfs L F I P * io) :=
  o ← file_inode s filp;
  match o, filp with
  | Some (_, x), Some f =>
    match i_fop x ≫= fop_write with
    | None => Ok (s, Io (- ENOSYS) [] pos)
    | Some write => write s f buf count pos
    end
  | _, _ => Ok (s, Io (- EFAULT) [] pos)
  end.

Definition vfs_close s (filp : option nat) : exec (vfs L F I P * Z) :=
  match filp with
  | None => Ok (s, 0)
  | Some f =>
    x ← get_file s f;
    match f_dentry x with
    | None => Crash NullPointer
    | Some d =>
      y ← get_dentry s d;
      s ← match d_inode y with
          | None => Ok s
          | Some i =>
            z ← get_inode s i;
            match i_fop z ≫= fop_release with Some release => release s i f | None => Ok s end
          end;
      s ← vfs_put_dentry s (Some d);
      Ok (set_files (delete f (files s)) s, 0)
    end
  end.

End operations.

(** ** Well-formedness *)

Definition is_head (n : vnode) : bool :=
  match n with IDentry _ | HashBucket _ | Children _ | SInodes _ | SDirty _ | Registered => true | _ => false end.

Section invariant.
Context {L F I P : Type} `{!ListHead vnode L} `{!ListLaws vnode L}.
Implicit Types s : vfs L F I P.

(** The table and its bitmap have their sizes. *)
Definition table_sized s : Prop :=
  bm_words (inode_inuse s) /\ length (inode_inuse s) = 16%nat /\ length (inode_table s) = 1024%nat.

(** The lists are well formed, heads are in no list, a free slot is in no
    superblock's list, and every superblock has its list of inodes. *)
Record vfs_wf s : Prop := {
  wf_sized : table_sized s;
  wf_links : links_wf (vlinks s);
  wf_heads : forall h k xs, is_head h = true -> list_view (vlinks s) k = Some xs -> h ∉ xs;
  wf_free : forall i, bit (inode_inuse s) (Z.of_nat i) = false -> unlinked (SbNode i) (vlinks s);
  wf_sbs : forall b x, sbs s !! b = Some x -> is_Some (list_view (vlinks s) (SInodes b))
}.

Lemma get_inode_ok s i x : inode_table s !! i = Some x -> get_inode s i = Ok x.
Proof. intros H. unfold get_inode. apply arr_get_ok; [lia|]. by rewrite Nat2Z.id. Qed.

(** The allocation of an inode: what it does to the state. *)
Lemma new_inode_effect s sb b mode :
  table_sized s -> sbs s !! sb = Some b ->
  exists s' o, vfs_new_inode s sb mode = Ok (s', o) /\
  match o with
  | None => s' = s /\ forall j, 0 <= j < 1024 -> bit (inode_inuse s) j = true
  | Some i =>
    exists used, (i < 1024)%nat /\ bit (inode_inuse s) (Z.of_nat i) = false /\
    (forall j, 0 <= j < Z.of_nat i -> bit (inode_inuse s) j = true) /\
    (forall j, 0 <= j -> bit used j = if j =? Z.of_nat i then true else bit (inode_inuse s) j) /\ table_sized s' /\
    s' = Vfs (<[i := Inode (next_ino s) mode 0 None None None (Some sb) 1 0 None]> (inode_table s)) used
           (u64 (next_ino s + 1)) (dentries s) (files s) (sbs s) (fs_names s)
           (list_add_tail (SbNode i) (SInodes sb) (init_list_head (IDentry i) (vlinks s))) (vfs_root_dentry s) (heap s)
  end.
Proof.
  intros (Hw & Hlu & Hlt) Hsb. unfold vfs_new_inode.
  destruct (bm_claim_spec (inode_inuse s) 0 1024 Hw) as (o & Ho & Hspec); [lia|unfold bm_bits; lia|].
  change (Z.to_nat MAX_INODES) with 1024%nat. rewrite Ho. cbn [mbind exec_bind].
  destruct o as [[used i]|]; [|exists s, None; split; [done|]; split; [done|]; exact Hspec].
  destruct Hspec as (Hi & Hb & Hbefore & Hlen & Hw' & Hbits).
  destruct (lookup_lt_is_Some_2 (inode_table s) i) as [x Hx]; [lia|].
  rewrite (get_inode_ok (set_inuse used s) i x Hx). cbn [mbind exec_bind vfs_alloc_ino]. unfold get_sb.
  cbn [sbs set_vlinks put_inode set_inodes set_next_ino set_inuse]. rewrite Hsb. eexists _, (Some i). split; [done|].
  exists used. split_and!; try done; [lia|..]; split_and!; simpl; [done|congruence|by rewrite length_insert].
Qed.

End invariant.

Section inode_alloc.
Context {L F I P : Type} `{!ListHead vnode L} `{!ListLaws vnode L}.
Implicit Types s : vfs L F I P.

(** C28: [vfs_new_inode] is a first-fit allocator over the inode table: it
    returns NULL, changing nothing, exactly when all 1024 slots are taken;
    otherwise it takes the lowest free slot, marks it and no other, gives it
    the next inode number, one reference and an empty dentry list, appends it
    to the superblock's list of inodes, and keeps the layer well formed. *)
Theorem vfs_new_inode_first_fit s sb b mode xs :
  vfs_wf s -> sbs s !! sb = Some b -> list_view (vlinks s) (SInodes sb) = Some xs ->
  exists s' o, vfs_new_inode s sb mode = Ok (s', o) /\
  match o with
  | None => s' = s /\ forall i, 0 <= i < MAX_INODES -> bit (inode_inuse s) i = true
  | Some i =>
      Z.of_nat i < MAX_INODES /\ bit (inode_inuse s) (Z.of_nat i) = false /\
      (forall j, 0 <= j < Z.of_nat i -> bit (inode_inuse s) j = true) /\
      (forall j, 0 <= j -> bit (inode_inuse s') j = if j =? Z.of_nat i then true else bit (inode_inuse s) j) /\
      inode_table s' = <[i := Inode (next_ino s) mode 0 None None None (Some sb) 1 0 None]> (inode_table s) /\
      next_ino s' = u64 (next_ino s + 1) /\
      list_view (vlinks s') (IDentry i) = Some [] /\
      list_view (vlinks s') (SInodes sb) = Some (xs ++ [SbNode i]) /\
      dentries s' = dentries s /\ vfs_wf s'
  end.
Proof.
  intros Hwf Hsb Hxs. pose proof Hwf as [Hsz Hl Hheads Hfree Hsbs].
  destruct (new_inode_effect s sb b mode Hsz Hsb) as (s' & o & -> & Ho). exists s', o. split; [done|].
  destruct o as [i|]; [|exact Ho]. destruct Ho as (used & Hi & Hb & Hbefore & Hbits & Hsz' & ->). simpl.
  assert (off_lists (IDentry i) (vlinks s)) as Hoff by (intros k ys; by apply Hheads).
  assert (unlinked (SbNode i) (init_list_head (IDentry i) (vlinks s))) as Hun by (apply unlinked_init; [done|by apply Hfree|done]).
  assert (links_wf (init_list_head (IDentry i) (vlinks s))) as Hl'
    by (by apply links_wf_init).
  assert (list_view (init_list_head (IDentry i) (vlinks s)) (SInodes sb) = Some xs) as Hxs'
    by (by rewrite view_init, decide_False).
  pose proof (fun k => view_add_tail (SbNode i) (SInodes sb) k _ _ Hl' Hun Hxs' ltac:(done)) as Hv.
  split_and!; try done; [unfold MAX_INODES; lia|by rewrite Hv, !decide_False, view_init, decide_True|
    by rewrite Hv, decide_False, decide_True|].
  split; simpl.
  - done.
  - by apply (links_wf_add_tail _ _ _ xs).
  - intros h k ys Hh. rewrite Hv. repeat case_decide; intros; simplify_eq.
    + rewrite elem_of_app, list_elem_of_singleton. intros [Hin|Hin]; [by eapply (Hheads h)|by subst].
    + rewrite view_init in * by done. case_decide; simplify_eq; [apply not_elem_of_nil|by eapply Hheads].
  - intros j. rewrite Hbits by lia. destruct (Z.eqb_spec (Z.of_nat j) (Z.of_nat i)); [done|]. intros Hj.
    assert (j <> i) by congruence.
    destruct (unlinked_add (SbNode i) (SbNode j) (SInodes sb) _ xs Hl' Hun) as [?|?]; try done; [|congruence].
    apply unlinked_init; [done|by apply Hfree|done].
  - intros b' y Hy. rewrite Hv, decide_False by done. case_decide; [eauto|]. rewrite view_init, decide_False by done. eauto.
Qed.

End inode_alloc.

(** ** Reference counts *)

Section references.
Context {L F I P : Type} `{!ListHead vnode L} `{!FsOps L F I P}.
Variable kmem : nat -> bool.
Implicit Types s : vfs L F I P.

(** Several calls in a row. *)
Fixpoint new_dentries s (names : list (list Z)) (i : nat) : exec (vfs L F I P * list nat) :=
  match names with
  | [] => Ok (s, [])
  | n :: ns =>
    '(s, o) ← vfs_new_dentry kmem s n i;
    match o with
    | None => Ok (s, [])
    | Some d => '(s, ds) ← new_dentries s ns i; Ok (s, d :: ds)
    end
  end.

Fixpoint put_all s (ds : list nat) : exec (vfs L F I P) :=
  match ds with
  | [] => Ok s
  | d :: ds' => s ← vfs_put_dentry s (Some d); put_all s ds'
  end.

(** Inode [i] has [c] references and the dentries [ds] name it, each with one
    reference of its own. *)
Record named_by s (i : nat) (c : Z) (ds : list nat) : Prop := {
  nb_sized : table_sized s;
  nb_inode : exists x b y, inode_table s !! i = Some x /\ i_count x = c /\ i_op x = None /\
    i_sb x = Some b /\ sbs s !! b = Some y;
  nb_nodup : NoDup ds;
  nb_dentries : forall d, d ∈ ds -> exists n, dentries s !! d = Some (Dentry n (Some i) None 1);
  nb_heap : forall d, (heap s <= d)%nat -> dentries s !! d = None
}.

Lemma named_by_fresh s i c ds : named_by s i c ds -> heap s ∉ ds.
Proof. intros [_ _ _ Hd Hh] Hin. destruct (Hd _ Hin) as [n Hn]. by rewrite Hh in Hn by done. Qed.

(** The dentry the list of names ends with has not been freed. *)
Definition prev_live s (x : inode F I) : Prop :=
  match i_dentry_prev x with Some d => dentries s !! d <> None | None => True end.

(** The allocation of a dentry: what it does to the state. *)
Lemma new_dentry_effect s i x name :
  inode_table s !! i = Some x -> prev_live s x ->
  exists s', vfs_new_dentry kmem s name i = Ok (s', if kmem (heap s) then Some (heap s) else None) /\
    heap s' = S (heap s) /\ inode_inuse s' = inode_inuse s /\ sbs s' = sbs s /\ vfs_root_dentry s' = vfs_root_dentry s /\
    inode_table s' = (if kmem (heap s) then <[i := with_prev (Some (heap s)) (with_count (s32 (i_count x + 1)) x)]> (inode_table s) else inode_table s) /\
    dentries s' = (if kmem (heap s) then <[heap s := Dentry (take 255 name) (Some i) None 1]> (dentries s) else dentries s).
Proof.
  intros Hx Hp. unfold vfs_new_dentry. cbn [kmalloc]. destruct (kmem (heap s)); [|by eexists].
  unfold get_inode. cbn [set_vlinks set_dentries inode_table].
  rewrite (arr_get_ok _ _ x) by (lia || by rewrite Nat2Z.id). cbn [mbind exec_bind]. unfold prev_live in Hp.
  destruct (i_dentry_prev x) as [d'|] eqn:Ed.
  - unfold get_dentry. cbn [put_inode set_inodes set_vlinks set_dentries dentries].
    destruct (<[heap s := Dentry (take 255 name) (Some i) None 1]> (dentries s) !! d') eqn:E; [|by apply lookup_insert_None in E as [? _]].
    cbn [mbind exec_bind]. eexists. split; [done|].
    cbn [put_inode set_inodes set_vlinks set_dentries inode_table heap inode_inuse sbs vfs_root_dentry dentries].
    by rewrite list_insert_insert_eq.
  - cbn [mbind exec_bind]. eexists. split; [done|].
    cbn [put_inode set_inodes set_vlinks set_dentries inode_table heap inode_inuse sbs vfs_root_dentry dentries].
    by rewrite list_insert_insert_eq.
Qed.

Definition ends_live s (i : nat) : Prop := forall x, inode_table s !! i = Some x -> prev_live s x.

(** A new dentry is one more name and one more reference. *)
Lemma new_dentry_named s i c ds name :
  (forall n, kmem n = true) -> named_by s i c ds -> ends_live s i -> - 2 ^ 31 <= c < 2 ^ 31 - 1 ->
  exists s', vfs_new_dentry kmem s name i = Ok (s', Some (heap s)) /\ named_by s' i (c + 1) (ds ++ [heap s]) /\ ends_live s' i /\
    inode_inuse s' = inode_inuse s.
Proof.
  intros Hk Hnb Hend Hc. pose proof (named_by_fresh _ _ _ _ Hnb) as Hfresh. destruct Hnb as [(Hw & Hlu & Hlt) Hi Hnd Hd Hh].
  destruct Hi as (x & b & y & Hx & Hcx & Hop & Hsb & Hy).
  destruct (new_dentry_effect s i x name Hx (Hend x Hx)) as (s' & Hnew & Hh' & Hu' & Hs' & _ & Ht' & Hd'). rewrite Hk in *.
  exists s'. split; [done|]. split; [|split; [|done]].
  2: { intros x'. rewrite Ht', list_lookup_insert_eq by (by eapply lookup_lt_Some). intros [= <-]. unfold prev_live. cbn. by rewrite Hd', lookup_insert_eq. }
  split.
  - split_and!; [by rewrite Hu'..|by rewrite Ht', length_insert].
  - eexists _, b, y. rewrite Ht', Hs'. split; [apply list_lookup_insert_eq; by eapply lookup_lt_Some|]. simpl.
    rewrite Hcx, s32_small by lia. done.
  - apply list.NoDup_app. split; [done|]. split; [|apply NoDup_singleton].
    intros d Hin ->%list_elem_of_singleton. done.
  - intros d. rewrite elem_of_app, list_elem_of_singleton, Hd'. intros Hin. destruct (decide (d = heap s)) as [->|Hne].
    + rewrite lookup_insert_eq. by eexists.
    + rewrite lookup_insert_ne by done. apply Hd. by destruct Hin.
  - rewrite Hd', Hh'. intros d Hle. rewrite lookup_insert_ne by lia. apply Hh. lia.
Qed.

Lemma new_dentries_named s i c ds names :
  (forall n, kmem n = true) -> named_by s i c ds -> ends_live s i -> - 2 ^ 31 <= c -> c + Z.of_nat (length names) < 2 ^ 31 ->
  exists s' ds', new_dentries s names i = Ok (s', ds') /\ length ds' = length names /\
    named_by s' i (c + Z.of_nat (length names)) (ds ++ ds') /\ inode_inuse s' = inode_inuse s.
Proof.
  intros Hk. revert s c ds. induction names as [|n names IH]; intros s c ds Hnb Hend Hlo Hhi; cbn [new_dentries length] in *.
  - exists s, []. rewrite app_nil_r, Z.add_0_r. done.
  - destruct (new_dentry_named s i c ds n Hk Hnb Hend) as (s1 & -> & Hnb1 & Hend1 & Hu1); [lia|]. cbn [mbind exec_bind].
    destruct (IH s1 (c + 1) (ds ++ [heap s]) Hnb1 Hend1) as (s2 & ds2 & -> & Hlen & Hnb2 & Hu2); [lia..|].
    exists s2, (heap s :: ds2). split; [done|]. simpl. split; [lia|].
    rewrite <- app_assoc in Hnb2. split; [|congruence].
    replace (c + Z.of_nat (S (length names))) with (c + 1 + Z.of_nat (length names)) by lia. done.
Qed.

(** Dropping a dentry takes two references off its inode; the slot is released
    exactly when there were two. *)
Lemma put_dentry_named s i c d ds :
  named_by s i c (d :: ds) -> - 2 ^ 31 + 2 <= c < 2 ^ 31 ->
  exists s', vfs_put_dentry s (Some d) = Ok s' /\ named_by s' i (c - 2) ds /\
    (forall j, 0 <= j -> bit (inode_inuse s') j = if (j =? Z.of_nat i) && (c =? 2) then false else bit (inode_inuse s) j).
Proof.
  intros [(Hw & Hlu & Hlt) Hi Hnd Hd Hh] Hc. destruct Hi as (x & b & y & Hx & Hcx & Hop & Hsb & Hy).
  destruct (Hd d) as [n Hn]; [left|]. pose proof (lookup_lt_Some _ _ _ Hx) as Hlti.
  apply list.NoDup_cons in Hnd as [Hnotin Hnd].
  unfold vfs_put_dentry, get_dentry. rewrite Hn. cbn [mbind exec_bind refcount d_inode d_parent]. simpl (0 <? s32 (1 - 1)).
  cbv iota. unfold get_inode. cbn [set_vlinks set_dentries inode_table].
  rewrite (arr_get_ok _ _ x) by (lia || by rewrite Nat2Z.id). cbn [mbind exec_bind]. unfold vfs_put_inode, get_inode.
  cbn [put_inode set_inodes inode_table].
  rewrite (arr_get_ok _ _ (with_count (s32 (i_count x - 1)) x)) by (lia || by rewrite Nat2Z.id, list_lookup_insert_eq).
  cbn [mbind exec_bind with_count i_count i_op i_sb]. rewrite Hop, Hcx, (s32_small (c - 1)), (s32_small (c - 1 - 1)) by lia.
  cbn [mbind option_bind].
  assert (forall s', inode_table s' = <[i := with_count (c - 2) x]> (inode_table s) ->
    sbs s' = sbs s -> heap s' = heap s -> bm_words (inode_inuse s') -> length (inode_inuse s') = 16%nat ->
    dentries s' = delete d (dentries s) -> named_by s' i (c - 2) ds) as Hnamed.
  { intros s' Ht Hb' Hh' Hw' Hl' Hd'. split; [split_and!; [done|done|by rewrite Ht, length_insert]| |done| |].
    - exists (with_count (c - 2) x), b, y. rewrite Ht, list_lookup_insert_eq, Hb' by done. done.
    - intros d' Hin. rewrite Hd', lookup_delete_ne by (intros ->; done). apply Hd. by right.
    - intros d' Hle. rewrite Hd', Hh' in *. rewrite lookup_delete_ne; [by apply Hh|].
      intros <-. rewrite Hh in Hn by done. done. }
  assert (with_count (c - 1 - 1) (with_count (c - 1) x) = with_count (c - 2) x) as Hwc
    by (unfold with_count; simpl; f_equal; lia).
  destruct (Z.eqb_spec (c - 1 - 1) 0) as [E|E].
  - cbn [mbind exec_bind put_inode set_inodes set_vlinks inode_table]. rewrite !list_insert_insert_eq.
    rewrite (arr_get_ok _ _ (with_count (c - 1 - 1) (with_count (c - 1) x))) by (lia || by rewrite Nat2Z.id, list_lookup_insert_eq).
    cbn [mbind exec_bind]. unfold get_sb. simpl (i_sb _). rewrite Hsb. cbn [sbs set_vlinks set_dentries put_inode set_inodes].
    rewrite Hy. cbn [mbind exec_bind inode_inuse set_vlinks set_dentries put_inode set_inodes].
    destruct (bm_clear_spec (inode_inuse s) (Z.of_nat i) Hw) as (u & Hu & Hlen & Hw' & Hbits); [unfold bm_bits; lia|].
    rewrite Hu. cbn [mbind exec_bind]. eexists. split; [done|]. split.
    + apply Hnamed; simpl; try done; [by rewrite list_insert_insert_eq, Hwc|congruence|by rewrite delete_insert_eq].
    + intros j Hj. simpl. rewrite Hbits by done. destruct (Z.eqb_spec c 2); [|lia]. by rewrite andb_true_r.
  - eexists. split; [done|]. split.
    + apply Hnamed; simpl; try done; [by rewrite list_insert_insert_eq, Hwc|by rewrite delete_insert_eq].
    + intros j Hj. destruct (Z.eqb_spec c 2); [lia|]. by rewrite andb_false_r.
Qed.

(** After the first [k] dentries of an inode with [c] references are dropped:
    the test for zero sees the counts [c - 2], [c - 4], ..., [c - 2 * k]. *)
Lemma put_all_named s i c ds k :
  named_by s i c ds -> c < 2 ^ 31 -> - 2 ^ 31 + 2 * Z.of_nat (length ds) <= c -> (k <= length ds)%nat ->
  exists s', put_all s (take k ds) = Ok s' /\ named_by s' i (c - 2 * Z.of_nat k) (drop k ds) /\
    bit (inode_inuse s') (Z.of_nat i) =
      bit (inode_inuse s) (Z.of_nat i) && negb (Z.even c && (0 <? c) && (c <=? 2 * Z.of_nat k)).
Proof.
  revert s c k. induction ds as [|d ds IH]; intros s c [|k] Hnb Hhi Hlo Hk; simpl in Hk; try lia.
  1,2: exists s; split; [done|]; rewrite Z.mul_0_r, Z.sub_0_r; (split; [done|]);
    destruct (Z.even c), (bit (inode_inuse s) (Z.of_nat i)); simpl; split_bool; simpl; lia || done.
  cbn [take put_all]. simpl in Hlo.
  destruct (put_dentry_named s i c d ds Hnb) as (s1 & -> & Hnb1 & Hbits); [lia|]. cbn [mbind exec_bind drop].
  specialize (Hbits (Z.of_nat i) ltac:(lia)). rewrite Z.eqb_refl in Hbits. simpl in Hbits.
  destruct (IH s1 (c - 2) k Hnb1) as (s2 & -> & Hnb2 & Hb2); [lia..|]. exists s2. split; [done|].
  replace (c - 2 * Z.of_nat (S k)) with (c - 2 - 2 * Z.of_nat k) by lia. split; [done|].
  rewrite Hb2, Hbits, Z.even_sub. destruct (Z.eqb_spec c 2) as [->|Hne].
  - simpl. split_bool; [|lia]. by rewrite andb_false_r.
  - f_equal. f_equal. destruct (Z.even c) eqn:Ev; [|done]. simpl.
    apply Z.even_spec in Ev as [m Hm]. split_bool; simpl; lia || done.
Qed.

(** A new inode has one reference and no name. *)
Lemma new_inode_named s sb b mode s1 i :
  table_sized s -> sbs s !! sb = Some b -> (forall d, (heap s <= d)%nat -> dentries s !! d = None) ->
  vfs_new_inode s sb mode = Ok (s1, Some i) -> named_by s1 i 1 [] /\ ends_live s1 i /\ bit (inode_inuse s1) (Z.of_nat i) = true.
Proof.
  intros Hsz Hsb Hheap Hnew. destruct (new_inode_effect s sb b mode Hsz Hsb) as (s' & o & Hn & Ho).
  rewrite Hnew in Hn. injection Hn as <- <-. destruct Ho as (used & Hi & _ & _ & Hbits & Hsz' & ->). split; [|split].
  - split; simpl; try done.
    + eexists _, sb, b. split; [apply list_lookup_insert_eq; by destruct Hsz as (_ & _ & ->)|done].
    + constructor.
    + intros d ?%elem_of_nil. done.
  - intros x. simpl. rewrite list_lookup_insert_eq by (by destruct Hsz as (_ & _ & ->)). by intros [= <-].
  - simpl. rewrite Hbits by lia. by rewrite Z.eqb_refl.
Qed.

(** The arithmetic of [1 + n] references dropped in pairs. *)
Lemma named_count n k :
  Z.even (1 + Z.of_nat n) && (0 <? 1 + Z.of_nat n) && (1 + Z.of_nat n <=? 2 * Z.of_nat k)
  = Nat.odd n && (Nat.div (n + 1) 2 <=? k)%nat.
Proof.
  destruct (Nat.Even_or_Odd n) as [[m ->]|[m ->]].
  - replace (1 + Z.of_nat (2 * m)) with (1 + 2 * Z.of_nat m) by lia.
    rewrite Z.even_add_mul_2, Nat.odd_mul. done.
  - replace (1 + Z.of_nat (2 * m + 1)) with (2 * (Z.of_nat m + 1)) by lia. rewrite Z.even_mul.
    replace (Nat.div (2 * m + 1 + 1) 2) with (m + 1)%nat by (apply (Nat.div_unique _ 2 _ 0%nat); lia).
    assert (Nat.odd (2 * m + 1) = true) as -> by (apply Nat.odd_spec; by exists m). simpl.
    destruct (Nat.leb_spec (m + 1) k); split_bool; simpl; lia || done.
Qed.

(** references are dropped in pairs: an inode with [n] names is released
    when dentry number (n + 1) / 2 is dropped if [n] is odd, while (n - 1) / 2
    dentries still point to it, and never if [n] is even.  Only an inode with
    exactly one name is released when its last name goes. *)
Theorem vfs_put_dentry_releases s sb b mode s1 i names :
  (forall n, kmem n = true) -> table_sized s -> sbs s !! sb = Some b ->
  (forall d, (heap s <= d)%nat -> dentries s !! d = None) -> Z.of_nat (length names) < 2 ^ 31 - 1 ->
  vfs_new_inode s sb mode = Ok (s1, Some i) ->
  exists s2 ds, new_dentries s1 names i = Ok (s2, ds) /\ length ds = length names /\
  forall k, (k <= length names)%nat ->
  exists s3, put_all s2 (take k ds) = Ok s3 /\
    bit (inode_inuse s3) (Z.of_nat i) =
      negb (Nat.odd (length names) && (Nat.div (length names + 1) 2 <=? k)%nat) /\
    (forall d, d ∈ drop k ds -> exists y, dentries s3 !! d = Some y /\ d_inode y = Some i).
Proof.
  intros Hk Hsz Hsb Hheap Hn Hnew. destruct (new_inode_named s sb b mode s1 i Hsz Hsb Hheap Hnew) as (Hnb & Hend & Hbit).
  destruct (new_dentries_named s1 i 1 [] names Hk Hnb Hend) as (s2 & ds & -> & Hlen & Hnb2 & Hu); [lia..|].
  exists s2, ds. split; [done|]. split; [done|]. intros k Hkn.
  destruct (put_all_named s2 i _ ds k Hnb2) as (s3 & -> & Hnb3 & Hb3); [rewrite ?Hlen; lia..|].
  exists s3. split; [done|]. split.
  - rewrite Hb3, Hu, Hbit. simpl. f_equal. apply named_count.
  - intros d Hd. destruct (nb_dentries _ _ _ _ Hnb3 d Hd) as [n' Hn']. by eexists.
Qed.

End references.

(** ** The dentry list of an inode *)

Section dangling.
Context {L F I P : Type} `{!ListHead vnode L} `{!ListLaws vnode L} `{!FsOps L F I P}.
Implicit Types s : vfs L F I P.

(** [vfs_put_dentry] never unlinks [dentry_node]: a dentry that is freed stays
    on its inode's list of dentries. *)
Theorem freed_dentry_stays_listed s s' d i n h hs sb ins xs x :
  links_wf (vlinks s) -> dentries s !! d = Some (Dentry n (Some i) None 1) ->
  list_view (vlinks s) (HashBucket h) = Some hs -> HashNode d ∈ hs ->
  list_view (vlinks s) (SInodes sb) = Some ins -> SbNode i ∈ ins ->
  list_view (vlinks s) (IDentry i) = Some xs -> DentryNode d ∈ xs ->
  inode_table s !! i = Some x -> i_op x = None -> vfs_put_dentry s (Some d) = Ok s' ->
  dentries s' !! d = None /\ list_view (vlinks s') (IDentry i) = Some xs.
Proof.
  intros Hwf Hd Hh Hhd Hsb Hsbi Hxs Hdx Hx Hop. unfold vfs_put_dentry, get_dentry. rewrite Hd. cbn [mbind exec_bind refcount d_inode d_parent].
  simpl (0 <? s32 (1 - 1)). cbv iota. intros (s1 & H1 & [= <-])%exec_bind_Ok. simpl.
  split; [apply lookup_delete_eq|]. apply exec_bind_Ok in H1 as (y & Hy & H1).
  assert (y = x) as -> by (apply arr_get_inv in Hy as [_ Hy]; rewrite Nat2Z.id in Hy; simpl in Hy; congruence).
  unfold vfs_put_inode in H1. apply exec_bind_Ok in H1 as (z & Hz & H1).
  assert (z = with_count (s32 (i_count x - 1)) x) as ->.
  { apply arr_get_inv in Hz as [_ Hz]. rewrite Nat2Z.id in Hz. simpl in Hz.
    rewrite list_lookup_insert_eq in Hz by (by eapply lookup_lt_Some). congruence. }
  simpl (i_op _) in H1. rewrite Hop in H1.
  assert (list_view (list_del (HashNode d) (vlinks s)) (IDentry i) = Some xs) as Hv
    by (by rewrite (view_del _ (HashBucket h) _ _ hs), decide_False).
  case_match; [|by injection H1 as <-]. simpl in H1. exec_inv. simpl.
  rewrite (view_del _ (SInodes sb) _ _ ins); [by rewrite decide_False|by eapply (links_wf_del _ (HashBucket h))| |done].
  by rewrite (view_del _ (HashBucket h) _ _ hs), decide_False.
Qed.

(** Dropping a name frees the dentry and leaves [i_dentry.prev] as it was. *)
Lemma put_dentry_keeps_prev s s' d i n x :
  dentries s !! d = Some (Dentry n (Some i) None 1) -> inode_table s !! i = Some x -> i_op x = None ->
  vfs_put_dentry s (Some d) = Ok s' ->
  dentries s' !! d = None /\ heap s' = heap s /\
  exists x', inode_table s' !! i = Some x' /\ i_dentry_prev x' = i_dentry_prev x.
Proof.
  intros Hd Hx Hop. unfold vfs_put_dentry, get_dentry. rewrite Hd. cbn [mbind exec_bind refcount d_inode d_parent].
  simpl (0 <? s32 (1 - 1)). cbv iota. intros (s1 & H1 & [= <-])%exec_bind_Ok. simpl.
  split; [apply lookup_delete_eq|]. apply exec_bind_Ok in H1 as (y & Hy & H1).
  assert (y = x) as -> by (apply arr_get_inv in Hy as [_ Hy]; rewrite Nat2Z.id in Hy; simpl in Hy; congruence).
  unfold vfs_put_inode in H1. apply exec_bind_Ok in H1 as (z & Hz & H1). pose proof (lookup_lt_Some _ _ _ Hx) as Hlt.
  assert (z = with_count (s32 (i_count x - 1)) x) as ->.
  { apply arr_get_inv in Hz as [_ Hz]. rewrite Nat2Z.id in Hz. simpl in Hz. rewrite list_lookup_insert_eq in Hz by done. congruence. }
  simpl (i_op _) in H1. rewrite Hop in H1.
  case_match; [simpl in H1; exec_inv; simpl|injection H1 as <-; simpl]; (split; [done|]);
    eexists; rewrite list_insert_insert_eq; (split; [by apply list_lookup_insert_eq|done]).
Qed.


End dangling.

(** ** Witnesses *)

(** Tables without operations. *)
#[export] Instance no_ops {L} : FsOps L unit unit unit := {
  fop_open _ := None; fop_read _ := None; fop_write _ := None; fop_release _ := None; fop_fsync _ := None;
  iop_create _ := None; iop_mkdir _ := None; iop_lookup _ := None; iop_evict _ := None
}.

(** An initialised layer with one superblock, at address 0. *)
Definition demo_vfs : vfs (@store vnode) unit unit unit :=
  Vfs (replicate 1024 inode_zero) (replicate 16 0) 1 ∅ ∅ {[ 0%nat := SuperBlock [47] 0 None None ]} ∅
    (fun k => match k with SInodes 0 => Some [] | _ => None end) None 1.

Lemma demo_vfs_sized : table_sized demo_vfs.
Proof. split_and!; [apply bm_words_zero|done..]. Qed.

Lemma demo_vfs_wf : vfs_wf demo_vfs.
Proof.
  assert (forall k xs, list_view (vlinks demo_vfs) k = Some xs -> k = SInodes 0 /\ xs = []) as Hone.
  { intros [| | | | | |[|sb]| | | |] xs; simpl; try done. by intros [= <-]. }
  split.
  - apply demo_vfs_sized.
  - split.
    + intros h1 h2 xs ys n [-> _]%Hone [-> _]%Hone. done.
    + intros h xs [_ ->]%Hone. constructor.
    + intros h xs n [_ ->]%Hone ?%elem_of_nil. done.
  - intros h k xs _ [_ ->]%Hone. apply not_elem_of_nil.
  - intros i _. split; [by left|]. intros h xs [_ ->]%Hone. apply not_elem_of_nil.
  - intros b x Hb. unfold demo_vfs in Hb. cbn [sbs] in Hb. apply lookup_singleton_Some in Hb as [<- <-]. by eexists.
Qed.

Lemma vfs_new_inode_first_fit_witness :
  exists s' o, vfs_new_inode demo_vfs 0 S_IFREG = Ok (s', o) /\
    (forall i, o = Some i -> list_view (vlinks s') (SInodes 0) = Some [SbNode i]).
Proof.
  destruct (vfs_new_inode_first_fit demo_vfs 0 (SuperBlock [47] 0 None None) S_IFREG [] demo_vfs_wf) as (s' & o & H & Ho);
    [reflexivity..|].
  exists s', o. split; [exact H|]. intros i ->. apply Ho.
Defined.

(** Two names, the second dropped: a third cannot be given. *)
Definition ok_state {A} (r : exec (vfs (@store vnode) unit unit unit * A)) : vfs (@store vnode) unit unit unit :=
  match r with Ok (s, _) => s | Crash _ => demo_vfs end.
Definition demo_inode_made := ok_state (vfs_new_inode demo_vfs 0 S_IFREG).
Definition demo_named := ok_state (vfs_new_dentry (fun _ => true) demo_inode_made [97] 0).
Definition demo_named_twice := ok_state (vfs_new_dentry (fun _ => true) demo_named [98] 0).
Definition demo_dropped := match vfs_put_dentry demo_named_twice (Some 2%nat) with Ok s => s | Crash _ => demo_vfs end.


(** With three names the slot is free after two of them are dropped, and the
    third still names it. *)
Lemma vfs_put_dentry_releases_witness :
  exists s1 s2 ds s3, vfs_new_inode demo_vfs 0 S_IFREG = Ok (s1, Some 0%nat) /\
    new_dentries (fun _ => true) s1 [[97]; [98]; [99]] 0 = Ok (s2, ds) /\
    put_all s2 (take 2 ds) = Ok s3 /\ bit (inode_inuse s3) 0 = false /\
    (forall d, d ∈ drop 2 ds -> exists y, dentries s3 !! d = Some y /\ d_inode y = Some 0%nat).
Proof.
  eassert (vfs_new_inode demo_vfs 0 S_IFREG = Ok (_, Some 0%nat)) as Hnew by reflexivity.
  destruct (vfs_put_dentry_releases (fun _ => true) demo_vfs 0 (SuperBlock [47] 0 None None) S_IFREG _ 0
    [[97]; [98]; [99]] (fun _ => eq_refl) demo_vfs_sized eq_refl (fun _ _ => eq_refl) eq_refl Hnew)
    as (s2 & ds & H2 & _ & H3).
  destruct (H3 2%nat) as (s3 & Hp & Hb & Hd); [simpl; lia|].
  eexists _, s2, ds, s3. split; [exact Hnew|]. split; [exact H2|]. split; [exact Hp|]. split; [exact Hb|exact Hd].
Defined.
