(* ===== verification/Ext4.v ===== *)
(** * The ext4 operations under the VFS ([demos/vfs/ext4_ops.c])

    The two tables of file operations and the two of inode operations are the
    names [ext4_fop] and [ext4_iop]; [ext4_ops] discharges the interface
    [FsOps] with the functions the source puts in them.  The memory that
    [ext4_read] reaches through a block number is a parameter. *)
From Stdlib Require Import ZArith Lia.
From stdpp Require Import base numbers list option gmap.
From S2P Require Import Prelude Bitmap ListHead Vfs.

Open Scope Z_scope.

Record ext4_super_block := Ext4Sb {
  s_inodes_count : Z; s_blocks_count : Z; s_free_inodes_count : Z; s_free_blocks_count : Z;
  s_first_data_block : Z; s_log_block_size : Z; s_volume_name : list Z
}.

Record ext4_inode := Ext4Inode {
  e_mode : Z; e_uid : Z; e_size : Z; e_atime : Z; e_ctime : Z; e_mtime : Z; e_dtime : Z; e_gid : Z;
  e_links_count : Z; e_blocks : Z; e_block : list Z
}.

Record ext4_fs_info := Ext4Fs {
  fs_sb : ext4_super_block; fs_inodes : list ext4_inode; root_dentry : option nat;
  block_bitmap : option nat; inode_bitmap : option nat
}.

Inductive ext4_fop := ext4_file_operations | ext4_dir_file_operations.
Inductive ext4_iop := ext4_file_inode_operations | ext4_dir_inode_operations.

Definition ext4_sb_zero : ext4_super_block := Ext4Sb 0 0 0 0 0 0 (replicate 16 0).
Definition ext4_inode_zero : ext4_inode := Ext4Inode 0 0 0 0 0 0 0 0 0 0 (replicate 15 0).

Section ext4.
Context {L : Type} `{!ListHead vnode L}.
Variable kmem : nat -> bool.
(** The byte at an address. *)
Variable memory : Z -> Z.
Abbreviation state := (vfs L ext4_fop ext4_iop ext4_fs_info).
Implicit Types s : state.

Definition set_size (n : Z) (x : inode ext4_fop ext4_iop) : inode ext4_fop ext4_iop :=
  Inode (ino x) (i_mode x) n (i_private x) (i_op x) (i_fop x) (i_sb x) (i_count x) (i_block0 x) (i_dentry_prev x).
Definition set_ops (o : option ext4_iop) (f : option ext4_fop) (x : inode ext4_fop ext4_iop) :
    inode ext4_fop ext4_iop :=
  Inode (ino x) (i_mode x) (i_size x) (i_private x) o f (i_sb x) (i_count x) (i_block0 x) (i_dentry_prev x).

(** The private data of a superblock and its replacement. *)
Definition get_fsi s (b : option nat) : exec ext4_fs_info :=
  x ← get_sb s b;
  match s_fs_info x with Some f => Ok f | None => Crash NullPointer end.
Definition put_fsi s (b : nat) (f : ext4_fs_info) : state :=
  set_sbs (alter (fun x => SuperBlock (mnt_point x) (s_type x) (Some f) (s_root_inode x)) b (sbs s)) s.
Definition set_fs_inodes (t : list ext4_inode) (f : ext4_fs_info) : ext4_fs_info :=
  Ext4Fs (fs_sb f) t (root_dentry f) (block_bitmap f) (inode_bitmap f).

(** [filp->f_dentry->inode], dereferenced without tests. *)
Definition filp_inode s (f : nat) : exec (nat * inode ext4_fop ext4_iop) :=
  o ← file_inode s (Some f);
  match o with Some r => Ok r | None => Crash NullPointer end.

(** ** File operations *)

Definition ext4_open s (i f : nat) : exec (state * Z) :=
  x ← get_file s f;
  Ok (set_files (<[f := File (f_dentry x) (f_op x) (f_pos x) (f_flags x) None]> (files s)) s, 0).

Definition ext4_read s (f : nat) (count pos : Z) : exec (state * io) :=
  '(i, x) ← filp_inode s f;
  b ← get_sb s (i_sb x);
  if i_size x <=? u64 pos then Ok (s, Io 0 [] pos)
  else
    let count := if i_size x <? u64 (pos + count) then u64 (i_size x - pos) else count in
    data ← (if i_block0 x =? 0 then Ok (replicate (Z.to_nat count) 0)
            else
              fsi ← get_fsi s (i_sb x);
              e ← arr_get (fs_inodes fsi) (ino x mod 128);
              block ← arr_get (e_block e) 0;
              Ok ((fun k => memory (u32 (block * 4096) + pos + Z.of_nat k)) <$> seq 0 (Z.to_nat count)));
    Ok (s, Io (s64 count) data (s64 (pos + count))).

Definition ext4_write s (f : nat) (buf : list Z) (count pos : Z) : exec (state * io) :=
  '(i, x) ← filp_inode s f;
  let s := if i_size x <? u64 (pos + count) then put_inode i (set_size (u64 (pos + count)) x) s else s in
  Ok (s, Io (s64 count) [] (s64 (pos + count))).

Definition ext4_release s (i f : nat) : exec state := Ok s.
Definition ext4_fsync s (i : nat) (datasync : Z) : exec (state * Z) := Ok (s, 0).

(** ** Inode operations *)

Definition ext4_create s (dir : nat) (name : list Z) (mode : Z) : exec (state * Z * option nat) :=
  d ← get_inode s dir;
  b ← get_sb s (i_sb d);
  match i_sb d with
  | None => Crash NullPointer
  | Some sb =>
    '(s, o) ← vfs_new_inode s sb (Z.lor S_IFREG mode);
    match o with
    | None => Ok (s, - ENOMEM, None)
    | Some i =>
      x ← get_inode s i;
      fsi ← get_fsi s (Some sb);
      e ← arr_get (fs_inodes fsi) (ino x mod 128);
      t ← arr_set (fs_inodes fsi) (ino x mod 128)
            (Ext4Inode (u16 (i_mode x)) (e_uid e) 0 (e_atime e) (e_ctime e) (e_mtime e) (e_dtime e) (e_gid e) 1
                       (e_blocks e) (e_block e));
      let s := put_fsi s sb (set_fs_inodes t fsi) in
      let s := put_inode i (set_ops (i_op x) (Some ext4_file_operations) x) s in
      '(s, o) ← vfs_new_dentry kmem s name i;
      Ok (s, 0, o)
    end
  end.

(** The loop of [ext4_lookup] over the table has no effect but its reads. *)
Fixpoint lookup_scan (t : list ext4_inode) (i : Z) (n : nat) : exec unit :=
  match n with
  | O => Ok tt
  | S n' => _ ← arr_get t i; lookup_scan t (i + 1) n'
  end.

Definition ext4_lookup s (dir : nat) (name : list Z) : exec (state * option nat) :=
  d ← get_inode s dir;
  fsi ← get_fsi s (i_sb d);
  _ ← lookup_scan (fs_inodes fsi) 1 127;
  Ok (s, None).

Definition ext4_mkdir s (dir : nat) (name : list Z) (mode : Z) : exec (state * Z) :=
  d ← get_inode s dir;
  match i_sb d with
  | None => Crash NullPointer
  | Some sb =>
    '(s, o) ← vfs_new_inode s sb (Z.lor S_IFDIR mode);
    match o with
    | None => Ok (s, - ENOMEM)
    | Some i =>
      x ← get_inode s i;
      Ok (put_inode i (set_ops (Some ext4_dir_inode_operations) (Some ext4_dir_file_operations) x) s, 0)
    end
  end.

(** ** The tables *)

#[export] Instance ext4_ops : FsOps L ext4_fop ext4_iop ext4_fs_info := {
  fop_open _ := Some ext4_open;
  fop_read _ := Some ext4_read;
  fop_write t := match t with ext4_file_operations => Some ext4_write | ext4_dir_file_operations => None end;
  fop_release _ := Some ext4_release;
  fop_fsync t := match t with ext4_file_operations => Some ext4_fsync | ext4_dir_file_operations => None end;
  iop_create _ := Some ext4_create;
  iop_lookup _ := Some ext4_lookup;
  iop_mkdir t := match t with ext4_dir_inode_operations => Some ext4_mkdir | ext4_file_inode_operations => None end;
  iop_evict _ := None
}.

(** ** Mounting *)

Definition ext4_mount s (sb : nat) : exec (state * Z) :=
  let '(s, o) := kmalloc kmem s in
  match o with
  | None => Ok (s, - ENOMEM)
  | Some _ =>
    b ← get_sb s (Some sb);
    let s := put_fsi s sb (Ext4Fs ext4_sb_zero [] None None None) in
    let '(s, o) := kmalloc kmem s in
    match o with
    | None => Crash NullPointer
    | Some _ =>
      let super := Ext4Sb 1024 65536 1000 60000 0 0 (replicate 16 0) in
      let '(s, o) := kmalloc kmem s in
      match o with
      | None => Crash NullPointer
      | Some _ =>
        let fsi := Ext4Fs super (replicate 128 ext4_inode_zero) None None None in
        let s := put_fsi s sb fsi in
        '(s, o) ← vfs_new_inode s sb (Z.lor S_IFDIR 493);
        match o with
        | None => Crash NullPointer
        | Some i =>
          x ← get_inode s i;
          let s := put_inode i (set_ops (Some ext4_dir_inode_operations) (Some ext4_dir_file_operations) x) s in
          e ← arr_get (fs_inodes fsi) 0;
          t ← arr_set (fs_inodes fsi) 0
                (Ext4Inode (u16 (i_mode x)) (e_uid e) (e_size e) (e_atime e) (e_ctime e) (e_mtime e) (e_dtime e)
                           (e_gid e) (e_links_count e) (e_blocks e) (e_block e));
          let s := set_sbs (alter (fun y => SuperBlock (mnt_point y) (s_type y) (s_fs_info y) (Some i)) sb (sbs s)) s in
          '(s, d) ← vfs_new_dentry kmem s [47] i;
          let s := put_fsi s sb (Ext4Fs super t d None None) in
          Ok (set_root d s, 0)
        end
      end
    end
  end.

(** [ext4_fs_type] is at the address [t]; [ext4_init] registers it. *)
Definition ext4_name : list Z := [101; 120; 116; 52].
Definition ext4_init s (t : nat) : exec (state * Z) := register_filesystem s t.

End ext4.

(** ** Reading and writing an open file *)

Section file_data.
Context {L : Type} `{!ListHead vnode L}.
Variable kmem : nat -> bool.
Variable memory : Z -> Z.
Abbreviation state := (vfs L ext4_fop ext4_iop ext4_fs_info).
Implicit Types s : state.
#[local] Existing Instance ext4_ops.

(** [f] is an open regular file on inode [i], none of whose data is on disk. *)
Record opened s (f i : nat) (x : inode ext4_fop ext4_iop) : Prop := {
  op_inode : file_inode s (Some f) = Ok (Some (i, x));
  op_table : inode_table s !! i = Some x;
  op_fop : i_fop x = Some ext4_file_operations;
  op_sb : exists b y, i_sb x = Some b /\ sbs s !! b = Some y;
  op_block : i_block0 x = 0
}.

Lemma file_inode_put s f i x y :
  file_inode s (Some f) = Ok (Some (i, x)) -> inode_table s !! i = Some x ->
  file_inode (put_inode i y s) (Some f) = Ok (Some (i, y)).
Proof.
  intros H Hx. unfold file_inode in *. unfold get_file, get_dentry in *. cbn [put_inode set_inodes files dentries] in *.
  destruct (files s !! f) as [fl|]; [|done]. cbn [mbind exec_bind] in *. destruct (f_dentry fl) as [d|]; [|done].
  destruct (dentries s !! d) as [de|]; [|done]. cbn [mbind exec_bind] in *. destruct (d_inode de) as [j|]; [|done].
  apply exec_bind_Ok in H as (z & Hz & [= -> ->]). unfold get_inode. simpl.
  rewrite (arr_get_ok _ _ y); [done|lia|]. rewrite Nat2Z.id. apply list_lookup_insert_eq. by eapply lookup_lt_Some.
Qed.

(** What a read of [count] bytes at [pos] returns from a file of [size] bytes. *)
Definition read_length (size count pos : Z) : Z := Z.max 0 (Z.min count (size - pos)).

Lemma vfs_read_opened s f i x count pos :
  opened s f i x -> 0 <= i_size x < 2 ^ 63 -> 0 <= pos -> 0 <= count -> pos + count < 2 ^ 63 ->
  let n := read_length (i_size x) count pos in
  vfs_read (FsOps0 := ext4_ops kmem memory) s (Some f) count pos
  = Ok (s, Io n (replicate (Z.to_nat n) 0) (pos + n)).
Proof.
  intros [Hi Hx Hf (b & y & Hb & Hy) Hz] Hs Hp Hc Hsum n. unfold vfs_read. rewrite Hi. cbn [mbind exec_bind].
  rewrite Hf. simpl. unfold ext4_read, filp_inode. rewrite Hi. cbn [mbind exec_bind]. unfold get_sb. rewrite Hb, Hy.
  cbn [mbind exec_bind]. rewrite (wrapu_small 64 pos), (wrapu_small 64 (pos + count)) by lia.
  subst n. unfold read_length. destruct (Z.leb_spec (i_size x) pos).
  - replace (Z.max 0 (Z.min count (i_size x - pos))) with 0 by lia. by rewrite Z.add_0_r.
  - rewrite Hz. cbn [mbind exec_bind Z.eqb]. destruct (Z.ltb_spec (i_size x) (pos + count)).
    + rewrite (wrapu_small 64 (i_size x - pos)), !s64_small by lia.
      by replace (Z.max 0 (Z.min count (i_size x - pos))) with (i_size x - pos) by lia.
    + rewrite !s64_small by lia. by replace (Z.max 0 (Z.min count (i_size x - pos))) with count by lia.
Qed.

(** file sizes and offsets are exact, file data is not kept: a write of
    [count] bytes returns [count], advances the offset and extends the file to
    the end of the write, never shrinking it; every later read returns exactly
    the bytes between its offset and the end of the file, at most the number
    asked for, but all of them are zero, whatever was written. *)
Theorem ext4_write_then_read s f i x buf count pos :
  opened s f i x -> 0 <= i_size x < 2 ^ 63 -> 0 <= pos -> 0 <= count -> pos + count < 2 ^ 63 ->
  let size := Z.max (i_size x) (pos + count) in
  exists s', vfs_write (FsOps0 := ext4_ops kmem memory) s (Some f) buf count pos = Ok (s', Io count [] (pos + count)) /\
  opened s' f i (set_size size x) /\
  forall count' pos', 0 <= pos' -> 0 <= count' -> pos' + count' < 2 ^ 63 ->
    let n := read_length size count' pos' in
    vfs_read (FsOps0 := ext4_ops kmem memory) s' (Some f) count' pos'
    = Ok (s', Io n (replicate (Z.to_nat n) 0) (pos' + n)).
Proof.
  intros Hop Hs Hp Hc Hsum size.
  set (s' := if i_size x <? pos + count then put_inode i (set_size (pos + count) x) s else s).
  assert (opened s' f i (set_size size x)) as Hop'.
  { pose proof Hop as [Hi Hx Hf Hb Hz]. subst s' size. destruct (Z.ltb_spec (i_size x) (pos + count)).
    - rewrite Z.max_r by lia. split; try done; [by eapply file_inode_put|].
      apply list_lookup_insert_eq. by eapply lookup_lt_Some.
    - rewrite Z.max_l by lia. replace (set_size (i_size x) x) with x by (by destruct x). done. }
  exists s'. split; [|split; [done|]].
  - pose proof Hop as [Hi Hx Hf Hb Hz]. unfold vfs_write. rewrite Hi. cbn [mbind exec_bind]. rewrite Hf. simpl.
    unfold ext4_write, filp_inode. rewrite Hi. cbn [mbind exec_bind].
    rewrite (wrapu_small 64 (pos + count)), !s64_small by lia. done.
  - intros count' pos' Hp' Hc' Hsum'. apply (vfs_read_opened s' f i (set_size size x)); [done| |done..].
    subst size. simpl. lia.
Qed.

End file_data.

(** ** What a mounted file system can do *)

Section mounted.
Context {L : Type} `{!ListHead vnode L}.
Variable kmem : nat -> bool.
Variable memory : Z -> Z.
Abbreviation state := (vfs L ext4_fop ext4_iop ext4_fs_info).
Implicit Types s : state.
#[local] Existing Instance ext4_ops.

(** Calls on a mounted file system, made through the tables of the slot [dir];
    a null entry is not called, and a path that is opened has a first
    character [c]. *)
Inductive fs_call :=
  | CallCreate (dir : nat) (name : list Z) (mode : Z)
  | CallMkdir (dir : nat) (name : list Z) (mode : Z)
  | CallOpen (c : Z) (path : list Z) (flags : Z).

Definition dir_op s (dir : nat) : option ext4_iop := inode_table s !! dir ≫= i_op.

Definition do_call s (c : fs_call) : exec state :=
  match c with
  | CallCreate dir name mode =>
    match dir_op s dir ≫= iop_create (FsOps := ext4_ops kmem memory) with
    | Some create => '(s, _, _) ← create s dir name mode; Ok s
    | None => Ok s
    end
  | CallMkdir dir name mode =>
    match dir_op s dir ≫= iop_mkdir (FsOps := ext4_ops kmem memory) with
    | Some mkdir => '(s, _) ← mkdir s dir name mode; Ok s
    | None => Ok s
    end
  | CallOpen c path flags => '(s, _) ← vfs_open (FsOps0 := ext4_ops kmem memory) kmem s (c :: path) flags; Ok s
  end.

Fixpoint do_calls s (cs : list fs_call) : exec state :=
  match cs with
  | [] => Ok s
  | c :: cs' => s ← do_call s c; do_calls s cs'
  end.

(** The invariant of a mounted file system: the superblock is live, operations
    belong to it, no inode has data, and the root is a directory in use. *)
Record mounted s (sb : nat) : Prop := {
  mt_sized : table_sized s;
  mt_sb : exists b fsi, sbs s !! sb = Some b /\ s_fs_info b = Some fsi /\ length (fs_inodes fsi) = 128%nat;
  mt_inodes : forall i x, inode_table s !! i = Some x -> i_block0 x = 0 /\ (i_op x = None \/ i_sb x = Some sb);
  mt_root : exists r d i x, vfs_root_dentry s = Some r /\ dentries s !! r = Some d /\ d_inode d = Some i /\
    inode_table s !! i = Some x /\ S_ISDIR (i_mode x) = true /\ i_op x = Some ext4_dir_inode_operations /\
    bit (inode_inuse s) (Z.of_nat i) = true;
  mt_heap : forall r, vfs_root_dentry s = Some r -> (r < heap s)%nat
}.

(** A change that keeps the root inode and allocates slots for the superblock. *)
Lemma mounted_step s s' sb :
  mounted s sb -> table_sized s' ->
  (exists b fsi, sbs s' !! sb = Some b /\ s_fs_info b = Some fsi /\ length (fs_inodes fsi) = 128%nat) ->
  (forall i x, inode_table s' !! i = Some x -> inode_table s !! i = Some x \/
     bit (inode_inuse s) (Z.of_nat i) = false /\ i_block0 x = 0 /\ i_sb x = Some sb) ->
  (forall i x, inode_table s !! i = Some x -> bit (inode_inuse s) (Z.of_nat i) = true ->
     inode_table s' !! i = Some x /\ bit (inode_inuse s') (Z.of_nat i) = true) ->
  vfs_root_dentry s' = vfs_root_dentry s -> (heap s <= heap s')%nat ->
  (forall r, (r < heap s)%nat -> dentries s' !! r = dentries s !! r) -> mounted s' sb.
Proof.
  intros [Hsz Hsb Hin Hroot Hheap] Hsz' Hsb' Hnew Hold Hr Hh Hd. split; try done.
  - intros i x Hx. destruct (Hnew i x Hx) as [Hx'|(_ & Hb & Hi)]; [by apply (Hin i)|]. split; [done|by right].
  - destruct Hroot as (r & d & i & x & H1 & H2 & H3 & H4 & H5 & H6 & H7). exists r, d, i, x.
    rewrite Hr, Hd by (by apply Hheap). destruct (Hold i x H4 H7). done.
  - intros r Hr'. rewrite Hr in Hr'. specialize (Hheap r Hr'). lia.
Qed.

Lemma lookup_scan_ok t i n : 0 <= i -> i + Z.of_nat n <= Z.of_nat (length t) -> lookup_scan t i n = Ok tt.
Proof.
  revert i. induction n as [|n IH]; intros i Hi Hn; simpl; [done|].
  destruct (arr_get_total t i) as (x & -> & _); [lia|]. cbn [mbind exec_bind]. apply IH; lia.
Qed.

(** No path leads to a file. *)
Lemma open_mounted s sb path flags :
  mounted s sb -> path <> [] -> vfs_open (FsOps0 := ext4_ops kmem memory) kmem s path flags = Ok (s, None).
Proof.
  intros [Hsz (b & fsi & Hb & Hfsi & Hlen) Hin Hroot _] Hp.
  destruct Hroot as (r & d & i & x & H1 & H2 & H3 & H4 & H5 & H6 & H7).
  unfold vfs_open, open_lookup. case_decide as Hpath.
  - rewrite H1. cbn [mbind exec_bind]. unfold get_dentry. rewrite H2. cbn [mbind exec_bind]. rewrite H3.
    rewrite (get_inode_ok s i x H4). cbn [mbind exec_bind]. by rewrite H5.
  - rewrite H1. unfold get_dentry. rewrite H2. cbn [mbind exec_bind]. rewrite H3.
    rewrite (get_inode_ok s i x H4). cbn [mbind exec_bind]. rewrite H6. cbn [mbind option_bind iop_lookup ext4_ops].
    destruct path as [|c name]; [done|]. unfold ext4_lookup. rewrite (get_inode_ok s i x H4). cbn [mbind exec_bind].
    destruct (Hin i x H4) as [_ [Hno|Hi]]; [congruence|]. rewrite Hi. unfold get_fsi, get_sb. rewrite Hb.
    cbn [mbind exec_bind]. rewrite Hfsi. cbn [mbind exec_bind]. rewrite lookup_scan_ok by lia. done.
Qed.

Lemma open_empty s sb flags :
  mounted s sb -> vfs_open (FsOps0 := ext4_ops kmem memory) kmem s [] flags = Crash OutOfBounds.
Proof.
  intros [_ _ _ (r & d & i & x & H1 & H2 & H3 & H4 & _ & H6 & _) _]. unfold vfs_open, open_lookup.
  rewrite decide_False, H1 by done. unfold get_dentry. rewrite H2. cbn [mbind exec_bind]. rewrite H3.
  rewrite (get_inode_ok s i x H4). cbn [mbind exec_bind]. by rewrite H6.
Qed.

Lemma table_lookup_insert s i (x y : inode ext4_fop ext4_iop) j :
  <[i := x]> (inode_table s) !! j = Some y -> (j = i /\ y = x) \/ (j <> i /\ inode_table s !! j = Some y).
Proof. intros [(-> & -> & _)|[? ?]]%list_lookup_insert_Some; [by left|right; split; [congruence|done]]. Qed.

(** Allocating an inode and setting its tables keeps the file system mounted. *)
Lemma mounted_new_inode s s' sb i used x :
  mounted s sb -> table_sized s' -> bit (inode_inuse s) (Z.of_nat i) = false -> i_block0 x = 0 -> i_sb x = Some sb ->
  (forall j, 0 <= j -> bit used j = if j =? Z.of_nat i then true else bit (inode_inuse s) j) ->
  inode_table s' = <[i := x]> (inode_table s) -> inode_inuse s' = used ->
  (exists b fsi, sbs s' !! sb = Some b /\ s_fs_info b = Some fsi /\ length (fs_inodes fsi) = 128%nat) ->
  vfs_root_dentry s' = vfs_root_dentry s -> (heap s <= heap s')%nat ->
  (forall r, (r < heap s)%nat -> dentries s' !! r = dentries s !! r) -> mounted s' sb.
Proof.
  intros Hm Hsz Hfree Hx0 Hxsb Hbits Ht Hu Hsb Hr Hh Hd. eapply (mounted_step s); try done.
  - intros j y. rewrite Ht. intros [[-> ->]|[_ Hj]]%table_lookup_insert; [by right|by left].
  - intros j y Hj Hbj. assert (j <> i) by (intros ->; congruence). rewrite Ht, list_lookup_insert_ne by done.
    split; [done|]. rewrite Hu, Hbits by lia. by destruct (Z.eqb_spec (Z.of_nat j) (Z.of_nat i)).
Qed.

Lemma mkdir_mounted s sb dir x name mode :
  mounted s sb -> inode_table s !! dir = Some x -> i_sb x = Some sb ->
  exists s' ret, ext4_mkdir s dir name mode = Ok (s', ret) /\ mounted s' sb.
Proof.
  intros Hm Hx Hxsb. pose proof Hm as [Hsz Hsb _ _ _]. destruct Hsb as (b & fsi & Hb & Hfsi).
  unfold ext4_mkdir. rewrite (get_inode_ok s dir x Hx). cbn [mbind exec_bind]. rewrite Hxsb.
  destruct (new_inode_effect s sb b (Z.lor S_IFDIR mode) Hsz Hb) as (s1 & o & -> & Ho). cbn [mbind exec_bind].
  destruct o as [i|]; [|destruct Ho as [-> _]; by eexists _, _].
  destruct Ho as (used & Hi & Hfree & _ & Hbits & Hsz1 & ->).
  assert (i < length (inode_table s))%nat as Hlt by (by destruct Hsz as (_ & _ & ->)).
  erewrite get_inode_ok by (simpl; by apply list_lookup_insert_eq). cbn [mbind exec_bind].
  eexists _, _. split; [done|].
  apply (mounted_new_inode s _ sb i used (set_ops (Some ext4_dir_inode_operations) (Some ext4_dir_file_operations)
    (Inode (next_ino s) (Z.lor S_IFDIR mode) 0 None None None (Some sb) 1 0 None))); try done.
  - destruct Hsz1 as (? & ? & ?). split_and!; [done..|simpl; by rewrite length_insert].
  - simpl. by rewrite list_insert_insert_eq.
  - by exists b, fsi.
Qed.

Lemma create_mounted s sb dir x name mode :
  mounted s sb -> inode_table s !! dir = Some x -> i_sb x = Some sb ->
  exists s' ret o, ext4_create kmem s dir name mode = Ok (s', ret, o) /\ mounted s' sb.
Proof.
  intros Hm Hx Hxsb. pose proof Hm as [Hsz Hsb _ _ _]. destruct Hsb as (b & fsi & Hb & Hfsi & Hlen).
  unfold ext4_create. rewrite (get_inode_ok s dir x Hx). cbn [mbind exec_bind]. rewrite Hxsb.
  unfold get_sb at 1. rewrite Hb. cbn [mbind exec_bind].
  destruct (new_inode_effect s sb b (Z.lor S_IFREG mode) Hsz Hb) as (s1 & o & -> & Ho). cbn [mbind exec_bind].
  destruct o as [i|]; [|destruct Ho as [-> _]; by eexists _, _, _].
  destruct Ho as (used & Hi & Hfree & _ & Hbits & Hsz1 & ->).
  assert (i < length (inode_table s))%nat as Hlt by (by destruct Hsz as (_ & _ & ->)).
  erewrite get_inode_ok by (simpl; by apply list_lookup_insert_eq). cbn [mbind exec_bind ino].
  unfold get_fsi, get_sb. cbn [sbs]. rewrite Hb. cbn [mbind exec_bind]. rewrite Hfsi. cbn [mbind exec_bind].
  pose proof (Z.mod_pos_bound (next_ino s) 128) as Hmod.
  destruct (arr_get_total (fs_inodes fsi) (next_ino s mod 128)) as (e & -> & _); [lia|]. cbn [mbind exec_bind].
  rewrite arr_set_ok by lia. cbn [mbind exec_bind].
  match goal with |- context [vfs_new_dentry kmem ?s2 name i] =>
    destruct (new_dentry_effect kmem s2 i _ name ltac:(apply list_lookup_insert_eq; simpl; by rewrite length_insert) Logic.I)
      as (s' & -> & Hh' & Hu' & Hs' & Hr' & Ht' & Hd') end.
  cbn [mbind exec_bind]. eexists s', _, _. split; [done|]. simpl in *.
  assert (exists x', inode_table s' = <[i := x']> (inode_table s) /\ i_block0 x' = 0 /\ i_sb x' = Some sb) as (x' & Htx & Hx0 & Hxb).
  { destruct (kmem (heap s)); rewrite Ht', !list_insert_insert_eq; eexists; split; [done|done|done|done]. }
  eapply (mounted_new_inode s); try done; [| |lia|].
  - destruct Hsz as (? & ? & ?), Hsz1 as (? & ? & _). split_and!; [by rewrite Hu'..|by rewrite Htx, length_insert].
  - rewrite Hs', lookup_alter_eq, Hb. eexists _, _. split; [done|]. simpl. split; [done|]. simpl. by rewrite length_insert.
  - intros r Hlr. rewrite Hd'. destruct (kmem (heap s)); [|done]. rewrite lookup_insert_ne by lia. done.
Qed.

Lemma call_mounted s sb c : mounted s sb -> exists s', do_call s c = Ok s' /\ mounted s' sb.
Proof.
  intros Hm. pose proof Hm as [_ _ Hin _ _]. destruct c as [dir name mode|dir name mode|c path flags]; cbn [do_call].
  - unfold dir_op. destruct (inode_table s !! dir) as [x|] eqn:Hx; [|by exists s]. cbn [mbind option_bind].
    destruct (i_op x) eqn:Ho; [|by exists s]. cbn [mbind option_bind iop_create ext4_ops].
    destruct (Hin dir x Hx) as [_ [?|Hsb]]; [congruence|].
    destruct (create_mounted s sb dir x name mode Hm Hx Hsb) as (s' & ret & o & -> & Hm'). by exists s'.
  - unfold dir_op. destruct (inode_table s !! dir) as [x|] eqn:Hx; [|by exists s]. cbn [mbind option_bind].
    destruct (i_op x) as [[]|] eqn:Ho; [by exists s| |by exists s]. cbn [mbind option_bind iop_mkdir ext4_ops].
    destruct (Hin dir x Hx) as [_ [?|Hsb]]; [congruence|].
    destruct (mkdir_mounted s sb dir x name mode Hm Hx Hsb) as (s' & ret & -> & Hm'). by exists s'.
  - rewrite (open_mounted s sb) by done. by exists s.
Qed.

Lemma calls_mounted s sb cs : mounted s sb -> exists s', do_calls s cs = Ok s' /\ mounted s' sb.
Proof.
  revert s. induction cs as [|c cs IH]; intros s Hm; cbn [do_calls]; [by exists s|].
  destruct (call_mounted s sb c Hm) as (s1 & -> & Hm1). cbn [mbind exec_bind]. by apply IH.
Qed.

(** Mounting when a slot is free and the four allocations succeed. *)
Lemma ext4_mount_ok s sb b0 j :
  (forall n, (n < heap s + 4)%nat -> kmem n = true) -> table_sized s -> sbs s !! sb = Some b0 ->
  0 <= j < 1024 -> bit (inode_inuse s) j = false ->
  (forall i x, inode_table s !! i = Some x -> i_block0 x = 0 /\ i_op x = None) ->
  exists s', ext4_mount kmem s sb = Ok (s', 0) /\ mounted s' sb.
Proof.
  intros Hk Hsz Hb0 Hj Hbj Hin. unfold ext4_mount. cbn [kmalloc]. rewrite Hk by lia. unfold get_sb at 1. cbn [sbs].
  rewrite Hb0. cbn [mbind exec_bind put_fsi set_sbs heap sbs]. rewrite Hk by lia.
  cbn [put_fsi set_sbs heap sbs inode_table inode_inuse next_ino dentries files fs_names vlinks vfs_root_dentry].
  rewrite Hk by lia.
  match goal with |- context [vfs_new_inode ?s1 sb ?m] =>
    assert (exists b fsi, sbs s1 !! sb = Some b /\ s_fs_info b = Some fsi) as (b & fsi & Hb & _)
      by (cbn [sbs put_fsi set_sbs]; rewrite !lookup_alter_eq, Hb0; by eexists _, _);
    destruct (new_inode_effect s1 sb b m Hsz Hb) as (s2 & o & -> & Ho) end.
  cbn [mbind exec_bind]. cbn [inode_inuse] in Ho. destruct o as [i|]; [|destruct Ho as [_ Ho]; rewrite Ho in Hbj; done].
  destruct Ho as (used & Hi & _ & _ & Hbits & Hsz2 & ->).
  assert (i < length (inode_table s))%nat as Hlt by (by destruct Hsz as (_ & _ & ->)).
  erewrite get_inode_ok by (simpl; by apply list_lookup_insert_eq). cbn [mbind exec_bind i_mode ino fs_inodes].
  rewrite (arr_get_ok _ 0 ext4_inode_zero) by done. cbn [mbind exec_bind]. rewrite arr_set_ok by done. cbn [mbind exec_bind].
  match goal with |- context [vfs_new_dentry kmem ?s3 _ i] =>
    destruct (new_dentry_effect kmem s3 i _ [47] ltac:(apply list_lookup_insert_eq; simpl; by rewrite length_insert) Logic.I)
      as (s4 & -> & Hh & Hu & Hs & Hr & Ht & Hd) end.
  cbn [mbind exec_bind]. eexists. split; [done|]. simpl in *. rewrite !Hk in * by lia.
  rewrite !list_insert_insert_eq in Ht. destruct Hsz as (Hw & Hlu & Hl), Hsz2 as (Hw2 & Hlu2 & _).
  split; simpl; rewrite ?Ht, ?Hu, ?Hs.
  - split_and!; simpl; rewrite ?Ht, ?Hu, ?length_insert; done.
  - rewrite !lookup_alter_eq, Hb0. eexists _, _. split; [done|]. split; [done|]. done.
  - intros k x [(_ & Hx & _)|[_ Hx]]%list_lookup_insert_Some; [subst x; split; [done|by right]|].
    destruct (Hin k x Hx). split; [done|by left].
  - eexists _, _, i, _. rewrite Hd, lookup_insert_eq, list_lookup_insert_eq by done.
    split_and!; try done. simpl. rewrite Hbits by lia. by rewrite Z.eqb_refl.
  - rewrite Hh. intros r [= <-]. lia.
Qed.

(** C35: nothing can be opened: mount ext4 on a freshly initialised layer and
    make any sequence of create, mkdir and open calls.  Each call returns, and
    afterwards [vfs_open] of every non-empty path, a name just created
    included, returns NULL and changes nothing (["/"] is a directory, and
    [ext4_lookup] never finds a name); the empty path reads past its end. *)
Theorem ext4_open_finds_nothing s0 t mnt_point cs :
  (forall n, (n < heap s0 + 5)%nat -> kmem n = true) ->
  exists s1 s2, vfs_mount kmem (vfs_init s0) t (Some (ext4_mount kmem)) mnt_point = Ok (s1, 0) /\
    do_calls s1 cs = Ok s2 /\
    forall path flags, vfs_open (FsOps0 := ext4_ops kmem memory) kmem s2 path flags =
      match path with [] => Crash OutOfBounds | _ => Ok (s2, None) end.
Proof.
  intros Hk. assert (exists s1, vfs_mount kmem (vfs_init s0) t (Some (ext4_mount kmem)) mnt_point = Ok (s1, 0) /\
    mounted s1 (heap s0)) as (s1 & Hmount & Hm).
  { unfold vfs_mount. cbn [kmalloc]. change (heap (vfs_init s0)) with (heap s0). rewrite Hk by lia.
    match goal with |- context [ext4_mount kmem ?s] =>
      destruct (ext4_mount_ok s (heap s0) (SuperBlock (take 255 mnt_point) t None None) 0) as (s' & -> & Hm) end.
    - simpl. intros n Hn. apply Hk. lia.
    - split_and!; [apply bm_words_zero|done..].
    - apply lookup_insert_eq.
    - lia.
    - apply bit_zero.
    - intros i x [-> _]%lookup_replicate. done.
    - by exists s'. }
  destruct (calls_mounted s1 (heap s0) cs Hm) as (s2 & Hcalls & Hm2). exists s1, s2. split; [done|]. split; [done|].
  intros [|c path] flags; [|by apply (open_mounted s2 (heap s0))]. by eapply open_empty.
Qed.

End mounted.

(** ** Witnesses *)

Definition demo_ext4_boot : vfs (@store vnode) ext4_fop ext4_iop ext4_fs_info :=
  Vfs [] [] 1 ∅ ∅ ∅ ∅ (fun _ => None) None 0.

Lemma ext4_open_finds_nothing_witness :
  exists s1 s2, vfs_mount (fun _ => true) (vfs_init demo_ext4_boot) 0 (Some (ext4_mount (fun _ => true))) [47] = Ok (s1, 0) /\
    do_calls (fun _ => true) (fun _ => 0) s1 [CallCreate 0 [97] 420; CallMkdir 0 [98] 493] = Ok s2 /\
    vfs_open (FsOps0 := ext4_ops (fun _ => true) (fun _ => 0)) (fun _ => true) s2 [47; 97] 0 = Ok (s2, None).
Proof.
  destruct (ext4_open_finds_nothing (fun _ => true) (fun _ => 0) demo_ext4_boot 0 [47]
    [CallCreate 0 [97] 420; CallMkdir 0 [98] 493] (fun _ _ => eq_refl)) as (s1 & s2 & H1 & H2 & H3).
  exists s1, s2. split; [exact H1|]. split; [exact H2|]. apply (H3 [47; 97]).
Defined.

(** An empty regular file, open at address 9. *)
Definition demo_ext4_inode : inode ext4_fop ext4_iop := Inode 2 33188 0 None None (Some ext4_file_operations) (Some 0%nat) 2 0 None.
Definition demo_ext4_open : vfs (@store vnode) ext4_fop ext4_iop ext4_fs_info :=
  Vfs [demo_ext4_inode] [1] 3 {[ 8%nat := Dentry [97] (Some 0%nat) None 1 ]} {[ 9%nat := File (Some 8%nat) None 0 0 None ]}
    {[ 0%nat := SuperBlock [47] 0 None None ]} ∅ (fun _ => None) None 10.

Lemma demo_ext4_opened : opened demo_ext4_open 9 0 demo_ext4_inode.
Proof. split; try reflexivity. eexists _, _. split; reflexivity. Qed.

(** Writing ["hi"] and reading it back yields two zero bytes. *)
Lemma ext4_write_then_read_witness :
  exists s', vfs_write (FsOps0 := ext4_ops (fun _ => true) (fun _ => 0)) demo_ext4_open (Some 9%nat) [104; 105] 2 0
             = Ok (s', Io 2 [] 2) /\
    vfs_read (FsOps0 := ext4_ops (fun _ => true) (fun _ => 0)) s' (Some 9%nat) 5 0 = Ok (s', Io 2 [0; 0] 2).
Proof.
  destruct (ext4_write_then_read (fun _ => true) (fun _ => 0) demo_ext4_open 9 0 demo_ext4_inode [104; 105] 2 0 demo_ext4_opened)
    as (s' & H1 & _ & H2); [simpl; lia..|].
  exists s'. split; [exact H1|]. apply (H2 5 0); lia.
Defined.
