(* ===== verification/Multiboot.v ===== *)
(** * The Multiboot kernel's console ([demos/multiboot/main.c])

    [vga] is the text window at [0xB8000]: 32 KB, so 16384 cells of 16 bits, of
    which the first 2000 are on the screen.  The cursor is the pair of the
    caller's [x] and [y].  Strings are the list of their bytes before the
    terminating zero; the memory the boot loader fills (strings and memory map
    entries) is a parameter of [kernel_main]. *)
From Stdlib Require Import ZArith Lia String Ascii.
From stdpp Require Import base numbers list option.
From S2P Require Import Prelude.

Open Scope Z_scope.

Record console := Console { vga : list Z; cx : Z; cy : Z }.

Definition VGA_CELLS : Z := 16384.
Definition cols : Z := 80.
(** [(7 << 8) | ' '] *)
Definition blank : Z := Z.lor (Z.shiftl 7 8) 32.

(** [for (i = ..; n times) dst[i] = src[i]], [src] one row below [dst]. *)
Fixpoint copy_cells (v : list Z) (i : Z) (n : nat) : exec (list Z) :=
  match n with
  | O => Ok v
  | S n' => c ← arr_get v (cols + i); v ← arr_set v i c; copy_cells v (i + 1) n'
  end.

(** [for (i = ..; n times) dst[i] = (7 << 8) | ' '] *)
Fixpoint fill_cells (v : list Z) (i : Z) (n : nat) : exec (list Z) :=
  match n with
  | O => Ok v
  | S n' => v ← arr_set v i blank; fill_cells v (i + 1) n'
  end.

(** The value of a [char], which is signed. *)
Definition schar (c : Z) : Z := if c <? 128 then c else c - 256.

(** [(attr << 8) | c] stored in 16 bits. *)
Definition cell (attr c : Z) : Z := u16 (Z.lor (Z.shiftl attr 8) (schar c)).

Definition scroll (s : console) : exec console :=
  if 25 <=? cy s then
    v ← copy_cells (vga s) 0 (Z.to_nat (24 * cols));
    v ← fill_cells v (24 * cols) (Z.to_nat cols);
    Ok (Console v (cx s) 24)
  else Ok s.

Definition vga_putchar (s : console) (c attr : Z) : exec console :=
  if c =? 10 then scroll (Console (vga s) 0 (cy s + 1))
  else
    v ← arr_set (vga s) (cy s * cols + cx s) (cell attr c);
    let x := cx s + 1 in
    scroll (if cols <=? x then Console v 0 (cy s + 1) else Console v x (cy s)).

Fixpoint print_str (s : console) (str : list Z) (attr : Z) : exec console :=
  match str with
  | [] => Ok s
  | c :: str' => s ← vga_putchar s c attr; print_str s str' attr
  end.

Definition hex : list Z := [48; 49; 50; 51; 52; 53; 54; 55; 56; 57; 65; 66; 67; 68; 69; 70].

(** The loop of [print_hex] over the buffer, for [i = i0 ..]. *)
Fixpoint hex_loop (buf : list Z) (val i : Z) (n : nat) : exec (list Z) :=
  match n with
  | O => Ok buf
  | S n' =>
    h ← arr_get hex (Z.land (Z.shiftr val (4 * i)) 15);
    buf ← arr_set buf (9 - i) h;
    hex_loop buf val (i + 1) n'
  end.

(** The bytes of a buffer before its first zero. *)
Fixpoint c_str (buf : list Z) : list Z :=
  match buf with
  | [] => []
  | c :: buf' => if c =? 0 then [] else c :: c_str buf'
  end.

Definition hex_buf (val : Z) : exec (list Z) := hex_loop (48 :: 120 :: replicate 9 0) val 0 8.

Definition print_hex (s : console) (val attr : Z) : exec console :=
  buf ← hex_buf val;
  print_str s (c_str buf) attr.

(** [while (val > 0) { buf[i++] = '0' + (val % 10); val /= 10; }]: the buffer and
    [i] at the end.  A 32-bit value needs at most ten rounds. *)
Fixpoint dec_loop (buf : list Z) (i val : Z) (fuel : nat) : exec (list Z * Z) :=
  if 0 <? val then
    match fuel with
    | O => Ok (buf, i)
    | S n =>
      buf ← arr_set buf i (48 + val mod 10);
      dec_loop buf (i + 1) (val / 10) n
    end
  else Ok (buf, i).

(** [while (i--) vga_putchar(x, y, buf[i], attr)] *)
Fixpoint dec_print (s : console) (buf : list Z) (i : nat) (attr : Z) : exec console :=
  match i with
  | O => Ok s
  | S i' => c ← arr_get buf (Z.of_nat i'); s ← vga_putchar s c attr; dec_print s buf i' attr
  end.

Definition print_int (s : console) (val attr : Z) : exec console :=
  if val =? 0 then vga_putchar s 48 attr
  else
    '(buf, i) ← dec_loop (replicate 16 0) 0 val 32;
    dec_print s buf (Z.to_nat i) attr.

(** [y++; x = 0;] of [kernel_main]: without a scroll. *)
Definition next_line (s : console) : console := Console (vga s) 0 (cy s + 1).

(** ** [kernel_main] *)

Definition MULTIBOOT_MAGIC : Z := 732803074.
Definition MB_FLAG_MEM : Z := 1.
Definition MB_FLAG_CMDLINE : Z := 4.
Definition MB_FLAG_MODS : Z := 8.
Definition MB_FLAG_MMAP : Z := 64.
Definition MB_FLAG_LOADER : Z := 512.
Definition MB_MEM_AVAILABLE : Z := 1.

(** Both structures of the union [syms] are four words. *)
Record multiboot_info := MultibootInfo {
  flags : Z; mem_lower : Z; mem_upper : Z; boot_device : Z; cmdline : Z; mods_count : Z; mods_addr : Z;
  syms : Z * Z * Z * Z; mmap_length : Z; mmap_addr : Z; drives_length : Z; drives_addr : Z; config_table : Z;
  boot_loader_name : Z; apm_table : Z; vbe_control_info : Z; vbe_mode_info : Z; vbe_mode : Z;
  vbe_interface_seg : Z; vbe_interface_off : Z; vbe_interface_len : Z
}.

Record multiboot_mmap_entry := MmapEntry { m_size : Z; m_addr : Z; m_len : Z; m_type : Z }.

(** The bytes of a string literal. *)
Definition lit (str : string) : list Z := Z.of_N ∘ N_of_ascii <$> list_ascii_of_string str.

Definition title : Z := 15.
Definition normal : Z := 7.
Definition green : Z := 10.
Definition yellow : Z := 14.

Definition flag_set (info : multiboot_info) (f : Z) : bool := negb (Z.land (flags info) f =? 0).

Section kernel_main.
(** Memory filled by the boot loader: the string and the entry at an address. *)
Variable str_at : Z -> list Z.
Variable mmap_at : Z -> multiboot_mmap_entry.

(** The line printed for a free region. *)
Definition print_region (s : console) (m : multiboot_mmap_entry) : exec console :=
  s ← print_str s (lit "  [FREE] ") green;
  s ← print_hex s (u32 (m_addr m)) yellow;
  s ← print_str s (lit " - ") normal;
  s ← print_hex s (u32 (u64 (m_addr m + m_len m))) yellow;
  s ← print_str s (lit " (") normal;
  s ← print_int s (u32 (m_len m / 1024 / 1024)) green;
  s ← print_str s (lit " MB)") normal;
  Ok (next_line s).

(** The loop over the memory map; [None] when the fuel runs out. *)
Fixpoint mmap_loop (s : console) (limit mmap count : Z) (fuel : nat) : exec (option console) :=
  if (mmap <? limit) && (count <? 4) then
    match fuel with
    | O => Ok None
    | S n =>
      let m := mmap_at mmap in
      let next := u32 (mmap + m_size m + 4) in
      if m_type m =? MB_MEM_AVAILABLE then
        s ← print_region s m;
        mmap_loop s limit next (count + 1) n
      else mmap_loop s limit next count n
    end
  else Ok (Some s).

(** The screen at the [hlt] loop. *)
Definition kernel_main (v : list Z) (magic : Z) (info : multiboot_info) (fuel : nat) : exec (option console) :=
  v ← fill_cells v 0 (Z.to_nat (80 * 25));
  let s := Console v 0 0 in
  s ← print_str s (lit "=== Multiboot Kernel Demo ===") title;
  let s := next_line s in
  s ← print_str s (lit "Magic: ") normal;
  s ← print_hex s (u32 magic) green;
  s ← (if magic =? MULTIBOOT_MAGIC then print_str s (lit " (OK)") green else print_str s (lit " (BAD!)") 12);
  let s := next_line s in
  s ← (if flag_set info MB_FLAG_LOADER then
         s ← print_str s (lit "Loader: ") normal;
         s ← print_str s (str_at (boot_loader_name info)) green;
         Ok (next_line s)
       else Ok s);
  s ← (if flag_set info MB_FLAG_CMDLINE then
         s ← print_str s (lit "Cmdline: ") normal;
         s ← print_str s (str_at (cmdline info)) yellow;
         Ok (next_line s)
       else Ok s);
  s ← (if flag_set info MB_FLAG_MEM then
         s ← print_str s (lit "Low mem: ") normal;
         s ← print_int s (mem_lower info) green;
         s ← print_str s (lit " KB  High: ") normal;
         s ← print_int s (mem_upper info) green;
         s ← print_str s (lit " KB") normal;
         Ok (next_line s)
       else Ok s);
  o ← (if flag_set info MB_FLAG_MMAP then
         s ← print_str s (lit "Memory map:") normal;
         mmap_loop (next_line s) (u32 (mmap_addr info + mmap_length info)) (mmap_addr info) 0 fuel
       else Ok (Some s));
  match o with
  | None => Ok None
  | Some s =>
    s ← (if flag_set info MB_FLAG_MODS then
           s ← print_str s (lit "Modules: ") normal;
           s ← print_int s (mods_count info) green;
           Ok (next_line s)
         else Ok s);
    s ← print_str s (lit "Halted.") normal;
    Ok (Some s)
  end.

End kernel_main.

(** ** The screen *)

(** The visible part of the window. *)
Definition screen (s : console) : list Z := take 2000 (vga s).

(** A screen scrolled up by one row. *)
Definition scrolled (t : list Z) : list Z := drop 80 t ++ replicate 80 blank.

(** The window has its size and the cursor is on the screen. *)
Record on_screen (s : console) : Prop := {
  os_cells : Z.of_nat (length (vga s)) = VGA_CELLS;
  os_x : 0 <= cx s < 80;
  os_y : 0 <= cy s < 25
}.

(** The loops as operations on the whole list. *)
Lemma copy_cells_spec v i n :
  (i + n + 80 <= length v)%nat ->
  exists v', copy_cells v (Z.of_nat i) n = Ok v' /\ length v' = length v /\
    forall j, v' !! j = if decide (i <= j < i + n)%nat then v !! (j + 80)%nat else v !! j.
Proof.
  revert v i. induction n as [|n IH]; intros v i Hi; cbn [copy_cells].
  { exists v. split; [done|]. split; [done|]. intros j. rewrite decide_False by lia. done. }
  destruct (arr_get_total v (cols + Z.of_nat i)) as (c & -> & Hc); [unfold cols; lia|]. cbn [mbind exec_bind].
  replace (Z.to_nat (cols + Z.of_nat i)) with (i + 80)%nat in Hc by (unfold cols; lia).
  rewrite arr_set_ok, Nat2Z.id by lia. cbn [mbind exec_bind]. replace (Z.of_nat i + 1) with (Z.of_nat (S i)) by lia.
  destruct (IH (<[i := c]> v) (S i)) as (v' & -> & Hlen & Hv'); [rewrite length_insert; lia|].
  exists v'. split; [done|]. rewrite length_insert in Hlen. split; [done|]. intros j. rewrite Hv'.
  destruct (decide (j = i)) as [->|Hne].
  - rewrite decide_False, decide_True by lia. rewrite list_lookup_insert_eq by lia. done.
  - destruct (decide (S i <= j < S i + n)%nat).
    + rewrite decide_True by lia. by rewrite list_lookup_insert_ne by lia.
    + rewrite decide_False by lia. by rewrite list_lookup_insert_ne.
Qed.

Lemma fill_cells_spec v i n :
  (i + n <= length v)%nat ->
  fill_cells v (Z.of_nat i) n = Ok (take i v ++ replicate n blank ++ drop (i + n) v).
Proof.
  revert v i. induction n as [|n IH]; intros v i Hi; cbn [fill_cells replicate].
  { by rewrite Nat.add_0_r, app_nil_l, take_drop. }
  rewrite arr_set_ok, Nat2Z.id by lia. cbn [mbind exec_bind]. replace (Z.of_nat i + 1) with (Z.of_nat (S i)) by lia.
  rewrite IH by (rewrite length_insert; lia).
  rewrite (take_S_r _ _ blank) by (apply list_lookup_insert_eq; lia).
  rewrite take_insert_ge, drop_insert_lt by lia. rewrite <- app_assoc.
  by replace (S i + n)%nat with (i + S n)%nat by lia.
Qed.

(** The scroll of a cursor that has just left the last row. *)
Lemma scroll_spec v x :
  Z.of_nat (length v) = VGA_CELLS ->
  exists v', scroll (Console v x 25) = Ok (Console v' x 24) /\ length v' = length v /\
    take 2000 v' = scrolled (take 2000 v) /\ drop 2000 v' = drop 2000 v.
Proof.
  unfold VGA_CELLS. intros Hlen. unfold scroll. cbn [cy vga cx].
  change (25 <=? 25) with true. cbv iota. change (Z.to_nat (24 * cols)) with 1920%nat. change (Z.to_nat cols) with 80%nat.
  destruct (copy_cells_spec v 0 1920) as (v1 & H1 & Hl1 & Hv1); [lia|]. change (Z.of_nat 0) with 0 in H1.
  rewrite H1. cbn [mbind exec_bind]. change (24 * cols) with (Z.of_nat 1920).
  rewrite fill_cells_spec by lia. cbn [mbind exec_bind].
  assert (length (take 1920 v1) = 1920%nat) as Ht by (rewrite length_take; lia).
  exists (take 1920 v1 ++ replicate 80 blank ++ drop (1920 + 80) v1). split; [done|]. split; [|split].
  - rewrite !length_app, length_take, length_replicate, length_drop. lia.
  - rewrite app_assoc, take_app_le by (rewrite length_app, length_replicate; lia).
    rewrite take_ge by (rewrite length_app, length_replicate; lia). unfold scrolled. f_equal.
    apply list_eq. intros j. rewrite lookup_drop. destruct (decide (j < 1920)%nat) as [Hj|Hj].
    + rewrite !lookup_take_lt by lia. rewrite Hv1, decide_True by lia. f_equal. lia.
    + rewrite !lookup_ge_None_2; [done|rewrite length_take; lia|lia].
  - rewrite app_assoc, drop_app_ge by (rewrite length_app, length_replicate; lia).
    rewrite length_app, Ht, length_replicate. change (1920 + 80 - (1920 + 80))%nat with 0%nat. 
    apply list_eq. intros j. rewrite drop_drop, !lookup_drop, Hv1, decide_False by lia. f_equal; lia.
Qed.

(** One character on an ideal terminal: the screen and cursor before a scroll. *)
Definition typed (s : console) (c attr : Z) : list Z :=
  if c =? 10 then screen s else <[Z.to_nat (cy s * 80 + cx s) := cell attr c]> (screen s).
Definition moved (s : console) (c : Z) : Z * Z :=
  if (c =? 10) || (cx s =? 79) then (0, cy s + 1) else (cx s + 1, cy s).

(** What follows the write of the character. *)
Lemma scroll_moved v x y :
  Z.of_nat (length v) = VGA_CELLS -> 0 <= x < 80 -> 0 <= y <= 25 ->
  exists s', scroll (Console v x y) = Ok s' /\ on_screen s' /\ cx s' = x /\ cy s' = Z.min y 24 /\
    screen s' = (if y =? 25 then scrolled (take 2000 v) else take 2000 v) /\ drop 2000 (vga s') = drop 2000 v.
Proof.
  intros Hv Hx Hy. destruct (Z.eqb_spec y 25) as [->|Hne].
  - destruct (scroll_spec v x Hv) as (v' & -> & Hl & Ht & Hd). eexists. split; [done|].
    split; [split; cbn [vga cx cy]; lia|]. done.
  - unfold scroll. cbn [cy]. destruct (Z.leb_spec 25 y); [lia|]. eexists. split; [done|].
    split; [split; cbn [vga cx cy]; lia|]. cbn [vga cx cy]. split_and!; [done|lia|done..].
Qed.

(** The effect of [vga_putchar] with the cursor on the screen. *)
Lemma putchar_spec s c attr :
  on_screen s ->
  let '(x, y) := moved s c in
  exists s', vga_putchar s c attr = Ok s' /\ on_screen s' /\ cx s' = x /\ cy s' = Z.min y 24 /\
    screen s' = (if y =? 25 then scrolled (typed s c attr) else typed s c attr) /\
    drop 2000 (vga s') = drop 2000 (vga s).
Proof.
  intros [Hv Hx Hy]. unfold moved, typed, vga_putchar. destruct (Z.eqb_spec c 10) as [->|Hc]; cbn [orb].
  { apply scroll_moved; [done|lia..]. }
  unfold VGA_CELLS in Hv. rewrite arr_set_ok by (unfold cols; lia). cbn [mbind exec_bind]. unfold cols.
  set (k := Z.to_nat (cy s * 80 + cx s)). assert (k < 2000)%nat as Hk by lia.
  assert (take 2000 (<[k := cell attr c]> (vga s)) = <[k := cell attr c]> (screen s)) as Ht
    by (unfold screen; apply take_insert_lt; lia).
  assert (drop 2000 (<[k := cell attr c]> (vga s)) = drop 2000 (vga s)) as Hd by (apply drop_insert_lt; lia).
  destruct (Z.eqb_spec (cx s) 79) as [E|E]; destruct (Z.leb_spec 80 (cx s + 1)); try lia.
  - destruct (scroll_moved (<[k := cell attr c]> (vga s)) 0 (cy s + 1)) as (s' & H1 & H2 & H3 & H4 & H5 & H6);
      [rewrite length_insert; unfold VGA_CELLS; lia|lia..|]. exists s'. rewrite <- Ht, H6. done.
  - destruct (scroll_moved (<[k := cell attr c]> (vga s)) (cx s + 1) (cy s)) as (s' & H1 & H2 & H3 & H4 & H5 & H6);
      [rewrite length_insert; unfold VGA_CELLS; lia|lia..|]. exists s'. rewrite <- Ht, H6. done.
Qed.

(** [y++] on the last row puts the cursor below the screen: the next character
    is written off the screen and the row it should start is scrolled in blank,
    with the cursor in its second column. *)
Theorem next_line_loses_char s c attr :
  on_screen s -> cy s = 24 -> c <> 10 ->
  exists s', vga_putchar (next_line s) c attr = Ok s' /\ screen s' = scrolled (screen s) /\ cx s' = 1 /\ cy s' = 24.
Proof.
  intros [Hv Hx Hy] Hrow Hc. unfold VGA_CELLS in Hv. unfold vga_putchar, next_line. cbn [vga cx cy].
  destruct (Z.eqb_spec c 10); [done|]. rewrite Hrow, arr_set_ok by (unfold cols; lia). cbn [mbind exec_bind].
  change (cols <=? 0 + 1) with false. cbv iota. change (24 + 1) with 25. change (0 + 1) with 1.
  set (k := Z.to_nat (25 * cols + 0)). destruct (scroll_spec (<[k := cell attr c]> (vga s)) 1) as (v' & -> & Hl & Ht & _);
    [rewrite length_insert; unfold VGA_CELLS; lia|].
  eexists. split; [done|]. unfold screen. cbn [vga cx cy]. split; [|done]. rewrite Ht. f_equal.
  apply take_insert_ge. subst k. unfold cols. lia.
Qed.

(** ** Numbers *)

(** The value of a string of decimal digits. *)
Definition dec_value (str : list Z) : Z := foldl (fun a c => 10 * a + (c - 48)) 0 str.
Definition is_digit (c : Z) : Prop := 48 <= c <= 57.

(** The same for digits stored from the least significant one. *)
Definition dec_value_le (ds : list Z) : Z := foldr (fun c a => 10 * a + (c - 48)) 0 ds.

Lemma dec_value_rev ds : dec_value (reverse ds) = dec_value_le ds.
Proof.
  unfold dec_value. induction ds as [|c ds IH]; [done|]. rewrite reverse_cons, foldl_app. cbn [foldl]. by rewrite IH.
Qed.

(** The decimal digits of a number below [10 ^ n], the last one first, and the
    text of a number of up to ten digits. *)
Fixpoint dec_digits (n : nat) (val : Z) : list Z :=
  match n with
  | O => []
  | S n => if val =? 0 then [] else 48 + val mod 10 :: dec_digits n (val / 10)
  end.
Definition dec_text (val : Z) : list Z := if val =? 0 then [48] else reverse (dec_digits 10 val).

(** The loop appends the digits of [val] to the buffer, the last one first. *)
Lemma dec_loop_spec buf i val m fuel :
  (i + m <= length buf)%nat -> (m <= fuel)%nat -> 0 <= val < 10 ^ Z.of_nat m ->
  exists ds, ds = dec_digits m val /\ dec_loop buf (Z.of_nat i) val fuel = Ok (take i buf ++ ds ++ drop (i + length ds) buf, Z.of_nat (i + length ds)) /\
    (length ds <= m)%nat /\ dec_value_le ds = val /\ Forall is_digit ds /\ (list.last ds = Some 48 -> False).
Proof.
  revert buf i val fuel. induction m as [|m IH]; intros buf i val fuel Hlen Hfuel Hval.
  { exists []. split; [done|]. assert (val = 0) as -> by lia. destruct fuel; cbn [dec_loop]; rewrite Nat.add_0_r, app_nil_l, take_drop; done. }
  destruct (decide (val = 0)) as [->|Hpos].
  { exists []. split; [done|]. destruct fuel; cbn [dec_loop]; rewrite Nat.add_0_r, app_nil_l, take_drop; (split; [done|]);
    (split; [cbn; lia|done]). }
  destruct fuel as [|fuel]; [lia|]. cbn [dec_loop]. destruct (Z.ltb_spec 0 val); [|lia].
  rewrite arr_set_ok, Nat2Z.id by lia. cbn [mbind exec_bind].
  assert (0 <= val / 10 < 10 ^ Z.of_nat m) as Hq.
  { rewrite Nat2Z.inj_succ, Z.pow_succ_r in Hval by lia. split; [apply Z.div_pos; lia|apply Z.div_lt_upper_bound; lia]. }
  pose proof (Z.div_mod val 10 ltac:(lia)) as Hdm. pose proof (Z.mod_pos_bound val 10 ltac:(lia)) as Hmod.
  set (d := 48 + val mod 10). replace (Z.of_nat i + 1) with (Z.of_nat (S i)) by lia.
  destruct (IH (<[i := d]> buf) (S i) (val / 10) fuel) as (ds & Hds & -> & Hl & Hv & Hd & Hlast);
    [rewrite length_insert; lia|lia|done|].
  exists (d :: ds). split; [cbn [dec_digits]; by rewrite (proj2 (Z.eqb_neq val 0) Hpos), Hds|]. cbn [length]. split.
  { rewrite (take_S_r _ _ d) by (apply list_lookup_insert_eq; lia). rewrite take_insert_ge, drop_insert_lt by lia.
    rewrite <- app_assoc. by replace (S i + length ds)%nat with (i + S (length ds))%nat by lia. }
  split; [lia|]. split; [cbn; fold (dec_value_le ds); rewrite Hv; lia|]. split; [constructor; [unfold is_digit; lia|done]|].
  clear Hds. destruct ds as [|d' ds]; [|done]. cbn in Hv. intros [= Hd0]. lia.
Qed.

(** The second loop prints the buffer backwards. *)
Lemma dec_print_spec s buf k attr :
  (k <= length buf)%nat -> dec_print s buf k attr = print_str s (reverse (take k buf)) attr.
Proof.
  revert s. induction k as [|k IH]; intros s Hk; cbn [dec_print]; [done|].
  destruct (lookup_lt_is_Some_2 buf k) as [c Hc]; [lia|].
  rewrite (arr_get_ok buf _ c), (take_S_r _ _ c), reverse_app by (lia || by rewrite ?Nat2Z.id). cbn [mbind exec_bind app reverse rev_append].
  cbn [print_str]. destruct (vga_putchar s c attr); [cbn [mbind exec_bind]; apply IH; lia|done].
Qed.

(** The digits [print_int] prints. *)
Lemma print_int_spec s val attr :
  0 <= val < 2 ^ 32 ->
  print_int s val attr = print_str s (dec_text val) attr /\ dec_value (dec_text val) = val /\ Forall is_digit (dec_text val) /\
    (1 <= length (dec_text val) <= 10)%nat /\ (head (dec_text val) = Some 48 -> val = 0).
Proof.
  intros Hval. unfold print_int, dec_text. destruct (Z.eqb_spec val 0) as [->|Hpos].
  { split; [cbn [print_str]; by destruct (vga_putchar s 48 attr)|]. split; [done|]. split; [|cbn; lia].
    constructor; [unfold is_digit; lia|constructor]. }
  destruct (dec_loop_spec (replicate 16 0) 0 val 10 32) as (ds & -> & Hds & Hl & Hv & Hd & Hlast);
    [cbn; lia|lia|change (10 ^ Z.of_nat 10) with 10000000000; lia|]. change (Z.of_nat 0) with 0 in Hds. rewrite Hds.
  set (ds := dec_digits 10 val) in *. clearbody ds.
  cbn [mbind exec_bind]. rewrite Nat2Z.id, Nat.add_0_l. rewrite dec_print_spec by (rewrite !length_app; lia).
  rewrite app_nil_l, take_app_length. split; [done|]. rewrite dec_value_rev. split; [done|].
  split; [by apply Forall_reverse|]. rewrite length_reverse. split.
  - destruct ds; [cbn in Hv; lia|cbn in *; lia].
  - rewrite head_reverse. intros ?%Hlast. done.
Qed.

(** ** Hexadecimal *)

Definition hex_digit (n : Z) : Z := if n <? 10 then 48 + n else 55 + n.
Definition hex_digit_value (c : Z) : Z := if c <? 65 then c - 48 else c - 55.
Definition hex_value (str : list Z) : Z := foldl (fun a c => 16 * a + hex_digit_value c) 0 str.

Lemma hex_get n : 0 <= n < 16 -> arr_get hex n = Ok (hex_digit n).
Proof.
  intros Hn. assert (Forall (fun k => arr_get hex k = Ok (hex_digit k)) (Z.of_nat <$> seq 0 16)) as H
    by (vm_compute; repeat constructor).
  rewrite List.Forall_forall in H. apply H. apply list_elem_of_In, list_elem_of_fmap. exists (Z.to_nat n).
  split; [lia|]. apply elem_of_seq. lia.
Qed.

Lemma hex_digit_inv n : 0 <= n < 16 -> hex_digit_value (hex_digit n) = n.
Proof. intros. unfold hex_digit, hex_digit_value. split_bool; lia. Qed.

Definition nibble (val i : Z) : Z := Z.land (Z.shiftr val (4 * i)) 15.

Lemma nibble_range val i : 0 <= nibble val i < 16.
Proof. unfold nibble. change 15 with (Z.ones 4). rewrite Z.land_ones by lia. by apply Z.mod_pos_bound. Qed.

Lemma hex_loop_step buf val i n :
  0 <= 9 - i < Z.of_nat (length buf) ->
  hex_loop buf val i (S n) = hex_loop (<[Z.to_nat (9 - i) := hex_digit (nibble val i)]> buf) val (i + 1) n.
Proof.
  intros Hi. cbn [hex_loop]. fold (nibble val i). rewrite (hex_get (nibble val i)) by apply nibble_range.
  cbn [mbind exec_bind]. by rewrite arr_set_ok.
Qed.

(** A digit printed is not the terminator. *)
Lemma hex_nonzero n : 0 <= n < 16 -> (hex_digit n =? 0) = false.
Proof. intros Hn. unfold hex_digit. apply Z.eqb_neq. destruct (Z.ltb_spec n 10); lia. Qed.

(** Splitting off the lowest digit of the rest. *)
Lemma nibble_split val k j : 0 <= k -> j = k + 1 -> val / 2 ^ (4 * k) = 16 * (val / 2 ^ (4 * j)) + nibble val k.
Proof.
  intros Hk ->. unfold nibble. change 15 with (Z.ones 4). rewrite Z.land_ones, Z.shiftr_div_pow2 by lia.
  change (2 ^ 4) with 16. replace (4 * (k + 1)) with (4 * k + 4) by lia. rewrite Z.pow_add_r by lia.
  change (2 ^ 4) with 16. pose proof (Z.pow_pos_nonneg 2 (4 * k)).
  rewrite <- Z.div_div by lia. apply Z.div_mod. lia.
Qed.

(** The eight hexadecimal digits of a value. *)
Definition hex_digits (val : Z) : list Z := (fun i => hex_digit (nibble val i)) <$> [7; 6; 5; 4; 3; 2; 1; 0].
Definition hex_text (val : Z) : list Z := 48 :: 120 :: hex_digits val.

(** [print_hex] prints [0x] and the eight hexadecimal digits of the value. *)
Lemma print_hex_spec s val attr :
  0 <= val < 2 ^ 32 ->
  print_hex s val attr = print_str s (hex_text val) attr /\ hex_value (hex_digits val) = val /\
    Forall (fun c => c <> 10) (hex_digits val).
Proof.
  intros Hval. split; [|split]; unfold hex_text, hex_digits.
  - unfold print_hex, hex_buf. do 8 (rewrite hex_loop_step by (rewrite ?length_insert; cbn; lia)). cbn [hex_loop mbind exec_bind].
    simpl (insert _ _ _). cbn [c_str]. rewrite !hex_nonzero by apply nibble_range. done.
  - cbn [fmap list_fmap]. unfold hex_value. cbn [foldl]. rewrite !hex_digit_inv by apply nibble_range.
    pose proof (nibble_split val 0 1 ltac:(lia) eq_refl). pose proof (nibble_split val 1 2 ltac:(lia) eq_refl).
    pose proof (nibble_split val 2 3 ltac:(lia) eq_refl). pose proof (nibble_split val 3 4 ltac:(lia) eq_refl).
    pose proof (nibble_split val 4 5 ltac:(lia) eq_refl). pose proof (nibble_split val 5 6 ltac:(lia) eq_refl).
    pose proof (nibble_split val 6 7 ltac:(lia) eq_refl). pose proof (nibble_split val 7 8 ltac:(lia) eq_refl).
    change (2 ^ (4 * 0)) with 1 in *. rewrite Z.div_1_r in *. change (4 * 8) with 32 in *.
    rewrite (Z.div_small val (2 ^ 32)) in * by lia. lia.
  - apply Forall_fmap, Forall_true. intros i. cbn. pose proof (nibble_range val i). unfold hex_digit. split_bool; lia.
Qed.

(** ** The theorems on the console *)

(** C36: [vga_putchar] implements a scrolling terminal: with the cursor on the
    screen it never writes outside the window, writes the one cell under the
    cursor, advances it with wrapping at column 80, scrolls the screen by one
    row (blanking the last) exactly when the cursor leaves row 24, keeps the
    cursor on the screen and never touches the cells below the screen. *)
Theorem vga_putchar_terminal s c attr :
  on_screen s ->
  let '(x, y) := moved s c in
  exists s', vga_putchar s c attr = Ok s' /\ on_screen s' /\ cx s' = x /\ cy s' = Z.min y 24 /\
    screen s' = (if y =? 25 then scrolled (typed s c attr) else typed s c attr) /\
    drop 2000 (vga s') = drop 2000 (vga s).
Proof. apply putchar_spec. Qed.

(** [print_int] prints the decimal representation of every 32-bit value,
    without leading zeros; at most ten digits are stored, so its buffer of 16
    bytes does not overflow and its loop ends. *)
Theorem print_int_decimal s val attr :
  0 <= val < 2 ^ 32 ->
  exists str, print_int s val attr = print_str s str attr /\ dec_value str = val /\ Forall is_digit str /\
    (1 <= length str <= 10)%nat /\ (head str = Some 48 -> val = 0).
Proof. intros H. exists (dec_text val). by apply print_int_spec. Qed.

(** ** Witnesses *)

Definition demo_console (x y : Z) : console := Console (replicate (Z.to_nat VGA_CELLS) 0) x y.

Lemma demo_on_screen x y : 0 <= x < 80 -> 0 <= y < 25 -> on_screen (demo_console x y).
Proof. intros. split; cbn [demo_console vga cx cy]; [rewrite length_replicate|..]; unfold VGA_CELLS; lia. Qed.

Lemma vga_putchar_terminal_witness :
  exists s', vga_putchar (demo_console 79 24) 65 7 = Ok s' /\ cx s' = 0 /\ cy s' = 24.
Proof.
  destruct (vga_putchar_terminal (demo_console 79 24) 65 7 (demo_on_screen 79 24 ltac:(lia) ltac:(lia)))
    as (s' & H & _ & Hx & Hy & _).
  exists s'. split; [exact H|]. split; [exact Hx|exact Hy].
Defined.

Lemma next_line_loses_char_witness :
  exists s', vga_putchar (next_line (demo_console 3 24)) 72 7 = Ok s' /\ cx s' = 1.
Proof.
  destruct (next_line_loses_char (demo_console 3 24) 72 7 (demo_on_screen 3 24 ltac:(lia) ltac:(lia)) eq_refl ltac:(done))
    as (s' & H & _ & Hx & _).
  exists s'. split; [exact H|exact Hx].
Defined.

Lemma print_int_decimal_witness :
  exists str, print_int (demo_console 0 0) 4294967295 7 = print_str (demo_console 0 0) str 7 /\ dec_value str = 4294967295.
Proof.
  destruct (print_int_decimal (demo_console 0 0) 4294967295 7) as (str & H & Hv & _); [lia|].
  exists str. split; [exact H|exact Hv].
Defined.
