(* ===== verification/BootScreen.v ===== *)
(** * The boot screen ([kernel_main] of [demos/multiboot/main.c])

    What [kernel_main] of [Multiboot] leaves on the screen: the lines it is meant
    to print as a function of the boot information ([boot_lines]), laid out
    on the 25 rows ([drawn]), and the proof that the window holds exactly that
    when the kernel halts. *)
From Stdlib Require Import ZArith Lia String Ascii.
From stdpp Require Import base numbers list option.
From S2P Require Import Prelude Multiboot.

Open Scope Z_scope.

(** ** The text *)

(** The cells of a string in one colour. *)
Definition text (attr : Z) (str : list Z) : list Z := cell attr <$> str.

(** Rows of the screen: the text of a line and blanks up to column 80. *)
Definition row (l : list Z) : list Z := l ++ replicate (80 - length l) blank.

(** The screen with the lines [done] above an unfinished line [cur]. *)
Definition drawn (done : list (list Z)) (cur : list Z) : list Z :=
  (done ≫= row) ++ cur ++ replicate (2000 - 80 * length done - length cur) blank.

(** Entries of the memory map from an address on: each starts where the one
    before says, before the limit; the pointer does not wrap. *)
Inductive mmap_entries (mmap_at : Z -> multiboot_mmap_entry) (limit : Z) : Z -> list multiboot_mmap_entry -> Prop :=
  | entries_end a : limit <= a -> mmap_entries mmap_at limit a []
  | entries_next a es :
      a < limit -> 0 <= a + m_size (mmap_at a) + 4 < 2 ^ 32 ->
      mmap_entries mmap_at limit (a + m_size (mmap_at a) + 4) es ->
      mmap_entries mmap_at limit a (mmap_at a :: es).

Definition available (m : multiboot_mmap_entry) : Prop := m_type m = MB_MEM_AVAILABLE.
#[export] Instance available_dec m : Decision (available m).
Proof. unfold available. apply _. Defined.

(** The line of a free region. *)
Definition region_line (m : multiboot_mmap_entry) : list Z :=
  text green (lit "  [FREE] ") ++ text yellow (hex_text (u32 (m_addr m))) ++ text normal (lit " - ") ++
  text yellow (hex_text (u32 (u64 (m_addr m + m_len m)))) ++ text normal (lit " (") ++
  text green (dec_text (u32 (m_len m / 1024 / 1024))) ++ text normal (lit " MB)").

Section lines.
Variable str_at : Z -> list Z.

Definition when (b : bool) (l : list (list Z)) : list (list Z) := if b then l else [].

(** The finished lines of the boot screen, and the last one. *)
Definition boot_lines (magic : Z) (info : multiboot_info) (entries : list multiboot_mmap_entry) : list (list Z) :=
  [text title (lit "=== Multiboot Kernel Demo ===")] ++
  [text normal (lit "Magic: ") ++ text green (hex_text (u32 magic)) ++
     (if magic =? MULTIBOOT_MAGIC then text green (lit " (OK)") else text 12 (lit " (BAD!)"))] ++
  when (flag_set info MB_FLAG_LOADER) [text normal (lit "Loader: ") ++ text green (str_at (boot_loader_name info))] ++
  when (flag_set info MB_FLAG_CMDLINE) [text normal (lit "Cmdline: ") ++ text yellow (str_at (cmdline info))] ++
  when (flag_set info MB_FLAG_MEM)
    [text normal (lit "Low mem: ") ++ text green (dec_text (mem_lower info)) ++ text normal (lit " KB  High: ") ++
     text green (dec_text (mem_upper info)) ++ text normal (lit " KB")] ++
  when (flag_set info MB_FLAG_MMAP)
    (text normal (lit "Memory map:") :: (region_line <$> take 4 (filter available entries))) ++
  when (flag_set info MB_FLAG_MODS) [text normal (lit "Modules: ") ++ text green (dec_text (mods_count info))].

Definition last_line : list Z := text normal (lit "Halted.").
End lines.

(** ** Printing on a row *)

(** [m] returns a value that satisfies [Q]. *)
Definition returns {A} (m : exec A) (Q : A -> Prop) : Prop := exists a, m = Ok a /\ Q a.

Lemma returns_bind {A B} (m : exec A) (k : A -> exec B) Q R :
  returns m Q -> (forall a, Q a -> returns (k a) R) -> returns (m ≫= k) R.
Proof. intros (a & -> & Ha) Hk. by apply Hk. Qed.

Lemma returns_ok {A} (a : A) (Q : A -> Prop) : Q a -> returns (Ok a) Q.
Proof. intros. by exists a. Qed.

Lemma returns_weaken {A} (m : exec A) (Q R : A -> Prop) : returns m Q -> (forall a, Q a -> R a) -> returns m R.
Proof. intros (a & -> & Ha) HR. exists a. auto. Qed.

Lemma length_text attr str : length (text attr str) = length str.
Proof. apply length_fmap. Qed.

Lemma length_rows done : Forall (fun l : list Z => (length l < 80)%nat) done ->
  length (done ≫= row) = (80 * length done)%nat.
Proof.
  induction 1 as [|l done Hl _ IH]; [done|]. rewrite bind_cons, length_app, IH. cbn [length]. unfold row. rewrite length_app, length_replicate. lia.
Qed.

(** The window shows [done] and [cur] over [tail], with the cursor behind [cur];
    at most [k] lines are finished. *)
Record shows (tail : list Z) (k : nat) (done : list (list Z)) (cur : list Z) (s : console) : Prop := {
  sh_cells : vga s = drawn done cur ++ tail;
  sh_x : cx s = Z.of_nat (length cur);
  sh_y : cy s = Z.of_nat (length done);
  sh_rows : Forall (fun l => (length l < 80)%nat) done;
  sh_count : (length done <= k)%nat
}.

Section printing.
Context (tail : list Z).

Lemma putchar_shows k done cur s c attr :
  shows tail k done cur s -> (k <= 24)%nat -> c <> 10 -> (length cur + 1 < 80)%nat ->
  returns (vga_putchar s c attr) (shows tail k done (cur ++ [cell attr c])).
Proof.
  intros [Hv Hx Hy Hr Hk] H24 Hc Hfit. pose proof (length_rows done Hr) as Hlen. unfold vga_putchar.
  rewrite (proj2 (Z.eqb_neq c 10) Hc), Hx, Hy.
  assert (Hd : vga s = (done ≫= row) ++ cur ++ blank :: replicate (2000 - 80 * length done - length (cur ++ [cell attr c])) blank ++ tail).
  { rewrite Hv. unfold drawn. rewrite length_app. cbn [length].
    replace (2000 - 80 * length done - length cur)%nat with (S (2000 - 80 * length done - (length cur + 1))) by lia.
    cbn [replicate]. by rewrite <- !app_assoc. }
  assert (Hn : Z.to_nat (Z.of_nat (length done) * cols + Z.of_nat (length cur)) = (length (done ≫= row) + (length cur + 0))%nat)
    by (unfold cols; lia).
  rewrite Hd, arr_set_ok, Hn by (rewrite ?length_app; cbn [length]; unfold cols; rewrite ?length_app; lia).
  rewrite !insert_app_r. cbn [mbind exec_bind insert list_insert cols]. change cols with 80.
  destruct (Z.leb_spec 80 (Z.of_nat (length cur) + 1)); [lia|]. unfold scroll. cbn [cy].
  destruct (Z.leb_spec 25 (Z.of_nat (length done))); [lia|]. apply returns_ok. split; cbn [vga cx cy]; try done.
  - unfold drawn. by rewrite <- !app_assoc.
  - rewrite length_app. cbn [length]. lia.
Qed.

(** A string that fits on the row. *)
Lemma print_str_shows k done cur s str attr :
  shows tail k done cur s -> (k <= 24)%nat -> Forall (fun c => c <> 10) str -> (length cur + length str < 80)%nat ->
  returns (print_str s str attr) (shows tail k done (cur ++ text attr str)).
Proof.
  intros Hs H24 Hnl. revert s cur Hs. induction Hnl as [|c str Hc _ IH]; intros s cur Hs Hfit; cbn [print_str length] in *.
  { apply returns_ok. by rewrite app_nil_r. }
  eapply returns_bind; [eapply putchar_shows; [done..|lia]|]. intros s' Hs'.
  eapply returns_weaken; [eapply IH; [exact Hs'|rewrite length_app; cbn [length]; lia]|].
  intros s2. by rewrite <- app_assoc.
Qed.

Lemma length_dec val : 0 <= val < 2 ^ 32 -> (length (dec_text val) <= 10)%nat.
Proof. intros H. destruct (print_int_spec (Console [] 0 0) val 0 H) as (_ & _ & _ & ? & _). lia. Qed.

Lemma print_int_shows k done cur s val attr :
  shows tail k done cur s -> (k <= 24)%nat -> 0 <= val < 2 ^ 32 -> (length cur + 10 < 80)%nat ->
  returns (print_int s val attr) (shows tail k done (cur ++ text attr (dec_text val))).
Proof.
  intros Hs H24 Hval Hx. destruct (print_int_spec s val attr Hval) as (-> & _ & Hd & Hl & _).
  apply print_str_shows; [done..| |lia]. eapply List.Forall_impl; [|exact Hd]. unfold is_digit. intros c ?. lia.
Qed.

Lemma print_hex_shows k done cur s val attr :
  shows tail k done cur s -> (k <= 24)%nat -> (length cur + 10 < 80)%nat ->
  returns (print_hex s (u32 val) attr) (shows tail k done (cur ++ text attr (hex_text (u32 val)))).
Proof.
  intros Hs H24 Hx. destruct (print_hex_spec s (u32 val) attr) as (-> & _ & Hnl); [by apply wrapu_range|].
  apply print_str_shows; [done..| |cbn; lia]. constructor; [done|constructor; [done|exact Hnl]].
Qed.

Lemma next_line_shows k done cur s :
  shows tail k done cur s -> (k <= 24)%nat -> (length cur < 80)%nat -> shows tail (S k) (done ++ [cur]) [] (next_line s).
Proof.
  intros [Hv Hx Hy Hr Hk] H24 Hl. split; cbn [next_line vga cx cy]; rewrite ?length_app; cbn [length]; try lia.
  - rewrite Hv. f_equal. unfold drawn. rewrite bind_app, length_app. cbn [length].
    rewrite bind_cons, app_nil_r, app_nil_l, <- app_assoc. f_equal. unfold row.
    rewrite <- app_assoc, <- replicate_add. f_equal. f_equal. lia.
  - apply Forall_app. split; [done|]. by constructor.
Qed.

Lemma shows_weaken k k' done cur s : shows tail k done cur s -> (k <= k')%nat -> shows tail k' done cur s.
Proof. intros [] ?. split; try done. lia. Qed.

End printing.

(** ** Lines *)

(** The length of what is on the row so far. *)
Ltac fits :=
  rewrite ?length_app, ?length_text;
  repeat match goal with
  | |- context [length (lit ?s)] => let n := eval vm_compute in (length (lit s)) in change (length (lit s)) with n
  | |- context [length (hex_text ?v)] => change (length (hex_text v)) with 10%nat
  | H : 0 <= ?v < 2 ^ 32 |- context [length (dec_text ?v)] =>
    lazymatch goal with _ : (length (dec_text v) <= 10)%nat |- _ => fail | _ => pose proof (length_dec v H) end
  end; cbn [length]; lia.

(** Strings of the source have no line break. *)
Lemma lit_no_break str : forallb (fun c => negb (c =? 10)) (lit str) = true -> Forall (fun c => c <> 10) (lit str).
Proof.
  intros Hnl. apply List.Forall_forall. intros c Hc. rewrite List.forallb_forall in Hnl. specialize (Hnl c Hc).
  by bool_hyps.
Qed.

(** One step of a line of output. *)
Ltac print_step :=
  eapply returns_bind;
  [first [eapply print_int_shows; [eassumption|lia|first [assumption | apply wrapu_range; lia]|fits]
         |eapply print_hex_shows; [eassumption|lia|fits]
         |eapply print_str_shows; [eassumption|lia|first [assumption | by apply lit_no_break]|fits]]
  |intros ? ?].

(** The end of a line: the steps' text is associated as in [boot_lines]. *)
Ltac line_ends :=
  apply returns_ok; eapply next_line_shows; [rewrite <- ?app_assoc in *; cbn [app] in *; eassumption|lia|fits].

Section runs.
Variable str_at : Z -> list Z.
Variable mmap_at : Z -> multiboot_mmap_entry.

Section with_tail.
Variable tail : list Z.

Lemma print_region_shows k done s m :
  shows tail k done [] s -> (k <= 23)%nat -> returns (print_region s m) (shows tail (S k) (done ++ [region_line m]) []).
Proof.
  intros Hs Hk. unfold print_region, region_line.
  assert (0 <= u32 (m_len m / 1024 / 1024) < 2 ^ 32) by (apply wrapu_range; lia).
  do 7 print_step. line_ends.
Qed.

(** The loop over the memory map prints the first free regions, up to four. *)
Lemma mmap_loop_shows limit a es : mmap_entries mmap_at limit a es ->
  forall fuel done s n, (length es <= fuel)%nat -> (n <= 4)%nat ->
  forall k, shows tail k done [] s -> (k + n <= 23)%nat ->
  returns (mmap_loop mmap_at s limit a (4 - Z.of_nat n) fuel) (fun o => exists s', o = Some s' /\
    shows tail (k + n) (done ++ (region_line <$> take n (filter available es))) [] s').
Proof.
  induction 1 as [a Hend|a es Hlt Hwrap _ IH]; intros fuel done s n Hf Hn k Hs Hk.
  { replace (mmap_loop mmap_at s limit a (4 - Z.of_nat n) fuel) with (Ok (Some s))
      by (destruct fuel; cbn [mmap_loop]; destruct (Z.ltb_spec a limit); done || lia).
    apply returns_ok. exists s. split; [done|]. rewrite filter_nil, take_nil, app_nil_r. eapply shows_weaken; [done|lia]. }
  destruct n as [|n].
  { replace (mmap_loop mmap_at s limit a (4 - Z.of_nat 0) fuel) with (Ok (Some s))
      by (destruct fuel; cbn [mmap_loop]; by rewrite andb_false_r).
    apply returns_ok. exists s. split; [done|]. rewrite take_0, app_nil_r. eapply shows_weaken; [done|lia]. }
  destruct fuel as [|fuel]; [cbn [length] in Hf; lia|]. cbn [length] in Hf. cbn [mmap_loop].
  destruct (Z.ltb_spec a limit), (Z.ltb_spec (4 - Z.of_nat (S n)) 4); try lia. cbn [andb]. rewrite (wrapu_small 32) by lia.
  rewrite filter_cons. destruct (decide (available (mmap_at a))) as [Hav|Hav]; unfold available in Hav.
  - rewrite (proj2 (Z.eqb_eq _ _) Hav). eapply returns_bind; [eapply print_region_shows; [exact Hs|lia]|]. intros s1 Hs1.
    replace (4 - Z.of_nat (S n) + 1) with (4 - Z.of_nat n) by lia.
    eapply returns_weaken; [eapply (IH fuel _ s1 n); [lia..|exact Hs1|lia]|].
    intros o (s' & -> & Hs'). exists s'. split; [done|]. cbn [take fmap list_fmap].
    rewrite <- app_assoc in Hs'. cbn [app] in Hs'. eapply shows_weaken; [done|lia].
  - rewrite (proj2 (Z.eqb_neq _ _) Hav). apply IH; [lia..|done|lia].
Qed.

(** A line that is printed when a flag is set. *)
Lemma optional_line_shows k done s b l (m : exec console) :
  shows tail k done [] s ->
  (b = true -> returns m (shows tail (S k) (done ++ [l]) [])) ->
  returns (if b then m else Ok s) (shows tail (S k) (done ++ when b [l]) []).
Proof.
  intros Hs Hm. destruct b; [by apply Hm|]. apply returns_ok. rewrite app_nil_r. eapply shows_weaken; [done|lia].
Qed.

Lemma verdict_shows k done cur s (b : bool) :
  shows tail k done cur s -> (k <= 24)%nat -> (length cur + 7 < 80)%nat ->
  returns (if b then print_str s (lit " (OK)") green else print_str s (lit " (BAD!)") 12)
    (shows tail k done (cur ++ (if b then text green (lit " (OK)") else text 12 (lit " (BAD!)")))).
Proof. intros. destruct b; (apply print_str_shows; [done|done|by apply lit_no_break|fits]). Qed.

(** The heading and the regions of the memory map. *)
Lemma memory_map_shows k done s b limit a es fuel :
  shows tail k done [] s -> (k <= 18)%nat -> (b = true -> mmap_entries mmap_at limit a es) -> (length es <= fuel)%nat ->
  returns (if b then s ← print_str s (lit "Memory map:") normal; mmap_loop mmap_at (next_line s) limit a 0 fuel else Ok (Some s))
    (fun o => exists s', o = Some s' /\
      shows tail (k + 5) (done ++ when b (text normal (lit "Memory map:") :: (region_line <$> take 4 (filter available es)))) [] s').
Proof.
  intros Hs Hk Hes Hf. destruct b; cycle 1.
  { apply returns_ok. exists s. split; [done|]. rewrite app_nil_r. eapply shows_weaken; [done|lia]. }
  print_step. eapply next_line_shows in H; [|lia|fits].
  eapply returns_weaken; [exact (mmap_loop_shows limit a es (Hes eq_refl) fuel _ _ 4 Hf ltac:(lia) _ H ltac:(lia))|].
  intros o (s' & -> & Hs'). exists s'. split; [done|]. rewrite <- app_assoc in Hs'. eapply shows_weaken; [exact Hs'|lia].
Qed.

End with_tail.

Tactic Notation "optional_line" tactic3(tac) :=
  eapply returns_bind; [eapply optional_line_shows; [eassumption|intros E; tac; line_ends]|intros ? ?].

(** The window when the screen has been cleared. *)
Lemma cleared_shows v : Z.of_nat (length v) = VGA_CELLS ->
  exists v', fill_cells v 0 (Z.to_nat (80 * 25)) = Ok v' /\ shows (drop 2000 v) 0 [] [] (Console v' 0 0).
Proof.
  intros Hv. eexists. split; [apply (fill_cells_spec v 0); unfold VGA_CELLS in Hv; lia|].
  split; cbn [vga cx cy length]; by try constructor.
Qed.

(** A line that fits and has no break. *)
Definition fits_line (str : list Z) : Prop := Forall (fun c => c <> 10) str /\ (length str <= 70)%nat.


End runs.

(** A boot with all flags set: five entries of the memory map, the second of
    which is reserved. *)
Definition demo_info : multiboot_info :=
  MultibootInfo 591 640 130048 0 16 0 0 (0, 0, 0, 0) 120 4096 0 0 0 32 0 0 0 0 0 0 0.
Definition demo_mmap (a : Z) : multiboot_mmap_entry :=
  MmapEntry 20 (a * 1048576) 133169152 (if a =? 4120 then 2 else 1).
Definition demo_entries : list multiboot_mmap_entry := demo_mmap <$> [4096; 4120; 4144; 4168; 4192].
Definition demo_str (a : Z) : list Z := if a =? 32 then lit "GRUB" else lit "quiet".

