(* ===== verification/Arp.v ===== *)
(** * Address resolution ([demos/neigh/neigh_arp.c])

    The 42-byte request frame as the packed structures lay it out on a
    little-endian machine, and the receive loop over the results of [select]
    and [recvfrom], which are its input.  [main] around them ([NeighMain]) parses arguments
    and opens the raw socket; its [alarm(5)] shows up as interrupted calls. *)
From Stdlib Require Import ZArith Lia.
From stdpp Require Import base numbers list option.
From S2P Require Import Prelude.

Open Scope Z_scope.

Record arp_header := ArpHeader {
  hw_type : Z; proto_type : Z; hw_size : Z; proto_size : Z; opcode : Z;
  sender_mac : list Z; sender_ip : list Z; target_mac : list Z; target_ip : list Z
}.
Record eth_frame := EthFrame { dest_mac : list Z; src_mac : list Z; ether_type : Z }.

Definition ARP_REQUEST : Z := 1.
Definition ARP_RESPONSE : Z := 2.
Definition ETH_P_IP : Z := 2048.
Definition ETH_P_ARP : Z := 2054.
Definition EINTR : Z := 4.

(** [htons] and [ntohs] exchange the bytes of a 16-bit value. *)
Definition htons (x : Z) : Z := Z.lor (Z.shiftl (Z.land x 255) 8) (Z.land (Z.shiftr x 8) 255).

(** Integers in memory, lowest byte first. *)
Definition store16 (x : Z) : list Z := [Z.land x 255; Z.land (Z.shiftr x 8) 255].
Definition store32 (x : Z) : list Z := [Z.land x 255; Z.land (Z.shiftr x 8) 255; Z.land (Z.shiftr x 16) 255; Z.land (Z.shiftr x 24) 255].
Definition load16 (b0 b1 : Z) : Z := Z.lor b0 (Z.shiftl b1 8).
Definition load32 (b0 b1 b2 b3 : Z) : Z := Z.lor (Z.lor b0 (Z.shiftl b1 8)) (Z.lor (Z.shiftl b2 16) (Z.shiftl b3 24)).

(** The structures in memory, packed. *)
Definition eth_bytes (e : eth_frame) : list Z := dest_mac e ++ src_mac e ++ store16 (ether_type e).
Definition arp_bytes (a : arp_header) : list Z :=
  store16 (hw_type a) ++ store16 (proto_type a) ++ [hw_size a; proto_size a] ++ store16 (opcode a) ++
  sender_mac a ++ sender_ip a ++ target_mac a ++ target_ip a.

(** The frame of [send_arp_request]; [mac] is six bytes, the addresses are
    [uint32_t] in network order. *)
Definition request_frame (mac : list Z) (my_ip ip : Z) : list Z :=
  eth_bytes (EthFrame (replicate 6 255) mac (htons ETH_P_ARP)) ++
  arp_bytes (ArpHeader (htons 1) (htons ETH_P_IP) 6 4 (htons ARP_REQUEST) mac (store32 my_ip) (replicate 6 0) (store32 ip)).

(** [sendto] gives the number of bytes sent or a negative value. *)
Definition send_arp_request (mac : list Z) (my_ip ip : Z) (sendto : list Z -> Z) : list Z * Z :=
  let packet := request_frame mac my_ip ip in
  (packet, if sendto packet <? 0 then -1 else 0).

(** A 16-bit or 32-bit field at an offset of the buffer. *)
Definition field16 (buf : list Z) (off : Z) : exec Z :=
  b0 ← arr_get buf off; b1 ← arr_get buf (off + 1); Ok (load16 b0 b1).
Definition field32 (buf : list Z) (off : Z) : exec Z :=
  b0 ← arr_get buf off; b1 ← arr_get buf (off + 1); b2 ← arr_get buf (off + 2); b3 ← arr_get buf (off + 3);
  Ok (load32 b0 b1 b2 b3).

(** What a round of the loop gets: [select] fails with an error number, times
    out, or is ready; then [recvfrom] fails or returns a frame. *)
Inductive poll := SelectError (errno : Z) | SelectTimeout | RecvError | Recv (frame : list Z).

(** What a round of the loop does. *)
Inductive round := Continue | Fail | Resolved (mac : list Z).

Definition recv_round (expected_ip : Z) (p : poll) : exec round :=
  match p with
  | SelectError errno => Ok (if errno =? EINTR then Continue else Fail)
  | SelectTimeout => Ok Continue
  | RecvError => Ok Continue
  | Recv frame =>
    let buf := take 1024 frame in
    if Z.of_nat (length buf) <? 14 + 28 then Ok Continue
    else
      t ← field16 buf 12;
      if negb (htons t =? ETH_P_ARP) then Ok Continue
      else
        op ← field16 buf (14 + 6);
        if negb (htons op =? ARP_RESPONSE) then Ok Continue
        else
          resp_ip ← field32 buf (14 + 14);
          if negb (resp_ip =? expected_ip) then Ok Continue
          else Ok (Resolved (take 6 (drop (14 + 8) buf)))
  end.

(** [FD_SET(fd, &rfds)]: a bit of an array of [FD_SETSIZE] bits. *)
Definition FD_SETSIZE : Z := 1024.
Definition FD_SET (fd : Z) : exec unit :=
  if (0 <=? fd) && (fd <? FD_SETSIZE) then Ok () else Crash OutOfBounds.

(** [recv_arp_response]: [got] is [got_response].  Every round puts the
    descriptor in a fresh set before it waits.  [None] means that the loop still
    waits at the end of the input; the list is [out_mac] when it is set. *)
Fixpoint recv_arp_response (got : bool) (sockfd expected_ip : Z) (ps : list poll) : exec (option (Z * option (list Z))) :=
  if got then Ok (Some (-1, None))
  else
    _ ← FD_SET sockfd;
    match ps with
    | [] => Ok None
    | p :: ps' =>
      r ← recv_round expected_ip p;
      match r with
      | Continue => recv_arp_response got sockfd expected_ip ps'
      | Fail => Ok (Some (-1, None))
      | Resolved mac => Ok (Some (0, Some mac))
      end
    end.

Lemma FD_SET_ok fd : 0 <= fd < FD_SETSIZE -> FD_SET fd = Ok ().
Proof. unfold FD_SET. intros H. destruct (Z.leb_spec 0 fd), (Z.ltb_spec fd FD_SETSIZE); done || lia. Qed.

Lemma FD_SET_out fd : ~ (0 <= fd < FD_SETSIZE) -> FD_SET fd = Crash OutOfBounds.
Proof. unfold FD_SET. intros H. destruct (Z.leb_spec 0 fd), (Z.ltb_spec fd FD_SETSIZE); done || lia. Qed.

(** ** Encoding and decoding *)

Lemma testbit_255 n : 0 <= n -> Z.testbit 255 n = (n <? 8).
Proof. intros. change 255 with (Z.ones 8). by rewrite Z.testbit_ones_nonneg by lia. Qed.

Lemma byte_testbit x k n : 0 <= k -> Z.testbit (Z.land (Z.shiftr x k) 255) n = (0 <=? n) && (n <? 8) && Z.testbit x (n + k).
Proof.
  intros Hk. destruct (Z.leb_spec 0 n) as [Hn|Hn]; [|by rewrite Z.testbit_neg_r by lia].
  rewrite Z.land_spec, Z.shiftr_spec, testbit_255 by lia. cbn [andb]. apply andb_comm.
Qed.

Lemma load16_store x : 0 <= x < 2 ^ 16 -> load16 (Z.land x 255) (Z.land (Z.shiftr x 8) 255) = x.
Proof.
  intros Hx. unfold load16. rewrite <- (wrapu_small 16 x Hx) at 3. apply Z.bits_inj'. intros n Hn.
  rewrite testbit_wrapu, Z.lor_spec, Z.shiftl_spec by lia. rewrite <- (Z.shiftr_0_r x) at 1. rewrite !byte_testbit by lia.
  replace (n + 0) with n by lia. replace (n - 8 + 8) with n by lia.
  destruct (Z.testbit x n); split_bool; cbn; (lia || done).
Qed.

Lemma load32_store x : 0 <= x < 2 ^ 32 ->
  load32 (Z.land x 255) (Z.land (Z.shiftr x 8) 255) (Z.land (Z.shiftr x 16) 255) (Z.land (Z.shiftr x 24) 255) = x.
Proof.
  intros Hx. unfold load32. rewrite <- (wrapu_small 32 x Hx) at 5. apply Z.bits_inj'. intros n Hn.
  rewrite testbit_wrapu, !Z.lor_spec, !Z.shiftl_spec by lia. rewrite <- (Z.shiftr_0_r x) at 1. rewrite !byte_testbit by lia.
  replace (n + 0) with n by lia. replace (n - 8 + 8) with n by lia. replace (n - 16 + 16) with n by lia.
  replace (n - 24 + 24) with n by lia.
  destruct (Z.testbit x n); split_bool; cbn; (lia || done).
Qed.

Lemma htons_testbit y m : 0 <= m ->
  Z.testbit (htons y) m = ((8 <=? m) && (m <? 16) && Z.testbit y (m - 8)) || ((m <? 8) && Z.testbit y (m + 8)).
Proof.
  intros Hm. unfold htons. rewrite Z.lor_spec, Z.shiftl_spec by lia. rewrite <- (Z.shiftr_0_r y) at 1.
  rewrite !byte_testbit by lia. replace (m - 8 + 0) with (m - 8) by lia.
  destruct (Z.testbit y (m - 8)), (Z.testbit y (m + 8)); split_bool; cbn; (lia || done).
Qed.

Lemma htons_htons x : 0 <= x < 2 ^ 16 -> htons (htons x) = x.
Proof.
  intros Hx. rewrite <- (wrapu_small 16 x Hx) at 2. apply Z.bits_inj'. intros n Hn.
  rewrite htons_testbit, testbit_wrapu by lia. destruct (Z.ltb_spec n 8).
  - rewrite (htons_testbit x (n + 8)) by lia. replace (n + 8 - 8) with n by lia.
    destruct (Z.testbit x n), (Z.testbit x (n + 8 + 8)); split_bool; cbn; (lia || done).
  - destruct (Z.leb_spec 8 n); [|lia]. rewrite (htons_testbit x (n - 8)) by lia. replace (n - 8 + 8) with n by lia.
    destruct (Z.testbit x n), (Z.testbit x (n - 8 - 8)); split_bool; cbn; (lia || done).
Qed.

Lemma htons_range x : 0 <= htons x < 2 ^ 16.
Proof.
  replace (htons x) with (u16 (htons x)); [by apply wrapu_range|]. apply Z.bits_inj'. intros n Hn.
  rewrite testbit_wrapu by lia. rewrite htons_testbit by lia. split_bool; cbn; (lia || done || by rewrite ?andb_false_r).
Qed.

(** Headers with fields of the right sizes. *)
Record frame_wf (e : eth_frame) (a : arp_header) : Prop := {
  fw_dest : length (dest_mac e) = 6%nat; fw_src : length (src_mac e) = 6%nat;
  fw_type : 0 <= ether_type e < 2 ^ 16; fw_op : 0 <= opcode a < 2 ^ 16;
  fw_smac : length (sender_mac a) = 6%nat; fw_sip : length (sender_ip a) = 4%nat;
  fw_tmac : length (target_mac a) = 6%nat; fw_tip : length (target_ip a) = 4%nat
}.

(** A frame that answers for [ip]: an ARP response from that address. *)
Definition answers (e : eth_frame) (a : arp_header) (ip : Z) : bool :=
  (htons (ether_type e) =? ETH_P_ARP) && (htons (opcode a) =? ARP_RESPONSE) &&
  bool_decide (sender_ip a = store32 ip).

Lemma byte_out b m : 0 <= b < 256 -> m < 0 \/ 8 <= m -> Z.testbit b m = false.
Proof.
  intros Hb [Hm|Hm]; [by apply Z.testbit_neg_r|]. rewrite <- (wrapu_small 8 b) by done.
  rewrite testbit_wrapu by lia. by destruct (Z.ltb_spec m 8); [lia|].
Qed.

Lemma store32_bytes x : Forall (fun b => 0 <= b < 256) (store32 x).
Proof.
  assert (forall y, 0 <= Z.land y 255 < 256) as H.
  { intros y. change 255 with (Z.ones 8). rewrite Z.land_ones by lia. by apply Z.mod_pos_bound. }
  unfold store32. repeat constructor; apply H.
Qed.

(** Storing what four bytes load gives the bytes back. *)
Lemma store32_load b0 b1 b2 b3 :
  Forall (fun b => 0 <= b < 256) [b0; b1; b2; b3] -> store32 (load32 b0 b1 b2 b3) = [b0; b1; b2; b3].
Proof.
  rewrite !Forall_cons_iff. intros (H0 & H1 & H2 & H3 & _). unfold store32. rewrite <- (Z.shiftr_0_r (load32 _ _ _ _)) at 1.
  f_equal; [|f_equal; [|f_equal; [|f_equal]]]; apply Z.bits_inj'; intros n Hn; rewrite byte_testbit by lia; unfold load32;
    rewrite !Z.lor_spec, !Z.shiftl_spec by lia; destruct (Z.leb_spec 0 n); try lia; cbn [andb];
    (destruct (Z.ltb_spec n 8); [cbn [andb]|cbn [andb]; symmetry; apply byte_out; [done|lia]]);
    repeat match goal with |- context [Z.testbit ?b ?m] => rewrite (byte_out b m) by (done || lia) end;
    rewrite ?orb_false_r; cbn [orb]; f_equal; lia.
Qed.

Lemma load32_eq b0 b1 b2 b3 ip :
  Forall (fun b => 0 <= b < 256) [b0; b1; b2; b3] -> 0 <= ip < 2 ^ 32 ->
  (load32 b0 b1 b2 b3 =? ip) = bool_decide ([b0; b1; b2; b3] = store32 ip).
Proof.
  intros Hb Hip. destruct (Z.eqb_spec (load32 b0 b1 b2 b3) ip) as [<-|Hne]; symmetry.
  - apply bool_decide_true. by rewrite store32_load.
  - apply bool_decide_false. intros [= -> -> -> ->]. apply Hne. by apply load32_store.
Qed.

Ltac six l := destruct l as [|? [|? [|? [|? [|? [|? [|]]]]]]]; try discriminate.
Ltac four l := destruct l as [|? [|? [|? [|? [|]]]]]; try discriminate.

(** Decoding inverts encoding: a round on an encoded frame, followed by any
    padding, sees the fields it was built from. *)
Lemma recv_round_frame e a pad ip :
  frame_wf e a -> 0 <= ip < 2 ^ 32 -> Forall (fun b => 0 <= b < 256) (sender_ip a) ->
  recv_round ip (Recv (eth_bytes e ++ arp_bytes a ++ pad)) =
    Ok (if answers e a ip then Resolved (sender_mac a) else Continue).
Proof.
  intros [Hd Hs Ht Ho Hsm Hsi Htm Hti] Hip Hbytes. unfold recv_round.
  assert (take 1024 (eth_bytes e ++ arp_bytes a ++ pad) = eth_bytes e ++ arp_bytes a ++ take 982 pad) as ->.
  { rewrite app_assoc, take_app_ge; [rewrite <- app_assoc; do 3 f_equal|]; unfold eth_bytes, arp_bytes;
      rewrite !length_app, ?Hd, ?Hs, ?Hsm, ?Hsi, ?Htm, ?Hti; cbn [length store16]; lia. }
  generalize (take 982 pad) as p. intros p. destruct (Z.ltb_spec (Z.of_nat (length (eth_bytes e ++ arp_bytes a ++ p))) (14 + 28)) as [Hl|_].
  { exfalso. unfold eth_bytes, arp_bytes in Hl. rewrite !length_app, Hd, Hs, Hsm, Hsi, Htm, Hti in Hl. cbn [length store16] in Hl. lia. }
  destruct e as [dm sm et], a as [ht pt hs ps op smac sip tmac tip]. cbn [dest_mac src_mac ether_type opcode sender_mac sender_ip target_mac target_ip] in *.
  six dm. six sm. six smac.
  destruct sip as [|i0 [|i1 [|i2 [|i3 [|]]]]]; try discriminate. six tmac. four tip.
  unfold eth_bytes, arp_bytes, store16, answers. cbn [dest_mac src_mac ether_type hw_type proto_type hw_size proto_size opcode sender_mac sender_ip target_mac target_ip app].
  unfold field16, field32. match goal with |- context [arr_get ?l 12] => set (buf := l) end.
  change (arr_get buf 12) with (Ok (Z.land et 255)). change (arr_get buf (12 + 1)) with (Ok (Z.land (Z.shiftr et 8) 255)).
  change (arr_get buf (14 + 6)) with (Ok (Z.land op 255)). change (arr_get buf (14 + 6 + 1)) with (Ok (Z.land (Z.shiftr op 8) 255)).
  cbn [mbind exec_bind]. rewrite !load16_store by done. destruct (htons et =? ETH_P_ARP); [|done]. cbn [negb andb].
  destruct (htons op =? ARP_RESPONSE); [|done]. cbn [negb andb].
  change (arr_get buf (14 + 14)) with (Ok i0). change (arr_get buf (14 + 14 + 1)) with (Ok i1).
  change (arr_get buf (14 + 14 + 2)) with (Ok i2). change (arr_get buf (14 + 14 + 3)) with (Ok i3).
  cbn [mbind exec_bind]. rewrite load32_eq by done. by destruct (bool_decide _).
Qed.

(** ** Resolution *)

(** Input that does not end the loop: timeouts, interrupted calls, failed
    receives, short frames and frames that do not answer for [ip]. *)
Definition ignorable (ip : Z) (p : poll) : Prop :=
  match p with
  | SelectError errno => errno = EINTR
  | SelectTimeout | RecvError => True
  | Recv frame =>
    (length frame < 42)%nat \/
    exists e a pad, frame = eth_bytes e ++ arp_bytes a ++ pad /\ frame_wf e a /\
      Forall (fun b => 0 <= b < 256) (sender_ip a) /\ answers e a ip = false
  end.

Lemma ignorable_round ip p : 0 <= ip < 2 ^ 32 -> ignorable ip p -> recv_round ip p = Ok Continue.
Proof.
  intros Hip. destruct p as [errno| | |frame]; cbn [ignorable]; [by intros ->|done..|].
  intros [Hs|(e & a & pad & -> & Hwf & Hb & Ha)]; [|by rewrite recv_round_frame, Ha].
  unfold recv_round. destruct (Z.ltb_spec (Z.of_nat (length (take 1024 frame))) (14 + 28)) as [|H]; [done|].
  rewrite length_take in H. lia.
Qed.

Lemma recv_skips sockfd ip ps qs :
  FD_SET sockfd = Ok () -> 0 <= ip < 2 ^ 32 -> Forall (ignorable ip) ps ->
  recv_arp_response false sockfd ip (ps ++ qs) = recv_arp_response false sockfd ip qs.
Proof.
  intros Hfd Hip. induction 1 as [|p ps Hp _ IH]; [done|]. cbn [recv_arp_response app]. rewrite Hfd. cbn [mbind exec_bind].
  by rewrite ignorable_round.
Qed.

(** The answer the protocol prescribes for a request frame, by a host with the
    address [mac]: it takes the fields of the request at their offsets. *)
Definition reply_to (request mac : list Z) : list Z :=
  eth_bytes (EthFrame (take 6 (drop 6 request)) mac (htons ETH_P_ARP)) ++
  arp_bytes (ArpHeader (htons 1) (htons ETH_P_IP) 6 4 (htons ARP_RESPONSE) mac (take 4 (drop 38 request))
                       (take 6 (drop 22 request)) (take 4 (drop 28 request))).

(** C38: address resolution end to end: the request frame has 42 bytes; after
    any input that is not an answer (timeouts, interrupted calls, short frames,
    other traffic, the request itself) the loop still waits, for any length of
    time, and when the host that has the address answers the request, with any
    padding, the loop returns 0 and that host's hardware address.  This is so for
    every descriptor that fits a set of [select]; with any other the loop writes
    outside the set before it waits. *)
Theorem arp_exchange_resolves my_mac my_ip ip mac ps pad qs sockfd :
  length my_mac = 6%nat -> length mac = 6%nat -> 0 <= my_ip < 2 ^ 32 -> 0 <= ip < 2 ^ 32 -> Forall (ignorable ip) ps ->
  let request := request_frame my_mac my_ip ip in
  length request = 42%nat /\ ignorable ip (Recv request) /\
  if decide (0 <= sockfd < FD_SETSIZE) then
    recv_arp_response false sockfd ip ps = Ok None /\
    recv_arp_response false sockfd ip (ps ++ Recv (reply_to request mac ++ pad) :: qs) = Ok (Some (0, Some mac))
  else forall input, recv_arp_response false sockfd ip input = Crash OutOfBounds.
Proof.
  intros Hmm Hm Hmy Hip Hps request. split; [|split; [|destruct (decide _) as [Hfd%FD_SET_ok|Hfd%FD_SET_out]; [split|]]].
  - subst request. unfold request_frame, eth_bytes, arp_bytes. rewrite !length_app. cbn. lia.
  - right. eexists _, _, []. rewrite app_nil_r. split; [done|]. split; [|split].
    + split; cbn; try done; apply htons_range.
    + apply store32_bytes.
    + done.
  - rewrite <- (app_nil_r ps), recv_skips by done. cbn [recv_arp_response]. by rewrite Hfd.
  - rewrite recv_skips by done. cbn [recv_arp_response]. rewrite Hfd. cbn [mbind exec_bind]. subst request. unfold reply_to. rewrite <- app_assoc.
    six my_mac. rewrite recv_round_frame; [|split; cbn; try done; apply htons_range|done|apply (store32_bytes ip)]. cbn [sender_mac].
    assert (answers _ _ ip = true) as ->; [|done]. unfold answers. cbn. by rewrite bool_decide_true.
  - intros input. by destruct input; cbn [recv_arp_response]; rewrite Hfd.
Qed.

(** ** Witness *)

Lemma arp_exchange_resolves_witness :
  recv_arp_response false 3 16885952 ([SelectTimeout; SelectError EINTR] ++
    Recv (reply_to (request_frame [0; 17; 34; 51; 68; 85] 1677830336 16885952) [2; 0; 0; 0; 0; 1] ++ replicate 18 0) :: [])
  = Ok (Some (0, Some [2; 0; 0; 0; 0; 1])).
Proof.
  destruct (arp_exchange_resolves [0; 17; 34; 51; 68; 85] 1677830336 16885952 [2; 0; 0; 0; 0; 1]
    [SelectTimeout; SelectError EINTR] (replicate 18 0) [] 3) as (_ & _ & H);
    [reflexivity|reflexivity|lia|lia|repeat constructor|].
  rewrite decide_True in H by (unfold FD_SETSIZE; lia). apply H.
Defined.
