(* ===== verification/Syscall.v ===== *)
(** * User programs over system calls

    The socket programs of the repository are sequences of calls of the C
    library with control flow between them.  A program is a value of the
    inductive free monad [prog]; a kernel answers its calls; [run] executes a
    program against a kernel and returns how it ended and the trace of its calls.
    The class [SocketKernel] states what the programs may rely on: the
    documented behaviour of descriptors and of [read].  [scripted] is a kernel
    that has it. *)
From Stdlib Require Import ZArith Lia String Ascii.
From stdpp Require Import base numbers list option gmap.
From S2P Require Import Prelude.

Open Scope Z_scope.

(** ** Programs *)

(** A program over the calls [E] that returns an [A]: it returns, calls
    [exit], leaves the language, or makes a call and goes on with the answer. *)
Inductive prog {E : Type} (ans : E -> Type) (A : Type) : Type :=
  | Ret (a : A)
  | Exit (code : Z)
  | Fault (f : fault)
  | Call (c : E) (k : ans c -> prog ans A).
Arguments Ret {E ans A} _.
Arguments Exit {E ans A} _.
Arguments Fault {E ans A} _.
Arguments Call {E ans A} _ _.

Fixpoint bind_prog {E} {ans : E -> Type} {A B} (g : A -> prog ans B) (p : prog ans A) : prog ans B :=
  match p with
  | Ret a => g a
  | Exit code => Exit code
  | Fault f => Fault f
  | Call c k => Call c (fun a => bind_prog g (k a))
  end.

#[export] Instance prog_ret {E} {ans : E -> Type} : MRet (prog ans) := fun A a => Ret a.
#[export] Instance prog_bind {E} {ans : E -> Type} : MBind (prog ans) := fun A B g p => bind_prog g p.

(** One call. *)
Definition call {E} {ans : E -> Type} (c : E) : prog ans (ans c) := Call c Ret.

(** A computation without calls. *)
Definition lift {E} {ans : E -> Type} {A} (m : exec A) : prog ans A :=
  match m with Ok a => Ret a | Crash f => Fault f end.

(** ** Kernels and executions *)

Record kernel {E : Type} (ans : E -> Type) := Kernel {
  kst : Type;
  kcall : kst -> forall c : E, ans c * kst
}.
Arguments Kernel {E ans} _ _.
Arguments kst {E ans} _.
Arguments kcall {E ans} _ _ _.

Inductive outcome (A : Type) := Returned (a : A) | Exited (code : Z) | Faulted (f : fault).
Arguments Returned {A} _.
Arguments Exited {A} _.
Arguments Faulted {A} _.

(** A call with its answer. *)
Definition event {E : Type} (ans : E -> Type) : Type := {c : E & ans c}.

Fixpoint run {E} {ans : E -> Type} {A} (K : kernel ans) (p : prog ans A) (s : kst K) :
    outcome A * list (event ans) * kst K :=
  match p with
  | Ret a => (Returned a, [], s)
  | Exit code => (Exited code, [], s)
  | Fault f => (Faulted f, [], s)
  | Call c k =>
    let '(a, s1) := kcall K s c in
    let '(o, t, s2) := run K (k a) s1 in
    (o, existT c a :: t, s2)
  end.

(** [ends K p s Q]: the execution of [p] from [s] ends as [Q] says. *)
Definition ends {E} {ans : E -> Type} {A} (K : kernel ans) (p : prog ans A) (s : kst K)
    (Q : outcome A -> list (event ans) -> kst K -> Prop) : Prop :=
  let '(o, t, s') := run K p s in Q o t s'.

Section ends.
Context {E : Type} {ans : E -> Type} (K : kernel ans).

Lemma ends_ret {A} (a : A) s Q : Q (Returned a) [] s -> ends K (Ret a) s Q.
Proof. done. Qed.

Lemma ends_exit {A} code s (Q : outcome A -> _ -> _ -> Prop) : Q (Exited code) [] s -> ends K (Exit code) s Q.
Proof. done. Qed.

Lemma ends_fault {A} f s (Q : outcome A -> _ -> _ -> Prop) : Q (Faulted f) [] s -> ends K (Fault f) s Q.
Proof. done. Qed.

Lemma ends_call {A} c (k : ans c -> prog ans A) s Q :
  (forall a s', kcall K s c = (a, s') -> ends K (k a) s' (fun o t s2 => Q o (existT c a :: t) s2)) ->
  ends K (Call c k) s Q.
Proof.
  unfold ends. cbn [run]. destruct (kcall K s c) as [a s'] eqn:Hc. intros H. specialize (H a s' eq_refl).
  destruct (run K (k a) s') as [[o t] s2]. done.
Qed.

Lemma ends_bind {A B} (p : prog ans A) (g : A -> prog ans B) s Q :
  ends K p s (fun o t s' =>
    match o with
    | Returned a => ends K (g a) s' (fun o2 t2 s2 => Q o2 (t ++ t2) s2)
    | Exited code => Q (Exited code) t s'
    | Faulted f => Q (Faulted f) t s'
    end) ->
  ends K (p ≫= g) s Q.
Proof.
  unfold mbind, prog_bind. revert s Q. induction p as [a|code|f|c k IH]; intros s Q; [done..|]. intros H.
  apply ends_call. intros a s' Hc. apply IH. unfold ends in H |- *. cbn [run] in H. rewrite Hc in H.
  by destruct (run K (k a) s') as [[[a'|code|f] t] s2].
Qed.

Lemma ends_mono {A} (p : prog ans A) s (Q R : outcome A -> _ -> _ -> Prop) :
  ends K p s Q -> (forall o t s', Q o t s' -> R o t s') -> ends K p s R.
Proof. unfold ends. intros H Hi. destruct (run K p s) as [[o t] s']. by apply Hi. Qed.

Lemma ends_run {A} (p : prog ans A) s Q o t s' : ends K p s Q -> run K p s = (o, t, s') -> Q o t s'.
Proof. unfold ends. intros H Hr. by rewrite Hr in H. Qed.
End ends.

(** ** Socket calls *)

Record sockaddr_in := SockaddrIn { sin_family : Z; sin_port : Z; sin_addr : Z }.

(** An argument of [printf]; [ARatio] is a floating-point quotient, kept as its
    two numbers.  Formats are kept without their newlines. *)
Inductive arg := AInt (z : Z) | AStr (s : string) | ABytes (l : list Z) | AAddr (ip : Z) | ARatio (num den : Z).

Inductive syscall :=
  | Socket (domain type protocol : Z)
  | Setsockopt (fd level optname val : Z)
  | Bind (fd : Z) (addr : sockaddr_in)
  | Listen (fd backlog : Z)
  | Accept (fd : Z)
  | Connect (fd : Z) (addr : sockaddr_in)
  | Read (fd count : Z)
  | Write (fd : Z) (data : list Z)
  | Close (fd : Z)
  | Tcp_info (fd : Z)
  | Ioctl_ifindex (fd : Z) (name : list Z)
  | Bind_ll (fd ifindex protocol : Z)
  | Sendto (fd : Z) (frame : list Z) (ifindex : Z)
  | Signal (signum : Z)
  | Alarm (seconds : Z)
  | Sleep (seconds : Z)
  | Gettimeofday
  | Printf (fmt : string) (args : list arg)
  | Perror (msg : string).

(** What a call gives back: [accept] a descriptor and the peer's address,
    [read] the number of bytes and the bytes, [getsockopt] of [TCP_INFO] the
    state when it succeeds, [ioctl] of [SIOCGIFINDEX] the index of the interface
    when it succeeds, [gettimeofday] seconds and microseconds. *)
Definition answer (c : syscall) : Type :=
  match c with
  | Accept _ => Z * (Z * Z)
  | Read _ _ => Z * list Z
  | Tcp_info _ | Ioctl_ifindex _ _ => option Z
  | Gettimeofday => Z * Z
  | Signal _ | Sleep _ | Printf _ _ | Perror _ => unit
  | _ => Z
  end.

Abbreviation sockprog := (prog answer).

(** ** What a trace shows *)

(** The bytes of a C string literal, without the terminator. *)
Definition bytes (str : string) : list Z := Z.of_N ∘ N_of_ascii <$> list_ascii_of_string str.

Definition printed_by (e : event answer) : list (string * list arg) :=
  match e with existT (Printf fmt args) _ => [(fmt, args)] | _ => [] end.
Definition printed (t : list (event answer)) : list (string * list arg) := t ≫= printed_by.

Definition read_by (e : event answer) : list (Z * list Z) :=
  match e with existT (Read _ _) a => [a] | _ => [] end.
Definition reads (t : list (event answer)) : list (Z * list Z) := t ≫= read_by.

Definition written_by (e : event answer) : list (Z * list Z) :=
  match e with existT (Write fd data) _ => [(fd, data)] | _ => [] end.
Definition writes (t : list (event answer)) : list (Z * list Z) := t ≫= written_by.

(** The byte strings printed. *)
Definition text_of (a : arg) : list (list Z) := match a with ABytes l => [l] | _ => [] end.
Definition texts (t : list (event answer)) : list (list Z) := printed t ≫= fun l => snd l ≫= text_of.

Definition sent_by (e : event answer) : list (list Z) :=
  match e with existT (Sendto _ frame _) _ => [frame] | _ => [] end.
Definition frames (t : list (event answer)) : list (list Z) := t ≫= sent_by.

Definition alarms_by (e : event answer) : list Z :=
  match e with existT (Alarm n) _ => [n] | _ => [] end.
Definition alarms (t : list (event answer)) : list Z := t ≫= alarms_by.

Definition closed_by (e : event answer) : list Z :=
  match e with existT (Close fd) _ => [fd] | _ => [] end.
Definition closes (t : list (event answer)) : list Z := t ≫= closed_by.

(** ** What a kernel promises *)

Section laws.
(** A descriptor just returned by [socket] or [accept]. *)
Definition opened (fd : Z) : gset Z := if fd <? 0 then ∅ else {[fd]}.

(** The open descriptors after a call. *)
Definition fds_after (c : syscall) : answer c -> gset Z -> gset Z :=
  match c with
  | Socket _ _ _ => fun fd O => opened fd ∪ O
  | Accept _ => fun a O => opened (fst a) ∪ O
  | Close fd => fun _ O => O ∖ {[fd]}
  | _ => fun _ O => O
  end.

(** Answers a call may give when [O] are the open descriptors: a new
    descriptor is not open yet, and [read] stores at most [count] bytes. *)
Definition answer_ok (c : syscall) : answer c -> gset Z -> Prop :=
  match c with
  | Socket _ _ _ => fun fd O => fd ∉ O
  | Accept _ => fun a O => fst a ∉ O
  | Read _ count => fun a _ => fst a <= count /\ (0 < fst a -> Z.of_nat (length (snd a)) = fst a)
  | _ => fun _ _ => True
  end.
End laws.

Class SocketKernel (K : kernel answer) := {
  kopen : kst K -> gset Z;
  kcall_answer s c : answer_ok c (fst (kcall K s c)) (kopen s);
  kcall_fds s c : kopen (snd (kcall K s c)) = fds_after c (fst (kcall K s c)) (kopen s)
}.

(** Closing the descriptor that was opened last restores the table, also when
    opening it failed. *)
Lemma close_opened fd (O : gset Z) : fd ∉ O -> (opened fd ∪ O) ∖ {[fd]} = O.
Proof. intros H. apply set_eq. intros x. unfold opened. destruct (fd <? 0); set_solver. Qed.

Lemma opened_failed fd (O : gset Z) : (fd <? 0) = true -> opened fd ∪ O = O.
Proof. unfold opened. intros ->. apply set_eq. set_solver. Qed.

(** ** Buffers *)

(** An automatic array of [n] bytes holds what the stack held. *)
Definition stack_buf (junk : nat -> Z) (n : nat) : list Z := junk <$> seq 0 n.

(** [read] and [recv] overwrite the first bytes. *)
Definition fill_buf (buf data : list Z) : list Z := data ++ drop (length data) buf.

(** The string a [%s] prints from an array. *)
Fixpoint c_string (buf : list Z) : exec (list Z) :=
  match buf with
  | [] => Crash OutOfBounds
  | b :: buf' => if b =? 0 then Ok [] else s ← c_string buf'; Ok (b :: s)
  end.

(** Bytes up to the first zero. *)
Fixpoint upto_nul (l : list Z) : list Z :=
  match l with [] => [] | b :: l' => if b =? 0 then [] else b :: upto_nul l' end.

(** The strings to be shown for the messages read: up to the first zero of
    every message that is not empty. *)
Definition shown (rs : list (Z * list Z)) : list (list Z) :=
  rs ≫= fun r => if 0 <? fst r then [upto_nul (snd r)] else [].

(** [buf[n] = '\0'] after [n] bytes were read, then the string in [buf]. *)
Definition terminated (buf data : list Z) (n : Z) : exec (list Z) :=
  buf' ← arr_set (fill_buf buf data) n 0; c_string buf'.

Lemma length_stack_buf junk n : length (stack_buf junk n) = n.
Proof. unfold stack_buf. by rewrite length_fmap, length_seq. Qed.

Lemma c_string_upto data rest : c_string (data ++ 0 :: rest) = Ok (upto_nul data).
Proof.
  induction data as [|b data IH]; [done|]. cbn [app c_string upto_nul]. destruct (b =? 0); [done|]. by rewrite IH.
Qed.

Lemma length_fill_buf buf data : (length data <= length buf)%nat -> length (fill_buf buf data) = length buf.
Proof. intros. unfold fill_buf. rewrite length_app, length_drop. lia. Qed.

Lemma terminated_small buf data n :
  Z.of_nat (length data) = n -> n < Z.of_nat (length buf) -> terminated buf data n = Ok (upto_nul data).
Proof.
  intros Hn Hb. unfold terminated. rewrite arr_set_ok by (rewrite length_fill_buf; lia). cbn [mbind exec_bind].
  unfold fill_buf. rewrite insert_app_r_alt by lia. replace (Z.to_nat n - length data)%nat with 0%nat by lia.
  destruct (drop (length data) buf) as [|x l] eqn:Hd; [|apply c_string_upto].
  apply (f_equal length) in Hd. rewrite length_drop in Hd. cbn in Hd. lia.
Qed.

(** Reading as many bytes as the array has leaves no room for the terminator. *)
Lemma terminated_full buf data n :
  Z.of_nat (length data) = n -> Z.of_nat (length buf) = n -> terminated buf data n = Crash OutOfBounds.
Proof.
  intros Hn Hb. unfold terminated, arr_set. rewrite length_fill_buf by lia. rewrite Hb.
  destruct (Z.ltb_spec n n); [lia|]. by rewrite andb_false_r.
Qed.

(** ** A kernel with a script

    Descriptors are numbered upwards; whether calls succeed and what is read
    come from the script. *)
Record script := Script {
  s_fds : gset nat;
  s_next : nat;
  s_ok : bool;             (* [socket], [bind], [listen], [connect], [accept] succeed *)
  s_input : list Z;        (* bytes waiting to be read *)
  s_state : option Z;      (* the TCP state reported *)
  s_clock : Z
}.

Definition script_fd (s : script) : Z * script :=
  if s_ok s && bool_decide (s_next s ∉ s_fds s) then
    (Z.of_nat (s_next s), Script ({[s_next s]} ∪ s_fds s) (S (s_next s)) (s_ok s) (s_input s) (s_state s) (s_clock s))
  else (-1, s).

Definition scripted_call (s : script) (c : syscall) : answer c * script :=
  match c return answer c * script with
  | Socket _ _ _ => script_fd s
  | Accept _ => ((fst (script_fd s), (16777343, 40975)), snd (script_fd s))
  | Bind _ _ | Listen _ _ | Connect _ _ => ((if s_ok s then 0 else -1), s)
  | Setsockopt _ _ _ _ => (0, s)
  | Read _ count =>
    let data := take (Z.to_nat count) (s_input s) in
    ((if 0 <=? count then Z.of_nat (length data) else count, data),
     Script (s_fds s) (s_next s) (s_ok s) (drop (Z.to_nat count) (s_input s)) (s_state s) (s_clock s))
  | Write _ data => (Z.of_nat (length data), s)
  | Close fd =>
    (0, if 0 <=? fd then Script (s_fds s ∖ {[Z.to_nat fd]}) (s_next s) (s_ok s) (s_input s) (s_state s) (s_clock s) else s)
  | Tcp_info _ | Ioctl_ifindex _ _ => (s_state s, s)
  | Bind_ll _ _ _ | Alarm _ => (0, s)
  | Sendto _ frame _ => (Z.of_nat (length frame), s)
  | Gettimeofday => ((s_clock s, 0), s)
  | Sleep n => (tt, Script (s_fds s) (s_next s) (s_ok s) (s_input s) (s_state s) (s_clock s + n))
  | Signal _ | Printf _ _ | Perror _ => (tt, s)
  end.

Definition scripted : kernel answer := Kernel script scripted_call.

Definition script_open (s : script) : gset Z := set_map Z.of_nat (s_fds s).

Lemma script_open_close X (fd : Z) : 0 <= fd ->
  set_map (D := gset Z) Z.of_nat (X ∖ {[Z.to_nat fd]} : gset nat) = set_map Z.of_nat X ∖ {[fd]}.
Proof.
  intros Hfd. apply set_eq. intros x. rewrite elem_of_difference, !elem_of_map. setoid_rewrite elem_of_difference.
  setoid_rewrite elem_of_singleton. split.
  - intros (n & -> & Hn & Hne). split; [by eauto|]. lia.
  - intros ((n & -> & Hn) & Hne). exists n. repeat split; [done|lia].
Qed.

Lemma script_fd_fresh s : fst (script_fd s) ∉ script_open s.
Proof.
  unfold script_fd, script_open. rewrite elem_of_map. intros (n & Hn & Hin).
  case_match eqn:H; cbn in Hn; [|lia]. apply andb_prop in H as [_ H].
  apply bool_decide_eq_true in H. apply Nat2Z.inj in Hn. by subst.
Qed.

Lemma script_fd_open s : script_open (snd (script_fd s)) = opened (fst (script_fd s)) ∪ script_open s.
Proof.
  unfold script_fd, script_open, opened. case_match; cbn; [|apply set_eq; set_solver].
  destruct (Z.ltb_spec (Z.of_nat (s_next s)) 0); [lia|]. by rewrite set_map_union_L, set_map_singleton_L.
Qed.

#[export] Program Instance scripted_kernel : SocketKernel scripted := {| kopen := script_open |}.
Next Obligation.
  intros s c. destruct c; cbn; try done; try apply script_fd_fresh.
  destruct (Z.leb_spec 0 count); cbn; rewrite length_take; split; lia.
Qed.
Next Obligation.
  intros s c. destruct c; cbn; try done; try apply script_fd_open.
  destruct (Z.leb_spec 0 fd); [by apply script_open_close|]. unfold script_open. apply set_eq. intros x.
  rewrite elem_of_difference, elem_of_map, elem_of_singleton. split; [|naive_solver]. intros (n & -> & ?). naive_solver lia.
Qed.
