(* ===== verification/Sockets.v ===== *)
(** * Socket programs ([demos/socket/mini-socket.c], [demos/tcpip/tcp_handshake.c])

    The one-shot server and the two sides of the handshake demonstration as
    programs over [Syscall].  The theorems hold for every kernel that has the
    laws of [SocketKernel]: descriptors are closed on every path that returns,
    and what reaches the buffers stays inside them, or exactly when it does not. *)
From Stdlib Require Import ZArith Lia String Ascii.
From stdpp Require Import base numbers list option gmap.
From S2P Require Import Prelude Arp Syscall.

Open Scope Z_scope.

Definition AF_INET : Z := 2.
Definition SOCK_STREAM : Z := 1.
Definition SOL_SOCKET : Z := 1.
Definition SO_REUSEADDR : Z := 2.
Definition INADDR_ANY : Z := 0.
(** [inet_addr("127.0.0.1")], in network order on a little-endian machine. *)
Definition LOOPBACK : Z := 16777343.

Definition printf (fmt : string) (args : list arg) : sockprog unit := call (Printf fmt args).

(** A newline and the pair that ends a line of HTTP, which string literals
    write as escapes. *)
Definition nl : string := String (Ascii.ascii_of_nat 10) EmptyString.
Definition crlf : string := String (Ascii.ascii_of_nat 13) nl.
Definition quote : string := String (Ascii.ascii_of_nat 34) EmptyString.

(** ** [mini-socket.c] *)

(** [main]: [junk] is what the stack held where [buf] lies.  Text that only
    narrates is kept as the format string, without its newline. *)
Definition mini_socket_main (junk : nat -> Z) : sockprog Z :=
  listen_fd ← call (Socket AF_INET SOCK_STREAM 0);
  if listen_fd <? 0 then call (Perror "socket");; Exit 1
  else
    printf "socket fd = %d" [AInt listen_fd];;
    r ← call (Bind listen_fd (SockaddrIn AF_INET (htons 9999) INADDR_ANY));
    if r <? 0 then call (Perror "bind");; Exit 1
    else
      printf "bind to 0.0.0.0:9999" [];;
      r ← call (Listen listen_fd 5);
      if r <? 0 then call (Perror "listen");; Exit 1
      else
        printf "listening..." [];;
        a ← call (Accept listen_fd);
        let '(conn_fd, (ip, port)) := a in
        if conn_fd <? 0 then call (Perror "accept");; Exit 1
        else
          printf "connection from %s:%d, conn_fd=%d" [AAddr ip; AInt (htons port); AInt conn_fd];;
          let buf := stack_buf junk 1024 in
          a ← call (Read conn_fd 1024);
          let '(n, data) := a in
          (if 0 <? n then
             str ← lift (terminated buf data n);
             printf "received: %s" [ABytes str];;
             call (Write conn_fd (bytes ("HTTP/1.0 200 OK" ++ crlf ++ crlf)));;
             Ret ()
           else Ret ());;
          call (Close conn_fd);;
          call (Close listen_fd);;
          Ret 0.

(** ** [tcp_handshake.c] *)

Definition SERVER_PORT : Z := 9998.
Definition MSG : string := "Hello from client!" ++ nl.
Definition SERVER_MSG : string := "Hello from server!" ++ nl.

Definition get_timestamp_ms : sockprog Z :=
  tv ← call Gettimeofday;
  Ret (fst tv * 1000 + Z.quot (snd tv) 1000).

(** [printf] of a line that starts with the time. *)
Definition printf_ms (fmt : string) (args : list arg) : sockprog unit :=
  ms ← get_timestamp_ms; printf fmt (AInt ms :: args).

(** The table of [print_tcp_state]. *)
Definition handshake_state_name (tcpi_state : Z) : string :=
  match tcpi_state with
  | 0 => "ESTABLISHED" | 1 => "SYN_SENT" | 2 => "SYN_RECEIVED" | 3 => "FIN_WAIT_1"
  | 4 => "FIN_WAIT_2" | 5 => "TIME_WAIT" | 6 => "CLOSED" | 7 => "CLOSE_WAIT"
  | 8 => "LAST_ACK" | 9 => "LISTEN" | 10 => "CLOSING" | 11 => "NEW_SYN_RECV"
  | _ => "UNKNOWN"
  end.

(** [stale] is what the uninitialised [info.tcpi_state] holds when
    [getsockopt] fails, which is not checked. *)
Definition handshake_print_tcp_state (stale : Z) (fd : Z) : sockprog unit :=
  info ← call (Tcp_info fd);
  let tcpi_state := default stale info in
  printf "  [状态] TCP_STATE = %s" [AStr (handshake_state_name tcpi_state)].

(** What the stack held under the buffer, the address and the state. *)
Record stack := Stack { st_buf : nat -> Z; st_addr : Z * Z; st_info : Z }.

Definition run_server (st : stack) : sockprog unit :=
  printf "=== TCP 三次握手 - 服务端 ===" [];;
  printf_ms "[%ldms] 创建 socket" [];;
  listen_fd ← call (Socket AF_INET SOCK_STREAM 0);
  if listen_fd <? 0 then call (Perror "socket");; Exit 1
  else
    call (Setsockopt listen_fd SOL_SOCKET SO_REUSEADDR 1);;
    let addr := SockaddrIn AF_INET (htons SERVER_PORT) LOOPBACK in
    printf_ms "[%ldms] bind(port=%d)" [AInt SERVER_PORT];;
    call (Bind listen_fd addr);;
    printf_ms "[%ldms] listen(backlog=5)" [];;
    call (Listen listen_fd 5);;
    printf_ms "[%ldms] 服务端已启动，等待客户端连接..." [];;
    printf "        （在另一终端运行: nc 127.0.0.1 %d）" [AInt SERVER_PORT];;
    a ← call (Accept listen_fd);
    let '(conn_fd, peer) := a in
    let '(ip, port) := if conn_fd <? 0 then st_addr st else peer in
    printf_ms "[%ldms] accept() 返回！客户端连接建立" [];;
    printf "  客户端: %s:%d" [AAddr ip; AInt (htons port)];;
    handshake_print_tcp_state (st_info st) conn_fd;;
    let buf := stack_buf (st_buf st) 256 in
    a ← call (Read conn_fd (256 - 1));
    let '(n, data) := a in
    (if 0 <? n then
       str ← lift (terminated buf data n);
       printf_ms "[%ldms] 收到客户端消息: %s" [ABytes str];;
       call (Write conn_fd (bytes SERVER_MSG));;
       Ret ()
     else Ret ());;
    call (Sleep 1);;
    printf_ms "[%ldms] 关闭连接" [];;
    call (Close conn_fd);;
    call (Close listen_fd);;
    printf "=== 服务端退出 ===" [].

Definition run_client (st : stack) : sockprog unit :=
  printf "=== TCP 三次握手 - 客户端 ===" [];;
  printf_ms "[%ldms] 创建 socket" [];;
  fd ← call (Socket AF_INET SOCK_STREAM 0);
  if fd <? 0 then call (Perror "socket");; Exit 1
  else
    let addr := SockaddrIn AF_INET (htons SERVER_PORT) LOOPBACK in
    printf_ms "[%ldms] connect(127.0.0.1:%d) -- 触发三次握手" [AInt SERVER_PORT];;
    printf "  ↓ SYN 被发送" [];;
    r ← call (Connect fd addr);
    if r <? 0 then call (Perror "connect");; Exit 1
    else
      printf_ms "[%ldms] connect() 返回！连接建立完成" [];;
      handshake_print_tcp_state (st_info st) fd;;
      printf_ms ("[%ldms] 发送数据: " ++ quote ++ "%s" ++ quote) [AStr MSG];;
      call (Write fd (bytes MSG));;
      let buf := stack_buf (st_buf st) 256 in
      a ← call (Read fd (256 - 1));
      let '(n, data) := a in
      (if 0 <? n then
         str ← lift (terminated buf data n);
         printf_ms "[%ldms] 收到服务端消息: %s" [ABytes str];;
         Ret ()
       else Ret ());;
      call (Sleep 1);;
      printf_ms "[%ldms] 关闭连接" [];;
      call (Close fd);;
      printf "=== 客户端退出 ===" [].

(** [main]; [argv] starts with the program's name. *)
Definition handshake_main (st : stack) (argv : list string) : sockprog Z :=
  match argv with
  | _ :: arg1 :: _ =>
    if (arg1 =? "server")%string then run_server st;; Ret 0
    else if (arg1 =? "client")%string then run_client st;; Ret 0
    else printf "未知参数: %s" [AStr arg1];; Ret 1
  | _ =>
    let name := match argv with argv0 :: _ => argv0 | [] => EmptyString end in
    printf "用法: %s [server|client]" [AStr name];;
    printf "TCP 三次握手演示：" [];;
    printf "  终端1: %s server" [AStr name];;
    printf "  终端2: %s client" [AStr name];;
    printf "  终端3: watch -n 0.1 'ss -tn | grep 9998'" [];;
    Ret 1
  end.

(** ** Executing a program symbolically *)

(** Consume the next call: name its answer and the state after it, and keep
    what the laws say about them, in terms of the descriptors open at the start. *)
Ltac sys_call :=
  match goal with
  | |- ends ?K (Call ?c _) ?s _ =>
    let a := fresh "a" in let s' := fresh "s" in let Hc := fresh "Hc" in
    apply ends_call; intros a s' Hc;
    let Ha := fresh "Ha" in let Hf := fresh "Hf" in
    pose proof (kcall_answer s c) as Ha; pose proof (kcall_fds s c) as Hf;
    rewrite Hc in Ha, Hf; clear Hc; cbn [answer] in a;
    try match type of a with prod _ _ => destruct a as [? ?] end;
    cbn [fst snd answer_ok fds_after] in Ha, Hf;
    try match goal with H : kopen s = _ |- _ => rewrite H in Hf; try rewrite H in Ha; clear H end;
    match type of Ha with True => clear Ha | _ => idtac end
  end.

(** The head of a program in normal form. *)
Ltac sys_unfold :=
  cbv beta delta [mbind prog_bind call printf printf_ms get_timestamp_ms handshake_print_tcp_state].
Ltac sys_cbn :=
  sys_unfold;
  cbn [bind_prog lift fst snd].

(** A read that left room for the terminator. *)
Ltac sys_terminated :=
  match goal with
  | H : ?n <= _ /\ (_ -> Z.of_nat (length ?d) = ?n), Hn : (0 <? ?n) = true |- context [terminated ?b ?d ?n] =>
    let H1 := fresh in let H2 := fresh in
    destruct H as [H1 H2]; apply Z.ltb_lt in Hn; specialize (H2 Hn);
    rewrite (terminated_small b d n) by (rewrite ?length_stack_buf; lia)
  end.

Ltac sys_run :=
  repeat (sys_cbn;
    match goal with
    | |- ends _ (Call _ _) _ _ => sys_call
    | |- ends _ (match ?a with (_, _) => _ end) _ _ => destruct a as [? ?]
    | |- ends _ (bind_prog _ (match ?a with (_, _) => _ end)) _ _ => destruct a as [? ?]
    | |- ends _ (match ?a with Some _ => _ | None => _ end) _ _ => destruct a as [?|]
    | |- ends _ (bind_prog _ (match ?a with Some _ => _ | None => _ end)) _ _ => destruct a as [?|]
    | |- ends _ (if ?b then _ else _) _ _ => destruct b eqn:?
    | |- ends _ (bind_prog _ (if ?b then _ else _)) _ _ => destruct b eqn:?
    | |- ends _ (bind_prog _ (bind_prog _ _)) _ _ => sys_terminated
    end).

(** At the end of a program: the descriptors are those of the start again, and
    the trace is known. *)
Ltac sys_end :=
  cbn; unfold texts, shown; cbn;
  repeat match goal with H : 0 < ?n |- _ => rewrite (proj2 (Z.ltb_lt 0 n) H) | H : (0 <? ?n) = _ |- _ => rewrite H end;
  try match goal with H : kopen ?s = _ |- context [kopen ?s] => rewrite H end;
  rewrite ?close_opened by assumption; rewrite ?opened_failed by assumption; cbn.

Ltac sys_done := sys_end; split_and?; try done; repeat eexists; sys_end; done.

Section sockets.
Context (K : kernel answer) `{!SocketKernel K}.

Lemma run_server_ends st s : ends K (run_server st) s (fun o t s' =>
  match o with
  | Returned _ =>
    kopen s' = kopen s /\ texts t = shown (reads t) /\
    exists lfd fd n d, reads t = [(n, d)] /\ closes t = [fd; lfd] /\
      writes t = if 0 <? n then [(fd, bytes SERVER_MSG)] else []
  | Exited code => code = 1 /\ closes t = []
  | Faulted _ => False
  end).
Proof. unfold run_server. sys_run; try done; apply ends_ret; sys_done. Qed.

Lemma run_client_ends st s : ends K (run_client st) s (fun o t s' =>
  match o with
  | Returned _ =>
    kopen s' = kopen s /\ texts t = shown (reads t) /\
    exists fd n d, reads t = [(n, d)] /\ closes t = [fd] /\ writes t = [(fd, bytes MSG)]
  | Exited code => code = 1 /\ closes t = []
  | Faulted _ => False
  end).
Proof. unfold run_client. sys_run; try done; apply ends_ret; sys_done. Qed.

Lemma mini_socket_ends junk s : ends K (mini_socket_main junk) s (fun o t s' =>
  match o with
  | Returned code =>
    code = 0 /\ kopen s' = kopen s /\ texts t = shown (reads t) /\
    exists fd n d, reads t = [(n, d)] /\ n < 1024 /\
      writes t = if 0 <? n then [(fd, bytes ("HTTP/1.0 200 OK" ++ crlf ++ crlf))] else []
  | Exited code => code = 1 /\ reads t = []
  | Faulted f => f = OutOfBounds /\ exists d, reads t = [(1024, d)]
  end).
Proof.
  unfold mini_socket_main. sys_run; try done.
  - destruct Ha1 as [Hle Hlen]. bool_hyps. specialize (Hlen Heqb3).
    destruct (decide (z2 = 1024)) as [->|Hne].
    + rewrite terminated_full by (rewrite ?length_stack_buf; lia). sys_run. apply ends_fault. sys_done.
    + rewrite terminated_small by (rewrite ?length_stack_buf; lia). sys_run. apply ends_ret. sys_end.
      split_and!; try done. eexists _, _, _. split_and!; [done|lia|]. by sys_end.
  - bool_hyps. apply ends_ret. sys_end. split_and!; try done; [by destruct (Z.ltb_spec 0 z2); [lia|]|].
    eexists z, _, _. split_and!; [done|lia|]. by destruct (Z.ltb_spec 0 z2); [lia|].
Qed.

(** C18: The handshake demonstration is memory-safe against every kernel that has
    the laws: with any arguments, stack contents and answers, neither side
    leaves a buffer; when it returns, every descriptor it opened is closed
    again and what it printed of the peer is exactly the message received up
    to its first zero, independent of the stack; otherwise it has exited with
    status 1 after a failed [socket] or [connect]. *)
Theorem handshake_main_safe st argv s : ends K (handshake_main st argv) s (fun o t s' =>
  match o with
  | Returned code =>
    kopen s' = kopen s /\ texts t = shown (reads t) /\
    (code = 0 <-> argv !! 1%nat = Some "server"%string \/ argv !! 1%nat = Some "client"%string)
  | Exited code => code = 1 /\ closes t = []
  | Faulted _ => False
  end).
Proof.
  unfold handshake_main. destruct argv as [|name [|arg1 argv]]; cbn [lookup list_lookup].
  1,2: sys_run; apply ends_ret; sys_end; naive_solver.
  destruct (String.eqb_spec arg1 "server") as [->|Hs]; [|destruct (String.eqb_spec arg1 "client") as [->|Hc]].
  - apply ends_bind. eapply ends_mono; [apply run_server_ends|]. intros [[]|code|f] t s'; [|naive_solver..].
    intros (Hk & Ht & _). apply ends_ret. rewrite app_nil_r. naive_solver.
  - apply ends_bind. eapply ends_mono; [apply run_client_ends|]. intros [[]|code|f] t s'; [|naive_solver..].
    intros (Hk & Ht & _). apply ends_ret. rewrite app_nil_r. naive_solver.
  - sys_run. apply ends_ret. sys_end. split_and!; [done..|]. split; [done|]. intros [[= ?]|[= ?]]; done.
Qed.

(** [main] of the one-shot server writes outside its buffer exactly when
    [read] fills it: it faults if and only if 1024 bytes were read.  In every
    other run it exits with status 1 before reading, or returns 0 with the
    descriptors it opened closed, the message shown up to its first zero and
    the fixed reply sent when the message is not empty. *)
Theorem mini_socket_overflow_iff junk s : ends K (mini_socket_main junk) s (fun o t s' =>
  (o = Faulted OutOfBounds <-> exists d, reads t = [(1024, d)]) /\
  match o with
  | Returned code =>
    code = 0 /\ kopen s' = kopen s /\ texts t = shown (reads t) /\
    exists fd n d, reads t = [(n, d)] /\
      writes t = if 0 <? n then [(fd, bytes ("HTTP/1.0 200 OK" ++ crlf ++ crlf))] else []
  | Exited code => code = 1 /\ reads t = []
  | Faulted f => f = OutOfBounds
  end).
Proof.
  eapply ends_mono; [apply mini_socket_ends|]. intros [code|code|f] t s'.
  - intros (-> & Hk & Ht & fd & n & d & Hr & Hn & Hw). split.
    + split; [done|]. intros (d' & Hd). rewrite Hd in Hr. injection Hr. lia.
    + split_and!; [done..|]. by exists fd, n, d.
  - intros [-> Hr]. split; [|done]. split; [done|]. intros (d & Hd). by rewrite Hd in Hr.
  - intros [-> Hr]. done.
Qed.
End sockets.

(** ** Concrete executions *)

Definition demo_stack : stack := Stack (fun _ => 171) (0, 0) 7.

(** The kernel of the demonstrations: the calls succeed and [input] is read. *)
Definition demo_kernel (ok : bool) (input : list Z) : script := Script ∅ 3 ok input (Some 1) 0.

Lemma handshake_main_safe_witness :
  ends scripted (handshake_main demo_stack ["tcp_handshake"; "server"]%string) (demo_kernel true (bytes MSG))
    (fun o t s' => o = Returned 0 /\ texts t = [bytes MSG] /\ closes t = [4; 3]) /\
  match run scripted (handshake_main demo_stack ["tcp_handshake"; "server"]%string) (demo_kernel true (bytes MSG)) with
  | (Returned code, t, s') => kopen s' = kopen (demo_kernel true (bytes MSG))
  | _ => False
  end.
Proof.
  split; [by vm_compute|].
  pose proof (handshake_main_safe scripted demo_stack ["tcp_handshake"; "server"]%string (demo_kernel true (bytes MSG))) as H.
  unfold ends in H.
  destruct (run scripted (handshake_main demo_stack ["tcp_handshake"; "server"]%string) (demo_kernel true (bytes MSG)))
    as [[[code|code|f] t] s'] eqn:Hr; [apply H|..]; vm_compute in Hr; discriminate.
Defined.

Lemma mini_socket_overflow_iff_witness :
  fst (fst (run scripted (mini_socket_main (fun _ => 0)) (demo_kernel true (replicate 2000 65)))) = Faulted OutOfBounds /\
  fst (fst (run scripted (mini_socket_main (fun _ => 0)) (demo_kernel true (replicate 1023 65)))) = Returned 0.
Proof.
  split; [|by vm_compute].
  pose proof (mini_socket_overflow_iff scripted (fun _ => 0) (demo_kernel true (replicate 2000 65))) as H. unfold ends in H.
  destruct (run scripted (mini_socket_main (fun _ => 0)) (demo_kernel true (replicate 2000 65))) as [[o t] s'] eqn:Hr.
  apply (proj1 H). exists (replicate 1024 65). cbn [fst]. clear H. apply (f_equal (fun r => reads (snd (fst r)))) in Hr.
  cbn [fst snd] in Hr. rewrite <- Hr. by vm_compute.
Defined.
