(* ===== verification/Teardown.v ===== *)
(** * Closing a connection ([demos/tcpip/tcp_teardown.c])

    The two sides of the closing demonstration as programs over [Syscall].
    Neither checks a result of a call except the length it received. *)
From Stdlib Require Import ZArith Lia String Ascii.
From stdpp Require Import base numbers list option gmap.
From S2P Require Import Prelude Arp Syscall Sockets.

Open Scope Z_scope.

Definition CLOSE_PORT : Z := 9999.
Definition BUF_SIZE : Z := 1024.

(** States of closing, with the numbers of the enumeration. *)
Inductive tcp_close_state :=
  | STATE_CLOSED | STATE_FIN_WAIT_1 | STATE_FIN_WAIT_2 | STATE_CLOSING
  | STATE_TIME_WAIT | STATE_CLOSE_WAIT | STATE_LAST_ACK.

Definition state_name (s : tcp_close_state) : string :=
  match s with
  | STATE_CLOSED => "CLOSED"
  | STATE_FIN_WAIT_1 => "FIN_WAIT_1"
  | STATE_FIN_WAIT_2 => "FIN_WAIT_2"
  | STATE_CLOSING => "CLOSING"
  | STATE_TIME_WAIT => "TIME_WAIT"
  | STATE_CLOSE_WAIT => "CLOSE_WAIT"
  | STATE_LAST_ACK => "LAST_ACK"
  end.

(** States as the kernel numbers them ([netinet/tcp.h]). *)
Definition TCP_ESTABLISHED : Z := 1.
Definition TCP_FIN_WAIT1 : Z := 4.
Definition TCP_FIN_WAIT2 : Z := 5.
Definition TCP_TIME_WAIT : Z := 6.
Definition TCP_CLOSE : Z := 7.
Definition TCP_CLOSE_WAIT : Z := 8.
Definition TCP_CLOSING : Z := 11.

Definition teardown_state_name (tcpi_state : Z) : string :=
  if tcpi_state =? TCP_ESTABLISHED then "ESTABLISHED"
  else if tcpi_state =? TCP_FIN_WAIT1 then "FIN_WAIT_1"
  else if tcpi_state =? TCP_FIN_WAIT2 then "FIN_WAIT_2"
  else if tcpi_state =? TCP_CLOSING then "CLOSING"
  else if tcpi_state =? TCP_TIME_WAIT then "TIME_WAIT"
  else if tcpi_state =? TCP_CLOSE then "CLOSE"
  else if tcpi_state =? TCP_CLOSE_WAIT then "CLOSE_WAIT"
  else "OTHER".

Definition teardown_print_tcp_state (fd : Z) : sockprog unit :=
  info ← call (Tcp_info fd);
  match info with
  | Some tcpi_state =>
    printf "  [TCP Info] state=%u (%s)" [AInt tcpi_state; AStr (teardown_state_name tcpi_state)]
  | None => Ret ()
  end.

(** The side that closes first. *)
Definition run_active_close : sockprog unit :=
  printf "======== 主动关闭方（客户端）演示 ========" [];;
  fd ← call (Socket AF_INET SOCK_STREAM 0);
  let srv := SockaddrIn AF_INET (htons CLOSE_PORT) LOOPBACK in
  printf "[1] 连接服务器..." [];;
  call (Connect fd srv);;
  teardown_print_tcp_state fd;;
  call (Write fd (bytes "Hello"));;
  printf "[2] 发送了数据: 'Hello'" [];;
  printf "[3] 调用 close(fd)，进入主动关闭流程..." [];;
  printf "    状态变化: ESTABLISHED -> FIN_WAIT_1" [];;
  call (Close fd);;
  printf "    主动关闭方状态机:" [];;
  printf "    ESTABLISHED -> FIN_WAIT_1 -> FIN_WAIT_2 -> TIME_WAIT -> CLOSED" [];;
  printf "    或: ESTABLISHED -> FIN_WAIT_1 -> CLOSING -> TIME_WAIT -> CLOSED" [].

(** The side that closes second; [junk] is what the stack held under [buf]. *)
Definition run_passive_close (junk : nat -> Z) : sockprog unit :=
  printf "======== 被动关闭方（服务器）演示 ========" [];;
  listen_fd ← call (Socket AF_INET SOCK_STREAM 0);
  call (Setsockopt listen_fd SOL_SOCKET SO_REUSEADDR 1);;
  let srv := SockaddrIn AF_INET (htons CLOSE_PORT) INADDR_ANY in
  call (Bind listen_fd srv);;
  call (Listen listen_fd 1);;
  printf "[1] 服务器监听端口 %d" [AInt CLOSE_PORT];;
  a ← call (Accept listen_fd);
  let '(conn_fd, _) := a in
  printf "[2] 收到客户端连接" [];;
  teardown_print_tcp_state conn_fd;;
  let buf := stack_buf junk 1024 in
  a ← call (Read conn_fd BUF_SIZE);
  let '(n, data) := a in
  (if 0 <? n then
     str ← lift (terminated buf data n);
     printf "[3] 收到客户端数据: '%s'" [ABytes str];;
     Ret ()
   else Ret ());;
  printf "[4] 服务器调用 close(conn_fd)，进入被动关闭流程" [];;
  printf "    状态变化: ESTABLISHED -> CLOSE_WAIT" [];;
  call (Close conn_fd);;
  printf "    继续 -> LAST_ACK -> CLOSED" [];;
  call (Close listen_fd);;
  Ret ().

(** The text of the diagram. *)
Definition flow_lines : list string :=
  ["";
   "======== TCP 四次挥手流程 ========";
   "";
   "  客户端（主动关闭）              服务器（被动关闭）";
   "       |                              |";
   "       | <------ TCP 数据流 --------> |";
   "       |         (ESTABLISHED)         |";
   "       |                              |";
   "       | ----- FIN + ACK, seq=F ----> |  应用调用 close()";
   "       |     (FIN_WAIT_1)             |  (CLOSE_WAIT)";
   "       |                              |";
   "       | <---- ACK, ack=F+1 --------- |  确认收到FIN";
   "       |     (FIN_WAIT_2)             |  (对端进入半关闭)";
   "       |                              |";
   "       |     ... 应用可继续发送 ...   |";
   "       | <---- FIN + ACK, seq=G ----- |  应用也调用 close()";
   "       |     (CLOSING)                |  (LAST_ACK)";
   "       |                              |";
   "       | ----- ACK, ack=G+1 --------> |  确认收到FIN";
   "       |     (TIME_WAIT)              |  (CLOSED)";
   "       |                              |";
   "       |   等待 2MSL（约60秒）        |";
   "       |                              |";
   "       v     (最终 CLOSED)            v";
   "";
   "关键点:";
   "  1. 主动关闭方发FIN -> 立即进入半关闭状态";
   "  2. 每一方都必须独立确认对方的FIN，形成4个segment";
   "  3. TIME_WAIT 状态等待 2MSL（Maximum Segment Lifetime）";
   "     防止旧连接的延迟segment被新连接接收";
   "  4. SO_REUSEADDR 选项可以绕过 TIME_WAIT 立即重启"]%string.

Fixpoint print_lines (ls : list string) : sockprog unit :=
  match ls with [] => Ret () | l :: ls' => printf l [];; print_lines ls' end.

Definition usage_lines : list string :=
  ["用法:"; "  ./tcp_teardown              - 显示流程图"; "  ./tcp_teardown active       - 演示主动关闭";
   "  ./tcp_teardown passive     - 演示被动关闭（需先运行active）"]%string.

Definition teardown_main (junk : nat -> Z) (argv : list string) : sockprog Z :=
  printf "TCP Four-Way Handshake (Teardown) 演示" [];;
  printf "======================================" [];;
  match argv with
  | _ :: arg1 :: _ =>
    if (arg1 =? "active")%string then run_active_close;; Ret 0
    else if (arg1 =? "passive")%string then run_passive_close junk;; Ret 0
    else print_lines flow_lines;; print_lines usage_lines;; Ret 0
  | _ => print_lines flow_lines;; print_lines usage_lines;; Ret 0
  end.

(** ** What the programs do *)

Ltac sys_unfold ::= cbv beta delta [mbind prog_bind call printf teardown_print_tcp_state].

(** The program returned. *)
Definition returned {A} (o : outcome A) : Prop := match o with Returned _ => True | _ => False end.

Section teardown.
Context (K : kernel answer) `{!SocketKernel K}.

Lemma run_active_close_ends s : ends K run_active_close s (fun o t s' =>
  returned o /\ kopen s' = kopen s /\ reads t = [] /\ texts t = [] /\
  exists fd, writes t = [(fd, bytes "Hello")] /\ closes t = [fd]).
Proof. unfold run_active_close. sys_run; apply ends_ret; sys_done. Qed.

Lemma run_passive_close_ends junk s : ends K (run_passive_close junk) s (fun o t s' =>
  exists n d, reads t = [(n, d)] /\
    ((n = BUF_SIZE /\ o = Faulted OutOfBounds) \/
     (n <> BUF_SIZE /\ returned o /\ kopen s' = kopen s /\ texts t = shown (reads t) /\
      exists fd lfd, closes t = [fd; lfd]))).
Proof.
  unfold run_passive_close. sys_run.
  all: match goal with |- context [existT (Read _ _) (?n, ?d)] => destruct (decide (n = BUF_SIZE)) as [->|Hne] end.
  all: try discriminate Heqb.
  all: try (destruct Ha1 as [Hle Hlen]; apply Z.ltb_lt in Heqb; specialize (Hlen Heqb);
    first [rewrite terminated_full by (rewrite ?length_stack_buf; unfold BUF_SIZE in *; lia)
          |rewrite terminated_small by (rewrite ?length_stack_buf; unfold BUF_SIZE in *; lia)]; sys_run).
  all: first [apply ends_fault | apply ends_ret]; eexists _, _; split; [done|].
  all: first [by left | right; split; [done|]; split; [done|]; sys_end; split_and!; [done..|]; by eexists _, _].
Qed.

Lemma ends_printf {A} fmt args (p : sockprog A) s Q :
  (forall a s', kopen s' = kopen s -> ends K p s' (fun o t s2 => Q o (existT (Printf fmt args) a :: t) s2)) ->
  ends K (printf fmt args;; p) s Q.
Proof. intros H. sys_unfold. cbn [bind_prog]. sys_call. by apply H. Qed.

Lemma print_lines_ends ls s : ends K (print_lines ls) s (fun o t s' =>
  returned o /\ kopen s' = kopen s /\ reads t = [] /\ texts t = []).
Proof.
  revert s. induction ls as [|l ls IH]; intros s; cbn [print_lines]; [by apply ends_ret|].
  apply ends_printf. intros a s1 Hf. eapply ends_mono; [apply IH|].
  intros o t s' (? & Hk & ? & ?). rewrite Hk. by split_and!.
Qed.

(** The contract of [main] for a run that started with [O] open. *)
Definition closed_well (O : gset Z) (o : outcome Z) (t : list (event answer)) (s' : kst K) : Prop :=
  (o = Faulted OutOfBounds <-> exists d, reads t = [(BUF_SIZE, d)]) /\
  (o = Faulted OutOfBounds \/ o = Returned 0 /\ kopen s' = O /\ texts t = shown (reads t)).

Lemma usage_ends s : ends K (print_lines flow_lines;; print_lines usage_lines;; Ret 0) s (closed_well (kopen s)).
Proof.
  apply ends_bind. eapply ends_mono; [apply print_lines_ends|]. intros [[]|?|?] t s' (Ho & Hk & Hr & Ht); [|done..].
  apply ends_bind. eapply ends_mono; [apply print_lines_ends|]. intros [[]|?|?] t2 s2 (Ho2 & Hk2 & Hr2 & Ht2); [|done..].
  apply ends_ret. rewrite app_nil_r. unfold closed_well, texts, printed, reads in *. rewrite !bind_app, Hr, Hr2, Ht, Ht2.
  rewrite Hk2, Hk. split; [|by right]. split; [done|]. by intros (d & [=]).
Qed.

(** C17: The closing demonstration run with any arguments against any kernel that
    has the laws: it writes outside [buf] exactly when the passive side
    receives [BUF_SIZE] bytes, and in every other run it returns 0 with the
    descriptors it opened closed again, having shown what it received up to
    the first zero. *)
Theorem teardown_main_overflow_iff junk argv s : ends K (teardown_main junk argv) s (closed_well (kopen s)).
Proof.
  unfold teardown_main. apply ends_printf. intros a s0 Hf. apply ends_printf. intros a1 s1 Hf1. rewrite <- Hf, <- Hf1.
  match goal with |- ends K ?p s1 _ => cut (ends K p s1 (closed_well (kopen s1))); [by intros H; eapply ends_mono|] end.
  destruct argv as [|name [|arg1 argv]]; [apply usage_ends..|].
  destruct (arg1 =? "active")%string; [|destruct (arg1 =? "passive")%string; [|apply usage_ends]]; apply ends_bind.
  - eapply ends_mono; [apply run_active_close_ends|]. intros [[]|?|?] t s' (Ho & Hk & Hr & Ht & _); [|done..].
    apply ends_ret. rewrite app_nil_r. unfold closed_well. rewrite Hr, Ht. split; [|by right].
    split; [done|]. by intros (d & [=]).
  - eapply ends_mono; [apply run_passive_close_ends|]. intros o t s' (n & d & Hr & [[-> ->]|(Hn & Ho & Hk & Ht & _)]).
    + unfold closed_well. naive_solver.
    + destruct o as [[]|?|?]; [|done..]. apply ends_ret. rewrite app_nil_r. unfold closed_well.
      split; [|by right]. split; [done|]. intros (d' & Hd). rewrite Hd in Hr. by injection Hr as [= <- _].
Qed.
End teardown.

(** A message of [BUF_SIZE] bytes overruns the buffer, a shorter one does not. *)
Lemma teardown_main_overflow_iff_witness :
  let passive := teardown_main (fun _ => 0) ["tcp_teardown"; "passive"]%string in
  fst (fst (run scripted passive (demo_kernel true (replicate 1024 65)))) = Faulted OutOfBounds /\
  fst (fst (run scripted passive (demo_kernel true (replicate 1023 65)))) = Returned 0.
Proof.
  cbv zeta. split; [|by vm_compute].
  pose proof (teardown_main_overflow_iff scripted (fun _ => 0) ["tcp_teardown"; "passive"]%string (demo_kernel true (replicate 1024 65))) as H.
  unfold ends in H.
  destruct (run scripted (teardown_main (fun _ => 0) ["tcp_teardown"; "passive"]%string) (demo_kernel true (replicate 1024 65)))
    as [[o t] s'] eqn:Hr.
  apply (proj1 H). exists (replicate 1024 65). cbn [fst]. clear H. apply (f_equal (fun r => reads (snd (fst r)))) in Hr.
  cbn [fst snd] in Hr. rewrite <- Hr. by vm_compute.
Defined.

(** [print_tcp_state] of the handshake demonstration names no state of the
    kernel correctly: where this file names a state, the other names another. *)
Lemma handshake_names_shifted n : 1 <= n <= 11 -> teardown_state_name n <> "OTHER"%string ->
  handshake_state_name n <> teardown_state_name n.
Proof.
  intros Hn. assert (n ∈ seqZ 1 11) as Hin by (apply elem_of_seqZ; lia). clear Hn.
  assert (Forall (fun n => teardown_state_name n <> "OTHER"%string -> handshake_state_name n <> teardown_state_name n) (seqZ 1 11))
    as H by by repeat constructor.
  by rewrite list.Forall_forall in H; apply H.
Qed.
