(* ===== verification/NeighMain.v ===== *)
(** * [main] of the address resolution program ([demos/neigh/neigh_arp.c])

    The program around [Arp]: arguments, the raw socket, the interface, the
    request, the receive loop and its alarm, as a program over [Syscall].  The
    parsers of the C library ([inet_pton], [sscanf]) are parameters. *)
From Stdlib Require Import ZArith Lia String Ascii.
From stdpp Require Import base numbers list option gmap.
From S2P Require Import Prelude Arp Syscall Sockets.

Open Scope Z_scope.

Definition AF_PACKET : Z := 17.
Definition SOCK_RAW : Z := 3.
Definition SIGALRM : Z := 14.
Definition IFNAMSIZ : nat := 16.

(** The line that reports the hardware address. *)
Definition resolved_fmt : string := "[成功] %s 的 MAC 地址是: %02x:%02x:%02x:%02x:%02x:%02x".

Section main.
(** Parsing an IPv4 address, and six hexadecimal bytes with colons. *)
Context (inet_pton : string -> option Z) (sscanf_mac : string -> option (list Z)).

(** The line that reports the failure. *)
Definition failed_fmt : string := "[失败] ARP 解析失败，邻居不可达或超时".

(** [strncpy] of the name into [ifr_name], which is then terminated. *)
Definition ifr_name (arg : string) : list Z := take (IFNAMSIZ - 1) (upto_nul (bytes arg)).

(** [send_arp_request] on a descriptor. *)
Definition send_request (sockfd ifindex : Z) (mac : list Z) (my_ip ip : Z) : sockprog Z :=
  r ← call (Sendto sockfd (request_frame mac my_ip ip) ifindex);
  let ret := snd (send_arp_request mac my_ip ip (fun _ => r)) in
  if ret <? 0 then call (Perror "sendto");; Ret ret
  else printf "[ARP] 已发送请求，等待响应..." [];; Ret ret.

(** From the socket on; [polls] is what the rounds of the receive loop get.
    [None] when the loop still waits at the end of [polls].  [resp_mac] is
    only read when the loop returned 0, which has then set it. *)
Definition resolve (target my_ip : Z) (mac : list Z) (target_str ifname : string) (polls : list poll) : sockprog (option Z) :=
  sockfd ← call (Socket AF_PACKET SOCK_RAW (htons ETH_P_ARP));
  if sockfd <? 0 then call (Perror "socket (需要 root 权限)");; Ret (Some 1)
  else
    i ← call (Ioctl_ifindex sockfd (ifr_name ifname));
    match i with
    | None => call (Perror "ioctl SIOCGIFINDEX");; call (Close sockfd);; Ret (Some 1)
    | Some ifindex =>
      r ← call (Bind_ll sockfd ifindex (htons ETH_P_ARP));
      if r <? 0 then call (Perror "bind");; call (Close sockfd);; Ret (Some 1)
      else
        call (Signal SIGALRM);;
        call (Alarm 5);;
        printf "[主线程] 发送 ARP 请求：谁有 %s ?" [AStr target_str];;
        r ← send_request sockfd ifindex mac my_ip target;
        if r <? 0 then call (Close sockfd);; Ret (Some 1)
        else
          w ← lift (recv_arp_response false sockfd target polls);
          match w with
          | None => Ret None
          | Some (ret, resp_mac) =>
            call (Alarm 0);;
            (if ret =? 0 then
               printf resolved_fmt (AStr target_str :: map AInt (default [] resp_mac));;
               printf "现在这个 MAC 已经被缓存到内核 neigh 表了，" [];;
               printf "可以用 'ip neigh show' 查看。" []
             else
               printf failed_fmt [];;
               printf "可能原因：" [];;
               printf "  - 目标 IP 不在同一网络" [];;
               printf "  - 防火墙拦截了 ARP" [];;
               printf "  - 目标机器不存在或离线" []);;
            call (Close sockfd);;
            Ret (Some ret)
          end
    end.

Definition neigh_main (argv : list string) (polls : list poll) : sockprog (option Z) :=
  match argv with
  | [name; target_str; sender_str; mac_str; ifname] =>
    match inet_pton target_str with
    | None => printf "目标 IP 格式错误: %s" [AStr target_str];; Ret (Some 1)
    | Some target =>
      match inet_pton sender_str with
      | None => printf "本机 IP 格式错误: %s" [AStr sender_str];; Ret (Some 1)
      | Some my_ip =>
        match sscanf_mac mac_str with
        | None => printf "本机 MAC 格式错误（应如 00:11:22:33:44:55）: %s" [AStr mac_str];; Ret (Some 1)
        | Some mac =>
          printf "=== Linux neigh 子系统演示：ARP 解析 ===" [];;
          printf "目标 IP  : %s" [AStr target_str];;
          printf "本机 IP  : %s" [AStr sender_str];;
          printf "本机 MAC : %02x:%02x:%02x:%02x:%02x:%02x" (map AInt mac);;
          printf "网卡     : %s" [AStr ifname];;
          resolve target my_ip mac target_str ifname polls
        end
      end
    end
  | _ =>
    let name := AStr (default EmptyString (head argv)) in
    printf "用法: %s <目标IP> <本机IP> <本机MAC> <网卡名>" [name];;
    printf "例:   %s 192.168.1.1 192.168.1.100 00:11:22:33:44:55 eth0" [name];;
    printf "注意：需要 root 权限运行（原始套接字）" [];;
    Ret (Some 1)
  end.

(** ** The receive loop never leaves its buffer *)

Lemma field16_total buf off : 0 <= off -> off + 1 < Z.of_nat (length buf) -> exists x, field16 buf off = Ok x.
Proof.
  intros H0 H1. unfold field16. destruct (arr_get_total buf off) as (x & -> & _); [lia|].
  destruct (arr_get_total buf (off + 1)) as (y & -> & _); [lia|]. by eexists.
Qed.

Lemma field32_total buf off : 0 <= off -> off + 3 < Z.of_nat (length buf) -> exists x, field32 buf off = Ok x.
Proof.
  intros H0 H1. unfold field32. destruct (arr_get_total buf off) as (x & -> & _); [lia|].
  destruct (arr_get_total buf (off + 1)) as (y & -> & _); [lia|].
  destruct (arr_get_total buf (off + 2)) as (z & -> & _); [lia|].
  destruct (arr_get_total buf (off + 3)) as (w & -> & _); [lia|]. by eexists.
Qed.

Lemma recv_round_total ip p : exists r, recv_round ip p = Ok r.
Proof.
  destruct p as [e| | |frame]; [by eexists..|]. unfold recv_round.
  destruct (Z.ltb_spec (Z.of_nat (length (take 1024 frame))) (14 + 28)); [by eexists|].
  destruct (field16_total (take 1024 frame) 12) as (x & ->); [lia..|]. cbn [mbind exec_bind]. case_match; [by eexists|].
  destruct (field16_total (take 1024 frame) (14 + 6)) as (y & ->); [lia..|]. cbn [mbind exec_bind]. case_match; [by eexists|].
  destruct (field32_total (take 1024 frame) (14 + 14)) as (z & ->); [lia..|]. cbn [mbind exec_bind]. case_match; by eexists.
Qed.

(** With a descriptor that fits a set, the loop waits, fails without an address,
    or succeeds with one. *)
Lemma recv_arp_cases fd ip ps : FD_SET fd = Ok () ->
  exists w, recv_arp_response false fd ip ps = Ok w /\
  match w with None => True | Some (ret, None) => ret = -1 | Some (ret, Some _) => ret = 0 end.
Proof.
  intros Hfd. induction ps as [|p ps IH]; cbn [recv_arp_response]; rewrite Hfd; cbn [mbind exec_bind]; [by eexists|].
  destruct (recv_round_total ip p) as ([| |m] & ->); cbn [mbind exec_bind]; [done|by eexists..].
Qed.

Lemma recv_arp_fault fd ip ps : FD_SET fd = Crash OutOfBounds ->
  recv_arp_response false fd ip ps = Crash OutOfBounds.
Proof. intros Hfd. by destruct ps; cbn [recv_arp_response]; rewrite Hfd. Qed.

Ltac sys_unfold ::= cbv beta delta [mbind prog_bind call printf send_request].

(** Membership in a list that is written out. *)
Ltac listed := repeat (apply elem_of_cons; first [by left | right]).

#[local] Arguments request_frame : simpl never.
#[local] Arguments recv_arp_response : simpl never.

Lemma send_fails mac my_ip ip r : (snd (send_arp_request mac my_ip ip (fun _ => r)) <? 0) = (r <? 0).
Proof. unfold send_arp_request. cbn. by destruct (r <? 0). Qed.

(** At the end of a run: the tests it took decide [forallb succeeded]. *)
Ltac neigh_end :=
  first [apply ends_ret | apply ends_fault]; sys_end; rewrite ?send_fails in *;
  repeat match goal with H : (?n <? 0) = _ |- context [?n <? 0] => rewrite H end; cbn.

Lemma FD_SET_open fd : (fd <? 0) = false ->
  FD_SET fd = Ok () /\ fd < FD_SETSIZE \/ FD_SET fd = Crash OutOfBounds /\ FD_SETSIZE <= fd.
Proof.
  intros H%Z.ltb_ge. destruct (Z.lt_ge_cases fd FD_SETSIZE).
  - left. split; [by apply FD_SET_ok|done].
  - right. split; [apply FD_SET_out; lia|done].
Qed.

Section safety.
Context (K : kernel answer) `{!SocketKernel K}.

(** The arguments, when there are four and each is understood. *)
Definition parsed (argv : list string) : option (string * Z * Z * list Z) :=
  match argv with
  | [_; target_str; sender_str; mac_str; _] =>
    match inet_pton target_str, inet_pton sender_str, sscanf_mac mac_str with
    | Some target, Some my_ip, Some mac => Some (target_str, target, my_ip, mac)
    | _, _, _ => None
    end
  | _ => None
  end.

(** The calls whose failure ends [main], and that none of them failed. *)
Definition succeeded (e : event answer) : bool :=
  match e with
  | existT (Socket _ _ _) fd => negb (fd <? 0)
  | existT (Ioctl_ifindex _ _) r => bool_decide (is_Some r)
  | existT (Bind_ll _ _ _) r => negb (r <? 0)
  | existT (Sendto _ _ _) r => negb (r <? 0)
  | _ => true
  end.

(** How [main] ends, decided by the arguments, the answers of the kernel and the
    input of the loop. *)
Definition resolved_run (argv : list string) (polls : list poll) (O : gset Z)
    (o : outcome (option Z)) (t : list (event answer)) (s' : kst K) : Prop :=
  match parsed argv with
  | None => o = Returned (Some 1) /\ kopen s' = O /\ frames t = [] /\ alarms t = []
  | Some (target_str, target, my_ip, mac) =>
    if forallb succeeded t then
      frames t = [request_frame mac my_ip target] /\
      exists fd, existT (Socket AF_PACKET SOCK_RAW (htons ETH_P_ARP)) fd ∈ t /\ 0 <= fd /\
      match recv_arp_response false fd target polls with
      | Crash f => f = OutOfBounds /\ FD_SETSIZE <= fd /\ o = Faulted f
      | Ok None => fd < FD_SETSIZE /\ o = Returned None /\ kopen s' = opened fd ∪ O /\ alarms t = [5] /\ closes t = []
      | Ok (Some (ret, found)) =>
        fd < FD_SETSIZE /\ o = Returned (Some ret) /\ kopen s' = O /\ alarms t = [5; 0] /\ closes t = [fd] /\
        match found with
        | Some m => ret = 0 /\ (resolved_fmt, AStr target_str :: map AInt m) ∈ printed t
        | None => ret = -1 /\ (failed_fmt, []) ∈ printed t
        end
      end
    else o = Returned (Some 1) /\ kopen s' = O /\ (frames t = [] \/ frames t = [request_frame mac my_ip target])
  end.

(** C29: [main] with any arguments, input and kernel.  Bad arguments end it
    with status 1 before anything is opened or sent.  A failed [socket], [ioctl],
    [bind] or [sendto] ends it with status 1 and the socket closed.  Otherwise
    exactly the request frame for the arguments was broadcast, and the loop
    decides: with a descriptor of 1024 or more it writes outside its set; while
    it waits the socket is open and the alarm armed, which ends nothing; when
    it finds an answer [main] prints the address and returns 0, when [select]
    fails it prints the failure and returns -1, and both times the alarm is
    cancelled and the socket closed, once. *)
Theorem neigh_main_correct argv polls s :
  ends K (neigh_main argv polls) s (resolved_run argv polls (kopen s)).
Proof.
  unfold resolved_run. unfold neigh_main, parsed.
  destruct argv as [|name [|tstr [|sstr [|mstr [|ifname [|]]]]]].
  1-5,7: sys_run; apply ends_ret; sys_end; by split_and!.
  destruct (inet_pton tstr) as [target|] eqn:Ht; [|sys_run; apply ends_ret; sys_end; by split_and!].
  destruct (inet_pton sstr) as [my_ip|] eqn:Hs; [|sys_run; apply ends_ret; sys_end; by split_and!].
  destruct (sscanf_mac mstr) as [mac|] eqn:Hm; [|sys_run; apply ends_ret; sys_end; by split_and!].
  unfold resolve. sys_run; try discriminate.
  4: match goal with |- context [recv_arp_response false ?fd target polls] => rename fd into sockfd end.
  4: assert (Hrecv : FD_SET sockfd = Ok () /\ sockfd < FD_SETSIZE \/ FD_SET sockfd = Crash OutOfBounds /\ FD_SETSIZE <= sockfd)
    by by apply FD_SET_open.
  4: destruct Hrecv as [[Hfd Hlt]|[Hfd Hge]]; [destruct (recv_arp_cases sockfd target polls Hfd) as ([[ret [m|]]|] & Hw & Hc)|
       pose proof (recv_arp_fault sockfd target polls Hfd) as Hw]; rewrite Hw; subst; sys_run.
  all: try neigh_end; try (split_and!; [done|done|by auto]); try discriminate.
  all: split; [done|]; exists sockfd; split; [by listed|]; split; [by apply Z.ltb_ge|]; rewrite Hw.
  all: split_and!; try done; by listed.
Qed.
End safety.
End main.

(** A run in which the neighbour answers: the address is found, and the socket
    closed. *)
Definition demo_pton (str : string) : option Z :=
  if (str =? "192.168.1.1")%string then Some 16885952 else if (str =? "192.168.1.100")%string then Some 1677830336 else None.
Definition demo_mac (str : string) : option (list Z) :=
  if (str =? "00:11:22:33:44:55")%string then Some [0; 17; 34; 51; 68; 85] else None.
Definition demo_argv : list string := ["neigh_arp"; "192.168.1.1"; "192.168.1.100"; "00:11:22:33:44:55"; "eth0"]%string.
Definition demo_polls : list poll :=
  [SelectTimeout; SelectError EINTR; Recv (reply_to (request_frame [0; 17; 34; 51; 68; 85] 1677830336 16885952) [2; 0; 0; 0; 0; 1])].

Lemma neigh_main_correct_witness :
  ends scripted (neigh_main demo_pton demo_mac demo_argv demo_polls) (demo_kernel true []) (fun o t s' =>
    o = Returned (Some 0) /\ alarms t = [5; 0] /\ kopen s' = kopen (demo_kernel true []) /\
    frames t = [request_frame [0; 17; 34; 51; 68; 85] 1677830336 16885952] /\
    exists m, (resolved_fmt, AStr "192.168.1.1" :: map AInt m) ∈ printed t).
Proof.
  pose proof (neigh_main_correct demo_pton demo_mac scripted demo_argv demo_polls (demo_kernel true [])) as H.
  unfold ends in *.
  destruct (run scripted (neigh_main demo_pton demo_mac demo_argv demo_polls) (demo_kernel true [])) as [[o t] s'] eqn:Hr.
  apply (f_equal fst) in Hr. cbn [fst] in Hr.
  assert (o = Returned (Some 0)) as -> by (apply (f_equal fst) in Hr; cbn [fst] in Hr; rewrite <- Hr; vm_compute; reflexivity).
  assert (forallb succeeded t = true) as Ht
    by (apply (f_equal snd) in Hr; cbn [snd] in Hr; rewrite <- Hr; vm_compute; reflexivity).
  unfold resolved_run in H. change (parsed demo_pton demo_mac demo_argv) with
    (Some ("192.168.1.1"%string, 16885952, 1677830336, [0; 17; 34; 51; 68; 85])) in H.
  cbv beta iota in H. rewrite Ht in H. destruct H as (Hf & fd & _ & _ & H).
  destruct (recv_arp_response _ _ _ _) as [[[ret [m|]]|]|]; [|by destruct H as (_ & [= <-] & _ & _ & _ & [=] & _)|..].
  - destruct H as (_ & _ & Hk & Ha & _ & _ & Hp). split_and!; try done. by exists m.
  - by destruct H as (_ & [=] & _).
  - by destruct H as (_ & _ & [=]).
Defined.
