(* ===== verification/LvmDemo.v ===== *)
(** * Linear allocation and the LVM demonstration ([demos/lvm/lvm.c], [main])

    As long as nothing is freed, every member volume is allocated from its
    start, and the group behaves like a bump allocator: [linear] is that
    abstract allocator, and the theorems show that the bitmap allocator refines
    it, so that a logical volume is the concatenation of what is free, in member
    order.  [lvm_main] is the demonstration, computed through the refinement. *)
From Stdlib Require Import ZArith Lia String Ascii.
From stdpp Require Import base numbers list option gmap.
From S2P Require Import Prelude Bitmap Lvm LvmVolume.

Open Scope Z_scope.

(** ** The abstract allocator *)

(** A member with its first [used] of [size] extents allocated. *)
Record extent_count := Ext { used : Z; size : Z }.

(** [n] extents from the first member that has them left; members count from [i]. *)
Fixpoint linear_alloc (n i : Z) (us : list extent_count) : option (Z * Z) * list extent_count :=
  match us with
  | [] => (None, [])
  | e :: us' =>
    if used e + n <=? size e then (Some (i, used e), Ext (used e + n) (size e) :: us')
    else let '(r, us2) := linear_alloc n (i + 1) us' in (r, e :: us2)
  end.

(** [k] single extents, one after the other. *)
Fixpoint linear_fill (k : nat) (us : list extent_count) : list (Z * Z) * list extent_count :=
  match k with
  | O => ([], us)
  | S k' =>
    match linear_alloc 1 0 us with
    | (None, _) => ([], us)
    | (Some e, us1) => let '(L, us2) := linear_fill k' us1 in (e :: L, us2)
    end
  end.

(** The free extents in allocation order. *)
Fixpoint free_seq (i : Z) (us : list extent_count) : list (Z * Z) :=
  match us with
  | [] => []
  | e :: us' => (pair i <$> seqZ (used e) (size e - used e)) ++ free_seq (i + 1) us'
  end.

(** ** Refinement: a member *)

(** A volume whose first [used e] extents are allocated. *)
Definition pv_linear (p : pv) (e : extent_count) : Prop :=
  pv_wf p /\ pe_count p = size e /\ 0 <= used e <= size e /\
  forall j, 0 <= j -> bit (pe_bitmap p) j = (j <? used e).

Lemma countb_above u n : 0 <= u <= Z.of_nat n -> countb (fun j => negb (j <? u)) n = Z.of_nat n - u.
Proof.
  induction n as [|n IH]; intros Hu; cbn [countb]; [lia|].
  destruct (decide (u = Z.of_nat (S n))) as [->|Hne].
  - rewrite (countb_ext _ (fun _ => false)).
    + replace (countb (fun _ => false) n) with 0 by (clear; induction n; cbn; lia). split_bool; cbn; lia.
    + intros i Hi. split_bool; cbn; (done || lia).
  - rewrite IH by lia. split_bool; cbn; lia.
Qed.

Lemma pv_linear_free p e : pv_linear p e -> pv_free_pe p = size e - used e.
Proof.
  intros ((Hn & _ & _ & ->) & Hc & Hu & Hb). unfold pv_clear.
  rewrite (countb_ext _ (fun j => negb (j <? used e))) by (intros; by rewrite Hb by lia).
  rewrite countb_above; lia.
Qed.

Lemma pv_linear_run p e s n : pv_linear p e -> 0 < n -> free_run p s n <-> used e <= s /\ s + n <= size e.
Proof.
  intros (_ & Hc & Hu & Hb) Hn. unfold free_run. rewrite Hc. split.
  - intros (Hs & Hend & Hrun). split; [|done]. specialize (Hrun s ltac:(lia)). rewrite Hb in Hrun by done. bool_hyps. lia.
  - intros [Hs Hend]. split_and!; [lia..|]. intros j Hj. rewrite Hb by lia. apply Z.ltb_ge. lia.
Qed.

Lemma pv_alloc_linear p e n : pv_linear p e -> 0 < n -> used e + n <= size e ->
  exists p', pv_alloc p n = Ok (p', Some (used e)) /\ pv_linear p' (Ext (used e + n) (size e)).
Proof.
  intros Hp Hn Hfit. pose proof Hp as (Hwf & Hc & Hu & Hb).
  destruct (pv_alloc_total p n Hwf Hn) as ((p' & [s|]) & Heq & Hpost); cbn in Hpost.
  - destruct Hpost as (Hrun & Hfirst & (Hc' & _ & _ & _ & Hbit) & Hwf' & _). exists p'.
    assert (s = used e) as ->.
    { apply (pv_linear_run p e) in Hrun; [|done..]. specialize (Hfirst (used e)).
      rewrite (pv_linear_run p e) in Hfirst by done. lia. }
    split; [done|]. split_and!; cbn; [done|congruence|lia|lia|].
    intros j Hj. rewrite Hbit, Hb by done. split_bool; cbn; (done || lia).
  - destruct Hpost as [_ Hno]. exfalso. apply (Hno (used e)). by apply (pv_linear_run p e).
Qed.

(** ** Refinement: a group *)

Definition members_linear (h : gmap nat pv) (pvs : list nat) (us : list extent_count) : Prop :=
  Forall2 (fun q e => exists p, h !! q = Some p /\ pv_linear p e) pvs us.

Definition vg_linear (h : gmap nat pv) (g : vg) (us : list extent_count) : Prop :=
  NoDup (vg_pvs g) /\ members_linear h (vg_pvs g) us.

Lemma members_linear_other h pvs us q p : q ∉ pvs -> members_linear h pvs us -> members_linear (<[q := p]> h) pvs us.
Proof.
  intros Hq H. unfold members_linear in *. induction H as [|q' e pvs us (p' & Hp' & Hl) H IH]; constructor.
  - exists p'. rewrite lookup_insert_ne by set_solver. done.
  - apply IH. set_solver.
Qed.

Lemma vg_alloc_loop_linear h pvs us i n : 0 < n -> NoDup pvs -> members_linear h pvs us ->
  exists h', vg_alloc_loop h pvs i n = Ok (h', fst (linear_alloc n i us)) /\
    members_linear h' pvs (snd (linear_alloc n i us)) /\ (forall q, q ∉ pvs -> h' !! q = h !! q).
Proof.
  intros Hn Hnd H. revert i Hnd. unfold members_linear in *.
  induction H as [|q e pvs us (p & Hp & Hl) H IH]; intros i Hnd; cbn [vg_alloc_loop linear_alloc].
  { exists h. by split_and!; [| constructor|]. }
  apply list.NoDup_cons in Hnd as [Hq Hnd]. rewrite Hp, (pv_linear_free p e Hl).
  destruct (Z.leb_spec (used e + n) (size e)) as [Hfit|Hno].
  - destruct (Z.leb_spec n (size e - used e)); [|lia]. destruct (pv_alloc_linear p e n Hl Hn Hfit) as (p' & -> & Hl').
    cbn [mbind exec_bind fst snd]. eexists. split; [done|]. split.
    + constructor; [exists p'; by rewrite lookup_insert_eq|]. by apply members_linear_other.
    + intros q' Hq'. rewrite lookup_insert_ne by set_solver. done.
  - destruct (Z.leb_spec n (size e - used e)); [lia|]. destruct (IH (i + 1) Hnd) as (h' & -> & Hm & Hsame).
    destruct (linear_alloc n (i + 1) us) as [r us2]. cbn [fst snd] in *. exists h'. split; [done|]. split.
    + constructor; [|done]. exists p. by rewrite Hsame.
    + intros q' Hq'. apply Hsame. set_solver.
Qed.

Lemma vg_alloc_linear h g us n : 0 < n -> vg_linear h g us ->
  exists h' g', vg_alloc_pe h g n = Ok (h', g', fst (linear_alloc n 0 us)) /\
    vg_linear h' g' (snd (linear_alloc n 0 us)) /\ vg_pvs g' = vg_pvs g /\ vg_total_pe g' = vg_total_pe g /\
    vg_free_pe g' = vg_free_pe g - match fst (linear_alloc n 0 us) with Some _ => n | None => 0 end.
Proof.
  intros Hn [Hnd H]. unfold vg_alloc_pe. destruct (vg_alloc_loop_linear h (vg_pvs g) us 0 n Hn Hnd H) as (h' & -> & Hm & _).
  cbn [mbind exec_bind]. destruct (fst (linear_alloc n 0 us)) as [r|]; eexists h', _; (split; [done|]);
    cbn; split_and!; try done; try lia; by split.
Qed.

(** ** Refinement: volumes *)

(** One step of the abstract allocator takes the head of the free extents. *)
Lemma linear_alloc_head i us : Forall (fun e => used e <= size e) us ->
  match free_seq i us with
  | [] => linear_alloc 1 i us = (None, us)
  | e :: rest => exists us', linear_alloc 1 i us = (Some e, us') /\ free_seq i us' = rest /\ Forall (fun e => used e <= size e) us'
  end.
Proof.
  intros H. revert i. induction H as [|[u c] us Hu H IH]; intros i; cbn [free_seq linear_alloc used size] in *; [done|].
  destruct (Z.leb_spec (u + 1) c) as [Hlt|Hge].
  - rewrite seqZ_cons by lia. cbn [fmap list_fmap app]. eexists. split; [done|]. split; [|constructor; [cbn; lia|done]].
    cbn [free_seq used size]. do 3 f_equal; lia.
  - rewrite seqZ_nil by lia. cbn [fmap list_fmap app]. specialize (IH (i + 1)).
    destruct (free_seq (i + 1) us) as [|e rest] eqn:Hf.
    + by rewrite IH.
    + destruct IH as (us' & -> & Hr & Hall). eexists. split; [done|]. cbn [free_seq used size].
      rewrite seqZ_nil by lia. cbn [fmap list_fmap app]. split; [done|]. by constructor.
Qed.

Lemma linear_fill_free k us : Forall (fun e => used e <= size e) us ->
  fst (linear_fill k us) = take k (free_seq 0 us) /\
  free_seq 0 (snd (linear_fill k us)) = drop k (free_seq 0 us).
Proof.
  revert us. induction k as [|k IH]; intros us H; cbn [linear_fill]; [by rewrite take_0, drop_0|].
  pose proof (linear_alloc_head 0 us H) as Ha. destruct (free_seq 0 us) as [|e rest] eqn:Hf.
  - rewrite Ha. cbn [fst snd]. by rewrite Hf.
  - destruct Ha as (us' & -> & <- & Hall). destruct (IH us' Hall) as [IH1 IH2].
    destruct (linear_fill k us') as [L us2]. cbn [fst snd take drop] in *. by rewrite IH1, IH2.
Qed.

(** A run that stays inside the first member with room. *)
Lemma linear_fill_inside k u c us : 0 <= u -> u + Z.of_nat k <= c ->
  linear_fill k (Ext u c :: us) = (pair 0 <$> seqZ u (Z.of_nat k), Ext (u + Z.of_nat k) c :: us).
Proof.
  revert u. induction k as [|k IH]; intros u Hu Hk; cbn [linear_fill]; [by rewrite Z.add_0_r|].
  cbn [linear_alloc used size]. destruct (Z.leb_spec (u + 1) c); [|lia]. rewrite IH by lia.
  rewrite (seqZ_cons u) by lia. cbn [fmap list_fmap]. replace (Z.pred (Z.of_nat (S k))) with (Z.of_nat k) by lia.
  replace (u + 1 + Z.of_nat k) with (u + Z.of_nat (S k)) by lia. by rewrite Z.add_1_r.
Qed.

Definition le_of (e : Z * Z) : option le_map := Some (Le e.1 e.2).

(** The allocation loop writes the extents the abstract allocator hands out. *)
Lemma le_fill_linear k idx h g us m :
  vg_linear h g us -> 0 <= idx -> idx + Z.of_nat k <= Z.of_nat (length m) ->
  let '(L, us') := linear_fill k us in
  exists h' g', le_fill k idx h g m =
      Ok (h', g', take (Z.to_nat idx) m ++ (le_of <$> L) ++ drop (Z.to_nat idx + length L) m, bool_decide (length L = k)) /\
    vg_linear h' g' us' /\ vg_pvs g' = vg_pvs g /\ vg_total_pe g' = vg_total_pe g /\
    vg_free_pe g' = vg_free_pe g - Z.of_nat (length L) /\ (length L <= k)%nat.
Proof.
  revert idx h g us m. induction k as [|k IH]; intros idx h g us m Hl Hi Hk; cbn [linear_fill le_fill].
  { exists h, g. cbn [length fmap list_fmap app]. rewrite Nat.add_0_r, take_drop. split_and!; try done; lia. }
  destruct (vg_alloc_linear h g us 1) as (h1 & g1 & -> & Hl1 & Hp1 & Hn1 & Hf1); [done|done|]. cbn [mbind exec_bind].
  destruct (linear_alloc 1 0 us) as [[e|] us1] eqn:Ha; cbn [fst snd] in *.
  - destruct e as [i s]. rewrite arr_set_ok by lia. cbn [mbind exec_bind].
    specialize (IH (idx + 1) h1 g1 us1 (<[Z.to_nat idx := Some (Le i s)]> m) Hl1).
    destruct (linear_fill k us1) as [L us2]. destruct IH as (h' & g' & -> & Hl' & Hp' & Hn' & Hf' & Hlen); [lia|rewrite length_insert; lia|].
    exists h', g'. split; [|split_and!; [done|congruence|congruence|cbn [length]; lia|cbn [length]; lia]].
    f_equal. f_equal; [|cbn [length]; apply bool_decide_ext; lia]. f_equal. cbn [fmap list_fmap app length].
    replace (Z.to_nat (idx + 1)) with (S (Z.to_nat idx)) by lia.
    rewrite (take_S_r _ _ (Some (Le i s))) by (apply list_lookup_insert_eq; lia).
    rewrite take_insert_ge, <- app_assoc by lia. cbn [app]. change (le_of (i, s)) with (Some (Le i s)).
    rewrite drop_insert_lt by lia. do 4 f_equal. lia.
  - (* the group is full *)
    exists h1, g1. cbn [length fmap list_fmap app]. rewrite Nat.add_0_r, take_drop. split; [by rewrite bool_decide_eq_false_2|].
    split_and!; [|done|done|lia|lia]. pose proof Hl as [_ Hm].
    assert (Forall (fun e => used e <= size e) us) as Hw.
    { clear -Hm. induction Hm as [|q e ? ? (p & _ & (_ & _ & ? & _)) _ IH]; constructor; [lia|done]. }
    pose proof (linear_alloc_head 0 us Hw) as Hh. rewrite Ha in Hh.
    destruct (free_seq 0 us); [by simplify_eq|]. by destruct Hh as (? & ? & _).
Qed.

(** ** Operations on a linear group *)

(** The volume at [lp] is [l], and its map is [m]. *)
Definition mapped_to (w : world) (lp : nat) (l : lv) (m : list (option le_map)) : Prop :=
  w_lvs w !! lp = Some l /\ (le_map_ptr l < brk w)%nat /\ w_maps w !! le_map_ptr l = Some m.

(** The map [lv_create] leaves: the extents handed out, then zeroed entries. *)
Definition created_map (n : nat) (L : list (Z * Z)) : list (option le_map) :=
  (le_of <$> L) ++ replicate (n - length L) (Some (Le 0 0)).

Lemma lv_create_linear_ext w g us name count : vg_linear (w_pvs w) g us -> 0 <= count ->
  let '(L, us') := linear_fill (Z.to_nat count) us in
  exists w' g' l, lv_create w g name count = Ok (w', g', S (brk w)) /\ le_count l = count /\ le_map_ptr l = brk w /\
    mapped_to w' (S (brk w)) l (created_map (Z.to_nat count) L) /\
    (forall lp l m, lp <> S (brk w) -> mapped_to w lp l m -> mapped_to w' lp l m) /\ brk w' = S (S (brk w)) /\
    vg_linear (w_pvs w') g' us' /\ vg_pvs g' = vg_pvs g /\ vg_total_pe g' = vg_total_pe g /\ vg_free_pe g' = vg_free_pe g - Z.of_nat (length L).
Proof.
  intros Hl Hc. pose proof (le_fill_linear (Z.to_nat count) 0 (w_pvs w) g us (replicate (Z.to_nat count) (Some (Le 0 0))) Hl) as H.
  destruct (linear_fill (Z.to_nat count) us) as [L us']. destruct H as (h & g' & Hf & Hl' & Hp & Htot & Hfr & Hlen);
    [lia|rewrite length_replicate; lia|]. cbn [Z.to_nat Nat.add take app] in Hf. rewrite drop_replicate in Hf.
  unfold lv_create. rewrite Hf. cbn [mbind exec_bind].
  eexists _, g', (Lv (str31 name) (str31 (vg_name g)) count (brk w) 0 None None 0 0). split; [done|]. split; [done|]. split; [done|].
  split; [|split]; [| |by split_and!].
  - cbn. split_and!; [apply lookup_insert_eq|cbn; lia|apply lookup_insert_eq].
  - intros lp l m Hne (Hlv & Hb & Hm). unfold mapped_to. cbn. rewrite lookup_insert_ne by done.
    rewrite lookup_insert_ne by lia. split_and!; [done|lia|done].
Qed.

Lemma lv_extend_linear_ext w moves lp l g us add m : vg_linear (w_pvs w) g us -> 0 <= le_count l -> 0 <= add -> le_count l + add < 2 ^ 31 ->
  mapped_to w lp l m -> Z.of_nat (length m) = le_count l ->
  let '(L, us') := linear_fill (Z.to_nat add) us in
  Z.of_nat (length L) = add ->
  exists w' g' l', lv_extend w moves lp g add = Ok (w', g', true) /\ le_count l' = le_count l + add /\
    le_map_ptr l' = (if moves then brk w else le_map_ptr l) /\ mapped_to w' lp l' (m ++ (le_of <$> L)) /\
    (forall lp2 l2 m2, lp2 <> lp -> le_map_ptr l2 <> le_map_ptr l -> mapped_to w lp2 l2 m2 -> mapped_to w' lp2 l2 m2) /\
    vg_linear (w_pvs w') g' us' /\ vg_pvs g' = vg_pvs g /\ vg_free_pe g' = vg_free_pe g - add /\ (brk w <= brk w')%nat.
Proof.
  intros Hl Hn Ha Hint (Hlv & Hb & Hm) Hlen. set (n := le_count l) in *.
  pose proof (le_fill_linear (Z.to_nat add) n (w_pvs w) g us (resize (Z.to_nat (n + add)) None m) Hl) as H.
  destruct (linear_fill (Z.to_nat add) us) as [L us']. intros HL. destruct H as (h & g' & Hf & Hl' & Hp & _ & Hfr & _);
    [lia|rewrite length_resize; lia|].
  rewrite bool_decide_eq_true_2 in Hf by lia.
  replace (take (Z.to_nat n) (resize (Z.to_nat (n + add)) None m)) with m in Hf.
  2: { rewrite resize_ge by lia. rewrite take_app_length' by lia. done. }
  rewrite drop_ge, app_nil_r in Hf by (rewrite length_resize; lia).
  unfold lv_extend, realloc_map. rewrite Hlv, Hm. fold n. rewrite int_add_ok by lia. cbn [mbind exec_bind]. destruct moves; cbn [mbind exec_bind w_maps w_pvs]; rewrite lookup_insert_eq, Hf;
    cbn [mbind exec_bind w_lvs];
    match goal with |- context [<[lp := ?x]> (w_lvs w)] => eexists _, g', x end; (split; [done|]); (split; [done|]); (split; [done|]);
    (split; [cbn; split_and!; [apply lookup_insert_eq|cbn; lia|apply lookup_insert_eq]|]);
    (split; [|cbn; split_and!; (done || lia)]); intros lp2 l2 m2 Hne Hd (Hlv2 & Hb2 & Hm2);
    unfold mapped_to; cbn; rewrite (lookup_insert_ne _ lp lp2), insert_insert_eq by done.
  - rewrite lookup_insert_ne, lookup_delete_ne by lia. split_and!; [done|lia|done].
  - rewrite lookup_insert_ne by done. split_and!; [done|lia|done].
Qed.

(** A fresh volume, and adding a volume to a group. *)
Lemma fresh_pv_linear name n : 0 <= n < 2 ^ 31 - 63 -> pv_linear (fresh_pv name (n * PE_SIZE_SECTORS)) (Ext 0 n).
Proof.
  intros Hn. assert (pe_count (fresh_pv name (n * PE_SIZE_SECTORS)) = n) as Hc by (cbn; by rewrite Z.div_mul).
  split_and!; [apply fresh_pv_wf; change PE_SIZE_SECTORS with 2048; lia|done|cbn; lia|cbn; lia|].
  intros j Hj. unfold fresh_pv. cbn [pe_bitmap used]. rewrite bit_zero. symmetry. apply Z.ltb_ge. lia.
Qed.

Lemma pv_create_extents name n : 0 <= n < 2 ^ 31 - 63 -> pv_create name (n * PE_SIZE_SECTORS) = Ok (fresh_pv name (n * PE_SIZE_SECTORS)).
Proof. intros Hn. apply pv_create_ok. change PE_SIZE_SECTORS with 2048. lia. Qed.

Lemma vg_add_linear h g us q p e : vg_linear h g us -> q ∉ vg_pvs g -> pv_linear p e -> pv_count g < MAX_PVS ->
  0 <= vg_free_pe g <= vg_total_pe g -> vg_total_pe g + size e < 2 ^ 31 ->
  exists g', vg_add_pv (<[q := p]> h) g q = Ok (g', true) /\ vg_linear (<[q := p]> h) g' (us ++ [e]) /\
    vg_pvs g' = vg_pvs g ++ [q] /\ vg_free_pe g' = vg_free_pe g + (size e - used e) /\ vg_total_pe g' = vg_total_pe g + size e.
Proof.
  intros [Hnd Hm] Hq Hp Hmax Hfree Htot. unfold vg_add_pv. destruct (Z.leb_spec MAX_PVS (pv_count g)); [lia|].
  pose proof (pv_linear_free p e Hp) as Hpf. pose proof Hp as (_ & Hpc & Hu & _).
  rewrite lookup_insert_eq, !int_add_ok by lia. cbn [mbind exec_bind]. eexists. split; [done|]. cbn. split_and!; [|done|lia|lia].
  split; cbn.
  - apply list.NoDup_app. split_and!; [done|by intros x Hx ->%list_elem_of_singleton|apply NoDup_singleton].
  - apply Forall2_app; [by apply members_linear_other|]. constructor; [|constructor]. exists p. by rewrite lookup_insert_eq.
Qed.

(** Volumes whose extents all come from one member. *)
Lemma linear_fill_one count u c us : 0 <= u -> 0 <= count -> u + count <= c ->
  linear_fill (Z.to_nat count) (Ext u c :: us) = (pair 0 <$> seqZ u count, Ext (u + count) c :: us).
Proof. intros. rewrite linear_fill_inside by lia. by rewrite Z2Nat.id by lia. Qed.

Definition extents (i u n : Z) : list (option le_map) := le_of <$> (pair i <$> seqZ u n).

Lemma length_pair_seqZ (i u n : Z) : 0 <= n -> length (pair i <$> seqZ u n) = Z.to_nat n.
Proof. intros. by rewrite length_fmap, length_seqZ. Qed.

Lemma created_map_full i u n : 0 <= n -> created_map (Z.to_nat n) (pair i <$> seqZ u n) = extents i u n.
Proof. intros. unfold created_map. rewrite length_pair_seqZ, Nat.sub_diag by done. apply app_nil_r. Qed.

Lemma extents_app i u n k : 0 <= n -> 0 <= k -> extents i u n ++ extents i (u + n) k = extents i u (n + k).
Proof. intros. unfold extents. rewrite <- !fmap_app, seqZ_app by done. done. Qed.

(** [lv_create] and [lv_extend] when the first member has room. *)
Lemma lv_create_one w g u c us name count : vg_linear (w_pvs w) g (Ext u c :: us) -> 0 <= u -> 0 <= count -> u + count <= c ->
  exists w' g' l, lv_create w g name count = Ok (w', g', S (brk w)) /\ le_count l = count /\ le_map_ptr l = brk w /\
    mapped_to w' (S (brk w)) l (extents 0 u count) /\
    (forall lp l m, lp <> S (brk w) -> mapped_to w lp l m -> mapped_to w' lp l m) /\ brk w' = S (S (brk w)) /\
    vg_linear (w_pvs w') g' (Ext (u + count) c :: us) /\ vg_pvs g' = vg_pvs g /\ vg_total_pe g' = vg_total_pe g /\ vg_free_pe g' = vg_free_pe g - count.
Proof.
  intros Hl Hu Hc Hfit. pose proof (lv_create_linear_ext w g _ name count Hl Hc) as H.
  rewrite linear_fill_one, created_map_full, length_pair_seqZ, Z2Nat.id in H by lia. done.
Qed.

Lemma lv_extend_one w moves lp l g u c us i u0 add : vg_linear (w_pvs w) g (Ext u c :: us) -> 0 <= le_count l -> 0 <= add -> 0 <= u ->
  u + add <= c -> le_count l + add < 2 ^ 31 -> mapped_to w lp l (extents i u0 (le_count l)) ->
  exists w' g' l', lv_extend w moves lp g add = Ok (w', g', true) /\ le_count l' = le_count l + add /\
    le_map_ptr l' = (if moves then brk w else le_map_ptr l) /\
    mapped_to w' lp l' (extents i u0 (le_count l) ++ extents 0 u add) /\
    (forall lp2 l2 m2, lp2 <> lp -> le_map_ptr l2 <> le_map_ptr l -> mapped_to w lp2 l2 m2 -> mapped_to w' lp2 l2 m2) /\
    vg_linear (w_pvs w') g' (Ext (u + add) c :: us) /\ vg_pvs g' = vg_pvs g /\ vg_free_pe g' = vg_free_pe g - add /\
    (brk w <= brk w')%nat.
Proof.
  intros Hl Hn Ha Hu Hfit Hint Hm. pose proof (lv_extend_linear_ext w moves lp l g _ add _ Hl Hn Ha Hint Hm) as H.
  rewrite linear_fill_one, length_pair_seqZ in H by lia. apply H; [|lia].
  unfold extents. rewrite length_fmap, length_pair_seqZ; lia.
Qed.

(** ** The demonstration *)

(** [pv_create] allocates the volume on the heap. *)
Definition new_pv (w : world) (p : pv) : world * nat :=
  ({| w_pvs := <[brk w := p]> (w_pvs w); w_maps := w_maps w; w_lvs := w_lvs w; brk := S (brk w) |}, brk w).

(** A row of the layout table: the extent in the column of its volume. *)
Definition layout_row (m : list (option le_map)) (le : Z) : exec (list (option Z)) :=
  e ← arr_get m le;
  match e with
  | None => Crash Uninitialised
  | Some x => Ok ((fun pv => if pv_index x =? pv then Some (pe_start x) else None) <$> seqZ 0 4)
  end.

Fixpoint layout_rows (m : list (option le_map)) (le : Z) (n : nat) : exec (list (list (option Z))) :=
  match n with
  | O => Ok []
  | S n' => r ← layout_row m le; rest ← layout_rows m (le + 1) n'; Ok (r :: rest)
  end.

(** Add fresh volumes of [n] extents to a group. *)
Fixpoint add_stripes (names : list string) (n : Z) (w : world) (g : vg) : exec (world * vg) :=
  match names with
  | [] => Ok (w, g)
  | name :: names' =>
    p ← pv_create name (n * PE_SIZE_SECTORS);
    let '(w1, q) := new_pv w p in
    '(g1, _) ← vg_add_pv (w_pvs w1) g q;
    add_stripes names' n w1 g1
  end.

(** Demonstrations 1 to 3: two volumes, a second disk, an extension and a
    snapshot with three writes. *)
Definition demo_data (moves : bool) : exec (world * vg * nat * nat * nat) :=
  p1 ← pv_create "sda1" (10 * 1024 * PE_SIZE_SECTORS);
  let '(w1, pv1) := new_pv (World ∅ ∅ ∅ 1) p1 in
  '(g1, _) ← vg_add_pv (w_pvs w1) (vg_create "vg_data") pv1;
  '(w2, g2, lv_home) ← lv_create w1 g1 "lv_home" (3 * 1024);
  '(w3, g3, lv_var) ← lv_create w2 g2 "lv_var" (2 * 1024);
  p2 ← pv_create "sdb1" (5 * 1024 * PE_SIZE_SECTORS);
  let '(w4, pv2) := new_pv w3 p2 in
  '(g4, _) ← vg_add_pv (w_pvs w4) g3 pv2;
  '(w5, g5, _) ← lv_extend w4 moves lv_var g4 (3 * 1024);
  '(w6, g6, snap) ← lv_create_snapshot w5 g5 "lv_var_snapshot" lv_var (1 * 1024);
  match snap with
  | None => Crash NullPointer
  | Some sp =>
    w7 ← snapshot_write w6 sp 0;
    w8 ← snapshot_write w7 sp 0;
    w9 ← snapshot_write w8 sp (1000 * PE_SIZE_SECTORS);
    Ok (w9, g6, lv_home, lv_var, sp)
  end.

(** Demonstration 4: a volume over four disks and the first 16 rows of its
    layout. *)
Definition demo_stripe (w : world) : exec (world * nat * list (list (option Z))) :=
  '(w1, g1) ← add_stripes ["sda"; "sdb"; "sdc"; "sdd"]%string 1000 w (vg_create "vg_stripe");
  '(w2, _, lv_stripe) ← lv_create w1 g1 "lv_raid0" 1000;
  match w_lvs w2 !! lv_stripe with
  | None => Crash NullPointer
  | Some l =>
    match w_maps w2 !! le_map_ptr l with
    | None => Crash UseAfterFree
    | Some m => rows ← layout_rows m 0 16; Ok (w2, lv_stripe, rows)
    end
  end.

Definition lvm_main (moves : bool) : exec (world * vg * nat * nat * nat * nat * list (list (option Z))) :=
  '(w, g, home, var, snap) ← demo_data moves;
  '(w', stripe, rows) ← demo_stripe w;
  Ok (w', g, home, var, snap, stripe, rows).

(** ** What the demonstration shows *)

(** [snap'] differs from [snap] at most in the bitmap. *)
Definition same_but_cow (snap snap' : lv) : Prop :=
  le_count snap' = le_count snap /\ le_map_ptr snap' = le_map_ptr snap /\ origin snap' = origin snap /\
  cow_pe_start snap' = cow_pe_start snap /\ cow_pe_count snap' = cow_pe_count snap.

(** A write to a snapshot marks its logical extent and nothing else. *)
Lemma snapshot_write_spec w sp snap op bm s :
  w_lvs w !! sp = Some snap -> origin snap = Some op -> cow_bitmap snap = Some bm -> bm_words bm ->
  0 <= s -> s / PE_SIZE_SECTORS < bm_bits bm -> s / PE_SIZE_SECTORS < 2 ^ 31 ->
  exists snap' bm', snapshot_write w sp s = Ok (World (w_pvs w) (w_maps w) (<[sp := snap']> (w_lvs w)) (brk w)) /\
    same_but_cow snap snap' /\ cow_bitmap snap' = Some bm' /\ bm_words bm' /\ length bm' = length bm /\
    (forall j, 0 <= j -> bit bm' j = (j =? s / PE_SIZE_SECTORS) || bit bm j).
Proof.
  intros Hs Ho Hb Hw Hs0 Hi Hi2. assert (0 <= s / PE_SIZE_SECTORS) by (apply Z.div_pos; [done|by vm_compute]).
  unfold snapshot_write. rewrite Hs, Ho, Hb, s32_small by lia. rewrite bm_test_ok by done. cbn [mbind exec_bind].
  destruct (bit bm (s / PE_SIZE_SECTORS)) eqn:Hbit; cbn [negb].
  - exists snap, bm. rewrite insert_id by done. split; [by destruct w|]. split; [by repeat split|]. split_and!; try done.
    intros j Hj. destruct (Z.eqb_spec j (s / PE_SIZE_SECTORS)) as [->|]; [|done]. by rewrite Hbit.
  - destruct (bm_set_spec bm (s / PE_SIZE_SECTORS)) as (bm' & -> & Hlen & Hw' & Hbit'); [done|done|]. cbn [mbind exec_bind].
    eexists _, bm'. split; [done|]. split; [by repeat split|]. by split_and!.
Qed.

Lemma cow_marks_demo w sp snap op bm :
  w_lvs w !! sp = Some snap -> origin snap = Some op -> cow_bitmap snap = Some bm -> bm_words bm -> bm_bits bm = 5120 ->
  exists w' snap' bm', (w1 ← snapshot_write w sp 0; w2 ← snapshot_write w1 sp 0; snapshot_write w2 sp (1000 * PE_SIZE_SECTORS)) = Ok w' /\
    w_pvs w' = w_pvs w /\ w_maps w' = w_maps w /\ brk w' = brk w /\ w_lvs w' = <[sp := snap']> (w_lvs w) /\
    same_but_cow snap snap' /\ cow_bitmap snap' = Some bm' /\
    (forall j, 0 <= j -> bit bm' j = (j =? 0) || (j =? 1000) || bit bm j).
Proof.
  intros Hs Ho Hb Hw Hbits.
  assert (0 / PE_SIZE_SECTORS = 0) as E0 by done. assert (1000 * PE_SIZE_SECTORS / PE_SIZE_SECTORS = 1000) as E1 by done.
  destruct (snapshot_write_spec w sp snap op bm 0) as (s1 & b1 & -> & (C1 & P1 & O1 & S1 & N1) & Hb1 & Hw1 & L1 & B1); try done; [rewrite E0; lia..|].
  cbn [mbind exec_bind].
  edestruct (snapshot_write_spec (World (w_pvs w) (w_maps w) (<[sp := s1]> (w_lvs w)) (brk w)) sp s1 op b1 0)
    as (s2 & b2 & -> & (C2 & P2 & O2 & S2 & N2) & Hb2 & Hw2 & L2 & B2); cbn [w_lvs]; try done;
    [apply lookup_insert_eq|congruence|unfold bm_bits in *; rewrite E0, L1; lia|].
  cbn [mbind exec_bind w_pvs w_maps w_lvs brk]. rewrite insert_insert_eq.
  edestruct (snapshot_write_spec (World (w_pvs w) (w_maps w) (<[sp := s2]> (w_lvs w)) (brk w)) sp s2 op b2 (1000 * PE_SIZE_SECTORS))
    as (s3 & b3 & -> & (C3 & P3 & O3 & S3 & N3) & Hb3 & Hw3 & L3 & B3); cbn [w_lvs]; try done;
    [apply lookup_insert_eq|congruence|unfold bm_bits in *; rewrite E1, L2, L1; lia|].
  cbn [w_pvs w_maps w_lvs brk]. rewrite insert_insert_eq. eexists _, s3, b3. split; [done|]. cbn.
  split_and!; try done; [split_and!; congruence|]. intros j Hj. rewrite B3, B2, B1, E0, E1 by done.
  by destruct (j =? 0), (j =? 1000).
Qed.

Lemma mapped_mono w w' lp l m : w_lvs w' = w_lvs w -> w_maps w' = w_maps w -> (brk w <= brk w')%nat ->
  mapped_to w lp l m -> mapped_to w' lp l m.
Proof. intros Hl Hm Hb (H1 & H2 & H3). unfold mapped_to. rewrite Hl, Hm. split_and!; [done|lia|done]. Qed.

Lemma add_stripes_linear names n w g us : 0 <= n < 2 ^ 31 - 63 -> vg_linear (w_pvs w) g us ->
  (forall q, q ∈ vg_pvs g -> (q < brk w)%nat) -> pv_count g + Z.of_nat (length names) <= MAX_PVS ->
  0 <= vg_free_pe g <= vg_total_pe g -> vg_total_pe g + n * Z.of_nat (length names) < 2 ^ 31 ->
  exists w' g', add_stripes names n w g = Ok (w', g') /\ vg_linear (w_pvs w') g' (us ++ replicate (length names) (Ext 0 n)) /\
    w_lvs w' = w_lvs w /\ w_maps w' = w_maps w /\ brk w' = (brk w + length names)%nat.
Proof.
  intros Hn. revert w g us. induction names as [|name names IH]; intros w g us Hl Hq Hc Hfree Htot; cbn [add_stripes length replicate].
  { exists w, g. rewrite app_nil_r. split_and!; (done || lia). }
  rewrite pv_create_extents by done. cbn [mbind exec_bind new_pv w_pvs]. cbn [length] in Hc, Htot.
  destruct (vg_add_linear (w_pvs w) g us (brk w) (fresh_pv name (n * PE_SIZE_SECTORS)) (Ext 0 n)) as (g1 & -> & Hl1 & Hp1 & Hf1 & Ht1).
  { done. } { intros Hin. specialize (Hq _ Hin). lia. } { by apply fresh_pv_linear. } { lia. } { done. } { cbn. nia. }
  cbn [used size] in Hf1, Ht1.
  cbn [mbind exec_bind].
  edestruct (IH (World (<[brk w := fresh_pv name (n * PE_SIZE_SECTORS)]> (w_pvs w)) (w_maps w) (w_lvs w) (S (brk w))) g1) as (w' & g' & -> & Hl' & Hlv & Hm & Hb).
  { exact Hl1. }
  { rewrite Hp1. cbn. intros q [Hin|Hin]%elem_of_app; [specialize (Hq _ Hin); lia|]. apply list_elem_of_singleton in Hin. lia. }
  { unfold pv_count in *. rewrite Hp1, length_app. cbn [length]. lia. }
  { lia. }
  { nia. }
  exists w', g'. split; [done|]. rewrite <- app_assoc in Hl'. cbn in *. split_and!; (done || lia).
Qed.

Lemma layout_rows_spec u n rows le : 0 <= le -> le + Z.of_nat rows <= n ->
  layout_rows (extents 0 u n) le rows = Ok ((fun k => [Some (u + k); None; None; None]) <$> seqZ le (Z.of_nat rows)).
Proof.
  revert le. induction rows as [|rows IH]; intros le Hle Hn; cbn [layout_rows]; [done|].
  unfold layout_row. rewrite (arr_get_ok _ _ (Some (Le 0 (u + le)))); [|done|].
  - cbn [mbind exec_bind pv_index pe_start]. rewrite IH by lia. cbn [mbind exec_bind].
    rewrite (seqZ_cons le) by lia. cbn [fmap list_fmap]. do 3 f_equal. f_equal; lia.
  - unfold extents. rewrite !list_lookup_fmap, lookup_seqZ_lt by lia. cbn. by rewrite Z2Nat.id by lia.
Qed.

Lemma demo_stripe_result w : exists w' stripe l,
  demo_stripe w = Ok (w', stripe, (fun k => [Some k; None; None; None]) <$> seqZ 0 16) /\
  mapped_to w' stripe l (extents 0 0 1000) /\
  (forall lp l m, (lp <= brk w)%nat -> mapped_to w lp l m -> mapped_to w' lp l m).
Proof.
  unfold demo_stripe.
  destruct (add_stripes_linear ["sda"; "sdb"; "sdc"; "sdd"]%string 1000 w (vg_create "vg_stripe") []) as (w1 & g1 & -> & Hl & Hlv & Hm & Hb);
    [done|split; constructor|by intros q ?%elem_of_nil|done|done|done|]. cbn [mbind exec_bind].
  destruct (lv_create_one w1 g1 0 1000 (replicate 3 (Ext 0 1000)) "lv_raid0" 1000)
    as (w2 & g2 & l & -> & Hc & Hq & Hmap & Hframe & _); [done|lia..|].
  cbn [mbind exec_bind]. pose proof Hmap as (-> & _ & ->). rewrite layout_rows_spec by lia. cbn [mbind exec_bind].
  exists w2, (S (brk w1)), l. split; [done|]. split; [done|]. intros lp l' m Hlp Hl'.
  apply Hframe; [rewrite Hb; cbn; lia|]. eapply mapped_mono; [done|done|lia|done].
Qed.

(** The state after demonstrations 1 to 3. *)
Definition data_laid_out (w : world) (g : vg) (snap : nat) : Prop :=
  vg_free_pe g = 6144 /\
  (exists l, le_count l = 3072 /\ mapped_to w 3 l (extents 0 0 3072)) /\
  exists l sl bm, le_count l = 5120 /\ mapped_to w 5 l (extents 0 3072 5120) /\
    le_count sl = 5120 /\ origin sl = Some 5%nat /\ cow_pe_start sl = 8192 /\ cow_pe_count sl = 1024 /\
    mapped_to w snap sl (extents 0 3072 5120) /\
    cow_bitmap sl = Some bm /\ (forall j, 0 <= j -> bit bm j = (j =? 0) || (j =? 1000)).

Lemma linear_empty name h : vg_linear h (vg_create name) [].
Proof. split; constructor. Qed.

Lemma demo_snapshot w g us l : vg_linear (w_pvs w) g (Ext 8192 10240 :: us) -> le_count l = 5120 ->
  mapped_to w 5 l (extents 0 3072 5120) -> (5 < brk w)%nat ->
  exists w' g' sl, lv_create_snapshot w g "lv_var_snapshot" 5 1024 = Ok (w', g', Some (brk w)) /\
    vg_free_pe g' = vg_free_pe g - 1024 /\ brk w' = S (brk w) /\ w_maps w' = w_maps w /\ w_lvs w' = <[brk w := sl]> (w_lvs w) /\
    le_count sl = 5120 /\ le_map_ptr sl = le_map_ptr l /\ origin sl = Some 5%nat /\ cow_pe_start sl = 8192 /\
    cow_pe_count sl = 1024 /\ cow_bitmap sl = Some (replicate 80 0).
Proof.
  intros Hl Hc (Hlv & _) Hb. unfold lv_create_snapshot. rewrite Hlv.
  destruct (vg_alloc_linear (w_pvs w) g (Ext 8192 10240 :: us) 1024) as (h' & g' & -> & _ & _ & _ & Hf); [done|done|].
  cbn [mbind exec_bind linear_alloc used size fst snd]. change (8192 + 1024 <=? 10240) with true. cbn [fst]. cbn [fst linear_alloc used size] in Hf.
  change (8192 + 1024 <=? 10240) with true in Hf. cbn [fst] in Hf. rewrite Hc.
  eexists _, g', _. split; [done|]. split; [done|]. split; [done|]. split; [done|]. cbn [w_lvs]. split; [done|]. by split_and!.
Qed.

Lemma demo_data_result moves : exists w g snap, demo_data moves = Ok (w, g, 3%nat, 5%nat, snap) /\ (snap <= brk w)%nat /\
  (5 < snap)%nat /\ data_laid_out w g snap.
Proof.
  unfold demo_data. change (10 * 1024 * PE_SIZE_SECTORS) with (10240 * PE_SIZE_SECTORS).
  rewrite (pv_create_extents "sda1") by done. cbn [mbind exec_bind new_pv w_pvs w_maps w_lvs brk].
  destruct (vg_add_linear ∅ (vg_create "vg_data") [] 1%nat (fresh_pv "sda1" (10240 * PE_SIZE_SECTORS)) (Ext 0 10240))
    as (g1 & Hadd & Hl1 & Hp1 & Hf1 & Ht1); [apply linear_empty|apply not_elem_of_nil|by apply fresh_pv_linear|done|done|done|].
  cbn [size used] in Hf1, Ht1. change (vg_free_pe (vg_create _)) with 0 in Hf1. change (vg_total_pe (vg_create _)) with 0 in Ht1. rewrite Hadd. cbn [mbind exec_bind]. clear Hadd.
  match goal with |- context [lv_create ?w _ _ _] => set (w1 := w) end. change (3 * 1024) with 3072. change (2 * 1024) with 2048.
  destruct (lv_create_one w1 g1 0 10240 [] "lv_home" 3072) as (w2 & g2 & home & -> & Hc2 & Hq2 & Hm2 & _ & Hb2 & Hl2 & Hp2 & Ht2 & Hf2); [done|lia..|].
  cbn [mbind exec_bind].
  destruct (lv_create_one w2 g2 (0 + 3072) 10240 [] "lv_var" 2048) as (w3 & g3 & var & -> & Hc3 & Hq3 & Hm3 & Hfr3 & Hb3 & Hl3 & Hp3 & Ht3 & Hf3); [done|lia..|].
  cbn [mbind exec_bind]. rewrite Hb2 in *. cbn [brk w1] in *.
  apply Hfr3 in Hm2; [|done]. clear Hfr3.
  destruct (vg_add_linear (w_pvs w3) g3 [Ext (0 + 3072 + 2048) 10240] 6%nat (fresh_pv "sdb1" (5120 * PE_SIZE_SECTORS)) (Ext 0 5120))
    as (g4 & Hadd & Hl4 & Hp4 & Hf4 & _);
    [done|rewrite Hp3, Hp2, Hp1; cbn; by intros ?%list_elem_of_singleton|by apply fresh_pv_linear|unfold pv_count; rewrite Hp3, Hp2, Hp1; by vm_compute|lia|cbn; lia|].
  change (5 * 1024 * PE_SIZE_SECTORS) with (5120 * PE_SIZE_SECTORS). rewrite pv_create_extents by done. cbn [mbind exec_bind new_pv w_pvs w_maps w_lvs brk]. rewrite Hb3, Hadd. cbn [mbind exec_bind]. clear Hadd.
  match goal with |- context [lv_extend ?w _ _ _ _] => set (w4 := w) end.
  apply (mapped_mono w3 w4) in Hm2, Hm3; [|done|done|cbn; lia|done|done|cbn; lia].
  destruct (lv_extend_one w4 moves 5 var g4 (0 + 3072 + 2048) 10240 [Ext 0 5120] 0 (0 + 3072) 3072)
    as (w5 & g5 & var' & -> & Hc5 & Hq5 & Hm5 & Hfr5 & Hl5 & Hp5 & Hf5 & Hb5); [done|lia..|by rewrite Hc3|].
  cbn [mbind exec_bind]. rewrite Hc3 in *. apply Hfr5 in Hm2; [|done|lia]. clear Hfr5.
  rewrite extents_app in Hm5 by lia.
  assert (6 < brk w5)%nat by (cbn in Hb5; lia). change (1 * 1024) with 1024.
  destruct (demo_snapshot w5 g5 [Ext 0 5120] var') as (w6 & g6 & sl & -> & Hf6 & Hb6 & Hmaps6 & Hlv6 & Hcs & Hqs & Hos & Hss & Hns & Hbs);
    [done|lia|done|lia|]. cbn [mbind exec_bind].
  destruct (cow_marks_demo w6 (brk w5) sl 5 (replicate 80 0)) as (w9 & sl' & bm & Hw & _ & Hmaps9 & Hb9 & Hlv9 & (Hc9 & Hq9 & Ho9 & Hs9 & Hn9) & Hbm & Hbits);
    [rewrite Hlv6; apply lookup_insert_eq|done|done|apply bm_words_zero|done|].
  assert (forall lp l m, lp <> brk w5 -> mapped_to w5 lp l m -> mapped_to w9 lp l m) as Hfr.
  { intros lp l m Hne (H1 & H2 & H3). unfold mapped_to. rewrite Hlv9, Hlv6, Hmaps9, Hmaps6, Hb9, Hb6.
    rewrite !lookup_insert_ne by done. split_and!; [done|lia|done]. }
  destruct (snapshot_write w6 (brk w5) 0) as [w7|]; cbn [mbind exec_bind] in Hw |- *; [|done].
  destruct (snapshot_write w7 (brk w5) 0) as [w8|]; cbn [mbind exec_bind] in Hw |- *; [|done]. rewrite Hw. cbn [mbind exec_bind].
  exists w9, g6, (brk w5). split; [done|]. split; [lia|]. split; [lia|]. cbn [size used] in Hf4. split; [lia|]. split.
  - exists home. split; [done|]. apply Hfr; [lia|done].
  - exists var', sl', bm. split; [lia|]. split; [apply Hfr; [lia|done]|].
    assert (mapped_to w9 5 var' (extents 0 3072 5120)) as (H1 & H2 & H3) by (apply Hfr; [lia|done]).
    do 4 (split; [congruence|]). split; [|split; [done|]].
    + split; [rewrite Hlv9; apply lookup_insert_eq|]. by rewrite Hq9, Hqs.
    + intros j Hj. rewrite Hbits by done. rewrite bit_zero. by rewrite orb_false_r.
Qed.

(** ** Theorems *)

(** C11: [lv_create] refines the bump allocator: on a group whose members are
    allocated from their starts, logical extent [k] is the [k]-th free extent in
    member order (member 0 first, lowest extent first), the group stays of this
    form with exactly those extents gone, and when the free extents run out the
    remaining entries are the zeroed (0, 0). *)
Theorem lv_create_linear w g us name count :
  vg_linear (w_pvs w) g us -> 0 <= count ->
  let L := take (Z.to_nat count) (free_seq 0 us) in
  exists w' g' lp l us', lv_create w g name count = Ok (w', g', lp) /\ le_count l = count /\
    mapped_to w' lp l ((le_of <$> L) ++ replicate (Z.to_nat count - length L) (Some (Le 0 0))) /\
    vg_linear (w_pvs w') g' us' /\ free_seq 0 us' = drop (Z.to_nat count) (free_seq 0 us) /\
    vg_free_pe g' = vg_free_pe g - Z.of_nat (length L).
Proof.
  intros Hl Hc L. pose proof (lv_create_linear_ext w g us name count Hl Hc) as H.
  pose proof (linear_fill_free (Z.to_nat count) us) as Hf.
  destruct (linear_fill (Z.to_nat count) us) as [L' us'] eqn:E. destruct Hf as [HL Hus].
  { destruct Hl as [_ Hm]. clear -Hm. induction Hm as [|q e ? ? (p & _ & (_ & _ & ? & _)) _ IH]; constructor; [lia|done]. }
  cbn [fst snd] in HL, Hus. subst L'. destruct H as (w' & g' & l & -> & Hn & _ & Hm & _ & _ & Hl' & _ & _ & Hfr).
  by exists w', g', (S (brk w)), l, us'.
Qed.

(** The demonstration as it runs, whether or not [realloc] moves the map: home
    is extents 0 to 3071 of the first disk, var extents 3072 to 8191 even after
    the second disk was added and var extended, the snapshot shares var's map,
    reserves the 1024 extents from 8192 on and has extents 0 and 1000 marked;
    and the volume announced as striped over four disks lies on the first one
    alone, in its first 1000 extents, which is what the printed table shows. *)
Theorem lvm_main_layout moves : exists w g snap stripe l,
  lvm_main moves = Ok (w, g, 3%nat, 5%nat, snap, stripe, (fun k => [Some k; None; None; None]) <$> seqZ 0 16) /\
  data_laid_out w g snap /\ mapped_to w stripe l (extents 0 0 1000).
Proof.
  unfold lvm_main. destruct (demo_data_result moves) as (w & g & snap & -> & Hle & Hlt & Hfree & (lh & Hch & Hh) & Hrest).
  cbn [mbind exec_bind]. destruct (demo_stripe_result w) as (w' & stripe & l & -> & Hm & Hframe). cbn [mbind exec_bind].
  exists w', g, snap, stripe, l. split; [done|]. split; [|done]. split; [done|]. split.
  - exists lh. split; [done|]. apply Hframe; [lia|done].
  - destruct Hrest as (lvv & sl & bm & Hc & Hv & H1 & H2 & H3 & H4 & Hs & H5 & H6). exists lvv, sl, bm.
    split_and!; try done; apply Hframe; (done || lia).
Qed.

(** ** Witness *)

Definition small_heap : gmap nat pv := {[ 1%nat := fresh_pv "sda" (2 * PE_SIZE_SECTORS); 2%nat := fresh_pv "sdb" (3 * PE_SIZE_SECTORS) ]}.
Definition small_vg : vg := {| vg_name := "vg"; vg_pvs := [1%nat; 2%nat]; vg_total_pe := 5; vg_free_pe := 5 |}.

Lemma small_linear : vg_linear small_heap small_vg [Ext 0 2; Ext 0 3].
Proof.
  split; [by repeat constructor; set_solver|].
  repeat constructor; eexists; (split; [done|]); by apply fresh_pv_linear.
Qed.

(** A volume of four extents fills the first disk and continues on the second. *)
Lemma lv_create_linear_witness : exists w' g' lp l,
  lv_create (World small_heap ∅ ∅ 3) small_vg "lv" 4 = Ok (w', g', lp) /\
  mapped_to w' lp l [Some (Le 0 0); Some (Le 0 1); Some (Le 1 0); Some (Le 1 1)].
Proof.
  destruct (lv_create_linear (World small_heap ∅ ∅ 3) small_vg [Ext 0 2; Ext 0 3] "lv" 4)
    as (w' & g' & lp & l & us' & H & _ & Hm & _); [apply small_linear|lia|].
  exists w', g', lp, l. split; [exact H|exact Hm].
Defined.
