(* ===== verification/RaidDemo.v ===== *)
(** * The RAID demonstration ([demos/raid/raid.c], [main])

    The four computed parts of [main]: the RAID 0 map of two stripes, the table
    of twelve RAID 5 stripes, the degraded read after a disk failed, and the
    check bytes of an example.  Fixed text is left out. *)
From Stdlib Require Import ZArith Lia String.
From stdpp Require Import base numbers list option.
From S2P Require Import Prelude Raid.

Open Scope Z_scope.

(** The array [disks[MAX_DISKS]] of a zeroed structure with its first members set. *)
Definition disk_array (ds : list mock_disk) : list (option mock_disk) :=
  (Some <$> ds) ++ replicate (16 - length ds) None.

Definition demo_array (lvl n chunk : Z) (ds : list mock_disk) : raid :=
  {| level := lvl; data_disks := n; total_disks := 0; chunk_sectors := chunk; r_size := 0;
     disks := disk_array ds; spare := None; degraded := false |}.

Definition r0 : raid := demo_array 0 2 128 [disk_create "sda" 2000000; disk_create "sdb" 2000000].

Definition r5 : raid :=
  demo_array 5 3 128 ((fun name => disk_create name 2000000) <$> ["sda"; "sdb"; "sdc"; "sdd"]%string).

(** Demonstration 1: (sector, name of the disk, sector on it, stripe) for every
    128th sector of 256. *)
Definition raid0_line (r : raid) (s : Z) : exec (Z * string * Z * Z) :=
  '(disk, ds) ← raid0_map r s;
  d ← arr_get (disks r) disk;
  match d with
  | None => Crash NullPointer
  | Some d => Ok (s, d_name d, ds, s / chunk_sectors r)
  end.

(** What a slot of the table holds. *)
Inductive slot := Dashes | Data (d : Z) | Parity (stripe : Z).

#[export] Instance slot_eq_dec : EqDecision slot.
Proof. solve_decision. Defined.

(** The inner loop: [mapped_disk] is computed and not used. *)
Fixpoint data_slots (slots : list slot) (d : Z) (n : nat) : exec (list slot) :=
  match n with
  | O => Ok slots
  | S n' => slots' ← arr_set slots d (Data d); data_slots slots' (d + 1) n'
  end.

(** A row of demonstration 2: three slots and the parity disk. *)
Definition table_row (stripe : Z) : exec (list slot * Z) :=
  let p_disk := Z.rem (stripe + Z.rem stripe 3) 4 in
  slots ← data_slots (replicate 4 Dashes) 0 3;
  slots ← arr_set slots p_disk (Parity stripe);
  Ok (take 3 slots, p_disk).

Fixpoint table_rows (stripe : Z) (n : nat) : exec (list (list slot * Z)) :=
  match n with
  | O => Ok []
  | S n' => row ← table_row stripe; rest ← table_rows (stripe + 1) n'; Ok (row :: rest)
  end.

(** [disk_set_faulty(r5.disks[1])]. *)
Definition fail_disk (r : raid) (i : Z) : exec raid :=
  d ← arr_get (disks r) i;
  match d with
  | None => Crash NullPointer
  | Some d =>
    ds ← arr_set (disks r) i (Some (disk_set_faulty d));
    Ok {| level := level r; data_disks := data_disks r; total_disks := total_disks r; chunk_sectors := chunk_sectors r;
          r_size := r_size r; disks := ds; spare := spare r; degraded := degraded r |}
  end.

Definition data_example : list (list Z) :=
  [[17; 34; 51; 68; 85; 102; 119; 136]; [170; 187; 204; 221; 238; 255; 0; 17]; [18; 52; 86; 120; 154; 188; 222; 240]].

(** [main]; [rebuilt], [buffers], [p] and [q] are the uninitialised arrays of the
    stack: the sector to rebuild, the read buffers, and the check bytes. *)
Definition raid_main (rebuilt : list Z) (buffers : list (list Z)) (p q : list Z) :
    exec (list (Z * string * Z * Z) * list (list slot * Z) * list Z * (list Z * list Z)) :=
  l0 ← raid0_line r0 0;
  l1 ← raid0_line r0 128;
  table ← table_rows 0 12;
  r ← fail_disk r5 1;
  '(_, rebuilt') ← raid5_rebuild_stripe r 1 0 rebuilt SECTOR_SIZE buffers;
  p1 ← raid5_calc_parity p data_example 3 8;
  pq ← raid6_calc_double_parity p1 q data_example 3 8;
  Ok ([l0; l1], table, rebuilt', pq).

(** ** The table *)

(** Columns of a row: data [d] in column [d], except in the parity column. *)
Definition row_spec (stripe : Z) : list slot * Z :=
  let p := (stripe + stripe mod 3) mod 4 in
  ((fun d => if d =? p then Parity stripe else Data d) <$> [0; 1; 2], p).

Lemma table_row_spec stripe : 0 <= stripe -> table_row stripe = Ok (row_spec stripe).
Proof.
  intros Hs. unfold table_row, row_spec. rewrite (Z.rem_mod_nonneg stripe) by lia.
  pose proof (Z.mod_pos_bound stripe 3). rewrite Z.rem_mod_nonneg by lia.
  pose proof (Z.mod_pos_bound (stripe + stripe mod 3) 4). set (p := (stripe + stripe mod 3) mod 4) in *.
  change (data_slots (replicate 4 Dashes) 0 3) with (Ok [Data 0; Data 1; Data 2; Dashes]). cbn [mbind exec_bind].
  assert (p = 0 \/ p = 1 \/ p = 2 \/ p = 3) as [-> | [-> | [-> | ->]]] by lia; done.
Qed.

Lemma table_rows_spec stripe n : 0 <= stripe -> table_rows stripe n = Ok (row_spec <$> seqZ stripe (Z.of_nat n)).
Proof.
  revert stripe. induction n as [|n IH]; intros stripe Hs; cbn [table_rows]; [done|].
  rewrite table_row_spec by done. cbn [mbind exec_bind]. rewrite IH by lia. cbn [mbind exec_bind].
  rewrite (seqZ_cons stripe) by lia. cbn [fmap list_fmap]. do 3 f_equal. f_equal; lia.
Qed.

(** The printed table and the address map disagree: for every stripe of a
    three-data-disk array, the map sends the whole stripe to the disk in whose
    column the table prints the parity block, and calls it parity exactly when
    that disk is the last one, whose column the table does not print. *)
Theorem raid5_table_against_map r stripe : data_disks r = 3 -> 0 < chunk_sectors r < 2 ^ 20 -> 0 <= stripe < 2 ^ 36 ->
  exists row p o, table_row stripe = Ok (row, p) /\
    raid5_map r (stripe * chunk_sectors r) = Ok (p, o, if p =? 3 then 1 else 0) /\
    (forall d : nat, row !! d = Some (Parity stripe) <-> Z.of_nat d = p /\ p < 3) /\
    (p = 3 -> row = [Data 0; Data 1; Data 2]).
Proof.
  intros Hd Hc Hs. rewrite table_row_spec by lia. unfold row_spec. eexists _, _, _. split; [done|].
  pose proof (Z.mod_pos_bound stripe 3). pose proof (Z.mod_pos_bound (stripe + stripe mod 3) 4).
  unfold raid5_map. rewrite Hd. change (u64 3) with 3. change (u64 (3 + 1)) with 4. change (3 + 1 =? 0) with false.
  change (3 =? 0) with false. destruct (Z.eqb_spec (chunk_sectors r) 0); [lia|]. cbn [orb].
  rewrite Z.div_mul, (wrapu_small 64 (stripe + _)) by lia. set (p := (stripe + stripe mod 3) mod 4) in *.
  rewrite (s32_small p) by lia. split; [|split].
  - destruct (Z.eqb_spec p 3) as [->|]; done.
  - intros d. assert (p = 0 \/ p = 1 \/ p = 2 \/ p = 3) as [-> | [-> | [-> | ->]]] by lia;
      destruct d as [|[|[|d]]]; cbn; split; (done || lia || by intros [=]).
  - by intros ->.
Qed.

(** The check bytes of the example do not depend on what the arrays held. *)
Definition example_bytes : list Z * list Z := ([169; 173; 169; 225; 33; 37; 169; 105], [117; 36; 87; 14; 185; 112; 187; 74]).

Lemma example_check_bytes p q : length p = 8%nat -> length q = 8%nat ->
  (p1 ← raid5_calc_parity p data_example 3 8; raid6_calc_double_parity p1 q data_example 3 8) = Ok example_bytes.
Proof.
  intros Hp Hq. do 8 (destruct p as [|? p]; [discriminate|]). destruct p; [|discriminate].
  do 8 (destruct q as [|? q]; [discriminate|]). destruct q; [|discriminate]. vm_compute. reflexivity.
Qed.

(** The degraded read of the demonstration: the simulated disks hold no data and
    the read buffers are never filled, so the sector reported as rebuilt is the
    exclusive or of two buffers of uninitialised stack. *)
Theorem raid_main_result rebuilt buffers p q :
  length buffers = 16%nat -> Forall (fun b : list Z => length b = 512%nat) buffers -> length rebuilt = 512%nat ->
  length p = 8%nat -> length q = 8%nat ->
  exists out, raid_main rebuilt buffers p q =
    Ok ([(0, "sda"%string, 0, 0); (128, "sdb"%string, 0, 1)], row_spec <$> seqZ 0 12, out,
        example_bytes) /\
    forall t b0 b1, (t < 512)%nat -> buffers !! 0%nat = Some b0 -> buffers !! 1%nat = Some b1 ->
      out !! t = Some (Z.lxor (default 0 (b0 !! t)) (default 0 (b1 !! t))).
Proof.
  intros Hb Hall Hr Hp Hq. unfold raid_main.
  change (raid0_line r0 0) with (Ok (0, "sda"%string, 0, 0)). change (raid0_line r0 128) with (Ok (128, "sdb"%string, 0, 1)).
  cbn [mbind exec_bind]. rewrite table_rows_spec by done. cbn [mbind exec_bind].
  destruct (fail_disk r5 1) as [r|] eqn:Hf; [|by vm_compute in Hf]. cbn [mbind exec_bind].
  assert (alive (disks r) 1 4 0 = 3 /\ data_disks r = 3 /\ length (disks r) = 16%nat) as (Ha & Hd & Hlen).
  { vm_compute in Hf. simplify_eq. by vm_compute. }
  unfold raid5_rebuild_stripe. rewrite Hd. change (Z.to_nat (3 + 1)) with 4%nat.
  destruct (rebuild_collect_ok (disks r) 1 0 SECTOR_SIZE 4 0 0 buffers) as (ds' & -> & _); [lia..|].
  cbn [mbind exec_bind]. rewrite Ha. change (3 <=? 0 + 3) with true. change (Z.to_nat (0 + 3 - 1)) with 2%nat.
  change (Z.to_nat SECTOR_SIZE) with 512%nat.
  destruct (xor_buffers_ok 2 0 512 buffers (replicate 512 0)) as (res & -> & Hres & Hbit);
    [lia|lia|rewrite length_replicate; lia|eapply Forall_impl; [|exact Hall]; intros ? H; cbn in H; lia|].
  cbn [mbind exec_bind]. rewrite length_replicate in Hres.
  pose proof (example_check_bytes p q Hp Hq) as He.
  destruct (raid5_calc_parity p data_example 3 8) as [p1|]; cbn [mbind exec_bind] in He |- *; [|done]. rewrite He.
  cbn [mbind exec_bind]. eexists. split; [done|]. intros t b0 b1 Ht H0 H1.
  rewrite lookup_app_l by (rewrite length_take; lia). rewrite lookup_take_lt, Hbit, lookup_replicate_2 by lia.
  cbn [default]. rewrite Z.lxor_0_l. change (Z.to_nat 0) with 0%nat. rewrite drop_0, (take_S_r _ 1 b1), (take_S_r _ 0 b0) by done.
  rewrite take_0. unfold column, xorl. cbn [app fmap list_fmap foldr]. by rewrite Z.lxor_0_r.
Qed.

(** ** Witnesses *)

Lemma raid5_table_against_map_witness : exists o,
  table_row 3 = Ok ([Data 0; Data 1; Data 2], 3) /\ table_row 4 = Ok ([Data 0; Parity 4; Data 2], 1) /\
  raid5_map r5 (4 * 128) = Ok (1, o, 0).
Proof.
  destruct (raid5_table_against_map r5 4) as (row & p & o & Hrow & Hmap & _); [reflexivity|split; reflexivity|lia|].
  vm_compute in Hrow. injection Hrow as <- <-. exists o. split; [reflexivity|]. split; [reflexivity|exact Hmap].
Defined.

(** A stack full of ones and twos gives a sector full of threes. *)
Lemma raid_main_result_witness : exists out,
  raid_main (replicate 512 0) (replicate 1 (replicate 512 1) ++ replicate 15 (replicate 512 2)) (replicate 8 0) (replicate 8 0) =
    Ok ([(0, "sda"%string, 0, 0); (128, "sdb"%string, 0, 1)], row_spec <$> seqZ 0 12, out, example_bytes) /\
  out !! 7%nat = Some 3.
Proof.
  destruct (raid_main_result (replicate 512 0) (replicate 1 (replicate 512 1) ++ replicate 15 (replicate 512 2)) (replicate 8 0) (replicate 8 0))
    as (out & H & Hx); [reflexivity| |reflexivity..|].
  - apply Forall_app. split; apply Forall_replicate; reflexivity.
  - exists out. split; [exact H|]. rewrite (Hx 7%nat (replicate 512 1) (replicate 512 2)); [reflexivity|lia|reflexivity|reflexivity].
Defined.
