(* ===== verification/BioQueue.v ===== *)
(** * Request queues, completion and the types of block I/O ([demos/bio/bio.c])

    The second half of [bio.c]: the table of request queues, the completion
    callback and the counters; and, for the descriptors of [Bio], that every
    field stays within the width of its C type under every operation. *)
From Stdlib Require Import ZArith Lia.
From stdpp Require Import base numbers list option gmap.
From S2P Require Import Prelude Bitmap Bio.

Open Scope Z_scope.

(** ** Request queues *)

Record request_queue := RequestQueue {
  q_bdev : option nat; queue_flags : Z; queue_depth : Z; make_request_fn : option nat; queuedata : option nat
}.

(** [memset(q, 0, sizeof(struct request_queue))] *)
Definition queue_zero : request_queue := RequestQueue None 0 0 None None.

(** The first queue of the table without a device, zeroed. *)
Fixpoint find_queue (qs : list request_queue) (i : nat) : option nat :=
  match qs with
  | [] => None
  | q :: qs' => match q_bdev q with None => Some i | Some _ => find_queue qs' (S i) end
  end.

Definition blk_alloc_queue (qs : list request_queue) : list request_queue * option nat :=
  match find_queue qs 0 with
  | None => (qs, None)
  | Some i => (<[i := queue_zero]> qs, Some i)
  end.

Definition blk_queue_make_request (qs : list request_queue) (q : nat) (fn : nat) : exec (list request_queue) :=
  x ← arr_get qs (Z.of_nat q);
  arr_set qs (Z.of_nat q) (RequestQueue (q_bdev x) (queue_flags x) (queue_depth x) (Some fn) (queuedata x)).

Definition global_queues : list request_queue := replicate (Z.to_nat BIO_POOL_SIZE) queue_zero.

(** Fields of a block device, whose structure is not part of the sources. *)
Definition bdev_logical_block_size (bd_block_size : nat -> Z) (bdev : option nat) : Z :=
  match bdev with Some d => bd_block_size d | None => 512 end.
Definition bdev_io_opt (bd_io_opt : nat -> Z) (bdev : option nat) : Z :=
  match bdev with Some d => bd_io_opt d | None => 4096 end.

(** ** Completion and counters *)

(** [bio_complete_callback]: the completion that is signalled. *)
Definition bio_complete_callback (s : bs) (b : nat) (error : Z) : exec (option nat) :=
  x ← get_bio s b; Ok (bi_private x).

(** [atomic_t] counters are 32-bit. *)
Record bio_stats := BioStats { bio_submit_count : Z; bio_complete_count : Z }.

Definition bio_submit (c : bio_stats) : bio_stats * Z :=
  let n := s32 (bio_submit_count c + 1) in (BioStats n (bio_complete_count c), n).
Definition bio_complete (c : bio_stats) : bio_stats * Z :=
  let n := s32 (bio_complete_count c + 1) in (BioStats (bio_submit_count c) n, n).
Definition bio_get_stats (c : bio_stats) : Z * Z * Z := (bio_submit_count c, bio_complete_count c, 0).

(** ** Queues are handed out twice *)

Lemma find_queue_first qs j i : find_queue qs j = Some i ->
  exists k q, i = (j + k)%nat /\ qs !! k = Some q /\ q_bdev q = None /\
    forall k' q', (k' < k)%nat -> qs !! k' = Some q' -> q_bdev q' <> None.
Proof.
  revert j. induction qs as [|q qs IH]; intros j; cbn [find_queue]; [done|]. destruct (q_bdev q) eqn:Hq.
  - intros H. destruct (IH _ H) as (k & q' & -> & Hk & Hn & Hb). exists (S k), q'. split; [lia|]. split; [done|]. split; [done|].
    intros [|k'] q2 Hlt Hk2; cbn in Hk2; [simplify_eq; congruence|]. apply (Hb k' q2); [lia|done].
  - intros [= <-]. exists 0%nat, q. split_and!; [lia|done|done|]. lia.
Qed.

Lemma find_queue_at qs j k q : qs !! k = Some q -> q_bdev q = None ->
  (forall k' q', (k' < k)%nat -> qs !! k' = Some q' -> q_bdev q' <> None) -> find_queue qs j = Some (j + k)%nat.
Proof.
  revert j k. induction qs as [|q0 qs IH]; intros j k Hk Hn Hb; [done|]. destruct k as [|k]; cbn [find_queue].
  - cbn in Hk. simplify_eq. rewrite Hn. f_equal. lia.
  - destruct (q_bdev q0) eqn:Hq; [|exfalso; by apply (Hb 0%nat q0); [lia|done|]].
    rewrite (IH (S j) k) by (try done; intros k' q' Hlt; apply (Hb (S k') q'); lia). f_equal. lia.
Qed.

(** [blk_alloc_queue] is first fit over the queues without a device, but marks
    nothing: a queue stays free until somebody stores a device in it, which no
    code does.  The next call returns the same queue, and clears the request
    function that was registered in between. *)
Theorem blk_alloc_queue_shared qs i fn qs1 qs2 :
  blk_alloc_queue qs = (qs1, Some i) -> blk_queue_make_request qs1 i fn = Ok qs2 ->
  make_request_fn <$> qs2 !! i = Some (Some fn) /\
  exists qs3, blk_alloc_queue qs2 = (qs3, Some i) /\ make_request_fn <$> qs3 !! i = Some None.
Proof.
  unfold blk_alloc_queue. destruct (find_queue qs 0) as [k|] eqn:Hf; [|done]. intros [= <- ->].
  destruct (find_queue_first _ _ _ Hf) as (k & q & Heq & Hk & Hn & Hb). cbn in Heq. subst k.
  pose proof (lookup_lt_Some _ _ _ Hk) as Hlt. unfold blk_queue_make_request.
  rewrite (arr_get_ok _ _ queue_zero) by (try lia; rewrite Nat2Z.id; by apply list_lookup_insert_eq). cbn [mbind exec_bind].
  rewrite arr_set_ok by (rewrite length_insert; lia). rewrite Nat2Z.id, list_insert_insert_eq. intros [= <-].
  rewrite list_lookup_insert_eq by done. split; [done|].
  rewrite (find_queue_at _ 0 i (RequestQueue None 0 0 (Some fn) None)); [|by apply list_lookup_insert_eq|done|].
  - eexists. split; [done|]. by rewrite list_insert_insert_eq, list_lookup_insert_eq.
  - intros k' q' Hlt' Hk'. rewrite list_lookup_insert_ne in Hk' by lia. by apply (Hb k').
Qed.

(** ** The types of descriptors *)

(** A value of a [w]-bit unsigned type. *)
Definition fits (w z : Z) : Prop := 0 <= z < 2 ^ w.

Lemma fits_wrapu (w : positive) z : fits (Zpos w) (wrapu (Zpos w) z).
Proof. by apply wrapu_range. Qed.

(** Every field holds a value of its declared type. *)
Record bio_typed (x : bio) : Prop := {
  ty_sector : fits 64 (bi_sector x); ty_vcnt : fits 16 (bi_vcnt x); ty_max : fits 16 (bi_max_vecs x);
  ty_size : fits 32 (bi_size x); ty_idx : fits 32 (bi_idx x); ty_op : fits 16 (bi_op x); ty_flags : fits 64 (bi_flags x)
}.

Definition cell_typed (c : option bio_vec) : Prop :=
  match c with Some bv => fits 32 (bv_len bv) /\ fits 32 (bv_offset bv) | None => True end.

Record bs_typed (s : bs) : Prop := {
  ty_pool : Forall bio_typed (bio_pool s);
  ty_used : bm_words (bio_pool_used s);
  ty_vecs : forall v arr, vecs s !! v = Some arr -> Forall cell_typed arr
}.

#[local] Hint Resolve fits_wrapu : kernel.
#[local] Hint Extern 1 (fits _ _) => (unfold fits, BIO_OP_READ in *; lia) : kernel.

(** Invert array accesses that succeeded. *)
Ltac arr_inv :=
  exec_inv;
  repeat match goal with
  | H : arr_get _ _ = Ok _ |- _ => apply arr_get_inv in H; destruct H
  | H : arr_set _ _ _ = Ok _ |- _ => apply arr_set_inv in H; destruct H; subst
  end.

Lemma bm_set_typed u i u' : bm_words u -> bm_set u i = Ok u' -> bm_words u'.
Proof.
  intros Hu. unfold bm_set. destruct (Z.ltb_spec i 0) as [|Hi]; [done|]. intros H. arr_inv.
  apply Forall_insert; [done|]. apply word_lor; [|by eapply (Forall_lookup_1 _ _ _ _ Hu)].
  destruct (index_split i Hi) as (_ & -> & ?). lia.
Qed.

Lemma bm_clear_typed u i u' : bm_words u -> bm_clear u i = Ok u' -> bm_words u'.
Proof.
  intros Hu. unfold bm_clear. destruct (Z.ltb_spec i 0) as [|Hi]; [done|]. intros H. arr_inv.
  apply Forall_insert; [done|]. apply word_land. by eapply (Forall_lookup_1 _ _ _ _ Hu).
Qed.

Lemma bm_claim_typed u i n u' b : bm_words u -> bm_claim u i n = Ok (Some (u', b)) -> bm_words u'.
Proof.
  intros Hu. revert i. induction n as [|n IH]; intros i; cbn [bm_claim]; [done|]. intros H. exec_inv.
  destruct (negb x); [|by eapply IH]. exec_inv. by eapply bm_set_typed.
Qed.

Section typed.
Implicit Types (s : bs) (x : bio).

Lemma get_typed s b x : bs_typed s -> get_bio s b = Ok x -> bio_typed x.
Proof. intros [Hp _ _] [_ H]%arr_get_inv. by apply (Forall_lookup_1 _ _ _ _ Hp H). Qed.

Lemma put_typed s b x s' : bs_typed s -> bio_typed x -> put_bio s b x = Ok s' -> bs_typed s'.
Proof.
  intros [Hp Hu Hv] Hx H. unfold put_bio in H. arr_inv.
  split; cbn; [by apply Forall_insert|done..].
Qed.

Lemma used_typed s u : bs_typed s -> bm_words u -> bs_typed (set_used u s).
Proof. intros [] Hu. by split. Qed.

Lemma release_typed s b u : bs_typed s -> pool_release (bio_pool_used s) b = Ok u -> bs_typed (set_used u s).
Proof. intros Hs H. apply used_typed; [done|]. eapply bm_clear_typed; [apply Hs|exact H]. Qed.

Lemma vec_read_typed s x i bv : bs_typed s -> vec_read s x i = Ok bv -> cell_typed (Some bv).
Proof.
  intros [_ _ Hv] H. unfold vec_read in H. destruct (bi_io_vec x) as [v|]; [|done]. destruct (vecs s !! v) as [arr|] eqn:Ha; [|done].
  arr_inv. destruct x0 as [bv'|]; [|done]. exec_inv. by eapply (Forall_lookup_1 _ _ _ _ (Hv _ _ Ha)).
Qed.

Lemma vec_write_typed s x i bv s' : bs_typed s -> cell_typed (Some bv) -> vec_write s x i bv = Ok s' -> bs_typed s'.
Proof.
  intros [Hp Hu Hv] Hb H. unfold vec_write in H. destruct (bi_io_vec x) as [v|]; [|done].
  destruct (vecs s !! v) as [arr|] eqn:Ha; [|done]. arr_inv.
  split; cbn; [done..|]. intros v' arr'. destruct (decide (v' = v)) as [->|Hne].
  - rewrite lookup_insert_eq. intros [= <-]. apply Forall_insert; [by apply (Hv v)|done].
  - rewrite lookup_insert_ne by done. apply Hv.
Qed.

Lemma bio_alloc_typed s nr mem s' o : bs_typed s -> bio_alloc s nr mem = Ok (s', o) -> bs_typed s'.
Proof.
  intros Hs H. unfold bio_alloc in H. exec_inv. destruct x as [[u b]|]; [|by exec_inv].
  assert (Hu : bm_words u) by (eapply bm_claim_typed; [apply Hs|eassumption]). assert (Hx : bio_typed (Bio 0 None 0 (u16 nr) 0 0 BIO_OP_READ 0 None None None None)).
  { split; cbn; auto with kernel. }
  destruct (0 <? nr); [destruct mem|]; exec_inv.
  - eapply put_typed; [| |eassumption]; [|split; cbn; auto with kernel].
    split; cbn; [apply Hs|done|]. intros v arr. destruct (decide (v = next_vec s)) as [->|Hne].
    + rewrite lookup_insert_eq. intros [= <-]. by apply Forall_replicate.
    + rewrite lookup_insert_ne by done. apply Hs.
  - eapply release_typed; [|done]. eapply put_typed; [|done|done]. by apply used_typed.
  - eapply put_typed; [|done|done]. by apply used_typed.
Qed.

Lemma bio_free_typed s b s' : bs_typed s -> bio_free s b = Ok s' -> bs_typed s'.
Proof.
  intros Hs H. unfold bio_free in H. destruct b as [b|]; [|by exec_inv]. exec_inv.
  assert (Hx : bio_typed x) by (by eapply get_typed).
  eapply release_typed; [|eassumption]. destruct (bi_io_vec x) as [v|]; [|by exec_inv].
  destruct (vecs s !! v); [|done]. eapply put_typed; [| |eassumption].
  - destruct Hs as [Hp Hu Hv]. split; cbn; [done..|]. intros v' arr Ha. apply (Hv v').
    apply lookup_delete_Some in Ha. by destruct Ha.
  - by destruct Hx; split.
Qed.

Lemma bio_add_page_typed s b page len offset s' r :
  bs_typed s -> fits 32 len -> fits 32 offset -> bio_add_page s b page len offset = Ok (s', r) -> bs_typed s'.
Proof.
  intros Hs Hl Ho H. unfold bio_add_page in H. exec_inv. destruct (_ <=? _); [by exec_inv|]. exec_inv.
  assert (Hx : bio_typed x) by (by eapply get_typed).
  eapply put_typed; [| |eassumption]; [eapply vec_write_typed; [exact Hs| |eassumption]; by split|].
  destruct Hx. split; cbn; auto with kernel.
Qed.

Lemma advance_loop_typed s x i fuel idx : bio_typed x -> fits 32 i -> advance_loop s x i fuel = Ok idx -> fits 32 idx.
Proof.
  intros Hx. revert i. induction fuel as [|fuel IH]; intros i Hi H; cbn [advance_loop] in H; exec_inv;
    destruct (_ && _) eqn:E; exec_inv; try done.
  eapply IH; [|eassumption]. bool_hyps. destruct Hx. unfold fits in *. lia.
Qed.

Lemma bio_advance_typed s b bytes s' : bs_typed s -> bio_advance s b bytes = Ok s' -> bs_typed s'.
Proof.
  intros Hs H. unfold bio_advance in H. exec_inv.
  match goal with H : get_bio _ _ = Ok ?x |- _ => assert (Hx : bio_typed x) by (by eapply get_typed) end.
  eapply put_typed; [| |eassumption].
  - eapply vec_write_typed; [exact Hs| |eassumption]. split; cbn; auto with kernel.
  - match goal with H : advance_loop _ _ _ _ = Ok _ |- _ => apply advance_loop_typed in H; [|done|apply Hx] end.
    destruct Hx. split; cbn; auto with kernel.
Qed.

Lemma bio_endio_typed s b error s' r : bs_typed s -> bio_endio s b error = Ok (s', r) -> bs_typed s'.
Proof.
  intros Hs H. unfold bio_endio in H. exec_inv. destruct (error <? 0); [|by exec_inv].
  match goal with H : get_bio s _ = Ok ?x |- _ => assert (Hx : bio_typed x) by (by eapply get_typed) end.
  eapply put_typed; [exact Hs| |eassumption]. destruct Hx. split; cbn; auto with kernel.
  change (Z.shiftl 1 BIO_UPTODATE) with (u64 (Z.shiftl 1 0)). by apply word_lor.
Qed.

Lemma clone_vecs_typed s x c i n s' : bs_typed s -> clone_vecs s x c i n = Ok s' -> bs_typed s'.
Proof.
  revert s i. induction n as [|n IH]; intros s i Hs H; cbn [clone_vecs] in H; exec_inv; [done|].
  eapply IH; [|eassumption]. eapply vec_write_typed; [exact Hs| |eassumption]. by eapply vec_read_typed.
Qed.

Lemma bio_clone_typed s b mem s' o : bs_typed s -> bio_clone s b mem = Ok (s', o) -> bs_typed s'.
Proof.
  intros Hs H. unfold bio_clone in H. exec_inv. destruct x0 as [s1 [c|]]; exec_inv; [|by eapply bio_alloc_typed].
  assert (Hx : bio_typed x) by (by eapply get_typed).
  assert (Hs1 : bs_typed s1) by (by eapply bio_alloc_typed).
  assert (Hy : bio_typed x0) by (by eapply get_typed).
  eapply clone_vecs_typed; [|eassumption]. eapply put_typed; [exact Hs1| |eassumption].
  destruct Hx, Hy. split; cbn; auto with kernel.
Qed.

Lemma bio_split_typed s b sectors mem s' c : bs_typed s -> bio_split s b sectors mem = Ok (s', c) -> bs_typed s'.
Proof.
  intros Hs H. unfold bio_split in H. exec_inv. destruct (_ <=? _); [by exec_inv|]. exec_inv.
  destruct x0 as [s1 [y|]]; exec_inv; [|by eapply bio_clone_typed].
  assert (Hs1 : bs_typed s1) by (by eapply bio_clone_typed). assert (Hy : bio_typed x0) by (by eapply get_typed).
  eapply bio_advance_typed; [|eassumption]. eapply put_typed; [exact Hs1| |eassumption].
  destruct Hy. split; cbn; auto with kernel.
Qed.
End typed.

(** ** Every sequence of operations *)

(** The calls of the interface, with arguments of their C types. *)
Inductive bio_call :=
  | CAlloc (nr_vecs : Z) (mem : bool)
  | CFree (b : option nat)
  | CAddPage (b page : nat) (len offset : Z)
  | CAdvance (b : nat) (bytes : Z)
  | CEndio (b : nat) (error : Z)
  | CSubmit (b : nat)
  | CClone (b : nat) (mem : bool)
  | CSplit (b : nat) (sectors : Z) (mem : bool).

Definition call_typed (c : bio_call) : Prop :=
  match c with CAddPage _ _ len offset => fits 32 len /\ fits 32 offset | _ => True end.

Definition do_call (bd_queue : nat -> option (option nat)) (s : bs) (c : bio_call) : exec bs :=
  match c with
  | CAlloc n mem => r ← bio_alloc s n mem; Ok (fst r)
  | CFree b => bio_free s b
  | CAddPage b page len offset => r ← bio_add_page s b page len offset; Ok (fst r)
  | CAdvance b bytes => bio_advance s b bytes
  | CEndio b error => r ← bio_endio s b error; Ok (fst r)
  | CSubmit b => r ← submit_bio bd_queue s b; Ok (fst r)
  | CClone b mem => r ← bio_clone s b mem; Ok (fst r)
  | CSplit b n mem => r ← bio_split s b n mem; Ok (fst r)
  end.

Fixpoint do_calls (bd_queue : nat -> option (option nat)) (s : bs) (cs : list bio_call) : exec bs :=
  match cs with [] => Ok s | c :: cs' => s' ← do_call bd_queue s c; do_calls bd_queue s' cs' end.

Lemma do_call_typed q s c s' : bs_typed s -> call_typed c -> do_call q s c = Ok s' -> bs_typed s'.
Proof.
  intros Hs Hc H. destruct c; cbn [do_call call_typed] in *; exec_inv; try (destruct x as [s1 r]; cbn [fst]).
  - by eapply bio_alloc_typed.
  - by eapply bio_free_typed.
  - destruct Hc. eapply bio_add_page_typed; [| | |eassumption]; done.
  - by eapply bio_advance_typed.
  - by eapply bio_endio_typed.
  - unfold submit_bio in *. exec_inv. destruct (bi_bdev x) as [d|]; [destruct (q d) as [[f|]|]|];
      exec_inv; try done; destruct x0; exec_inv; by eapply bio_endio_typed.
  - by eapply bio_clone_typed.
  - by eapply bio_split_typed.
Qed.

(** Type soundness of the descriptors: from a well-typed state, whatever calls
    are made in whatever order, with arguments of their declared types and on
    whatever descriptors, every field of every descriptor, every segment and
    every word of the pool bitmap still holds a value of its C type, as long as
    the execution has not left the language. *)
Theorem bio_calls_typed q s cs s' :
  bs_typed s -> Forall call_typed cs -> do_calls q s cs = Ok s' -> bs_typed s'.
Proof.
  intros Hs Hc. revert s Hs. induction Hc as [|c cs Hc _ IH]; intros s Hs H; cbn [do_calls] in H; exec_inv; [done|].
  eapply IH; [|eassumption]. by eapply do_call_typed.
Qed.

(** ** Witnesses *)

(** A pool with a bitmap of one word, as an adequate declaration would give. *)
Definition pool_with_word : bs := set_used [0] bio_pools_init.

Lemma pool_with_word_typed : bs_typed pool_with_word.
Proof.
  split; cbn [pool_with_word set_used bio_pool bio_pool_used vecs bio_pools_init].
  - apply Forall_replicate. split; unfold fits; cbn; lia.
  - repeat constructor; lia.
  - intros v arr. by rewrite lookup_empty.
Qed.

(** A write of eight sectors, split in two. *)
Definition demo_calls : list bio_call :=
  [CAlloc 4 true; CAddPage 0 7 4096 0; CAddPage 0 8 4096 0; CSplit 0 4 true; CEndio 0 (-5); CFree (Some 1%nat)].

Lemma bio_calls_typed_witness : exists s', do_calls (fun _ => None) pool_with_word demo_calls = Ok s' /\ bs_typed s'.
Proof.
  destruct (do_calls (fun _ => None) pool_with_word demo_calls) as [s'|f] eqn:H; [|vm_compute in H; discriminate].
  exists s'. split; [reflexivity|]. apply (bio_calls_typed (fun _ => None) pool_with_word demo_calls s'); [apply pool_with_word_typed| |exact H].
  repeat constructor; unfold fits; cbn; lia.
Defined.

Lemma blk_alloc_queue_shared_witness : exists qs3,
  blk_alloc_queue (<[0%nat := RequestQueue None 0 0 (Some 9%nat) None]> global_queues) = (qs3, Some 0%nat) /\
  make_request_fn <$> qs3 !! 0%nat = Some None.
Proof. apply (blk_alloc_queue_shared global_queues 0 9 global_queues); reflexivity. Defined.
