(* ===== verification/BioCalls.v ===== *)
(** * Sequences of block I/O calls ([demos/bio/bio.c])

    The indices of [bio.c]: in a pool whose bitmap has room for its 32 slots,
    [bi_idx <= bi_vcnt <= bi_max_vecs], the array of a descriptor has at least
    [bi_max_vecs] cells, those below [bi_vcnt] are written, and no two
    descriptors in use share an array.  Any sequence of calls on descriptors in
    use keeps this, and with it every access stays inside its array. *)
From Stdlib Require Import ZArith Lia.
From stdpp Require Import base numbers list option gmap.
From S2P Require Import Prelude Bitmap Bio BioQueue.

Open Scope Z_scope.

(** Slot [b] is marked as used. *)
Definition live (s : bs) (b : nat) : Prop := bit (bio_pool_used s) (Z.of_nat b) = true.

(** The indices of a descriptor fit its array. *)
Record slot_ok (vs : gmap nat (list (option bio_vec))) (x : bio) : Prop := {
  so_idx : 0 <= bi_idx x <= bi_vcnt x;
  so_cnt : bi_vcnt x <= bi_max_vecs x < 2 ^ 16;
  so_arr : match bi_io_vec x with
           | None => bi_max_vecs x = 0
           | Some v => exists arr, vs !! v = Some arr /\ bi_max_vecs x <= Z.of_nat (length arr) /\
               forall k, 0 <= k < bi_vcnt x -> exists bv, arr !! Z.to_nat k = Some (Some bv)
           end
}.

(** Arrays of other descriptors in use. *)
Definition others_own (s : bs) (b v : nat) : Prop :=
  exists j x, j <> b /\ live s j /\ bio_pool s !! j = Some x /\ bi_io_vec x = Some v.

Record bs_indexed (s : bs) : Prop := {
  ix_pool : length (bio_pool s) = Z.to_nat BIO_POOL_SIZE;
  ix_words : bm_words (bio_pool_used s);
  ix_bits : BIO_POOL_SIZE <= bm_bits (bio_pool_used s);
  ix_live b : live s b -> is_Some (bio_pool s !! b);
  ix_slot b x : live s b -> bio_pool s !! b = Some x -> slot_ok (vecs s) x;
  ix_own b x v : live s b -> bio_pool s !! b = Some x -> bi_io_vec x = Some v -> ~ others_own s b v;
  ix_fresh v arr : vecs s !! v = Some arr -> (v < next_vec s)%nat
}.

Section indexed.
Implicit Types (s : bs) (x : bio).

Lemma slot_ok_same vs vs' x : (forall v, bi_io_vec x = Some v -> vs' !! v = vs !! v) -> slot_ok vs x -> slot_ok vs' x.
Proof. intros Hv [H1 H2 H3]. split; [done..|]. destruct (bi_io_vec x) as [v|]; [|done]. by rewrite Hv. Qed.

(** A change of slot [b], of its mark and of arrays no other descriptor has. *)
Lemma indexed_change s s' b y :
  bs_indexed s -> bio_pool s' = <[b := y]> (bio_pool s) -> (b < length (bio_pool s))%nat ->
  bm_words (bio_pool_used s') -> length (bio_pool_used s') = length (bio_pool_used s) ->
  (forall j, j <> b -> live s' j <-> live s j) ->
  (live s' b -> slot_ok (vecs s') y /\ forall v, bi_io_vec y = Some v -> ~ others_own s b v) ->
  (forall v, others_own s b v -> vecs s' !! v = vecs s !! v) ->
  (forall v arr, vecs s' !! v = Some arr -> (v < next_vec s')%nat) ->
  bs_indexed s'.
Proof.
  intros [Ip Iw Ib Il Is Io If] Hpool Hb Hw Hlen Hlive Hy Hother Hfresh.
  assert (Hat : forall j x, bio_pool s' !! j = Some x -> j = b /\ x = y \/ j <> b /\ bio_pool s !! j = Some x).
  { intros j x. rewrite Hpool. destruct (decide (j = b)) as [->|Hne]; [rewrite list_lookup_insert_eq by done; intros [= <-]; by left|].
    rewrite list_lookup_insert_ne by done. by right. }
  assert (Hown : forall j v, j <> b -> others_own s' j v -> others_own s j v \/ live s' b /\ bi_io_vec y = Some v).
  { intros j v Hj (k & x & Hk & Hl & [[-> ->]|[Hkb Hx]]%Hat & Hv); [by right|]. left. exists k, x. split_and!; try done. by apply Hlive. }
  assert (Hownb : forall v, others_own s' b v -> others_own s b v).
  { intros v (k & x & Hk & Hl & [[-> _]|[Hkb Hx]]%Hat & Hv); [done|]. exists k, x. split_and!; try done. by apply Hlive. }
  split; [by rewrite Hpool, length_insert|done|unfold bm_bits in *; by rewrite Hlen| | | |done].
  - intros j Hj. rewrite Hpool. destruct (decide (j = b)) as [->|Hne]; [rewrite list_lookup_insert_eq by done; by eexists|].
    rewrite list_lookup_insert_ne by done. by apply Il, Hlive.
  - intros j x Hj [[-> ->]|[Hne Hx]]%Hat; [by apply Hy|]. apply Hlive in Hj; [|done]. apply (slot_ok_same (vecs s)); [|by apply (Is j)].
    intros v Hv. apply Hother. by exists j, x.
  - intros j x v Hj [[-> ->]|[Hne Hx]]%Hat Hv Ho; [apply (proj2 (Hy Hj) v Hv); by apply Hownb|].
    destruct (Hown j v Hne Ho) as [Ho'|[Hlb Hyv]]; [apply (Io j x v); [by apply Hlive|done..]|].
    apply (proj2 (Hy Hlb) v Hyv). exists j, x. split_and!; [done|by apply Hlive|done..].
Qed.

Lemma live_slot s b : bs_indexed s -> live s b -> exists x, bio_pool s !! b = Some x /\ slot_ok (vecs s) x /\ (b < length (bio_pool s))%nat.
Proof.
  intros Hs Hb. destruct (ix_live _ Hs b Hb) as [x Hx]. exists x. split; [done|]. split; [by eapply ix_slot|by eapply lookup_lt_Some].
Qed.

Lemma live_bit s b : bs_indexed s -> live s b -> 0 <= Z.of_nat b < bm_bits (bio_pool_used s).
Proof.
  intros Hs Hb. destruct (live_slot s b Hs Hb) as (_ & _ & _ & Hlt). rewrite (ix_pool _ Hs) in Hlt. pose proof (ix_bits _ Hs). unfold BIO_POOL_SIZE in *. lia.
Qed.

(** ** Allocation and release *)

Lemma release_spec s b : bs_indexed s -> 0 <= Z.of_nat b < bm_bits (bio_pool_used s) ->
  exists u, pool_release (bio_pool_used s) b = Ok u /\ length u = length (bio_pool_used s) /\ bm_words u /\
    forall j, bit u (Z.of_nat j) = if decide (j = b) then false else bit (bio_pool_used s) (Z.of_nat j).
Proof.
  intros Hs Hb. destruct (bm_clear_spec (bio_pool_used s) (Z.of_nat b) (ix_words _ Hs) Hb) as (u & Hu & Hlen & Hw & Hbits).
  exists u. split_and!; [done..|]. intros j. rewrite Hbits by lia. case_decide as E; [subst; by rewrite Z.eqb_refl|].
  by destruct (Z.eqb_spec (Z.of_nat j) (Z.of_nat b)); [lia|].
Qed.

(** What an allocation gives: a slot that was free, empty, with room for [n]. *)
Definition allocated s s' (n : Z) (b : nat) (y : bio) : Prop :=
  bio_pool s' = <[b := y]> (bio_pool s) /\ ~ live s b /\ (b < length (bio_pool s))%nat /\ live s' b /\
  (forall j, j <> b -> live s' j <-> live s j) /\ bi_vcnt y = 0 /\ bi_max_vecs y = u16 n /\ bi_idx y = 0 /\
  match bi_io_vec y with
  | None => n = 0 /\ vecs s' = vecs s
  | Some v => v = next_vec s /\ 0 < n /\ vecs s' = <[v := replicate (Z.to_nat n) None]> (vecs s)
  end.

Lemma vec_fresh s b x v : bs_indexed s -> live s b -> bio_pool s !! b = Some x -> bi_io_vec x = Some v -> (v < next_vec s)%nat.
Proof. intros Hs Hb Hx Hv. pose proof (so_arr _ _ (ix_slot _ Hs b x Hb Hx)) as H. rewrite Hv in H. destruct H as (arr & Ha & _). by eapply ix_fresh. Qed.

Lemma alloc_indexed s n mem : bs_indexed s -> 0 <= n -> exists s' o, bio_alloc s n mem = Ok (s', o) /\ bs_indexed s' /\
  (forall v, (v < next_vec s)%nat -> vecs s' !! v = vecs s !! v) /\
  match o with
  | Some b => exists y, allocated s s' n b y
  | None => forall j, live s j -> live s' j /\ bio_pool s' !! j = bio_pool s !! j
  end.
Proof.
  intros Hs Hn. pose proof (ix_bits _ Hs) as Hbits. unfold bio_alloc, BIO_POOL_SIZE in *. change (Z.to_nat 32) with 32%nat.
  destruct (bm_claim_spec (bio_pool_used s) 0 32 (ix_words _ Hs)) as (o & -> & Ho); [lia..|]. cbn [mbind exec_bind].
  destruct o as [[u b]|]; [|by exists s, None]. destruct Ho as (Hb & Hfree & _ & Hlen & Hw & Hbit).
  assert (Hlt : (b < length (bio_pool s))%nat) by (rewrite (ix_pool _ Hs); unfold BIO_POOL_SIZE; lia).
  destruct (lookup_lt_is_Some_2 _ _ Hlt) as [z Hz].
  assert (Hlive : forall j, j <> b -> bit u (Z.of_nat j) = true <-> live s j).
  { intros j Hj. rewrite Hbit by lia. by destruct (Z.eqb_spec (Z.of_nat j) (Z.of_nat b)); [lia|]. }
  assert (Hlb : bit u (Z.of_nat b) = true) by (rewrite Hbit by lia; by rewrite Z.eqb_refl).
  assert (Hnb : ~ live s b) by (unfold live; congruence).
  assert (Hu16 : 0 <= u16 n <= n) by (unfold wrapu; split; [by apply Z.mod_pos_bound|by apply Z.mod_le]).
  assert (Hu16' : u16 n < 2 ^ 16) by (by apply wrapu_range).
  assert (Hot : forall v, others_own s b v -> v <> next_vec s).
  { intros v (j & x & _ & Hj & Hx & Hv) ->. pose proof (vec_fresh s j x _ Hs Hj Hx Hv). lia. }
  destruct (Z.ltb_spec 0 n) as [Hpos|Hnp]; [destruct mem|].
  - cbn [next_vec set_used vecs bio_pool bio_pool_used]. set (v := next_vec s). rewrite (put_bio_ok _ _ z) by done. cbn [mbind exec_bind]. eexists _, (Some b). split; [done|]. split; [|split].
    + eapply (indexed_change s _ b); cbn [bio_pool set_pool bio_pool_used vecs next_vec set_used]; try done.
      * intros _. split; [|cbn; intros w [= <-] Hw'; by apply (Hot _ Hw')]. split; cbn; [lia|lia|]. exists (replicate (Z.to_nat n) None).
        rewrite lookup_insert_eq, length_replicate. split; [done|]. split; [lia|]. lia.
      * intros w Hw'. by rewrite lookup_insert_ne by (intros E; by apply (Hot w Hw')).
      * intros w arr. destruct (decide (w = v)) as [->|Hne]; [lia|]. rewrite lookup_insert_ne by done. intros Ha. apply (ix_fresh _ Hs) in Ha. lia.
    + intros w Hw'. cbn [vecs set_pool]. by rewrite lookup_insert_ne by (subst v; lia).
    + eexists. split; [done|]. cbn. split_and!; try done; by apply Hlive.
  - rewrite (put_bio_ok _ _ z) by done. cbn [mbind exec_bind].
    destruct (bm_clear_spec u (Z.of_nat b) Hw) as (u' & Hu' & Hlen' & Hw' & Hbit'); [unfold bm_bits in *; rewrite Hlen; lia|].
    cbn [bio_pool_used set_pool set_used]. unfold pool_release. rewrite Hu'. cbn [mbind exec_bind]. eexists _, None. split; [done|].
    assert (Hl' : forall j, live (set_used u' (set_pool (<[b := Bio 0 None 0 (u16 n) 0 0 BIO_OP_READ 0 None None None None]> (bio_pool s)) (set_used u s))) j <-> live s j).
    { intros j. unfold live. cbn. rewrite Hbit', Hbit by lia. destruct (Z.eqb_spec (Z.of_nat j) (Z.of_nat b)) as [E|]; [rewrite E, Hfree|]; done. }
    split; [|split; [done|]].
    + eapply (indexed_change s _ b); try done; cbn [bio_pool set_pool bio_pool_used vecs next_vec set_used];
        [congruence|intros Hl; by apply Hl' in Hl|apply (ix_fresh _ Hs)].
    + intros j Hj. split; [by apply Hl'|]. cbn. rewrite list_lookup_insert_ne; [done|]. intros <-. by apply Hnb.
  - assert (n = 0) as -> by lia. rewrite (put_bio_ok _ _ z) by done. cbn [mbind exec_bind]. eexists _, (Some b). split; [done|]. split; [|split; [done|]].
    + eapply (indexed_change s _ b); cbn [bio_pool set_pool bio_pool_used vecs next_vec set_used]; try done. apply (ix_fresh _ Hs).
    + eexists. split; [done|]. cbn. split_and!; try done; by apply Hlive.
Qed.
Lemma free_indexed s b : bs_indexed s -> match b with Some b => live s b | None => True end ->
  exists s', bio_free s b = Ok s' /\ bs_indexed s'.
Proof.
  intros Hs Hb. destruct b as [b|]; [|by exists s]. destruct (live_slot s b Hs Hb) as (x & Hx & Hok & Hlt).
  destruct (release_spec s b Hs (live_bit s b Hs Hb)) as (u & Hu & Hlen & Hw & Hbits). unfold bio_free. rewrite (get_bio_ok _ _ _ Hx). cbn [mbind exec_bind].
  assert (Hl : forall p vs j, live (Bs p u vs (next_vec s)) j <-> j <> b /\ live s j).
  { intros p vs j. unfold live. cbn. rewrite Hbits. case_decide; [split; [done|by intros []]|tauto]. }
  pose proof (so_arr _ _ Hok) as Harr. destruct (bi_io_vec x) as [v|] eqn:Hv.
  - destruct Harr as (arr & Ha & _). rewrite Ha. rewrite (put_bio_ok _ _ x) by done. cbn [mbind exec_bind bio_pool_used set_pool set_vecs].
    rewrite Hu. cbn [mbind exec_bind]. eexists. split; [done|].
    apply (indexed_change s _ b (with_vec None x)); unfold set_used; cbn [bio_pool set_pool bio_pool_used vecs next_vec set_vecs]; try done.
    + intros j Hj. rewrite Hl. tauto.
    + rewrite Hl. by intros [? _].
    + intros w Hw'. rewrite lookup_delete_ne; [done|]. intros ->. by eapply (ix_own _ Hs b x).
    + intros w a [_ Hwa]%lookup_delete_Some. by eapply ix_fresh.
  - cbn [mbind exec_bind]. rewrite Hu. cbn [mbind exec_bind]. eexists. split; [done|].
    apply (indexed_change s _ b x); unfold set_used; cbn [bio_pool bio_pool_used vecs next_vec]; try done.
    + by rewrite list_insert_id.
    + intros j Hj. rewrite Hl. tauto.
    + rewrite Hl. by intros [? _].
    + apply (ix_fresh _ Hs).
Qed.

(** ** Changes of a descriptor in use and its array *)

(** The descriptor becomes [y], with the same array [v], whose contents become [arr']. *)
Lemma indexed_fill s b x v arr arr' y : bs_indexed s -> live s b -> bio_pool s !! b = Some x -> bi_io_vec x = Some v -> vecs s !! v = Some arr ->
  bi_io_vec y = Some v -> bi_max_vecs y = bi_max_vecs x -> 0 <= bi_idx y <= bi_vcnt y -> bi_vcnt y <= bi_max_vecs y -> length arr' = length arr ->
  (forall k, 0 <= k < bi_vcnt y -> exists bv, arr' !! Z.to_nat k = Some (Some bv)) ->
  bs_indexed (Bs (<[b := y]> (bio_pool s)) (bio_pool_used s) (<[v := arr']> (vecs s)) (next_vec s)).
Proof.
  intros Hs Hb Hx Hv Ha Hyv Hym Hyi Hyc Hlen Hcells. pose proof (ix_slot _ Hs b x Hb Hx) as [Hi Hc Harr]. rewrite Hv in Harr.
  destruct Harr as (arr0 & Ha0 & Hmax & _). rewrite Ha in Ha0. injection Ha0 as <-.
  apply (indexed_change s _ b y); cbn [bio_pool bio_pool_used vecs next_vec]; try done.
  - by eapply lookup_lt_Some.
  - apply Hs.
  - intros _. split; [|intros w; rewrite Hyv; intros [= <-]; by eapply (ix_own _ Hs b x)]. split; [done|lia|]. rewrite Hyv.
    exists arr'. rewrite lookup_insert_eq, Hlen, Hym. done.
  - intros w Hw. rewrite lookup_insert_ne; [done|]. intros ->. by eapply (ix_own _ Hs b x).
  - intros w a. destruct (decide (w = v)) as [->|Hne]; [intros _; by eapply ix_fresh|]. rewrite lookup_insert_ne by done. apply (ix_fresh _ Hs).
Qed.

(** The descriptor changes only in fields without a bound. *)
Lemma indexed_set s b x y : bs_indexed s -> live s b -> bio_pool s !! b = Some x -> bi_io_vec y = bi_io_vec x ->
  bi_max_vecs y = bi_max_vecs x -> bi_vcnt y = bi_vcnt x -> bi_idx y = bi_idx x ->
  bs_indexed (set_pool (<[b := y]> (bio_pool s)) s).
Proof.
  intros Hs Hb Hx Hv Hm Hc Hi. pose proof (ix_slot _ Hs b x Hb Hx) as [H1 H2 H3].
  apply (indexed_change s _ b y); cbn [bio_pool bio_pool_used vecs next_vec set_pool]; try done.
  - by eapply lookup_lt_Some.
  - apply Hs.
  - intros _. split; [split; rewrite ?Hv, ?Hm, ?Hc, ?Hi; done|]. intros w. rewrite Hv. intros Hw. by eapply (ix_own _ Hs b x).
  - apply (ix_fresh _ Hs).
Qed.

Lemma add_page_indexed s b page len offset : bs_indexed s -> live s b -> exists s' r, bio_add_page s b page len offset = Ok (s', r) /\ bs_indexed s'.
Proof.
  intros Hs Hb. destruct (live_slot s b Hs Hb) as (x & Hx & [Hi Hc Harr] & Hlt). unfold bio_add_page. rewrite (get_bio_ok _ _ _ Hx). cbn [mbind exec_bind].
  destruct (Z.leb_spec (bi_max_vecs x) (bi_vcnt x)); [by eexists _, _|]. unfold vec_write.
  destruct (bi_io_vec x) as [v|] eqn:Hv; [|lia]. destruct Harr as (arr & Ha & Hmax & Hcells). rewrite Ha, arr_set_ok by lia. cbn [mbind exec_bind].
  rewrite (put_bio_ok _ _ x) by done. cbn [mbind exec_bind]. eexists _, _. split; [done|]. unfold set_pool, set_vecs. cbn [bio_pool bio_pool_used vecs next_vec].
  apply (indexed_fill s b x v arr); cbn [with_size bi_io_vec bi_max_vecs bi_idx bi_vcnt]; rewrite ?wrapu_small by lia; try done; try lia; [by rewrite length_insert|].
  intros k Hk. destruct (decide (k = bi_vcnt x)) as [->|Hne]; [rewrite list_lookup_insert_eq by lia; by eexists|].
  rewrite list_lookup_insert_ne by lia. apply Hcells. lia.
Qed.

Lemma endio_indexed s b error : bs_indexed s -> live s b -> exists s' r, bio_endio s b error = Ok (s', r) /\ bs_indexed s'.
Proof.
  intros Hs Hb. destruct (live_slot s b Hs Hb) as (x & Hx & _ & Hlt). unfold bio_endio. rewrite (get_bio_ok _ _ _ Hx). cbn [mbind exec_bind].
  destruct (error <? 0); cbn [mbind exec_bind]; [|rewrite (get_bio_ok _ _ _ Hx); by eexists _, _].
  rewrite (put_bio_ok _ _ x) by done. cbn [mbind exec_bind]. erewrite get_bio_ok by (cbn; by apply list_lookup_insert_eq). cbn [mbind exec_bind].
  eexists _, _. split; [done|]. by apply (indexed_set s b x).
Qed.

Lemma submit_indexed q s b : bs_indexed s -> live s b -> exists s' r, submit_bio q s b = Ok (s', r) /\ bs_indexed s'.
Proof.
  intros Hs Hb. destruct (live_slot s b Hs Hb) as (x & Hx & _). destruct (endio_indexed s b (- ENODEV) Hs Hb) as (s' & r & E & Hs').
  unfold submit_bio. rewrite (get_bio_ok _ _ _ Hx), E. cbn [mbind exec_bind].
  destruct (bi_bdev x) as [d|]; [destruct (q d) as [[f|]|]|]; by eexists _, _.
Qed.
(** ** Advancing *)

(** [bytes] may be consumed: the current segment is one of the [bi_vcnt], and
    one from there on is not empty afterwards. *)
Definition advances s (b : nat) (bytes : Z) : Prop :=
  forall x, bio_pool s !! b = Some x -> exists v arr bv k bv', bi_io_vec x = Some v /\ vecs s !! v = Some arr /\
    arr !! Z.to_nat (bi_idx x) = Some (Some bv) /\ bi_idx x <= k < bi_vcnt x /\
    <[Z.to_nat (bi_idx x) := Some (consume bytes bv)]> arr !! Z.to_nat k = Some (Some bv') /\ bv_len bv' <> 0.

Lemma advance_loop_stops s x v arr k bv' : bi_io_vec x = Some v -> vecs s !! v = Some arr -> k < bi_vcnt x ->
  (forall j, 0 <= j < bi_vcnt x -> exists bv, arr !! Z.to_nat j = Some (Some bv)) -> arr !! Z.to_nat k = Some (Some bv') -> bv_len bv' <> 0 ->
  forall fuel i, 0 <= i <= k -> (Z.to_nat (k - i) <= fuel)%nat -> exists j, advance_loop s x i fuel = Ok j /\ i <= j < bi_vcnt x.
Proof.
  intros Hv Ha Hk Hcells Hbv Hnz. induction fuel as [|fuel IH]; intros i Hi Hf; cbn [advance_loop];
    destruct (Hcells i) as [bv Hb]; try lia; rewrite (vec_read_cell s x v arr i bv) by (done || lia); cbn [mbind exec_bind].
  - assert (i = k) as -> by lia. rewrite Hbv in Hb. injection Hb as <-. rewrite (proj2 (Z.eqb_neq _ _) Hnz). eexists. split; [done|lia].
  - destruct (Z.eqb_spec (bv_len bv) 0) as [Hz|]; [|eexists; split; [done|lia]].
    assert (i <> k) by (intros ->; rewrite Hbv in Hb; injection Hb as <-; done). rewrite (proj2 (Z.ltb_lt i _)) by lia. cbn [andb].
    destruct (IH (i + 1)) as (j & -> & Hj); [lia..|]. exists j. split; [done|lia].
Qed.

Lemma advance_indexed s b bytes : bs_indexed s -> live s b -> advances s b bytes -> exists s', bio_advance s b bytes = Ok s' /\ bs_indexed s'.
Proof.
  intros Hs Hb Had. destruct (live_slot s b Hs Hb) as (x & Hx & [Hi Hc Harr] & Hlt).
  destruct (Had x Hx) as (v & arr & bv & k & bv' & Hv & Ha & Hbv & Hk & Hk' & Hnz). rewrite Hv in Harr. destruct Harr as (arr0 & Ha0 & Hmax & Hcells).
  rewrite Ha in Ha0. injection Ha0 as <-. unfold bio_advance. rewrite (get_bio_ok _ _ _ Hx). cbn [mbind exec_bind].
  rewrite (vec_read_cell s x v arr (bi_idx x) bv) by (done || lia). cbn [mbind exec_bind]. unfold vec_write. rewrite Hv, Ha, arr_set_ok by lia.
  cbn [mbind exec_bind]. fold (consume bytes bv). set (arr' := <[Z.to_nat (bi_idx x) := Some (consume bytes bv)]> arr) in *.
  assert (Hcells' : forall j, 0 <= j < bi_vcnt x -> exists bv, arr' !! Z.to_nat j = Some (Some bv)).
  { intros j Hj. subst arr'. destruct (decide (j = bi_idx x)) as [->|Hne]; [rewrite list_lookup_insert_eq by lia; by eexists|].
    rewrite list_lookup_insert_ne by lia. by apply Hcells. }
  destruct (advance_loop_stops (set_vecs (<[v := arr']> (vecs s)) s) x v arr' k bv') with (fuel := S (Z.to_nat (bi_vcnt x))) (i := bi_idx x)
    as (j & -> & Hj); [done|apply lookup_insert_eq|lia|done..|lia|lia|].
  cbn [mbind exec_bind]. rewrite (put_bio_ok _ _ x) by done. eexists. split; [done|]. unfold set_pool, set_vecs. cbn [bio_pool bio_pool_used vecs next_vec].
  apply (indexed_fill s b x v arr); cbn [with_size bi_io_vec bi_max_vecs bi_idx bi_vcnt]; try done; [lia|lia|]. subst arr'. by rewrite length_insert.
Qed.

(** ** Copies *)

(** The copy loop, between different arrays. *)
Lemma clone_loop x y v w arr n : forall s i brr, bi_io_vec x = Some v -> bi_io_vec y = Some w -> v <> w ->
  vecs s !! v = Some arr -> vecs s !! w = Some brr -> 0 <= i -> i + Z.of_nat n <= Z.of_nat (length brr) ->
  (forall k, 0 <= k < i + Z.of_nat n -> exists bv, arr !! Z.to_nat k = Some (Some bv)) ->
  (forall k, 0 <= k < i -> exists bv, brr !! Z.to_nat k = Some (Some bv)) ->
  exists brr', clone_vecs s x y i n = Ok (set_vecs (<[w := brr']> (vecs s)) s) /\ length brr' = length brr /\
    forall k, 0 <= k < i + Z.of_nat n -> exists bv, brr' !! Z.to_nat k = Some (Some bv).
Proof.
  induction n as [|n IH]; intros s i brr Hv Hw Hne Ha Hb Hi Hlen Hcells Hdone; cbn [clone_vecs].
  - exists brr. rewrite insert_id by done. split; [by destruct s|]. split; [done|]. intros k Hk. apply Hdone. lia.
  - destruct (Hcells i) as [bv Hbv]; [lia|]. rewrite (vec_read_cell s x v arr i bv) by (done || lia). cbn [mbind exec_bind].
    unfold vec_write. rewrite Hw, Hb, arr_set_ok by lia. cbn [mbind exec_bind].
    destruct (IH (set_vecs (<[w := <[Z.to_nat i := Some bv]> brr]> (vecs s)) s) (i + 1) (<[Z.to_nat i := Some bv]> brr)) as (brr' & -> & Hl & Hc); try done.
    + cbn. by rewrite lookup_insert_ne.
    + cbn. apply lookup_insert_eq.
    + lia.
    + rewrite length_insert. lia.
    + intros k Hk. apply Hcells. lia.
    + intros k Hk. destruct (decide (k = i)) as [->|Hki]; [rewrite list_lookup_insert_eq by lia; by eexists|].
      rewrite list_lookup_insert_ne by lia. apply Hdone. lia.
    + rewrite length_insert in Hl. exists brr'. cbn [set_vecs vecs]. unfold set_vecs. cbn [bio_pool bio_pool_used next_vec vecs]. rewrite insert_insert_eq.
      split; [done|]. split; [done|]. intros k Hk. apply Hc. lia.
Qed.
(** The descriptors in use before are as they were. *)
Definition keeps_live s s' : Prop :=
  forall j, live s j -> live s' j /\ bio_pool s' !! j = bio_pool s !! j /\
    forall x v, bio_pool s !! j = Some x -> bi_io_vec x = Some v -> vecs s' !! v = vecs s !! v.

Lemma clone_indexed s b mem : bs_indexed s -> live s b -> exists s' o, bio_clone s b mem = Ok (s', o) /\ bs_indexed s' /\ keeps_live s s' /\
  match o with Some c => live s' c /\ ~ live s c | None => True end.
Proof.
  intros Hs Hb. destruct (live_slot s b Hs Hb) as (x & Hx & [Hi Hc Harr] & Hlt). unfold bio_clone. rewrite (get_bio_ok _ _ _ Hx). cbn [mbind exec_bind].
  destruct (alloc_indexed s (bi_max_vecs x) mem Hs) as (s1 & o & -> & Hs1 & Hold & Ho); [lia|]. cbn [mbind exec_bind].
  assert (Hvecs : forall j z v, live s j -> bio_pool s !! j = Some z -> bi_io_vec z = Some v -> vecs s1 !! v = vecs s !! v).
  { intros j z v Hj Hz Hv. apply Hold. by eapply vec_fresh. }
  destruct o as [c|].
  2: { eexists _, None. split; [done|]. split; [done|]. split; [|done]. intros j Hj. destruct (Ho j Hj) as [H1 H2]. split; [done|]. split; [done|].
       intros z v. by apply Hvecs. }
  destruct Ho as (y & Hp1 & Hnc & Hcl & Hlc & Hlo & Hyc & Hym & Hyi & Hyv). rewrite wrapu_small in Hym by lia.
  assert (Hcb : forall j, live s j -> j <> c) by (intros j Hj ->; done).
  assert (Hy : bio_pool s1 !! c = Some y) by (rewrite Hp1; by apply list_lookup_insert_eq).
  rewrite (get_bio_ok _ _ _ Hy). cbn [mbind exec_bind]. rewrite (put_bio_ok _ _ y) by done. cbn [mbind exec_bind].
  set (y' := Bio (bi_sector x) (bi_io_vec y) (bi_vcnt x) (bi_max_vecs y) (bi_size x) 0 (bi_op x) (bi_flags y) (bi_next y) (bi_private x) (bi_end_io x) (bi_bdev x)).
  assert (Hkeep : forall vs, (forall j z v, live s j -> bio_pool s !! j = Some z -> bi_io_vec z = Some v -> vs !! v = vecs s !! v) ->
    keeps_live s (Bs (<[c := y']> (bio_pool s1)) (bio_pool_used s1) vs (next_vec s1))).
  { intros vs Hvs j Hj. pose proof (Hcb j Hj). split; [by apply (Hlo j)|]. cbn. rewrite Hp1, !list_lookup_insert_ne by done. split; [done|].
    intros z v. by apply Hvs. }
  destruct (bi_io_vec y) as [w|] eqn:Hw.
  - destruct Hyv as (-> & Hn & Hv1). destruct (bi_io_vec x) as [v|] eqn:Hxv; [|lia]. destruct Harr as (arr & Ha & Hmax & Hcells).
    assert (Hvw : v <> next_vec s) by (pose proof (ix_fresh _ Hs v arr Ha); lia).
    destruct (clone_loop x y' v (next_vec s) arr (Z.to_nat (bi_vcnt x)) (set_pool (<[c := y']> (bio_pool s1)) s1) 0 (replicate (Z.to_nat (bi_max_vecs x)) None))
      as (brr & -> & Hlen & Hbrr); try done.
    + cbn. by rewrite Hv1, lookup_insert_ne.
    + cbn. by rewrite Hv1, lookup_insert_eq.
    + rewrite length_replicate. lia.
    + intros k Hk. apply Hcells. lia.
    + lia.
    + cbn [mbind exec_bind]. eexists _, (Some c). split; [done|]. unfold set_vecs, set_pool. cbn [bio_pool bio_pool_used vecs next_vec]. split; [|split].
      * apply (indexed_fill s1 c y (next_vec s) (replicate (Z.to_nat (bi_max_vecs x)) None)); try done; subst y'; cbn; try lia.
        -- by rewrite Hv1, lookup_insert_eq.
        -- intros k Hk. apply Hbrr. lia.
      * apply Hkeep. intros j z u Hj Hz Hu. rewrite lookup_insert_ne; [by eapply Hvecs|]. pose proof (vec_fresh s j z u Hs Hj Hz Hu). lia.
      * split; [exact Hlc|done].
  - destruct Hyv as [Hn Hv1]. assert (bi_vcnt x = 0) as H0 by lia. rewrite H0. cbn [Z.to_nat clone_vecs mbind exec_bind]. eexists _, (Some c). split; [done|].
    split; [|split].
    + apply (indexed_set s1 c y); try done; subst y'; cbn; congruence.
    + apply Hkeep. intros j z u Hj Hz Hu. by eapply Hvecs.
    + split; [exact Hlc|done].
Qed.

(** A part of [sectors] may be split off, if there is more than that. *)
Definition splits s (b : nat) (sectors : Z) : Prop :=
  let bytes := s32 (Z.shiftl sectors 9) in
  forall x, bio_pool s !! b = Some x -> u32 bytes < bi_size x -> advances s b (u32 bytes).

Lemma split_indexed s b sectors mem : bs_indexed s -> live s b -> splits s b sectors -> exists s' c, bio_split s b sectors mem = Ok (s', c) /\ bs_indexed s'.
Proof.
  intros Hs Hb Had. destruct (live_slot s b Hs Hb) as (x & Hx & Hok & Hlt). unfold bio_split. rewrite (get_bio_ok _ _ _ Hx). cbn [mbind exec_bind].
  destruct (Z.leb_spec (bi_size x) (u32 (s32 (Z.shiftl sectors 9)))) as [|Hsz]; [by eexists _, _|].
  destruct (clone_indexed s b mem Hs Hb) as (s1 & o & -> & Hs1 & Hkeep & Ho). cbn [mbind exec_bind]. destruct o as [c|]; [|by eexists _, _].
  destruct Ho as [Hlc Hnc]. destruct (live_slot s1 c Hs1 Hlc) as (y & Hy & _). rewrite (get_bio_ok _ _ _ Hy). cbn [mbind exec_bind].
  rewrite (put_bio_ok _ _ y) by done. cbn [mbind exec_bind].
  match goal with |- context [set_pool (<[c := ?y']> _) s1] => set (s2 := set_pool (<[c := y']> (bio_pool s1)) s1); assert (Hs2 : bs_indexed s2) by (by apply (indexed_set s1 c y)) end.
  destruct (Hkeep b Hb) as (Hlb & Hpb & Hvb). assert (c <> b) by (by intros ->).
  destruct (advance_indexed s2 b (u32 (s32 (Z.shiftl sectors 9))) Hs2) as (s' & -> & Hs'); [exact Hlb| |cbn [mbind exec_bind]; by eexists _, _].
  intros z Hz. cbn in Hz. rewrite list_lookup_insert_ne, Hpb in Hz by done. rewrite Hx in Hz. injection Hz as <-.
  destruct (Had x Hx Hsz x Hx) as (v & arr & bv & k & bv' & Hv & Ha & Hrest). exists v, arr, bv, k, bv'. split; [done|]. split; [|done].
  cbn. by rewrite (Hvb x v Hx Hv).
Qed.
End indexed.

(** ** Sequences of calls *)

(** What the caller has to respect: arguments of their types, a number of
    segments that is not negative, descriptors in use, and no more bytes
    consumed than the segments have. *)
Definition allowed (s : bs) (c : bio_call) : Prop :=
  call_typed c /\
  match c with
  | CAlloc n _ => 0 <= n
  | CFree o => match o with Some b => live s b | None => True end
  | CAddPage b _ _ _ | CEndio b _ | CSubmit b | CClone b _ => live s b
  | CAdvance b bytes => live s b /\ advances s b bytes
  | CSplit b n _ => live s b /\ splits s b n
  end.

Fixpoint calls_allowed (q : nat -> option (option nat)) (s : bs) (cs : list bio_call) : Prop :=
  match cs with [] => True | c :: cs' => allowed s c /\ forall s', do_call q s c = Ok s' -> calls_allowed q s' cs' end.

Lemma do_call_indexed q s c : bs_indexed s -> allowed s c -> exists s', do_call q s c = Ok s' /\ bs_indexed s'.
Proof.
  intros Hs [_ Ha]. destruct c as [n mem|o|b page len offset|b bytes|b error|b|b mem|b n mem]; cbn [do_call].
  - destruct (alloc_indexed s n mem Hs Ha) as (s' & o & -> & Hs' & _). by exists s'.
  - by apply free_indexed.
  - destruct (add_page_indexed s b page len offset Hs Ha) as (s' & r & -> & Hs'). by exists s'.
  - destruct Ha. by apply advance_indexed.
  - destruct (endio_indexed s b error Hs Ha) as (s' & r & -> & Hs'). by exists s'.
  - destruct (submit_indexed q s b Hs Ha) as (s' & r & -> & Hs'). by exists s'.
  - destruct (clone_indexed s b mem Hs Ha) as (s' & o & -> & Hs' & _). by exists s'.
  - destruct Ha as [Hb Had]. destruct (split_indexed s b n mem Hs Hb Had) as (s' & c & -> & Hs'). by exists s'.
Qed.


(** ** Witnesses *)

Lemma pool_with_word_indexed : bs_indexed pool_with_word.
Proof.
  assert (Hno : forall b, ~ live pool_with_word b) by (intros b; unfold live; change (bio_pool_used pool_with_word) with (replicate 1 0); by rewrite bit_zero).
  split; [done|apply pool_with_word_typed|done|by intros b ?%Hno|by intros b x ?%Hno|by intros b x v ?%Hno|]. intros v arr. cbn. by rewrite lookup_empty.
Qed.

(** Two segments of one page in a descriptor for four; four sectors are split
    off, the copy is completed with an error and freed. *)
Lemma demo_calls_allowed : calls_allowed (fun _ => None) pool_with_word demo_calls.
Proof.
  repeat (split; [split; [try done; unfold fits; cbn; lia|]|intros ? H; vm_compute in H; injection H as <-]); try done.
  split; [reflexivity|]. intros x Hx _ y Hy. vm_compute in Hy. injection Hy as <-.
  eexists _, _, _, 0, _. split; [reflexivity|]. split; [reflexivity|]. split; [reflexivity|]. split; [done|]. split; [vm_compute; reflexivity|]. done.
Qed.

