(* ===== verification/FutexLive.v ===== *)
(** * Progress of the locks ([demos/futex])

    From every configuration the workers can reach, whatever happened before,
    they can still all finish, without any spurious wakeup: the measure is the
    number of iterations left, and a thread that holds the lock, or finds it
    free, completes its iteration in finitely many steps of its own.  What this
    needs of a lock beyond [LockLaws] is the class [LockProgress]. *)
From Stdlib Require Import ZArith Lia.
From stdpp Require Import base numbers list option relations.
From S2P Require Import Prelude Futex.

Open Scope Z_scope.

(** Ranks that decrease inside lock while the word is 0, and inside unlock. *)
Class LockProgress (A : LockAlgo) `{!LockLaws A} := {
  lrank : lpc -> nat;
  urank : upc -> nat;
  lock_rank p q : lock_ok p -> lock_run p 0 = (0, LGoto q) -> (lrank q < lrank p)%nat;
  unlock_rank u l l' v : unlock_run u l = (l', UGoto v) -> (urank v < urank u)%nat
}.

#[export] Instance v1_progress : LockProgress v1.
Proof. refine {| lrank (_ : @lpc v1) := 0%nat; urank (_ : @upc v1) := 0%nat |}; cbn; lock_cases; done. Defined.

#[export] Instance v2_progress : LockProgress v2.
Proof. refine {| lrank (_ : @lpc v2) := 0%nat; urank (_ : @upc v2) := 0%nat |}; cbn; lock_cases; done. Defined.

(** The store of unlock comes before the wake. *)
Definition futex_urank (u : futex_upc) : nat := match u with UStore => 1 | UWakeCall => 0 end.

#[export] Instance v3_progress : LockProgress v3.
Proof.
  refine {| lrank (p : @lpc v3) := match p with V3Wait1 | V3Wait2 => 1%nat | _ => 0%nat end;
            urank (u : @upc v3) := futex_urank u |};
    cbn; unfold futex_wait, futex_unlock_run; lock_cases; cbn; (done || lia).
Defined.

#[export] Instance v4_progress : LockProgress v4.
Proof.
  refine {| lrank (p : @lpc v4) := match p with V4Wait _ => 2%nat | V4Read => 1%nat | _ => 0%nat end;
            urank (u : @upc v4) := futex_urank u |};
    cbn; unfold futex_wait, futex_unlock_run; lock_cases; cbn; (done || lia).
Defined.

#[export] Instance algo_progress v : LockProgress (algo v).
Proof. destruct v; [exact v1_progress|exact v2_progress|exact v3_progress|exact v4_progress]. Defined.

Section progress.
Context {A : LockAlgo} {LL : LockLaws A} {LP : LockProgress A} {K : FutexKernel}.
Variable iters : nat.
Implicit Types (t : thread A) (ts : list (thread A)) (c : config A).

(** Iterations left, over all threads. *)
Definition left (ts : list (thread A)) : Z := sumZ (Z.of_nat ∘ th_left <$> ts).

Lemma left_insert ts i t t' : ts !! i = Some t ->
  left (<[i := t']> ts) = left ts - Z.of_nat (th_left t) + Z.of_nat (th_left t').
Proof.
  intros Hi. unfold left. rewrite list_fmap_insert. apply sumZ_insert. by rewrite list_lookup_fmap, Hi.
Qed.

Lemma left_nonneg ts : 0 <= left ts.
Proof. apply sumZ_nonneg, Forall_fmap, Forall_true. intros t. cbn. lia. Qed.

Lemma left_resume ts j t : ts !! j = Some t -> left (alter resume j ts) = left ts.
Proof.
  intros Hj. rewrite (alter_resume _ _ _ Hj), (left_insert _ _ _ _ Hj). unfold resume. destruct (th_state t); cbn; lia.
Qed.

(** Some steps complete an iteration. *)
Definition completes (c : config A) : Prop := exists c', rtc cstep c c' /\ left (cf_threads c') < left (cf_threads c).

Lemma completes_step c c1 : cstep c c1 -> left (cf_threads c1) = left (cf_threads c) -> completes c1 -> completes c.
Proof. intros Hs Hl (c' & Hr & Hlt). exists c'. split; [by eapply rtc_l|lia]. Qed.

(** A thread in unlock leaves it. *)
Lemma unlock_completes k u n l cnt ts i : (urank u <= k)%nat -> (1 <= n)%nat ->
  ts !! i = Some (Thread (AtUnlock u) n) -> completes (Config l cnt ts).
Proof.
  revert u l ts. induction k as [|k IH]; intros u l ts Hk Hn Hi;
    (destruct (next_iteration_spec n n Hn) as (Hleft & _));
    (destruct (unlock_run u l) as [l' [v| |]] eqn:Hrun).
  1: apply unlock_rank in Hrun; lia.
  3: { eapply completes_step; [by eapply step_unlock_goto|cbn [cf_threads]; rewrite (left_insert _ _ _ _ Hi); cbn; lia|].
       apply (IH v); [apply unlock_rank in Hrun; lia|done|]. apply list_lookup_insert_eq. by eapply lookup_lt_Some. }
  1,3: (eexists; split; [apply rtc_once; by eapply step_unlock_leave|]; cbn [cf_threads]; rewrite (left_insert _ _ _ _ Hi), Hleft; cbn; lia).
  all: destruct (wakes_total (sleepers ts)) as [o Ho]; (eexists; split; [apply rtc_once; by eapply step_unlock_wake|]); cbn [cf_threads];
    destruct o as [j|]; [|rewrite (left_insert _ _ _ _ Hi), Hleft; cbn; lia].
  all: apply wakes_waiter, sleepers_elem in Ho as (t & Hj & Ht).
  all: assert (i <> j) by (intros ->; rewrite Hi in Hj; by simplify_eq).
  all: rewrite (left_resume _ _ t) by (by rewrite list_lookup_insert_ne).
  all: rewrite (left_insert _ _ _ _ Hi), Hleft; cbn; lia.
Qed.

(** A thread between lock and unlock reaches unlock. *)
Lemma critical_completes st n l cnt ts i : (1 <= n)%nat -> (st = AtLoad \/ exists r, st = AtStore r) ->
  ts !! i = Some (Thread st n) -> completes (Config l cnt ts).
Proof.
  intros Hn Hst Hi. pose proof (lookup_lt_Some _ _ _ Hi) as Hlt.
  assert (forall r cnt ts, ts !! i = Some (Thread (AtStore r) n) -> completes (Config l cnt ts)) as Hstore.
  { intros r cnt' ts' Hi'. pose proof (lookup_lt_Some _ _ _ Hi').
    eapply completes_step; [by eapply step_store|cbn [cf_threads]; rewrite (left_insert _ _ _ _ Hi'); cbn; lia|].
    eapply (unlock_completes (urank unlock_entry)); [done|done|]. by apply list_lookup_insert_eq. }
  destruct Hst as [->|[r ->]]; [|by eapply Hstore].
  eapply completes_step; [by eapply step_load|cbn [cf_threads]; rewrite (left_insert _ _ _ _ Hi); cbn; lia|].
  apply (Hstore cnt). by apply list_lookup_insert_eq.
Qed.

(** A thread in lock that finds the word 0 enters. *)
Lemma lock_completes k p n cnt ts i : (lrank p <= k)%nat -> lock_ok p -> (1 <= n)%nat ->
  ts !! i = Some (Thread (AtLock p) n) -> completes (Config 0 cnt ts).
Proof.
  revert p ts. induction k as [|k IH]; intros p ts Hk Hok Hn Hi; pose proof (lookup_lt_Some _ _ _ Hi) as Hlt;
    (destruct (lock_run p 0) as [l' [q| |q]] eqn:Hrun).
  - destruct (lock_goto p 0 l' q Hok) as [-> Hq]; [lia|done|]. apply lock_rank in Hrun; [lia|done].
  - eapply completes_step; [by eapply step_lock_enter|cbn [cf_threads]; rewrite (left_insert _ _ _ _ Hi); cbn; lia|].
    eapply critical_completes; [done|by left|by apply list_lookup_insert_eq].
  - destruct (lock_block p 0 l' q Hok) as (_ & ? & _); [lia|done|lia].
  - destruct (lock_goto p 0 l' q Hok) as [-> Hq]; [lia|done|].
    eapply completes_step; [by eapply step_lock_goto|cbn [cf_threads]; rewrite (left_insert _ _ _ _ Hi); cbn; lia|].
    apply (IH q); [apply lock_rank in Hrun; [lia|done]|done|done|by apply list_lookup_insert_eq].
  - eapply completes_step; [by eapply step_lock_enter|cbn [cf_threads]; rewrite (left_insert _ _ _ _ Hi); cbn; lia|].
    eapply critical_completes; [done|by left|by apply list_lookup_insert_eq].
  - destruct (lock_block p 0 l' q Hok) as (_ & ? & _); [lia|done|lia].
Qed.

(** A holder completes its iteration. *)
Lemma holder_completes c i t : inv iters c -> cf_threads c !! i = Some t -> holder t = true -> completes c.
Proof.
  destruct c as [l cnt ts], t as [st n]. intros [Hcore _] Hi Hh. cbn in *.
  pose proof (core_thread _ _ _ _ _ _ Hcore Hi) as Hok. unfold thread_ok, holder in *. cbn in *. destruct st; try done.
  - eapply critical_completes; [|by left|done]. lia.
  - destruct Hok. eapply critical_completes; [|right; by eexists|done]. lia.
  - by eapply unlock_completes.
Qed.

(** As long as somebody has not finished, an iteration can be completed. *)
Lemma inv_completes c : inv iters c -> ~ all_joined c -> completes c.
Proof.
  intros Hinv Hnot. pose proof Hinv as [Hcore Haw]. unfold all_joined in Hnot.
  apply not_Forall_Exists in Hnot; [|apply _]. apply Exists_exists in Hnot as (t & Hin & Ht).
  assert (Exists (fun t => awake t = true) (cf_threads c)) as (u & Hu & Hawake)%Exists_exists.
  { destruct (asleep t) eqn:Ha; [apply Haw, Exists_exists; by exists t|].
    apply Exists_exists. exists t. split; [done|]. unfold awake. apply not_true_is_false in Ht. by rewrite Ha, Ht. }
  apply list_elem_of_lookup in Hu as [i Hi]. pose proof Hcore as (Hl & _).
  destruct (decide (cf_lock c = 1)) as [H1|H0].
  - destruct (core_holder iters _ _ _ Hcore H1) as (j & t' & Hj & Hh & _). by eapply holder_completes.
  - pose proof (core_thread _ _ _ _ _ _ Hcore Hi) as Hok. destruct c as [l cnt ts], u as [st n]. cbn in *.
    assert (l = 0) as -> by lia. unfold thread_ok, awake, asleep, finished in *. cbn in *. destruct st; try done.
    + destruct Hok. by eapply lock_completes.
    + eapply critical_completes; [|by left|done]. lia.
    + destruct Hok. eapply critical_completes; [|right; by eexists|done]. lia.
    + by eapply unlock_completes.
Qed.

Lemma inv_rtc c c' : inv iters c -> rtc cstep c c' -> inv iters c'.
Proof. intros Hinv Hr. induction Hr as [|c1 c2 c3 Hs _ IH]; [done|]. apply IH. by eapply inv_cstep. Qed.

Lemma inv_finishes c : inv iters c -> exists c', rtc cstep c c' /\ all_joined c'.
Proof.
  remember (Z.to_nat (left (cf_threads c))) as m eqn:Hm. revert c Hm.
  induction (lt_wf m) as [m _ IH]. intros c Hm Hinv. unfold all_joined.
  destruct (decide (Forall (fun t => finished t = true) (cf_threads c))) as [Hj|Hnot]; [by exists c|].
  destruct (inv_completes c Hinv Hnot) as (c1 & Hr & Hlt). pose proof (left_nonneg (cf_threads c1)).
  destruct (IH (Z.to_nat (left (cf_threads c1)))) with (c := c1) as (c' & Hr' & Hj); [lia|done|by eapply inv_rtc|].
  exists c'. split; [by etrans|done].
Qed.
End progress.

(** From every configuration that workers of one of the four locks can reach,
    with any kernel and any spurious wakeups so far, some schedule without
    further spurious wakeups lets every worker return; the counter is then the
    number of workers times the iterations, and the lock free.  So no wakeup is
    ever lost, and no state of the lock word leaves a thread stuck. *)
Theorem workers_can_finish {K : FutexKernel} v n iters (c : config (algo v)) :
  reachable n iters c ->
  exists c', rtc cstep c c' /\ all_joined c' /\ cf_counter c' = Z.of_nat n * Z.of_nat iters /\ cf_lock c' = 0.
Proof.
  intros Hr. destruct (inv_finishes iters c (inv_reachable iters n c Hr)) as (c' & Hs & Hj). exists c'.
  split; [done|]. split; [done|]. apply (joined_counter iters n c'); [|done]. unfold reachable in *. etrans; [exact Hr|].
  clear -Hs. induction Hs as [|c1 c2 c3 Hs _ IH]; [done|]. eapply rtc_l; [by left|done].
Qed.

(** Three workers, of which one is asleep. *)
Lemma workers_can_finish_witness :
  let c := Config 1 0 [Thread AtLoad 1; Thread (Asleep (V3Cas2 : @lpc v3)) 1; Thread (AtLock (V3Cas1 : @lpc v3)) 1] : config (algo V3) in
  reachable 3 1 c /\ exists c', rtc cstep c c' /\ all_joined c' /\ cf_counter c' = 3 * 1 /\ cf_lock c' = 0.
Proof.
  intros c. assert (Hr : reachable 3 1 c).
  { eapply rtc_l; [left; refine (step_lock_enter (A := v3) 0 0 _ 0 V3Cas1 1 1 _ _); reflexivity|].
    eapply rtc_l; [left; refine (step_lock_goto (A := v3) 1 0 _ 1 V3Cas1 1 1 V3Wait1 _ _); reflexivity|].
    apply rtc_once; left. refine (step_lock_block (A := v3) 1 0 _ 1 V3Wait1 1 1 V3Cas2 _ _); reflexivity. }
  split; [exact Hr|]. exact (workers_can_finish V3 3 1 c Hr).
Defined.
