(* ===== verification/FileCalls.v ===== *)
(** * Programs over files and the heap

    The two test drivers ([demos/bio/bio_test.c], [demos/writeback/wb_test.c])
    open, read, write and delete files and allocate buffers.  They are programs
    of [Syscall]'s monad over the calls [fcall].  The class [FileKernel] states
    the documented behaviour they may rely on, in terms of the allocated blocks
    and the open descriptors; [checked] replays a trace on an allocated heap
    and refuses it when a call touches memory that is not allocated.  [wp] is a
    weakest precondition over all legal answers, and [wp_adequate] carries what
    it shows to every kernel of the class. *)
From Stdlib Require Import ZArith Lia String Ascii.
From stdpp Require Import base numbers list option gmap strings.
From S2P Require Import Prelude Syscall.

Open Scope Z_scope.

Create HintDb files.

(** ** Calls *)

(** Pointers are addresses; 0 is [NULL]. *)
Inductive fcall :=
  | Open (path : string) (flags : Z)
  | ReadTo (fd buf count : Z)
  | WriteFrom (fd buf count : Z)
  | Lseek (fd off : Z)
  | Fsync (fd : Z)
  | CloseFd (fd : Z)
  | Unlink (path : string)
  | Malloc (size : Z)
  | Memalign (align size : Z)
  | Free (p : Z)
  | Memset (p byte size : Z)
  | EnterArray (size : Z)
  | LeaveArray (p : Z)
  | Gettimeofday
  | Rand
  | Fopen (path : string)
  | Fclose
  | Say (fmt : string) (args : list arg)
  | Complain (what : string).

(** [Memalign] answers the new value of the pointer, or nothing on failure,
    which leaves the pointer alone; [Fopen] the bytes that the stream delivers.
    [EnterArray] and [LeaveArray] are the lifetime of an automatic array. *)
Definition fanswer (c : fcall) : Type :=
  match c with
  | Open _ _ | ReadTo _ _ _ | WriteFrom _ _ _ | Lseek _ _ | Fsync _ | CloseFd _ | Unlink _ | Malloc _ | EnterArray _ | Rand => Z
  | Memalign _ _ => option Z
  | Gettimeofday => Z * Z
  | Fopen _ => option (list Z)
  | Free _ | LeaveArray _ | Memset _ _ _ | Fclose | Say _ _ | Complain _ => unit
  end.

Notation fileprog := (prog fanswer).

Definition O_RDONLY : Z := 0.
Definition O_WRONLY : Z := 1.
Definition O_CREAT : Z := 64.
Definition O_TRUNC : Z := 512.
Definition O_DIRECT : Z := 16384.
Definition create_flags : Z := Z.lor O_WRONLY (Z.lor O_CREAT O_TRUNC).

Definition say (fmt : string) (args : list arg) : fileprog unit := call (Say fmt args).

(** [memset] through a null pointer is a fault. *)
Definition memset (p byte size : Z) : fileprog unit :=
  if p =? 0 then Fault NullPointer else call (Memset p byte size).

(** [for (i = 0; i < n; i++) body]. *)
Fixpoint times (n : nat) (body : fileprog unit) : fileprog unit :=
  match n with O => Ret () | S n' => body;; times n' body end.

(** ** What a kernel promises *)

Notation blocks := (gmap Z Z).

(** A transfer of [n] bytes through [p] stays in a block; a null pointer is
    refused by the call ([EFAULT]). *)
Definition in_block (h : blocks) (p n : Z) : bool :=
  match h !! p with Some size => n <=? size | None => p =? 0 end.

Definition valid (c : fcall) (h : blocks) : bool :=
  match c with
  | ReadTo _ p n | WriteFrom _ p n => in_block h p n
  | Memset p _ n => negb (p =? 0) && in_block h p n
  | EnterArray n => 0 <=? n
  | LeaveArray p => bool_decide (is_Some (h !! p))
  | Free p => (p =? 0) || bool_decide (is_Some (h !! p))
  | _ => true
  end.

(** A pointer just returned: null, or a block that was not allocated. *)
Definition fresh_ptr (h : blocks) (p : Z) : Prop := p = 0 \/ h !! p = None.

Definition legal (c : fcall) : fanswer c -> blocks -> gset Z -> Prop :=
  match c with
  | Open _ _ => fun fd _ F => fd ∉ F
  | Malloc _ => fun p h _ => fresh_ptr h p
  | EnterArray _ => fun p h _ => p <> 0 /\ h !! p = None
  | Memalign _ _ => fun a h _ => match a with Some p => p <> 0 /\ h !! p = None | None => True end
  | ReadTo fd _ n => fun r _ F => r <= Z.max 0 n /\ (fd ∉ F -> r = -1)
  | WriteFrom fd _ n => fun r _ F => r <= Z.max 0 n /\ (fd ∉ F -> r = -1)
  | Fsync fd => fun r _ F => fd ∉ F -> r = -1
  | Rand => fun r _ _ => 0 <= r < 2 ^ 31
  | _ => fun _ _ _ => True
  end.

Definition alloc (p size : Z) (h : blocks) : blocks := if p =? 0 then h else <[p := size]> h.

Definition heap_after (c : fcall) : fanswer c -> blocks -> blocks :=
  match c with
  | Malloc size | EnterArray size => fun p h => alloc p size h
  | Memalign _ size => fun a h => match a with Some p => alloc p size h | None => h end
  | Free p | LeaveArray p => fun _ h => delete p h
  | _ => fun _ h => h
  end.

Definition open_after (c : fcall) : fanswer c -> gset Z -> gset Z :=
  match c with
  | Open _ _ => fun fd F => opened fd ∪ F
  | CloseFd fd => fun _ F => F ∖ {[fd]}
  | _ => fun _ F => F
  end.

(** Null is never allocated. *)
Class FileKernel (K : kernel fanswer) := {
  kblocks : kst K -> blocks;
  kfiles : kst K -> gset Z;
  knull s : kblocks s !! 0 = None;
  klegal s c : legal c (fst (kcall K s c)) (kblocks s) (kfiles s);
  kblocks_after s c : valid c (kblocks s) -> kblocks (snd (kcall K s c)) = heap_after c (fst (kcall K s c)) (kblocks s);
  kfiles_after s c : kfiles (snd (kcall K s c)) = open_after c (fst (kcall K s c)) (kfiles s)
}.

(** Replaying a trace: the blocks it leaves, or nothing if a call of it uses
    memory that is not allocated. *)
Fixpoint checked (h : blocks) (t : list (event fanswer)) : option blocks :=
  match t with
  | [] => Some h
  | existT c a :: t' => if valid c h then checked (heap_after c a h) t' else None
  end.

(** ** Weakest preconditions *)

(** Every call of [p] is valid, and [Q] holds at the end whatever legal answers
    the calls get. *)
Fixpoint wp {A} (p : fileprog A) (h : blocks) (F : gset Z)
    (Q : outcome A -> list (event fanswer) -> blocks -> gset Z -> Prop) : Prop :=
  match p with
  | Ret a => Q (Returned a) [] h F
  | Exit code => Q (Exited code) [] h F
  | Fault f => Q (Faulted f) [] h F
  | Call c k => valid c h /\ forall a, legal c a h F ->
      wp (k a) (heap_after c a h) (open_after c a F) (fun o t => Q o (existT c a :: t))
  end.

Lemma wp_call {A} c (k : fanswer c -> fileprog A) h F Q :
  valid c h ->
  (forall a, legal c a h F -> wp (k a) (heap_after c a h) (open_after c a F) (fun o t => Q o (existT c a :: t))) ->
  wp (Call c k) h F Q.
Proof. done. Qed.

Lemma wp_mono {A} (p : fileprog A) h F (Q R : outcome A -> _ -> _ -> _ -> Prop) :
  wp p h F Q -> (forall o t h' F', Q o t h' F' -> R o t h' F') -> wp p h F R.
Proof.
  revert h F Q R. induction p as [a|code|f|c k IH]; intros h F Q R; cbn [wp]; [auto..|].
  intros [Hv Hk] Hi. split; [done|]. intros a Ha. eapply IH; [by apply Hk|]. auto.
Qed.

Lemma wp_bind {A B} (p : fileprog A) (g : A -> fileprog B) h F Q :
  wp p h F (fun o t h' F' =>
    match o with
    | Returned a => wp (g a) h' F' (fun o2 t2 => Q o2 (t ++ t2))
    | Exited code => Q (Exited code) t h' F'
    | Faulted f => Q (Faulted f) t h' F'
    end) ->
  wp (p ≫= g) h F Q.
Proof.
  unfold mbind, prog_bind. revert h F Q. induction p as [a|code|f|c k IH]; intros h F Q; cbn [wp bind_prog]; [done..|].
  intros [Hv Hk]. split; [done|]. intros a Ha. by apply IH, Hk.
Qed.

(** A loop whose body keeps heap and descriptors, and whose events satisfy [P]. *)
Lemma wp_times (P : event fanswer -> Prop) n body h F :
  wp body h F (fun o t h' F' => o = Returned () /\ Forall P t /\ h' = h /\ F' = F) ->
  wp (times n body) h F (fun o t h' F' => o = Returned () /\ Forall P t /\ h' = h /\ F' = F).
Proof.
  intros Hb. induction n as [|n IH]; cbn [times]; [by cbn|]. apply wp_bind. eapply wp_mono; [apply Hb|].
  intros o t h' F' (-> & Ht & -> & ->). eapply wp_mono; [apply IH|].
  intros o t' h' F' (-> & Ht' & -> & ->). split_and!; try done. by apply Forall_app.
Qed.

(** What is shown for all legal answers holds for every kernel of the class,
    and no call of the run touches memory that is not allocated. *)
Lemma wp_adequate {A} (K : kernel fanswer) `{!FileKernel K} (p : fileprog A) s Q :
  wp p (kblocks s) (kfiles s) Q ->
  ends K p s (fun o t s' => checked (kblocks s) t = Some (kblocks s') /\ Q o t (kblocks s') (kfiles s')).
Proof.
  revert s Q. induction p as [a|code|f|c k IH]; intros s Q; cbn [wp]; [done..|].
  intros [Hv Hk]. apply ends_call. intros a s' Hc.
  pose proof (klegal s c) as Hl. pose proof (kblocks_after s c Hv) as Hb. pose proof (kfiles_after s c) as Hf.
  rewrite Hc in Hl, Hb, Hf. cbn [fst snd] in Hl, Hb, Hf. specialize (Hk a Hl). rewrite <- Hb, <- Hf in Hk.
  eapply ends_mono; [by apply IH|]. cbn beta. intros o t s2 [Ht HQ]. split; [|done].
  cbn [checked]. destruct (valid c (kblocks s)); [|done]. by rewrite <- Hb.
Qed.

(** ** Proving weakest preconditions *)

Lemma in_block_alloc h p n size : h !! 0 = None -> n <= size -> in_block (alloc p size h) p n.
Proof.
  intros H0 Hn. unfold in_block, alloc. destruct (Z.eqb_spec p 0) as [->|]; [by rewrite H0|].
  rewrite lookup_insert_eq. by apply Is_true_true, Z.leb_le.
Qed.

Lemma valid_read h fd p n size : h !! 0 = None -> n <= size -> valid (ReadTo fd p n) (alloc p size h).
Proof. apply in_block_alloc. Qed.

Lemma valid_write h fd p n size : h !! 0 = None -> n <= size -> valid (WriteFrom fd p n) (alloc p size h).
Proof. apply in_block_alloc. Qed.

Lemma valid_memset h p byte n size :
  h !! 0 = None -> (p =? 0) = false -> n <= size -> valid (Memset p byte n) (alloc p size h).
Proof. intros H0 Hp Hn. cbn [valid]. rewrite Hp. by apply in_block_alloc. Qed.

Lemma valid_memset_array h p byte n size :
  h !! 0 = None -> p <> 0 -> n <= size -> valid (Memset p byte n) (alloc p size h).
Proof. intros H0 Hp%Z.eqb_neq. by apply valid_memset. Qed.

Lemma valid_free h p size : valid (Free p) (alloc p size h).
Proof.
  cbn [valid]. unfold alloc. destruct (Z.eqb_spec p 0) as [->|]; [done|].
  apply orb_True. right. apply bool_decide_pack. rewrite lookup_insert_eq. by eexists.
Qed.

Lemma valid_leave h p size : p <> 0 -> valid (LeaveArray p) (alloc p size h).
Proof.
  intros Hp. cbn [valid]. unfold alloc. destruct (Z.eqb_spec p 0); [done|].
  apply bool_decide_pack. rewrite lookup_insert_eq. by eexists.
Qed.

(** Freeing the block allocated last restores the heap. *)
Lemma free_alloc h p size : h !! 0 = None -> fresh_ptr h p -> delete p (alloc p size h) = h.
Proof.
  intros H0 Hp. unfold alloc. destruct (Z.eqb_spec p 0) as [->|Hne]; [by apply delete_id|].
  destruct Hp as [|Hp]; [done|]. by rewrite delete_insert_eq, delete_id.
Qed.

Lemma alloc_null h p size : h !! 0 = None -> alloc p size h !! 0 = None.
Proof.
  intros H0. unfold alloc. destruct (Z.eqb_spec p 0) as [|Hne]; [done|]. by rewrite lookup_insert_ne.
Qed.

Lemma closed_not_open fd (F : gset Z) : fd ∉ (opened fd ∪ F) ∖ {[fd]}.
Proof. set_solver. Qed.

(** Allocations that were granted, and synchronisations that were not. *)
Definition granted (e : event fanswer) : Prop :=
  match e with
  | existT (Malloc _) p => p <> 0
  | existT (Memalign _ _) a => is_Some a
  | _ => True
  end.

Definition not_synced (e : event fanswer) : Prop :=
  match e with existT (Fsync _) r => r = -1 | _ => True end.

#[export] Instance granted_dec e : Decision (granted e).
Proof. destruct e as [[] a]; cbn; apply _. Defined.

#[export] Hint Resolve valid_leave valid_read valid_write valid_memset valid_memset_array Z.le_refl valid_free closed_not_open alloc_null : files.

(** A part that gives back what it took, or stopped at an allocation that failed. *)
Definition tidy {A} (P : event fanswer -> Prop) (V : A -> Prop) (h : blocks) (F : gset Z) (o : outcome A) (t : list (event fanswer)) (h' : blocks) (F' : gset Z) : Prop :=
  match o with
  | Returned a => V a /\ h' = h /\ F' = F /\ Forall P t
  | Faulted f => f = NullPointer /\ ~ Forall granted t
  | Exited _ => False
  end.

Ltac wp_head := unfold say, memset; cbv beta delta [mbind prog_bind call]; cbn [bind_prog].

Ltac wp_step :=
  wp_head;
  lazymatch goal with
  | |- wp (Call _ _) _ _ _ =>
    apply wp_call; [first [exact I | eauto with files]|];
    let a := fresh "a" in let Ha := fresh "Ha" in intros a Ha; cbn [legal heap_after open_after fanswer] in *;
    try match type of Ha with _ <> _ /\ _ => destruct Ha end;
    rewrite ?free_alloc, ?close_opened by (done || by right)
  | |- wp (bind_prog _ (match ?a with (_, _) => _ end)) _ _ _ => destruct a
  | |- wp (bind_prog _ (match ?a with Some _ => _ | None => _ end)) _ _ _ => destruct a
  | |- wp (if ?b then _ else _) _ _ _ => destruct b eqn:?
  | |- wp (bind_prog _ (if ?b then _ else _)) _ _ _ => destruct b eqn:?
  end.

(** A loop of transfers: the events of its body keep heap and descriptors. *)
Ltac wp_loop P :=
  wp_head;
  lazymatch goal with
  | |- wp (bind_prog ?g (times ?n ?body)) ?h ?F ?Q =>
    refine (wp_bind (times n body) g h F Q _); eapply wp_mono;
    [apply (wp_times P n body h F); repeat wp_step; split_and!; [done|by repeat constructor|done|done]
    |cbv beta; let o := fresh "o" in let l := fresh "l" in let h' := fresh "h'" in let F' := fresh "F'" in
     let Hl := fresh "Hl" in intros o l h' F' (-> & Hl & -> & ->)]
  end.

Ltac wp_run P := repeat first [wp_step | wp_loop P].

(** The events of a trace are as required, given the parts that loops made. *)
Ltac events :=
  repeat (rewrite ?Forall_cons, ?Forall_app, ?Forall_nil); cbn beta iota delta [not_synced]; split_and?; by auto with files.

(** An allocation of the trace was granted. *)
Ltac granted_in :=
  let Hg := fresh "Hg" in
  intros Hg; repeat (rewrite ?Forall_cons, ?Forall_app in Hg); cbn [granted] in Hg; destruct_and? Hg;
  first [done | match goal with H : is_Some None |- _ => by destruct H end].

(** At the end of a part. *)
Ltac tidy_end :=
  cbn [tidy wp app]; rewrite ?free_alloc, ?opened_failed, ?close_opened by (done || by right);
  first
    [ split_and!; [done..|]; events
    | split; [done|]; rewrite ?Forall_cons; cbn [granted]; bool_hyps; tauto ].

Lemma tidy_app {A} P V h F (o : outcome A) t1 t2 h' F' :
  Forall P t1 -> tidy P V h F o t2 h' F' -> tidy P V h F o (t1 ++ t2) h' F'.
Proof. destruct o; cbn [tidy]; rewrite ?Forall_app; naive_solver. Qed.

Lemma tidy_seq {A B} P V (p : fileprog A) (k : fileprog B) h F :
  wp p h F (tidy P (fun _ => True) h F) -> wp k h F (tidy P V h F) -> wp (p;; k) h F (tidy P V h F).
Proof.
  intros Hp Hk. apply wp_bind. eapply wp_mono; [apply Hp|]. intros [a|code|f] t h' F'; [|done..].
  intros (_ & -> & -> & Ht). eapply wp_mono; [apply Hk|]. intros. by apply tidy_app.
Qed.

Lemma say_tidy P fmt args h F : (forall fmt args a, P (existT (Say fmt args) a)) -> wp (say fmt args) h F (tidy P (fun _ => True) h F).
Proof. intros HP. split; [done|]. intros [] _. cbn. split_and!; [done..|]. by apply Forall_singleton. Qed.

(** ** A kernel that only keeps the books

    It knows which blocks are allocated and which descriptors are open, not
    what is in them.  If [ok] is false, opening and allocating fail. *)

Record ledger_state := Ledger { l_blocks : blocks; l_files : gset Z }.

Definition above (l : list Z) : Z := foldr (fun x top => Z.max (x + 1) top) 3 l.

Definition usable (s : ledger_state) (fd n : Z) : Z := if bool_decide (0 <= fd /\ fd ∈ l_files s) then Z.max 0 n else -1.

Definition ledger_call (ok : bool) (s : ledger_state) (c : fcall) : fanswer c * ledger_state :=
  let p := above (elements (dom (l_blocks s))) in
  let fd := above (elements (l_files s)) in
  match c return fanswer c * ledger_state with
  | Open _ _ => if ok then (fd, Ledger (l_blocks s) ({[fd]} ∪ l_files s)) else (-1, s)
  | ReadTo fd _ n => (usable s fd n, s)
  | WriteFrom fd _ n => (usable s fd n, s)
  | Lseek _ off => (off, s)
  | Fsync fd => (usable s fd 0, s)
  | CloseFd fd => (0, Ledger (l_blocks s) (l_files s ∖ {[fd]}))
  | Unlink _ => (0, s)
  | Malloc size => if ok then (p, Ledger (<[p := size]> (l_blocks s)) (l_files s)) else (0, s)
  | Memalign _ size => if ok then (Some p, Ledger (<[p := size]> (l_blocks s)) (l_files s)) else (None, s)
  | EnterArray size => (p, Ledger (<[p := size]> (l_blocks s)) (l_files s))
  | Free p | LeaveArray p => ((), Ledger (delete p (l_blocks s)) (l_files s))
  | Memset _ _ _ | Fclose | Say _ _ | Complain _ => ((), s)
  | Gettimeofday => ((0, 0), s)
  | Rand => (0, s)
  | Fopen _ => (None, s)
  end.

Definition ledger (ok : bool) : kernel fanswer := Kernel ledger_state (ledger_call ok).

Lemma above_cons x l : above (x :: l) = Z.max (x + 1) (above l).
Proof. done. Qed.

Lemma above_all l x : x ∈ l -> x < above l.
Proof.
  induction l as [|y l IH]; [by intros ?%elem_of_nil|]. rewrite above_cons. intros [->|?%IH]%elem_of_cons; lia.
Qed.

Lemma above_three l : 3 <= above l.
Proof. induction l as [|y l IH]; rewrite ?above_cons; [done|lia]. Qed.

Lemma above_fresh_ptr (h : blocks) : let p := above (elements (dom h)) in p <> 0 /\ h !! p = None.
Proof.
  intros p. split; [pose proof (above_three (elements (dom h))); lia|]. apply not_elem_of_dom. intros Hp.
  apply elem_of_elements, above_all in Hp. unfold p in Hp. lia.
Qed.

Lemma above_fresh_fd (F : gset Z) : above (elements F) ∉ F.
Proof. intros Hp%elem_of_elements%above_all. lia. Qed.

Definition ledger_blocks (s : ledger_state) : blocks := delete 0 (l_blocks s).
Definition ledger_files (s : ledger_state) : gset Z := filter (fun fd => 0 <= fd) (l_files s).

Lemma usable_law s fd n : usable s fd n <= Z.max 0 n /\ (fd ∉ ledger_files s -> usable s fd n = -1).
Proof.
  unfold usable, ledger_files. case_bool_decide as Hd; split; try lia. rewrite elem_of_filter. by intros [].
Qed.

Lemma ledger_grant s p size : p <> 0 -> l_blocks s !! p = None ->
  ledger_blocks s !! p = None /\ delete 0 (<[p := size]> (l_blocks s)) = alloc p size (ledger_blocks s).
Proof.
  intros Hp Hn. unfold ledger_blocks, alloc. split; [by rewrite lookup_delete_ne|].
  destruct (Z.eqb_spec p 0); [done|]. by rewrite delete_insert_ne.
Qed.

Lemma ledger_law ok s c : let '(a, s') := ledger_call ok s c in
  legal c a (ledger_blocks s) (ledger_files s) /\
  (valid c (ledger_blocks s) -> ledger_blocks s' = heap_after c a (ledger_blocks s)) /\
  ledger_files s' = open_after c a (ledger_files s).
Proof.
  destruct (above_fresh_ptr (l_blocks s)) as [Hp Hn]. pose proof (above_fresh_fd (l_files s)) as Hf.
  pose proof (above_three (elements (l_files s))) as H3.
  destruct c as [path flags|fd buf n|fd buf n|fd off|fd|fd|path|size|al size|p|p byte n|size|p| | |path| | |];
    cbn [ledger_call legal heap_after open_after]; try done.
  - destruct ok; (split; [|split; [done|]]); unfold ledger_files; cbn [l_files].
    + rewrite elem_of_filter. tauto.
    + unfold opened. destruct (Z.ltb_spec (above (elements (l_files s))) 0); [lia|].
      apply set_eq. intros x. rewrite elem_of_union, !elem_of_filter, elem_of_union, elem_of_singleton.
      split; [tauto|]. intros [->|]; [split; [lia|by left]|tauto].
    + rewrite elem_of_filter. lia.
    + unfold opened. cbn. set_solver.
  - pose proof (usable_law s fd n). naive_solver.
  - pose proof (usable_law s fd n). naive_solver.
  - pose proof (usable_law s fd 0). naive_solver.
  - split_and!; [done..|]. unfold ledger_files. cbn [l_files]. apply set_eq. intros x. rewrite elem_of_difference, !elem_of_filter, elem_of_difference. tauto.
  - destruct (ledger_grant s _ size Hp Hn) as [H1 H2]. destruct ok; [|by split_and!; [left|..]]. split_and!; [by right|by intros _|done].
  - destruct (ledger_grant s _ size Hp Hn) as [H1 H2]. destruct ok; [|done]. split_and!; [done|done|by intros _|done].
  - split_and!; [done| |done]. intros _. unfold ledger_blocks. cbn [l_blocks]. apply delete_delete.
  - destruct (ledger_grant s _ size Hp Hn) as [H1 H2]. split_and!; [done|done|by intros _|done].
  - split_and!; [done| |done]. intros _. unfold ledger_blocks. cbn [l_blocks]. apply delete_delete.
Qed.

#[export] Instance ledger_files_kernel ok : FileKernel (ledger ok).
Proof.
  unshelve refine (@Build_FileKernel (ledger ok) ledger_blocks ledger_files _ _ _ _).
  { intros s. apply lookup_delete_eq. }
  all: intros s c; pose proof (ledger_law ok s c) as H; cbn [ledger kcall kst]; destruct (ledger_call ok s c); apply H.
Defined.
