(* ===== verification/BioTest.v ===== *)
(** * The block-layer test driver ([demos/bio/bio_test.c])

    The four experiments and [main] as programs over [FileCalls]: whatever the
    kernel answers, the driver stays in its buffers, closes its descriptors and
    leaks at most one buffer; and the [fsync] of the test file never happens. *)
From Stdlib Require Import ZArith Lia String.
From stdpp Require Import base numbers list option gmap strings.
From S2P Require Import Prelude Syscall FileCalls.

Open Scope Z_scope.

Definition FILE_PATH : string := "/tmp/bio_test_file".
Definition FILE_SIZE : Z := 10 * 1024 * 1024.
Definition CHUNK_SIZE : Z := 4 * 1024.

Definition get_usec : fileprog Z :=
  tv ← call Gettimeofday;
  let '(tv_sec, tv_usec) := tv in
  Ret (tv_sec * 1000000 + tv_usec).

Definition create_test_file : fileprog unit :=
  fd ← call (Open FILE_PATH create_flags);
  if fd <? 0 then call (Complain "open")
  else
    buf ← call (Malloc (1024 * 1024));
    memset buf 65 (1024 * 1024);;
    times 10 (call (WriteFrom fd buf (1024 * 1024));; Ret ());;
    call (Free buf);;
    call (CloseFd fd);;
    call (Fsync fd);;
    say "[setup] created %d MB test file" [AInt (FILE_SIZE / (1024 * 1024))].

Definition test_sequential_read : fileprog unit :=
  say "=== Test 1: Sequential Read ===" [];;
  fd ← call (Open FILE_PATH O_RDONLY);
  if fd <? 0 then call (Complain "open")
  else
    buf ← call (Malloc CHUNK_SIZE);
    start ← get_usec;
    times (Z.to_nat (FILE_SIZE / CHUNK_SIZE)) (call (ReadTo fd buf CHUNK_SIZE);; Ret ());;
    now ← get_usec;
    let elapsed := now - start in
    say "Sequential: read %d bytes in %ld usec (%.2f MB/s)" [AInt FILE_SIZE; AInt elapsed; ARatio FILE_SIZE elapsed];;
    say "Each read = %d bytes (one page = one bio_vec)" [AInt CHUNK_SIZE];;
    say "Total reads = %d" [AInt (FILE_SIZE / CHUNK_SIZE)];;
    call (Free buf);;
    call (CloseFd fd);;
    Ret ().

(** A round of the loop of [test_random_read]. *)
Definition random_round (fd buf : Z) : fileprog unit :=
  r ← call Rand;
  let off := Z.rem r (FILE_SIZE / CHUNK_SIZE) * CHUNK_SIZE in
  call (Lseek fd off);;
  call (ReadTo fd buf CHUNK_SIZE);;
  Ret ().

Definition test_random_read : fileprog unit :=
  say "=== Test 2: Random Read ===" [];;
  fd ← call (Open FILE_PATH O_RDONLY);
  if fd <? 0 then call (Complain "open")
  else
    buf ← call (Malloc CHUNK_SIZE);
    start ← get_usec;
    times 1000 (random_round fd buf);;
    now ← get_usec;
    let elapsed := now - start in
    say "Random: 1000 reads in %ld usec (%.2f usec/read)" [AInt elapsed; ARatio elapsed 1000];;
    say "Random reads cause disk seeks (~10ms each on HDD)" [];;
    say "Sequential would be ~10x faster" [];;
    call (Free buf);;
    call (CloseFd fd);;
    Ret ().

Definition test_direct_io : fileprog unit :=
  say "=== Test 3: Direct IO vs Buffered IO ===" [];;
  fd1 ← call (Open FILE_PATH O_RDONLY);
  buf ← call (Malloc CHUNK_SIZE);
  start ← get_usec;
  times 100 (call (ReadTo fd1 buf CHUNK_SIZE);; Ret ());;
  now ← get_usec;
  let buffered := now - start in
  call (CloseFd fd1);;
  fd2 ← call (Open FILE_PATH (Z.lor O_RDONLY O_DIRECT));
  if fd2 <? 0 then say "O_DIRECT not supported on this filesystem, skipping" []
  else
    a ← call (Memalign 4096 CHUNK_SIZE);
    let buf := default buf a in
    start2 ← get_usec;
    times 100 (call (ReadTo fd2 buf CHUNK_SIZE);; Ret ());;
    now2 ← get_usec;
    let direct := now2 - start2 in
    say "Buffered IO:  %ld usec (100 reads)" [AInt buffered];;
    say "Direct IO:    %ld usec (100 reads)" [AInt direct];;
    say "Buffered is faster because of page cache" [];;
    call (CloseFd fd2);;
    call (Free buf);;
    Ret ().

Definition test_write_coalescing : fileprog unit :=
  say "=== Test 4: Write Coalescing ===" [];;
  let test_file := "/tmp/bio_coalescing_test"%string in
  fd ← call (Open test_file create_flags);
  if fd <? 0 then call (Complain "open")
  else
    buf ← call (Malloc 4096);
    memset buf 66 4096;;
    start ← get_usec;
    times 256 (call (WriteFrom fd buf 4096);; Ret ());;
    now ← get_usec;
    let elapsed := now - start in
    say "256 sequential writes (%d bytes): %ld usec" [AInt (256 * 4096); AInt elapsed];;
    say "Kernel bio layer coalesces adjacent writes into single request" [];;
    say "Without coalescing: 256 individual disk operations" [];;
    say "With coalescing: ~1 disk operation (or few)" [];;
    call (Free buf);;
    call (CloseFd fd);;
    call (Unlink test_file);;
    Ret ().

Definition bio_cleanup : fileprog unit := call (Unlink FILE_PATH);; Ret ().

Definition bio_test_main : fileprog Z :=
  say "Bio Layer Observation Test" [];;
  say "==========================" [];;
  create_test_file;;
  test_sequential_read;;
  test_random_read;;
  test_direct_io;;
  test_write_coalescing;;
  say "=== Summary ===" [];;
  say "Bio layer key behaviors:" [];;
  say "1. Sequential IO -> bio coalescing (merge adjacent bios)" [];;
  say "2. Random IO -> individual bios (no merge)" [];;
  say "3. Buffered IO -> page cache hits, no disk IO" [];;
  say "4. Write coalescing reduces disk operations" [];;
  bio_cleanup;;
  Ret 0.

(** ** The experiments one by one *)

Lemma create_test_file_wp h F : h !! 0 = None -> wp create_test_file h F (tidy not_synced (fun _ => True) h F).
Proof. intros H0. unfold create_test_file. wp_run not_synced; tidy_end. Qed.

Lemma test_sequential_read_wp h F : h !! 0 = None -> wp test_sequential_read h F (tidy not_synced (fun _ => True) h F).
Proof. intros H0. unfold test_sequential_read, get_usec. wp_run not_synced; tidy_end. Qed.

Lemma test_random_read_wp h F : h !! 0 = None -> wp test_random_read h F (tidy not_synced (fun _ => True) h F).
Proof. intros H0. unfold test_random_read, random_round, get_usec. wp_run not_synced; tidy_end. Qed.

Lemma test_write_coalescing_wp h F : h !! 0 = None -> wp test_write_coalescing h F (tidy not_synced (fun _ => True) h F).
Proof. intros H0. unfold test_write_coalescing, get_usec. wp_run not_synced; tidy_end. Qed.

(** The third experiment keeps a buffer: the one of [malloc], which the pointer
    set by [posix_memalign] replaces, or which is not freed when the second
    [open] fails. *)
Definition leaks {A} (V : A -> Prop) (h : blocks) (F : gset Z) (o : outcome A) (t : list (event fanswer)) (h' : blocks) (F' : gset Z) : Prop :=
  match o with
  | Returned a =>
    V a /\ F' = F /\ Forall not_synced t /\
    exists p, fresh_ptr h p /\ h' = alloc p CHUNK_SIZE h /\ (Forall granted t -> p <> 0)
  | Faulted f => f = NullPointer /\ ~ Forall granted t
  | Exited _ => False
  end.

Lemma test_direct_io_wp h F : h !! 0 = None -> wp test_direct_io h F (leaks (fun _ => True) h F).
Proof.
  intros H0. unfold test_direct_io, get_usec. wp_run not_synced; [|destruct a4 as [q|]; cbn [default from_option id] in *; wp_run not_synced].
  - cbn [wp leaks]. rewrite opened_failed by done. split; [done|]. split; [done|]. split; [by events|].
    exists a1. split_and!; [done..|]. granted_in.
  - cbn [wp leaks]. rewrite free_alloc by (try apply alloc_null; try right; try apply Ha6; done).
    split; [done|]. split; [done|].
    split; [by events|]. exists a1. split_and!; [done..|]. granted_in.
  - cbn [wp leaks].
    split; [done|]. split; [done|]. split; [by events|]. exists 0. split; [by left|]. split; [done|]. granted_in.
Qed.

(** ** Sequences *)

Lemma leaks_app {A} V h F (o : outcome A) t1 t2 h' F' :
  Forall not_synced t1 -> leaks V h F o t2 h' F' -> leaks V h F o (t1 ++ t2) h' F'.
Proof.
  destruct o; cbn [leaks]; rewrite ?Forall_app; [|done|naive_solver].
  intros H1 (HV & HF & Ht & p & Hp & Hh & Hg). split_and!; [done..|]. exists p. split_and!; [done..|]. intros [_ Hg']%Forall_app. by apply Hg.
Qed.

Lemma tidy_leaks_seq {A B} V (p : fileprog A) (k : fileprog B) h F :
  wp p h F (tidy not_synced (fun _ => True) h F) -> wp k h F (leaks V h F) -> wp (p;; k) h F (leaks V h F).
Proof.
  intros Hp Hk. apply wp_bind. eapply wp_mono; [apply Hp|]. intros [a|code|f] t h' F'; [|done..].
  intros (_ & -> & -> & Ht). eapply wp_mono; [apply Hk|]. intros. by apply leaks_app.
Qed.

Lemma leaks_tidy_seq {A B} V (p : fileprog A) (k : fileprog B) h F : h !! 0 = None ->
  wp p h F (leaks (fun _ => True) h F) -> (forall h', h' !! 0 = None -> wp k h' F (tidy not_synced V h' F)) -> wp (p;; k) h F (leaks V h F).
Proof.
  intros H0 Hp Hk. apply wp_bind. eapply wp_mono; [apply Hp|]. intros [a|code|f] t h' F'; [|done..].
  intros (_ & -> & Ht & q & Hq & -> & Hg). eapply wp_mono; [by apply Hk, alloc_null|].
  intros [a'|code|f] t' h' F'; cbn [tidy leaks]; rewrite ?Forall_app; [|done|naive_solver].
  intros (HV & -> & -> & Ht'). split_and!; [done..|]. exists q. split_and!; [done..|]. intros [Hg' _]%Forall_app. by apply Hg.
Qed.

Lemma bio_cleanup_wp h F : wp bio_cleanup h F (tidy not_synced (fun _ => True) h F).
Proof. unfold bio_cleanup. wp_run not_synced; tidy_end. Qed.

Lemma summary_wp h F : h !! 0 = None ->
  wp (test_write_coalescing;;
      say "=== Summary ===" [];;
      say "Bio layer key behaviors:" [];;
      say "1. Sequential IO -> bio coalescing (merge adjacent bios)" [];;
      say "2. Random IO -> individual bios (no merge)" [];;
      say "3. Buffered IO -> page cache hits, no disk IO" [];;
      say "4. Write coalescing reduces disk operations" [];;
      bio_cleanup;;
      Ret 0) h F (tidy not_synced (fun code => code = 0) h F).
Proof.
  intros H0. apply tidy_seq; [by apply test_write_coalescing_wp|].
  do 6 (apply tidy_seq; [by apply say_tidy|]). apply tidy_seq; [apply bio_cleanup_wp|]. by split_and!.
Qed.

Lemma bio_test_main_wp h F : h !! 0 = None -> wp bio_test_main h F (leaks (fun code => code = 0) h F).
Proof.
  intros H0. unfold bio_test_main. do 2 (apply tidy_leaks_seq; [by apply say_tidy|]).
  apply tidy_leaks_seq; [by apply create_test_file_wp|]. apply tidy_leaks_seq; [by apply test_sequential_read_wp|].
  apply tidy_leaks_seq; [by apply test_random_read_wp|]. apply leaks_tidy_seq; [done|by apply test_direct_io_wp|].
  intros h' H'. by apply summary_wp.
Qed.

(** C30: The driver against every kernel: no call of a run touches memory that is
    not allocated; it faults only on a null pointer after an allocation
    failed; otherwise it returns 0 with all its descriptors closed, and of the
    buffers it allocated exactly one is never freed if all allocations are
    granted.  No [fsync] of the run succeeds: the descriptor is closed before. *)
Theorem bio_test_main_safe (K : kernel fanswer) `{!FileKernel K} s : ends K bio_test_main s (fun o t s' =>
  checked (kblocks s) t = Some (kblocks s') /\
  match o with
  | Returned code =>
    code = 0 /\ kfiles s' = kfiles s /\ Forall not_synced t /\
    exists p, fresh_ptr (kblocks s) p /\ kblocks s' = alloc p CHUNK_SIZE (kblocks s) /\ (Forall granted t -> p <> 0)
  | Faulted f => f = NullPointer /\ ~ Forall granted t
  | Exited _ => False
  end).
Proof. exact (wp_adequate K bio_test_main s _ (bio_test_main_wp _ _ (knull s))). Qed.

(** With every allocation granted one block of 4096 bytes is left; when
    nothing can be opened or allocated the driver still returns. *)
Lemma bio_test_main_safe_witness :
  (exists p, p <> 0 /\ ends (ledger true) bio_test_main (Ledger ∅ ∅) (fun o t s' =>
    o = Returned 0 /\ kblocks s' = alloc p CHUNK_SIZE ∅ /\ kfiles s' = ∅)) /\
  fst (fst (run (ledger false) bio_test_main (Ledger ∅ ∅))) = Returned 0.
Proof.
  split; [|by vm_compute]. pose proof (bio_test_main_safe (ledger true) (Ledger ∅ ∅)) as H. unfold ends in *.
  assert (Ho : fst (fst (run (ledger true) bio_test_main (Ledger ∅ ∅))) = Returned 0) by by vm_compute.
  assert (Hg : bool_decide (Forall granted (snd (fst (run (ledger true) bio_test_main (Ledger ∅ ∅))))) = true) by by vm_compute.
  destruct (run (ledger true) bio_test_main (Ledger ∅ ∅)) as [[o t] s']. cbn [fst snd] in Ho, Hg. subst o.
  destruct H as (_ & _ & Hf & _ & p & _ & Hb & Hp). exists p. split; [|done]. by apply Hp, (bool_decide_eq_true_1 _ Hg).
Defined.
