(* ===== verification/WbTest.v ===== *)
(** * The writeback test driver ([demos/writeback/wb_test.c])

    Reading the amount of dirty memory from [/proc/meminfo], the three
    experiments and [main], as programs over [FileCalls]. *)
From Stdlib Require Import ZArith Lia String.
From stdpp Require Import base numbers list option gmap strings.
From S2P Require Import Prelude Syscall FileCalls.

Open Scope Z_scope.

Definition WB_FILE_PATH : string := "/tmp/wb_test_file".
Definition PAGE_SIZE : Z := 4096.
Definition NUM_PAGES : Z := 1000.

(** ** [fgets] and [sscanf] *)

(** The bytes of the next line: up to and including a newline, at most [room]. *)
Fixpoint next_bytes (room : nat) (stream : list Z) : list Z * list Z :=
  match room, stream with
  | S room', b :: stream' =>
    if b =? 10 then ([b], stream')
    else let '(line, rest) := next_bytes room' stream' in (b :: line, rest)
  | _, _ => ([], stream)
  end.

(** [fgets(line, size, fp)]: nothing at the end of the stream. *)
Definition fgets (size : nat) (stream : list Z) : option (list Z * list Z) :=
  match stream with [] => None | _ => Some (next_bytes (size - 1) stream) end.

Definition is_space (b : Z) : bool := (b =? 32) || ((9 <=? b) && (b <=? 13)).
Definition is_digit (b : Z) : bool := (48 <=? b) && (b <=? 57).

Fixpoint skip_spaces (l : list Z) : list Z :=
  match l with b :: l' => if is_space b then skip_spaces l' else l | [] => [] end.

Fixpoint read_digits (acc : Z) (l : list Z) : Z :=
  match l with b :: l' => if is_digit b then read_digits (acc * 10 + (b - 48)) l' else acc | [] => acc end.

(** [%lu]: a sign, at least one digit; a number that is too large gives the
    largest one, a negative one wraps around. *)
Definition scan_ulong (l : list Z) : option Z :=
  let '(neg, l) :=
    match l with
    | b :: l' => if b =? 45 then (true, l') else if b =? 43 then (false, l') else (false, l)
    | [] => (false, l)
    end in
  match l with
  | b :: _ =>
    if is_digit b then
      let v := read_digits 0 l in
      Some (if 2 ^ 64 <=? v then 2 ^ 64 - 1 else if neg : bool then wrapu 64 (- v) else v)
    else None
  | [] => None
  end.

Fixpoint strip (prefix l : list Z) : option (list Z) :=
  match prefix, l with
  | [], _ => Some l
  | a :: prefix', b :: l' => if a =? b then strip prefix' l' else None
  | _, [] => None
  end.

(** [sscanf(line, "Dirty: %lu kB", &dirty) == 1]; the text after the number
    does not count. *)
Definition sscanf_dirty (line : list Z) : option Z :=
  match strip (bytes "Dirty:") line with Some rest => scan_ulong (skip_spaces rest) | None => None end.

(** The loop over the lines; every round consumes at least one byte. *)
Fixpoint scan_lines (fuel : nat) (stream : list Z) : Z :=
  match fuel with
  | O => 0
  | S fuel' =>
    match fgets 256 stream with
    | None => 0
    | Some (line, rest) =>
      match sscanf_dirty (upto_nul line) with Some dirty => dirty | None => scan_lines fuel' rest end
    end
  end.

Definition get_dirty_kb : fileprog Z :=
  fp ← call (Fopen "/proc/meminfo");
  match fp with
  | None => Ret 0
  | Some stream =>
    let dirty := scan_lines (length stream) stream in
    call Fclose;;
    Ret dirty
  end.

(** ** The experiments *)

Definition test_dirty_accumulation : fileprog unit :=
  say "=== Test 1: Dirty page accumulation ===" [];;
  fd ← call (Open WB_FILE_PATH create_flags);
  if fd <? 0 then call (Complain "open")
  else
    buf ← call (Malloc (PAGE_SIZE * NUM_PAGES));
    memset buf 171 (PAGE_SIZE * NUM_PAGES);;
    before ← get_dirty_kb;
    say "Before write: Dirty = %lu KB" [AInt before];;
    written ← call (WriteFrom fd buf (PAGE_SIZE * NUM_PAGES));
    say "Wrote %zd bytes (to page cache, not disk)" [AInt written];;
    after ← get_dirty_kb;
    say "After write:  Dirty = %lu KB (+%lu KB)" [AInt after; AInt (wrapu 64 (after - before))];;
    say "Data is in page cache (dirty), NOT on disk yet." [];;
    say "If power loss now, data is LOST." [];;
    call (Free buf);;
    call (CloseFd fd);;
    Ret ().

(** Microseconds between two readings of the clock. *)
Definition usec_between (start end_ : Z * Z) : Z := (fst end_ - fst start) * 1000000 + (snd end_ - snd start).

Definition test_fsync_latency : fileprog unit :=
  say "=== Test 2: fsync latency ===" [];;
  fd ← call (Open WB_FILE_PATH create_flags);
  if fd <? 0 then call (Complain "open")
  else
    buf ← call (EnterArray PAGE_SIZE);
    call (Memset buf 205 PAGE_SIZE);;
    start ← call Gettimeofday;
    call (WriteFrom fd buf PAGE_SIZE);;
    call (Fsync fd);;
    end_ ← call Gettimeofday;
    let usec := usec_between start end_ in
    say "write + fsync (1 page): %ld usec" [AInt usec];;
    say "Disk latency is ~10ms for HDD, ~0.1ms for SSD." [];;
    call (CloseFd fd);;
    call (LeaveArray buf);;
    Ret ().

(** The last line passes a [long] where the format says [%d]: what is printed
    is its low 32 bits. *)
Definition test_write_vs_fsync : fileprog unit :=
  say "=== Test 3: write-only vs write+fsync throughput ===" [];;
  fd1 ← call (Open "/tmp/wb_nowriteback" create_flags);
  buf ← call (Malloc (PAGE_SIZE * 10000));
  memset buf 239 (PAGE_SIZE * 10000);;
  t1_start ← call Gettimeofday;
  call (WriteFrom fd1 buf (PAGE_SIZE * 10000));;
  t1_end ← call Gettimeofday;
  let write_usec := usec_between t1_start t1_end in
  say "write 10000 pages (no fsync):  %ld usec (%.2f MB/s)" [AInt write_usec; ARatio (PAGE_SIZE * 10000) write_usec];;
  call (Free buf);;
  call (CloseFd fd1);;
  fd2 ← call (Open "/tmp/wb_batch_fsync" create_flags);
  buf ← call (Malloc (PAGE_SIZE * 1000));
  memset buf 18 (PAGE_SIZE * 1000);;
  t2_start ← call Gettimeofday;
  times 10 (call (WriteFrom fd2 buf (PAGE_SIZE * 1000));; call (Fsync fd2);; Ret ());;
  t2_end ← call Gettimeofday;
  let batch_usec := usec_between t2_start t2_end in
  say "write 10000 pages (fsync every 1000): %ld usec (%.2f MB/s)" [AInt batch_usec; ARatio (PAGE_SIZE * 10000) batch_usec];;
  call (Free buf);;
  call (CloseFd fd2);;
  say "Ratio: write-only is ~%dx faster than write+fsync"
    [AInt (s32 (Z.quot batch_usec (if 0 <? write_usec then write_usec else 1)))].

Definition wb_cleanup : fileprog unit :=
  call (Unlink WB_FILE_PATH);;
  call (Unlink "/tmp/wb_nowriteback");;
  call (Unlink "/tmp/wb_batch_fsync");;
  Ret ().

Definition wb_test_main : fileprog Z :=
  say "Writeback observation test" [];;
  say "=========================" [];;
  test_dirty_accumulation;;
  test_fsync_latency;;
  test_write_vs_fsync;;
  say "=== Cleanup ===" [];;
  wb_cleanup;;
  say "Done." [];;
  Ret 0.

(** ** Memory and descriptors *)

Definition any_event (e : event fanswer) : Prop := True.

Lemma test_dirty_accumulation_wp h F : h !! 0 = None -> wp test_dirty_accumulation h F (tidy any_event (fun _ => True) h F).
Proof. intros H0. unfold test_dirty_accumulation, get_dirty_kb. wp_run any_event; tidy_end. Qed.

Lemma test_fsync_latency_wp h F : h !! 0 = None -> wp test_fsync_latency h F (tidy any_event (fun _ => True) h F).
Proof. intros H0. unfold test_fsync_latency. wp_run any_event; tidy_end. Qed.

Lemma test_write_vs_fsync_wp h F : h !! 0 = None -> wp test_write_vs_fsync h F (tidy any_event (fun _ => True) h F).
Proof. intros H0. unfold test_write_vs_fsync. wp_run any_event; tidy_end. Qed.

Lemma wb_cleanup_wp h F : wp wb_cleanup h F (tidy any_event (fun _ => True) h F).
Proof. unfold wb_cleanup. wp_run any_event; tidy_end. Qed.

Lemma wb_test_main_wp h F : h !! 0 = None -> wp wb_test_main h F (tidy any_event (fun code => code = 0) h F).
Proof.
  intros H0. unfold wb_test_main. do 2 (apply tidy_seq; [by apply say_tidy|]).
  apply tidy_seq; [by apply test_dirty_accumulation_wp|]. apply tidy_seq; [by apply test_fsync_latency_wp|].
  apply tidy_seq; [by apply test_write_vs_fsync_wp|]. apply tidy_seq; [by apply say_tidy|].
  apply tidy_seq; [by apply wb_cleanup_wp|]. apply tidy_seq; [by apply say_tidy|]. by split_and!.
Qed.

(** The driver against every kernel: no call of a run touches memory that is
    not allocated; it faults only on a null pointer after an allocation
    failed; otherwise it returns 0 with the heap and the descriptors as it
    found them. *)
Theorem wb_test_main_safe (K : kernel fanswer) `{!FileKernel K} s : ends K wb_test_main s (fun o t s' =>
  checked (kblocks s) t = Some (kblocks s') /\
  match o with
  | Returned code => code = 0 /\ kblocks s' = kblocks s /\ kfiles s' = kfiles s
  | Faulted f => f = NullPointer /\ ~ Forall granted t
  | Exited _ => False
  end).
Proof.
  eapply ends_mono; [exact (wp_adequate K wb_test_main s _ (wb_test_main_wp _ _ (knull s)))|].
  intros [code|code|f] t s' [Hc Ht]; (split; [done|]); [|done..]. destruct Ht as (? & ? & ? & _). done.
Qed.

(** ** What reaches the disk *)

(** The calls of a trace that concern the contents of files. *)
Inductive act := AOpen (path : string) (fd : Z) | AWrite (fd n : Z) | ASync (fd : Z) | AClose (fd : Z) | AUnlink (path : string).

Definition act_of (e : event fanswer) : option act :=
  match e with
  | existT (Open path _) fd => Some (AOpen path fd)
  | existT (WriteFrom fd _ n) _ => Some (AWrite fd n)
  | existT (Fsync fd) _ => Some (ASync fd)
  | existT (CloseFd fd) _ => Some (AClose fd)
  | existT (Unlink path) _ => Some (AUnlink path)
  | _ => None
  end.

Definition acts (t : list (event fanswer)) : list act := omap act_of t.

Lemma acts_app t1 t2 : acts (t1 ++ t2) = acts t1 ++ acts t2.
Proof. apply omap_app. Qed.

(** The three experiments and the clean-up, for the descriptors they got. *)
Definition accumulation_acts (fd : Z) : list act :=
  AOpen WB_FILE_PATH fd :: if fd <? 0 then [] else [AWrite fd (PAGE_SIZE * NUM_PAGES); AClose fd].
Definition latency_acts (fd : Z) : list act :=
  AOpen WB_FILE_PATH fd :: if fd <? 0 then [] else [AWrite fd PAGE_SIZE; ASync fd; AClose fd].
Definition nowriteback_acts (fd : Z) : list act :=
  [AOpen "/tmp/wb_nowriteback" fd; AWrite fd (PAGE_SIZE * 10000); AClose fd].
Definition batch_acts (fd : Z) : list act :=
  AOpen "/tmp/wb_batch_fsync" fd :: concat (replicate 10 [AWrite fd (PAGE_SIZE * 1000); ASync fd]) ++ [AClose fd].
Definition cleanup_acts : list act := [AUnlink WB_FILE_PATH; AUnlink "/tmp/wb_nowriteback"; AUnlink "/tmp/wb_batch_fsync"].

Section calls.
Variable K : kernel fanswer.

(** If [p] returns, its acts are among [V]. *)
Definition does {A} (p : fileprog A) (V : list act -> Prop) : Prop :=
  forall s, ends K p s (fun o t _ => forall a, o = Returned a -> V (acts t)).

Lemma does_ret {A} (a : A) (V : list act -> Prop) : V [] -> does (Ret a) V.
Proof. intros H s. apply ends_ret. by intros a' _. Qed.

Lemma does_fault {A} f V : does (Fault f : fileprog A) V.
Proof. intros s. apply ends_fault. by intros a' ?. Qed.

Lemma does_call {A} c (k : fanswer c -> fileprog A) V :
  (forall a, does (k a) (fun l => V (option_list (act_of (existT c a)) ++ l))) -> does (Call c k) V.
Proof.
  intros H s. apply ends_call. intros a s' _. eapply ends_mono; [apply H|]. cbn beta. intros o t s2 Ht b Hb.
  specialize (Ht b Hb). unfold acts. cbn [omap list_omap]. by destruct (act_of (existT c a)).
Qed.

Lemma does_bind {A B} (p : fileprog A) (g : A -> fileprog B) V1 V :
  does p V1 -> (forall a l, V1 l -> does (g a) (fun l' => V (l ++ l'))) -> does (p ≫= g) V.
Proof.
  intros Hp Hg s. apply ends_bind. eapply ends_mono; [apply Hp|]. cbn beta. intros [a|code|f] t s' Ht; [|by intros b ?..].
  eapply ends_mono; [apply (Hg a (acts t)); by apply (Ht a)|]. cbn beta. intros o t2 s2 H2 b Hb. rewrite acts_app. by apply (H2 b).
Qed.

Lemma does_times n body l : does body (fun l' => l' = l) -> does (times n body) (fun l' => l' = concat (replicate n l)).
Proof.
  intros Hb. induction n as [|n IH]; cbn [times]; [by apply does_ret|]. eapply does_bind; [exact Hb|].
  intros a l' ->. cbn [replicate concat]. intros s. eapply ends_mono; [apply IH|]. cbn beta. intros o t s' Ht b Hb'. by rewrite (Ht b Hb').
Qed.

(** One call, one test. *)
Ltac does_step :=
  cbv beta; cbn [app option_list act_of];
  match goal with
  | |- does (Call _ _) _ => apply does_call; intros ?
  | |- does (Fault _) _ => apply does_fault
  | |- does (Ret _) _ => apply does_ret
  | |- does (bind_prog _ (match ?a with Some _ => _ | None => _ end)) _ => destruct a
  | |- does (bind_prog _ (if ?b then _ else _)) _ => destruct b eqn:?
  | |- does (if ?b then _ else _) _ => destruct b eqn:?
  end.

Ltac does_run := wp_head; repeat (does_step; wp_head).

Lemma say_does fmt args : does (say fmt args) (fun l => l = []).
Proof. by does_run. Qed.

Lemma accumulation_does : does test_dirty_accumulation (fun l => exists fd, l = accumulation_acts fd).
Proof. unfold test_dirty_accumulation, get_dirty_kb. does_run; eexists; unfold accumulation_acts; by match goal with H : (_ <? 0) = _ |- _ => rewrite H end. Qed.

Lemma latency_does : does test_fsync_latency (fun l => exists fd, l = latency_acts fd).
Proof. unfold test_fsync_latency. does_run; eexists; unfold latency_acts; by match goal with H : (_ <? 0) = _ |- _ => rewrite H end. Qed.

Lemma write_vs_fsync_does : does test_write_vs_fsync (fun l => exists fd1 fd2, l = nowriteback_acts fd1 ++ batch_acts fd2).
Proof.
  unfold test_write_vs_fsync. does_run.
  match goal with |- does (bind_prog ?g (times ?n (Call (WriteFrom ?fd ?p ?m) ?k))) ?V =>
    refine (does_bind (times n (Call (WriteFrom fd p m) k)) g (fun l => l = concat (replicate n [AWrite fd m; ASync fd])) V _ _) end.
  - apply does_times. by does_run.
  - intros _ l ->. does_run. cbn [act_of]. eexists _, _. reflexivity.
Qed.

Lemma cleanup_does : does wb_cleanup (fun l => l = cleanup_acts).
Proof. unfold wb_cleanup. by does_run. Qed.

Lemma wb_test_main_does : does wb_test_main (fun l => exists a b c d,
  l = accumulation_acts a ++ latency_acts b ++ nowriteback_acts c ++ batch_acts d ++ cleanup_acts).
Proof.
  unfold wb_test_main. do 2 (eapply does_bind; [apply say_does|intros _ _ ->]).
  eapply does_bind; [apply accumulation_does|]. intros _ _ [a ->]. eapply does_bind; [apply latency_does|]. intros _ _ [b ->].
  eapply does_bind; [apply write_vs_fsync_does|]. intros _ _ (c & d & ->). eapply does_bind; [apply say_does|intros _ _ ->].
  eapply does_bind; [apply cleanup_does|]. intros _ _ ->. eapply does_bind; [apply say_does|intros _ _ ->].
  apply does_ret. exists a, b, c, d. by rewrite <- !app_assoc, !app_nil_r.
Qed.
End calls.


(** ** The statistics file *)

(** A line without its newline, short enough for the buffer. *)
Definition short_line (l : list Z) : Prop := Forall (fun b => b <> 10 /\ b <> 0) l /\ (length l < 255)%nat.

(** Lines that the format does not match. *)
Definition other_line (l : list Z) : Prop := short_line l /\ strip (bytes "Dirty:") (l ++ [10]) = None.

(** The value of a string of digits. *)
Definition number (ds : list Z) : Z := foldl (fun acc b => acc * 10 + (b - 48)) 0 ds.

(** Lines with their newlines. *)
Definition text (ls : list (list Z)) : list Z := concat (map (fun l => l ++ [10]) ls).

Definition dirty_line (blanks : nat) (ds : list Z) : list Z := bytes "Dirty:" ++ replicate blanks 32 ++ ds ++ bytes " kB".

Lemma next_bytes_line room l rest : Forall (fun b => b <> 10 /\ b <> 0) l -> (length l < room)%nat ->
  next_bytes room (l ++ 10 :: rest) = (l ++ [10], rest).
Proof.
  intros Hl. revert room. induction Hl as [|b l [Hb _] Hl IH]; intros [|room]; cbn [length]; try lia; intros Hr; [done|].
  cbn [app next_bytes]. rewrite (proj2 (Z.eqb_neq b 10) Hb), IH by lia. done.
Qed.

Lemma fgets_line l rest : short_line l -> fgets 256 (l ++ 10 :: rest) = Some (l ++ [10], rest).
Proof.
  intros [Hl Hlen]. unfold fgets. change (256 - 1)%nat with 255%nat.
  rewrite (next_bytes_line 255 l rest Hl Hlen). by destruct l.
Qed.

Lemma upto_nul_id l : Forall (fun b => b <> 10 /\ b <> 0) l -> upto_nul (l ++ [10]) = l ++ [10].
Proof.
  induction 1 as [|b l [_ Hb] Hl IH]; [done|]. cbn [app upto_nul]. by rewrite (proj2 (Z.eqb_neq b 0) Hb), IH.
Qed.

(** Any fuel from the length of the stream on gives the same result. *)
Lemma scan_lines_step fuel l rest : short_line l ->
  scan_lines (S fuel) (l ++ 10 :: rest) =
  match sscanf_dirty (l ++ [10]) with Some dirty => dirty | None => scan_lines fuel rest end.
Proof. intros Hl. cbn [scan_lines]. rewrite fgets_line, upto_nul_id by apply Hl || done. done. Qed.

Lemma scan_other_lines ls fuel rest : Forall other_line ls -> (length ls <= fuel)%nat ->
  scan_lines fuel (text ls ++ rest) = scan_lines (fuel - length ls) rest.
Proof.
  intros Hls. revert fuel. induction Hls as [|l ls [Hl Hs] Hls IH]; intros fuel; cbn [length]; [by rewrite Nat.sub_0_r|].
  destruct fuel as [|fuel]; [lia|]. intros Hf. unfold text. cbn [map concat]. fold (text ls). rewrite <- !app_assoc. cbn [app].
  rewrite scan_lines_step by done. unfold sscanf_dirty. rewrite Hs. apply IH. lia.
Qed.

Lemma read_digits_number acc ds b rest : Forall is_digit ds -> is_digit b = false ->
  read_digits acc (ds ++ b :: rest) = foldl (fun acc b => acc * 10 + (b - 48)) acc ds.
Proof.
  intros Hds Hb. revert acc. induction Hds as [|d ds Hd Hds IH]; intros acc; cbn [app read_digits foldl].
  - by rewrite Hb.
  - by rewrite (Is_true_true_1 _ Hd).
Qed.

Lemma is_digit_range d : is_digit d <-> 48 <= d <= 57.
Proof. unfold is_digit. rewrite andb_True, !Is_true_true, !Z.leb_le. done. Qed.

Lemma scan_ulong_number ds b rest : ds <> [] -> Forall is_digit ds -> is_digit b = false ->
  scan_ulong (ds ++ b :: rest) = Some (Z.min (number ds) (2 ^ 64 - 1)).
Proof.
  intros Hne Hds Hb. destruct ds as [|d ds]; [done|]. assert (Hd : is_digit d) by by inversion Hds.
  pose proof (proj1 (is_digit_range d) Hd). unfold scan_ulong. cbn [app].
  rewrite (proj2 (Z.eqb_neq d 45)), (proj2 (Z.eqb_neq d 43)) by lia. rewrite (Is_true_true_1 _ Hd). change (d :: ds ++ b :: rest) with ((d :: ds) ++ b :: rest).
  rewrite read_digits_number by done. fold (number (d :: ds)). destruct (Z.leb_spec (2 ^ 64) (number (d :: ds))); f_equal; lia.
Qed.

Lemma skip_blanks k d ds : is_digit d -> skip_spaces (replicate k 32 ++ d :: ds) = d :: ds.
Proof.
  intros Hd. induction k as [|k IH]; [|done]. cbn [replicate app skip_spaces].
  apply is_digit_range in Hd. unfold is_space. by split_bool; try lia.
Qed.

Lemma sscanf_dirty_line blanks ds : ds <> [] -> Forall is_digit ds ->
  sscanf_dirty (dirty_line blanks ds ++ [10]) = Some (Z.min (number ds) (2 ^ 64 - 1)).
Proof.
  intros Hne Hds. unfold sscanf_dirty, dirty_line. rewrite <- !app_assoc.
  change (strip (bytes "Dirty:") (bytes "Dirty:" ++ ?x)) with (Some x).
  destruct ds as [|d ds]; [done|]. assert (Hd : is_digit d) by by inversion Hds.
  cbn [app]. rewrite skip_blanks by done. apply (scan_ulong_number (d :: ds)); done.
Qed.

Lemma text_length ls : (length ls <= length (text ls))%nat.
Proof. unfold text. induction ls as [|l ls IH]; [done|]. cbn [map concat length]. rewrite !length_app. cbn [length]. lia. Qed.

(** On a statistics file with a line for the dirty memory, after any other lines
    and before anything else, [get_dirty_kb] returns its number, or the
    greatest one if it is too large, whatever the kernel. *)
Theorem get_dirty_kb_meminfo (K : kernel fanswer) s s1 ls blanks ds rest :
  Forall other_line ls -> ds <> [] -> Forall is_digit ds -> (blanks + length ds < 246)%nat ->
  kcall K s (Fopen "/proc/meminfo") = (Some (text ls ++ dirty_line blanks ds ++ 10 :: rest), s1) ->
  ends K get_dirty_kb s (fun o _ _ => o = Returned (Z.min (number ds) (2 ^ 64 - 1))).
Proof.
  intros Hls Hne Hds Hlen Hopen. unfold get_dirty_kb. set (stream := text ls ++ _) in *.
  unfold mbind, prog_bind, call. cbn [bind_prog]. apply ends_call. intros a s' Hc. rewrite Hopen in Hc. injection Hc as <- <-.
  apply ends_call. intros ? ? _. apply ends_ret. f_equal.
  assert (Hfuel : (length ls < length stream)%nat).
  { unfold stream. rewrite !length_app. cbn [length]. pose proof (text_length ls). lia. }
  unfold stream at 2. rewrite scan_other_lines by (done || lia).
  replace (length stream - length ls)%nat with (S (length stream - length ls - 1)) by lia.
  rewrite scan_lines_step, sscanf_dirty_line; [done..|]. unfold dirty_line. split.
  - rewrite !Forall_app. split_and!; [by repeat constructor|by apply Forall_replicate| |by repeat constructor].
    eapply List.Forall_impl; [|exact Hds]. intros d Hd%is_digit_range. lia.
  - rewrite !length_app, length_replicate. change (length (bytes "Dirty:")) with 6%nat. change (length (bytes " kB")) with 3%nat. lia.
Qed.

(** Without memory the third experiment faults; otherwise all is given back. *)
Lemma wb_test_main_safe_witness :
  ends (ledger true) wb_test_main (Ledger ∅ ∅) (fun o t s' => o = Returned 0 /\ kblocks s' = ∅ /\ kfiles s' = ∅) /\
  fst (fst (run (ledger false) wb_test_main (Ledger ∅ ∅))) = Faulted NullPointer.
Proof.
  split; [|by vm_compute]. pose proof (wb_test_main_safe (ledger true) (Ledger ∅ ∅)) as H. unfold ends in *.
  assert (Ho : fst (fst (run (ledger true) wb_test_main (Ledger ∅ ∅))) = Returned 0) by by vm_compute.
  destruct (run (ledger true) wb_test_main (Ledger ∅ ∅)) as [[o t] s']. cbn [fst snd] in Ho. subst o.
  destruct H as (_ & _ & Hb & Hf). done.
Defined.

