(* ===== verification/MemProbe.v ===== *)
(** * The memory-allocation probes ([demos/memory-allocation/brk.c], [mmap.c])

    The two programs move the break or map pages, store a few bytes and print
    them.  An address space is its break and the bytes that are mapped; whether
    the kernel grants a request, and where it maps, are arguments. *)
From Stdlib Require Import ZArith Lia String.
From stdpp Require Import base numbers list option gmap.
From S2P Require Import Prelude Syscall.

Open Scope Z_scope.

Record aspace := ASpace { brk_addr : Z; mem : gmap Z Z }.

(** The addresses of [len] bytes from [a] on. *)
Definition range (a len : Z) : list Z := seqZ a len.

Definition zeros (a len : Z) : gmap Z Z := list_to_map ((fun x => (x, 0)) <$> range a len).

Definition range_free (m : gmap Z Z) (a len : Z) : bool := forallb (fun x => bool_decide (m !! x = None)) (range a len).

(** [sbrk]: the old break, or -1; new bytes are zero. *)
Definition sbrk (grant : bool) (inc : Z) (s : aspace) : Z * aspace :=
  if inc =? 0 then (brk_addr s, s)
  else if grant && range_free (mem s) (brk_addr s) inc then
    (brk_addr s, ASpace (brk_addr s + inc) (zeros (brk_addr s) inc ∪ mem s))
  else (-1, s).

(** An anonymous private mapping at the address the kernel chooses, or -1
    ([MAP_FAILED]); it is not null and never covers a mapped byte. *)
Definition mmap_anonymous (choice : option Z) (len : Z) (s : aspace) : Z * aspace :=
  match choice with
  | Some a => if (0 <? a) && range_free (mem s) a len then (a, ASpace (brk_addr s) (zeros a len ∪ mem s)) else (-1, s)
  | None => (-1, s)
  end.

Definition munmap (a len : Z) (s : aspace) : aspace :=
  ASpace (brk_addr s) (filter (fun x => fst x ∉ range a len) (mem s)).

Definition store (s : aspace) (a byte : Z) : exec aspace :=
  if bool_decide (is_Some (mem s !! a)) then Ok (ASpace (brk_addr s) (<[a := byte]> (mem s))) else Crash OutOfBounds.

(** A string from [a] on of at most [n] bytes; [None] reads up to the zero. *)
Fixpoint load_string (fuel : nat) (s : aspace) (a : Z) : exec (list Z) :=
  match fuel with
  | O => Ok []
  | S fuel' =>
    match mem s !! a with
    | None => Crash OutOfBounds
    | Some 0 => Ok []
    | Some b => l ← load_string fuel' s (a + 1); Ok (b :: l)
    end
  end.

Definition output : Type := list (string * list arg).

(** [main] of [brk.c].  A string ends before the last mapped byte or faults, so
    the number of mapped bytes bounds its length. *)
Definition brk_main (grant : bool) (s : aspace) : exec (Z * output * aspace) :=
  let '(orig_brk, s) := sbrk grant 0 s in
  let out := [("current brk: %p"%string, [AInt orig_brk])] in
  let '(new_brk, s) := sbrk grant 4096 s in
  if new_brk =? -1 then Ok (1, out ++ [("sbrk failed"%string, [])], s)
  else
    let out := out ++ [("new brk: %p (+4096 bytes)"%string, [AInt (fst (sbrk grant 0 s))])] in
    let p := new_brk in
    s ← store s p 72;
    s ← store s (p + 1) 105;
    s ← store s (p + 2) 0;
    str ← load_string (S (size (mem s))) s p;
    Ok (0, out ++ [("write at new brk: %s"%string, [ABytes str])], s).

(** [main] of [mmap.c]; [%.3s] prints at most three bytes. *)
Definition mmap_main (choice : option Z) (page_size : Z) (s : aspace) : exec (Z * output * aspace) :=
  let '(ptr, s) := mmap_anonymous choice (2 * 4096) s in
  if ptr =? -1 then Ok (1, [("mmap failed"%string, [])], s)
  else
    let out := [("mmap returned: %p"%string, [AInt ptr]); ("page size: %ld bytes"%string, [AInt page_size])] in
    let p := ptr in
    s ← store s p 65;
    s ← store s (p + 1) 66;
    s ← store s (p + 2) 67;
    str ← load_string 3 s p;
    Ok (0, out ++ [("content: %.3s"%string, [ABytes str])], munmap ptr (2 * 4096) s).

(** ** New bytes *)

Lemma elem_of_range a len x : x ∈ range a len <-> a <= x < a + len.
Proof. unfold range. rewrite elem_of_seqZ. lia. Qed.

Lemma zeros_lookup a len x : zeros a len !! x = if bool_decide (a <= x < a + len) then Some 0 else None.
Proof.
  unfold zeros. case_bool_decide as Hx.
  - apply elem_of_list_to_map_1.
    + rewrite <- list_fmap_compose. cbn. rewrite list_fmap_id. apply NoDup_seqZ.
    + apply list_elem_of_fmap. exists x. split; [done|]. by apply elem_of_range.
  - apply not_elem_of_list_to_map_1. rewrite <- list_fmap_compose. cbn. rewrite list_fmap_id. by rewrite elem_of_range.
Qed.

Lemma range_free_spec m a len : range_free m a len = true <-> forall x, a <= x < a + len -> m !! x = None.
Proof.
  unfold range_free. rewrite forallb_forall. setoid_rewrite <- list_elem_of_In. setoid_rewrite bool_decide_eq_true.
  by setoid_rewrite elem_of_range.
Qed.

Lemma store_mapped s a byte b : mem s !! a = Some b -> store s a byte = Ok (ASpace (brk_addr s) (<[a := byte]> (mem s))).
Proof. intros Ha. unfold store. rewrite bool_decide_eq_true_2; [done|]. by eexists. Qed.

(** Fresh bytes are zero and every other byte is as before. *)
Lemma fresh_bytes m a len x : a <= x < a + len -> (zeros a len ∪ m) !! x = Some 0.
Proof. intros Hx. apply lookup_union_Some_l. by rewrite zeros_lookup, bool_decide_eq_true_2. Qed.

(** Three bytes stored at the start of a fresh range. *)
Definition stored (m : gmap Z Z) (a len x y z : Z) : gmap Z Z := <[a + 2 := z]> (<[a + 1 := y]> (<[a := x]> (zeros a len ∪ m))).

Lemma store_three b0 m a len x y z : 3 <= len ->
  (s ← store (ASpace b0 (zeros a len ∪ m)) a x; s ← store s (a + 1) y; store s (a + 2) z) = Ok (ASpace b0 (stored m a len x y z)).
Proof.
  intros Hlen. rewrite (store_mapped _ a x 0) by (apply fresh_bytes; lia). cbn [mbind exec_bind brk_addr mem].
  rewrite (store_mapped _ (a + 1) y 0) by (cbn [mem]; rewrite lookup_insert_ne by lia; apply fresh_bytes; lia).
  cbn [mbind exec_bind brk_addr mem].
  rewrite (store_mapped _ (a + 2) z 0) by (cbn [mem]; rewrite !lookup_insert_ne by lia; apply fresh_bytes; lia). done.
Qed.

Lemma stored_lookup m a len x y z k :
  stored m a len x y z !! k =
  if k =? a + 2 then Some z else if k =? a + 1 then Some y else if k =? a then Some x else (zeros a len ∪ m) !! k.
Proof.
  unfold stored. destruct (Z.eqb_spec k (a + 2)) as [->|]; [by rewrite lookup_insert_eq|]. rewrite lookup_insert_ne by done.
  destruct (Z.eqb_spec k (a + 1)) as [->|]; [by rewrite lookup_insert_eq|]. rewrite lookup_insert_ne by done.
  destruct (Z.eqb_spec k a) as [->|]; [by rewrite lookup_insert_eq|]. by rewrite lookup_insert_ne.
Qed.

Lemma stored_at m a len x y z :
  stored m a len x y z !! a = Some x /\ stored m a len x y z !! (a + 1) = Some y /\ stored m a len x y z !! (a + 1 + 1) = Some z.
Proof. rewrite !stored_lookup. split_and!; split_bool; done || lia. Qed.

(** Unmapping the range gives back the memory from before. *)
Lemma munmap_stored b0 m a len x y z : 3 <= len -> range_free m a len = true ->
  munmap a len (ASpace b0 (stored m a len x y z)) = ASpace b0 m.
Proof.
  intros Hlen Hf. pose proof (proj1 (range_free_spec m a len) Hf) as Hfree. unfold munmap. cbn [brk_addr mem]. f_equal.
  apply map_eq. intros k. destruct (decide (a <= k < a + len)) as [Hk|Hk].
  - rewrite Hfree by done. apply map_lookup_filter_None_2. right. intros v _ Hn. apply Hn. by apply elem_of_range.
  - rewrite map_lookup_filter, stored_lookup. destruct (Z.eqb_spec k (a + 2)), (Z.eqb_spec k (a + 1)), (Z.eqb_spec k a); try lia.
    rewrite lookup_union, zeros_lookup, bool_decide_eq_false_2 by done.
    destruct (m !! k); [|done]. cbn.
    rewrite option_guard_True; [done|]. by rewrite elem_of_range.
Qed.

(** What a program sees that stores three bytes in a fresh range and reads a string. *)
Lemma probe_bytes {B} b0 m a len x y z (k : aspace -> exec B) : 3 <= len ->
  (s ← store (ASpace b0 (zeros a len ∪ m)) a x; s ← store s (a + 1) y; s ← store s (a + 2) z; k s) = k (ASpace b0 (stored m a len x y z)).
Proof.
  intros Hlen. pose proof (store_three b0 m a len x y z Hlen) as Hst.
  destruct (store _ a x) as [s1|]; [cbn [mbind exec_bind] in *|done].
  destruct (store s1 (a + 1) y) as [s2|]; [cbn [mbind exec_bind] in *|done]. by rewrite Hst.
Qed.

Lemma load_max b0 m a len x y z : x <> 0 -> y <> 0 -> z <> 0 ->
  load_string 3 (ASpace b0 (stored m a len x y z)) a = Ok [x; y; z].
Proof.
  intros Hx Hy Hz. destruct (stored_at m a len x y z) as (H1 & H2 & H3). cbn [load_string mem]. rewrite H1, H2, H3.
  by destruct x, y, z.
Qed.

Lemma load_terminated b0 m a len x y fuel : x <> 0 -> y <> 0 ->
  load_string (S (S (S fuel))) (ASpace b0 (stored m a len x y 0)) a = Ok [x; y].
Proof.
  intros Hx Hy. destruct (stored_at m a len x y 0) as (H1 & H2 & H3). cbn [load_string mem]. rewrite H1, H2, H3.
  by destruct x, y.
Qed.

(** At least the three bytes stored are mapped. *)
Lemma stored_size m a len x y z : (3 <= size (stored m a len x y z))%nat.
Proof.
  destruct (stored_at m a len x y z) as (H1 & H2 & H3).
  assert (Hs : ({[a; a + 1; a + 1 + 1]} : gset Z) ⊆ dom (stored m a len x y z)).
  { intros k. rewrite !elem_of_union, !elem_of_singleton, elem_of_dom. intros [[->| ->]| ->]; by eexists. }
  apply subseteq_size in Hs. rewrite size_dom in Hs.
  rewrite !size_union, !size_singleton in Hs by set_solver by lia. lia.
Qed.

(** [main] of [mmap.c]: if the kernel maps the two pages the program prints
    what it stored and leaves the address space exactly as it found it;
    otherwise it reports the failure and has changed nothing. *)
Theorem mmap_main_restores choice page_size s :
  mmap_main choice page_size s =
  match choice with
  | Some a =>
    if (0 <? a) && range_free (mem s) a (2 * 4096) then
      Ok (0, [("mmap returned: %p"%string, [AInt a]); ("page size: %ld bytes"%string, [AInt page_size]);
              ("content: %.3s"%string, [ABytes [65; 66; 67]])], s)
    else Ok (1, [("mmap failed"%string, [])], s)
  | None => Ok (1, [("mmap failed"%string, [])], s)
  end.
Proof.
  unfold mmap_main, mmap_anonymous. assert (Hlen : 3 <= 2 * 4096) by lia. revert Hlen. generalize (2 * 4096). intros len Hlen.
  destruct choice as [a|]; [|done]. destruct (range_free (mem s) a len) eqn:Hf; [|by rewrite andb_false_r].
  destruct (Z.ltb_spec 0 a) as [Ha|]; [|done]. cbn [andb]. destruct (Z.eqb_spec a (-1)); [lia|].
  rewrite probe_bytes, load_max by done. cbn [mbind exec_bind app]. rewrite munmap_stored by done. by destruct s.
Qed.

(** [main] of [brk.c]: if the kernel moves the break the program prints the old
    and the new break, 4096 apart, and the string it stored in the new memory;
    otherwise it reports the failure and has changed nothing. *)
Theorem brk_main_result grant s : 0 <= brk_addr s ->
  let b := brk_addr s in
  brk_main grant s =
  if grant && range_free (mem s) b 4096 then
    Ok (0, [("current brk: %p"%string, [AInt b]); ("new brk: %p (+4096 bytes)"%string, [AInt (b + 4096)]);
            ("write at new brk: %s"%string, [ABytes [72; 105]])],
        ASpace (b + 4096) (stored (mem s) b 4096 72 105 0))
  else Ok (1, [("current brk: %p"%string, [AInt b]); ("sbrk failed"%string, [])], s).
Proof.
  intros Hb b. unfold brk_main, sbrk. change (0 =? 0) with true. change (4096 =? 0) with false. cbn iota.
  assert (Hlen : 3 <= 4096) by lia. revert Hlen. generalize 4096. intros len Hlen.
  fold b. destruct (grant && range_free (mem s) b len); [|done]. destruct (Z.eqb_spec b (-1)); [lia|].
  rewrite probe_bytes by done. cbn [mem]. pose proof (stored_size (mem s) b len 72 105 0) as Hs.
  replace (S (size (stored (mem s) b len 72 105 0))) with (S (S (S (size (stored (mem s) b len 72 105 0) - 2)))) by lia.
  by rewrite load_terminated.
Qed.
