(* ===== verification/WbThreads.v ===== *)
(** * Writeback under concurrency ([demos/writeback/wb_sim.c])

    [Writeback] runs each operation to its end.  Here threads interleave at
    the points where the source holds no lock: [writeback_inode] releases the
    inode's lock for every page it writes and keeps only the saved [next]
    pointer of the list macro, [fsync_inode] reads [nr_dirty] without the lock,
    and other threads store to pages and mark them dirty at any time.

    With one thread writing an inode back the accounting invariant holds in
    every interleaving, up to the page in flight, and every page that was dirty
    when [fsync_inode] began has been written when it returns.  With two such
    threads the saved pointer can dangle. *)
From Stdlib Require Import ZArith Lia.
From stdpp Require Import base numbers list option gmap relations.
From S2P Require Import Prelude ListHead Writeback.

Open Scope Z_scope.

(** ** The [next] pointers of [list_for_each_safe] *)

(** [list_succ h n s] is [n->next] for the head [h] and the nodes of its list;
    for other nodes nothing is known about it. *)
Class ListCursor (N L : Type) `{ListHead N L} := {
  list_succ : N -> N -> L -> N;
  succ_head h s xs : list_view s h = Some xs -> list_succ h h s = default h (head xs);
  succ_node h n s l1 l2 :
    links_wf s -> list_view s h = Some (l1 ++ n :: l2) -> list_succ h n s = default h (head l2)
}.

(** ** Threads *)

(** Where a thread is between two atomic actions.  [n] is the saved pointer. *)
Inductive pc :=
  | FsBegin                            (** [fsync_inode]: about to set [flush_pending] *)
  | FsCheck                            (** about to read [nr_dirty] without the lock *)
  | WbStart                            (** about to take the lock in [writeback_inode] *)
  | WbWrite1 (p : nat) (n : wnode)     (** about to write the page to the device *)
  | WbSynced (p : nat) (n : wnode)     (** about to set [synced] *)
  | WbClear (p : nat) (n : wnode)      (** about to clear [page->dirty] *)
  | WbCount (n : wnode)                (** about to decrement [g_dirty_count] *)
  | WbNext (n : wnode)                 (** about to take the lock again *)
  | FsWait                             (** in the waiting loop *)
  | Finished.

#[export] Instance pc_eq_dec : EqDecision pc.
Proof. solve_decision. Defined.

(** A thread works on one inode; [t_sync] tells [fsync_inode] from a bare
    [writeback_inode] (the flush thread, [sync]). *)
Record thread := Thread { t_inode : nat; t_sync : bool; t_pc : pc }.

Section threads.
Context {L : Type} `{!ListHead wnode L} `{!ListCursor wnode L}.
Variable PAGE_SIZE : Z.
Implicit Types s : wb L.

(** [dp->synced = true]. *)
Definition mark_synced s (p : nat) : exec (wb L) :=
  dp ← get_dp s p;
  Ok (Wb (pages s) (<[p := DirtyPage (dp_inode dp) (dp_offset dp) true]> (dps s)) (inodes s) (wb_links s) (g_dirty_count s) (wb_log s)).

(** [dp->page->dirty = false]. *)
Definition clear_dirty s (p : nat) : exec (wb L) :=
  x ← get_page s p;
  Ok (Wb (<[p := set_dirty false x]> (pages s)) (dps s) (inodes s) (wb_links s) (g_dirty_count s) (wb_log s)).

(** [g_dirty_count--]. *)
Definition count_down s : wb L :=
  Wb (pages s) (dps s) (inodes s) (wb_links s) (u64 (g_dirty_count s - 1)) (wb_log s).

(** The test [pos != head] of the loop, and what runs under the lock after it:
    the page leaves the list, or the loop is over. *)
Definition loop_test s (i : nat) (sync : bool) (pos n : wnode) : exec (wb L * pc) :=
  if decide (pos = DirtyPages i) then
    st ← get_state s i;
    Ok (put_state i (set_progress false st) s, if sync then FsWait else Finished)
  else
    p ← dp_entry pos;
    s ← wb_take s i p;
    Ok (s, WbWrite1 p n).

(** One atomic action of a thread. *)
Definition tstep s (t : thread) : exec (wb L * pc) :=
  let i := t_inode t in
  match t_pc t with
  | FsBegin => st ← get_state s i; Ok (put_state i (set_pending true st) s, FsCheck)
  | FsCheck => st ← get_state s i; Ok (s, if 0 <? nr_dirty st then WbStart else FsWait)
  | WbStart =>
    st ← get_state s i;
    let s := put_state i (set_progress true st) s in
    let pos := list_succ (DirtyPages i) (DirtyPages i) (wb_links s) in
    loop_test s i (t_sync t) pos (list_succ (DirtyPages i) pos (wb_links s))
  | WbWrite1 p n => s ← wb_device s i p; Ok (s, WbSynced p n)
  | WbSynced p n => s ← mark_synced s p; Ok (s, WbClear p n)
  | WbClear p n => s ← clear_dirty s p; Ok (s, WbCount n)
  | WbCount n => Ok (count_down s, WbNext n)
  | WbNext n => loop_test s i (t_sync t) n (list_succ (DirtyPages i) n (wb_links s))
  | FsWait =>
    st ← get_state s i;
    Ok (s, if (nr_dirty st =? 0) && negb (writeback_in_progress st) then Finished else FsWait)
  | Finished => Ok (s, Finished)
  end.

(** [wb_clean] is the three unlocked actions in a row. *)
Lemma wb_clean_actions s p : (s ← mark_synced s p; s ← clear_dirty s p; Ok (count_down s)) = wb_clean s p.
Proof.
  unfold mark_synced, clear_dirty, wb_clean, get_dp, get_page. destruct (dps s !! p); [|done]. cbn [mbind exec_bind pages].
  by destruct (pages s !! p).
Qed.

(** Another thread stores to a page, before it marks it. *)
Definition store_data s (p : nat) (x : page) (v : Z) : wb L :=
  Wb (<[p := Page (p_dirty x) (p_index x) v]> (pages s)) (dps s) (inodes s) (wb_links s) (g_dirty_count s) (wb_log s).

(** Interleaving: one of the threads acts, or anybody stores or marks a page of
    one of the inodes. *)
Inductive cstep (inos : list nat) : wb L * list thread -> wb L * list thread -> Prop :=
  | step_thread s ts k t s' pc' :
      ts !! k = Some t -> tstep s t = Ok (s', pc') ->
      cstep inos (s, ts) (s', <[k := Thread (t_inode t) (t_sync t) pc']> ts)
  | step_store s ts p x v : pages s !! p = Some x -> cstep inos (s, ts) (store_data s p x v, ts)
  | step_mark s ts p i s' : i ∈ inos -> mark_page_dirty PAGE_SIZE s p i = Ok s' -> cstep inos (s, ts) (s', ts).
End threads.

(** ** The flush thread *)

(** The queue of the block device; nothing else uses its three lists. *)
Inductive bdi_head := BDirty | BIo | BMoreIo.
Record bdi_writeback := BdiWriteback { bdi : option nat; flush_ts : Z }.

#[export] Instance bdi_head_eq_dec : EqDecision bdi_head.
Proof. solve_decision. Defined.

Definition FLUSH_CHECK_INTERVAL_MS : Z := 5000.

(** [flush_thread_entry] for the rounds after which [available] tells how much
    memory there was: the loop never ends. *)
Fixpoint flush_thread_entry {L} `{!ListHead wnode L} (psize : Z) (s : wb L) (all_inodes : list nat) (available : list Z) : exec (wb L) :=
  match available with
  | [] => Ok s
  | a :: rest => s ← flush_round psize s a all_inodes; flush_thread_entry psize s all_inodes rest
  end.

(** [writeback_init]: the lists of the queue are emptied and the thread that
    runs [flush_thread_entry] is started. *)
Definition writeback_init {L B} `{!ListHead wnode L} `{!ListHead bdi_head B} (psize : Z) (b : B) :
    B * bdi_writeback * (wb L -> list nat -> list Z -> exec (wb L)) :=
  (init_list_head BMoreIo (init_list_head BIo (init_list_head BDirty b)), BdiWriteback None 0, flush_thread_entry psize).

Lemma writeback_init_empty {L B} `{!ListHead wnode L} `{!ListHead bdi_head B} `{!ListLaws bdi_head B} psize (b : B) h :
  no_nodes b -> list_view (fst (fst (writeback_init (L := L) psize b))) h = Some [].
Proof.
  intros Hn. cbn. rewrite !view_init by (repeat apply off_lists_init; by apply no_nodes_off). destruct h; by repeat case_decide.
Qed.

(** ** The invariant, up to the page in flight *)

(** The state as it will be when the page in flight has been accounted for. *)
Definition settle {L} (c : pc) (s : wb L) : wb L :=
  match c with
  | WbWrite1 p _ | WbSynced p _ | WbClear p _ =>
    Wb (alter (set_dirty false) p (pages s)) (dps s) (inodes s) (wb_links s) (u64 (g_dirty_count s - 1)) (wb_log s)
  | WbCount _ => count_down s
  | _ => s
  end.

(** Pages counted as dirty that are in no list any more. *)
Definition in_flight (c : pc) : Z :=
  match c with WbWrite1 _ _ | WbSynced _ _ | WbClear _ _ | WbCount _ => 1 | _ => 0 end.

(** The page in flight that still has its flag. *)
Definition flying (c : pc) : option nat :=
  match c with WbWrite1 p _ | WbSynced p _ | WbClear p _ => Some p | _ => None end.

(** The saved pointer. *)
Definition cursor (c : pc) : option wnode :=
  match c with
  | WbWrite1 _ n | WbSynced _ n | WbClear _ n | WbCount n | WbNext n => Some n
  | _ => None
  end.

Section invariant.
Context {L : Type} `{!ListHead wnode L} `{!ListLaws wnode L} `{!ListCursor wnode L}.
Variable PAGE_SIZE : Z.
Variable inos : list nat.
Implicit Types (s : wb L) (d : nat -> list nat).

(** Marking commutes with settling. *)
Lemma mark_settle c s s' q j : mark_page_dirty PAGE_SIZE s q j = Ok s' -> flying c <> Some q ->
  0 <= g_dirty_count s - in_flight c -> g_dirty_count s < 2 ^ 32 -> mark_page_dirty PAGE_SIZE (settle c s) q j = Ok (settle c s').
Proof.
  intros Hm Hf H0 H1. destruct c; cbn [settle flying in_flight] in *; try done.
  all: revert Hm; unfold mark_page_dirty, get_state, get_page, get_dp, count_down; cbn [pages inodes dps];
    destruct (inodes s !! j) as [st|]; cbn [mbind exec_bind]; [|done].
  all: try (rewrite lookup_alter_ne by congruence).
  all: destruct (pages s !! q) as [x|]; cbn [mbind exec_bind]; [|done].
  all: destruct (p_dirty x); [by intros [= <-]|]; destruct (dps s !! q) as [dp|]; cbn [mbind exec_bind]; [|done].
  all: intros [= <-]; cbn [pages dps inodes wb_links g_dirty_count wb_log]; do 2 f_equal.
  all: try (by rewrite alter_insert_ne by congruence).
  all: rewrite !(wrapu_small 64 (g_dirty_count s + 1)), !(wrapu_small 64 (g_dirty_count s - 1)) by lia; f_equal; lia.
Qed.

(** ** One writer *)

Section writer.
Variables (i : nat) (sync : bool) (start : list nat) (k : nat).
Hypothesis Hi : i ∈ inos.

(** [q] has been written since the log had [k] entries. *)
Definition written s (q : nat) : Prop := exists w, w ∈ drop k (wb_log s) /\ w_inode w = i /\ w_page w = q.

(** The accounting holds up to the page in flight; the saved pointer is the
    first node of the list, or the head when nothing is left of the pages of
    the start; these are still listed, about to be written, or written. *)
Record one_writer s (c : pc) d (pend : list nat) : Prop := {
  ow_inv : wb_inv inos (settle c s) d;
  ow_count : g_dirty_count s = total d inos + in_flight c;
  ow_pages : Z.of_nat (size (pages s)) < 2 ^ 32;
  ow_flying : forall p, flying c = Some p -> exists x, pages s !! p = Some x /\ p_dirty x = true;
  ow_list : exists new, d i = pend ++ new;
  ow_cursor : forall n, cursor c = Some n -> (exists q l, n = DirtyNode q /\ d i = q :: l) \/ (n = DirtyPages i /\ pend = []);
  ow_cover : forall q, q ∈ start -> q ∈ pend \/ (exists n, c = WbWrite1 q n) \/ written s q;
  ow_done : c = FsWait \/ c = Finished -> pend = [];
  ow_log : (k <= length (wb_log s))%nat
}.

Lemma written_app s s' ws q : (k <= length (wb_log s))%nat -> wb_log s' = wb_log s ++ ws -> written s q -> written s' q.
Proof.
  intros Hk Hl (w & Hw & Hq). exists w. split; [|done]. rewrite Hl, drop_app_le by done. apply elem_of_app. by left.
Qed.

(** A change that keeps lists, counters and flags. *)
Lemma one_writer_same s s' c c' d pend : one_writer s c d pend ->
  wb_inv inos (settle c' s') d -> g_dirty_count s' = total d inos + in_flight c' ->
  size (pages s') = size (pages s) -> (forall p, flying c' = Some p -> exists x, pages s' !! p = Some x /\ p_dirty x = true) ->
  (forall n, cursor c' = Some n -> cursor c = Some n) -> wb_log s' = wb_log s ->
  (forall q n, c = WbWrite1 q n -> exists n', c' = WbWrite1 q n') -> (c' = FsWait \/ c' = Finished -> pend = []) ->
  one_writer s' c' d pend.
Proof.
  intros [] Hinv Hc Hsz Hfl Hcur Hlog Hw Hd. split; try done.
  - by rewrite Hsz.
  - intros n Hn. by apply ow_cursor0, Hcur.
  - intros q Hq. destruct (ow_cover0 q Hq) as [H|[[n H]|H]]; [by left|right; left; by eapply Hw|]. right; right.
    unfold written in *. by rewrite Hlog.
  - by rewrite Hlog.
Qed.

(** The first page leaves the list. *)
Lemma take_first s d pend q l n : wb_inv inos s d -> Z.of_nat (size (pages s)) < 2 ^ 32 -> (k <= length (wb_log s))%nat ->
  d i = q :: l -> (exists new, d i = pend ++ new) -> n = default (DirtyPages i) (head (DirtyNode <$> l)) ->
  (forall p, p ∈ start -> p ∈ pend \/ written s p) ->
  exists s', wb_take s i q = Ok s' /\ one_writer s' (WbWrite1 q n) (upd d i l) (tail pend).
Proof.
  intros Hinv Hsz Hk Hd [new Hnew] Hn Hcov. pose proof Hinv as [Hwf Hnd Hview Hst Hlist Hdir Hclean Hpriv Hcnt Htot].
  assert (q ∈ d i) as Hq by (rewrite Hd; left). destruct (Hlist i q Hi Hq) as (x & Hx & Hxd).
  destruct (Hpriv q x Hx) as [dp Hdp]. destruct (Hst i Hi) as (st & Hsti & Hnr). pose proof (total_ge inos d i Hi) as Hge.
  assert (Ht : total (upd d i l) inos = total d inos - 1) by (rewrite total_upd, Hd by done; cbn [length]; lia).
  rewrite Hd in Hge. cbn [length] in Hge.
  unfold wb_take, get_dp, get_state. rewrite Hdp, Hsti. cbn [mbind exec_bind]. eexists. split; [done|].
  split; cbn [settle in_flight flying cursor pages wb_log g_dirty_count]; try done.
  - eapply (remove_page inos s _ d i q x (set_dirty false x) l); try done.
    + pose proof (listed_nodup inos s d i Hinv Hi) as Hnodup. rewrite Hd in *. by rewrite (filter_ne_middle q [] l).
    + cbn [pages]. apply map_eq. intros p. destruct (decide (p = q)) as [->|Hne].
      * by rewrite lookup_alter_eq, lookup_insert_eq, Hx.
      * by rewrite lookup_alter_ne, lookup_insert_ne.
    + intros p Hp. cbn [dps]. destruct (decide (p = q)) as [->|]; [rewrite lookup_insert_eq; eauto|by rewrite lookup_insert_ne].
    + exists st, (set_nr (u32 (nr_dirty st - 1)) st). done.
  - rewrite Hcnt, Ht. lia.
  - intros p [= <-]. by exists x.
  - rewrite upd_eq. destruct pend as [|a pend]; [by exists l|]. rewrite Hd in Hnew. injection Hnew as -> ->. by exists new.
  - intros n' [= <-]. rewrite upd_eq, Hn. destruct l as [|q2 l]; cbn.
    + right. split; [done|]. rewrite Hd in Hnew. destruct pend as [|a pend]; [done|]. injection Hnew as -> Hnew. by destruct pend.
    + left. by exists q2, l.
  - intros p Hp. destruct (Hcov p Hp) as [Hin|Hw]; [|by right; right]. destruct pend as [|a pend]; [by apply elem_of_nil in Hin|].
    apply elem_of_cons in Hin as [->|Hin]; [|by left]. right; left. rewrite Hd in Hnew. injection Hnew as -> _. by exists n.
  - by intros [|].
Qed.

(** The successor of the first node. *)
Lemma succ_first s d q l : wb_inv inos s d -> d i = q :: l ->
  list_succ (DirtyPages i) (DirtyNode q) (wb_links s) = default (DirtyPages i) (head (DirtyNode <$> l)).
Proof.
  intros Hinv Hd. apply (succ_node _ _ _ [] (DirtyNode <$> l)); [apply (inv_wf _ _ _ Hinv)|].
  rewrite (inv_view _ _ _ Hinv i Hi), Hd. done.
Qed.

(** The end of the loop. *)
Lemma loop_end s d pend n : wb_inv inos s d -> Z.of_nat (size (pages s)) < 2 ^ 32 -> (k <= length (wb_log s))%nat ->
  pend = [] -> (forall p, p ∈ start -> p ∈ pend \/ written s p) ->
  exists s', loop_test s i sync (DirtyPages i) n = Ok (s', if sync then FsWait else Finished) /\
    one_writer s' (if sync then FsWait else Finished) d pend.
Proof.
  intros Hinv Hsz Hk -> Hcov. destruct (inv_state _ _ _ Hinv i Hi) as (st & Hst & Hn). unfold loop_test. rewrite decide_True by done.
  unfold get_state. rewrite Hst. cbn [mbind exec_bind]. eexists. split; [done|].
  assert (Hinv' : wb_inv inos (put_state i (set_progress false st) s) d) by (by eapply inv_flags).
  destruct sync; (split; cbn [settle in_flight flying cursor]; try done;
    [rewrite Z.add_0_r; apply (inv_count _ _ _ Hinv')|by exists (d i)|by intros q Hq; destruct (Hcov q Hq); [left|right; right]]).
Qed.

Lemma loop_node s d pend q l n : wb_inv inos s d -> Z.of_nat (size (pages s)) < 2 ^ 32 -> (k <= length (wb_log s))%nat ->
  d i = q :: l -> (exists new, d i = pend ++ new) -> n = default (DirtyPages i) (head (DirtyNode <$> l)) ->
  (forall p, p ∈ start -> p ∈ pend \/ written s p) ->
  exists s', loop_test s i sync (DirtyNode q) n = Ok (s', WbWrite1 q n) /\ one_writer s' (WbWrite1 q n) (upd d i l) (tail pend).
Proof.
  intros Hinv Hsz Hk Hd Hnew Hn Hcov. destruct (take_first s d pend q l n) as (s' & Hs' & How); try done.
  exists s'. split; [|done]. unfold loop_test. rewrite decide_False by done. cbn [dp_entry mbind exec_bind]. by rewrite Hs'.
Qed.

(** The action at [c] succeeds and keeps the invariant. *)
Definition step_ok (c : pc) : Prop := forall s d pend, one_writer s c d pend ->
  exists s' c' d' pend', tstep s (Thread i sync c) = Ok (s', c') /\ one_writer s' c' d' pend'.

Ltac at_pc := intros s d pend How; pose proof How as [Hinv Hcnt Hsz Hfl Hlist Hcur Hcov Hdone Hlog];
  unfold tstep; cbn [t_inode t_pc t_sync settle in_flight flying cursor] in *.

Lemma step_fs_begin : step_ok FsBegin.
Proof.
  at_pc.
  destruct (inv_state _ _ _ Hinv i Hi) as (st & Hst & Hn). unfold get_state. rewrite Hst. cbn [mbind exec_bind].
  eexists _, _, d, pend. split; [done|]. apply (one_writer_same s _ FsBegin); try done; [by eapply inv_flags|by intros [|]].
Qed.

Lemma step_fs_check : step_ok FsCheck.
Proof.
  at_pc.
  destruct (inv_state _ _ _ Hinv i Hi) as (st & Hst & Hn). unfold get_state. rewrite Hst. cbn [mbind exec_bind].
  eexists _, _, d, pend. split; [done|]. destruct (Z.ltb_spec 0 (nr_dirty st)).
  + apply (one_writer_same s _ FsCheck); try done. by intros [|].
  + assert (Hd : d i = []) by (apply length_zero_iff_nil; lia). destruct Hlist as [new Hnew].
    rewrite Hd in Hnew. symmetry in Hnew. apply app_eq_nil in Hnew as [-> _]. by apply (one_writer_same s _ FsCheck).
Qed.

Lemma step_wb_start : step_ok WbStart.
Proof.
  at_pc.
  destruct (inv_state _ _ _ Hinv i Hi) as (st & Hst & Hn). unfold get_state. rewrite Hst. cbn [mbind exec_bind].
  set (s1 := put_state i (set_progress true st) s). assert (Hinv1 : wb_inv inos s1 d) by (by eapply inv_flags).
  assert (Hcov1 : forall p, p ∈ start -> p ∈ pend \/ written s1 p)
    by (intros p Hp; destruct (Hcov p Hp) as [?|[[]|?]]; [by left|done|by right]).
  rewrite (succ_head _ _ _ (inv_view _ _ _ Hinv1 i Hi)). destruct (d i) as [|q l] eqn:Hd; cbn [fmap list_fmap head default from_option id].
  + destruct Hlist as [new Hnew]. symmetry in Hnew. apply app_eq_nil in Hnew as [Hp _].
    destruct (loop_end s1 d pend (list_succ (DirtyPages i) (DirtyPages i) (wb_links s1))) as (s' & Hs' & How'); try done. by eexists _, _, d, pend.
  + rewrite (succ_first s1 d q l) by done. rewrite <- Hd in Hlist.
    destruct (loop_node s1 d pend q l _ Hinv1 Hsz Hlog Hd Hlist eq_refl Hcov1) as (s' & Hs' & How'). by eexists _, _, _, _.
Qed.

Lemma step_wb_write1 p n : step_ok (WbWrite1 p n).
Proof.
  at_pc.
  destruct (Hfl p eq_refl) as (x & Hx & Hxd). destruct (inv_private _ _ _ Hinv p (set_dirty false x)) as [dp Hdp].
  { cbn [pages]. by rewrite lookup_alter_eq, Hx. }
  cbn [dps] in Hdp. unfold wb_device, get_dp, get_page. rewrite Hdp, Hx. cbn [mbind exec_bind]. eexists _, _, d, pend. split; [done|].
  split; cbn [settle in_flight flying cursor pages wb_log g_dirty_count]; try done.
  + by eapply wb_inv_same.
  + intros q Hq. destruct (Hcov q Hq) as [?|[[n' [= <- <-]]|Hw]]; [by left| |].
    * right; right. exists (WbWrite i p (dp_offset dp) (p_data x)). split; [|done]. cbn [wb_log].
      rewrite drop_app_le by done. apply elem_of_app. right. by apply list_elem_of_singleton.
    * right; right. eapply (written_app s _ [WbWrite i p (dp_offset dp) (p_data x)]); done.
  + by intros [|].
  + rewrite length_app. lia.
Qed.

Lemma step_wb_synced p n : step_ok (WbSynced p n).
Proof.
  at_pc.
  destruct (Hfl p eq_refl) as (x & Hx & Hxd). destruct (inv_private _ _ _ Hinv p (set_dirty false x)) as [dp Hdp].
  { cbn [pages]. by rewrite lookup_alter_eq, Hx. }
  cbn [dps] in Hdp. unfold mark_synced, get_dp. rewrite Hdp. cbn [mbind exec_bind]. eexists _, _, d, pend. split; [done|].
  apply (one_writer_same s _ (WbSynced p n)); cbn [settle in_flight flying cursor pages]; try done; [|by intros [|]].
  eapply wb_inv_same; try done. intros q Hq. cbn [dps]. destruct (decide (q = p)) as [->|]; [rewrite lookup_insert_eq; eauto|by rewrite lookup_insert_ne].
Qed.

Lemma step_wb_clear p n : step_ok (WbClear p n).
Proof.
  at_pc.
  destruct (Hfl p eq_refl) as (x & Hx & Hxd). unfold clear_dirty, get_page. rewrite Hx. cbn [mbind exec_bind].
  eexists _, _, d, pend. split; [done|].
  apply (one_writer_same s _ (WbClear p n)); unfold count_down; cbn [settle in_flight flying cursor pages]; try done; [| |by intros [|]].
  + eapply wb_inv_same; try done. unfold count_down. intros q. cbn [pages]. destruct (decide (q = p)) as [->|].
    * by rewrite lookup_alter_eq, lookup_insert_eq, Hx.
    * by rewrite lookup_alter_ne, lookup_insert_ne.
  + apply map_size_insert_Some. by eexists.
Qed.

Lemma step_wb_count n : step_ok (WbCount n).
Proof.
  at_pc.
  eexists _, _, d, pend. split; [done|]. apply (one_writer_same s _ (WbCount n)); cbn [settle in_flight flying cursor]; try done; [|by intros [|]].
  rewrite (inv_count _ _ _ Hinv). lia.
Qed.

Lemma step_wb_next n : step_ok (WbNext n).
Proof.
  at_pc.
  assert (Hcov1 : forall p, p ∈ start -> p ∈ pend \/ written s p)
    by (intros p Hp; destruct (Hcov p Hp) as [?|[[]|?]]; [by left|done|by right]).
  destruct (Hcur n eq_refl) as [(q & l & -> & Hd)|[-> Hp]].
  + rewrite (succ_first s d q l) by done.
    destruct (loop_node s d pend q l _ Hinv Hsz Hlog Hd Hlist eq_refl Hcov1) as (s' & Hs' & How'). by eexists _, _, _, _.
  + destruct (loop_end s d pend (list_succ (DirtyPages i) (DirtyPages i) (wb_links s))) as (s' & Hs' & How'); try done.
    by eexists _, _, d, pend.
Qed.

Lemma step_fs_wait : step_ok FsWait.
Proof.
  at_pc.
  destruct (inv_state _ _ _ Hinv i Hi) as (st & Hst & Hn). unfold get_state. rewrite Hst. cbn [mbind exec_bind].
  eexists _, _, d, pend. split; [done|]. destruct (_ && _); [|done]. apply (one_writer_same s _ FsWait); try done. intros _. apply Hdone. by left.
Qed.

(** Every action of the thread succeeds and keeps the invariant. *)
Lemma writer_step s c d pend : one_writer s c d pend ->
  exists s' c' d' pend', tstep s (Thread i sync c) = Ok (s', c') /\ one_writer s' c' d' pend'.
Proof.
  revert s d pend. change (step_ok c). destruct c.
  - apply step_fs_begin.
  - apply step_fs_check.
  - apply step_wb_start.
  - apply step_wb_write1.
  - apply step_wb_synced.
  - apply step_wb_clear.
  - apply step_wb_count.
  - apply step_wb_next.
  - apply step_fs_wait.
  - intros s d pend How. by eexists _, _, d, pend.
Qed.

Lemma settle_flags c s s' : (forall p, p_dirty <$> pages s' !! p = p_dirty <$> pages s !! p) ->
  forall p, p_dirty <$> pages (settle c s') !! p = p_dirty <$> pages (settle c s) !! p.
Proof.
  intros Hf p. assert (Ha : forall q, p_dirty <$> alter (set_dirty false) q (pages s') !! p = p_dirty <$> alter (set_dirty false) q (pages s) !! p).
  { intros q. destruct (decide (q = p)) as [->|]; [|by rewrite !lookup_alter_ne]. rewrite !lookup_alter_eq. specialize (Hf p).
    by destruct (pages s' !! p), (pages s !! p). }
  destruct c; cbn [settle pages count_down]; auto.
Qed.

(** Stores and marks of other threads keep it too. *)
Lemma store_step s c d pend p x v : one_writer s c d pend -> pages s !! p = Some x -> one_writer (store_data s p x v) c d pend.
Proof.
  intros How Hx. pose proof How as [Hinv Hcnt Hsz Hfl Hlist Hcur Hcov Hdone Hlog].
  assert (Hfd : forall q, p_dirty <$> pages (store_data s p x v) !! q = p_dirty <$> pages s !! q).
  { intros q. cbn [store_data pages]. destruct (decide (q = p)) as [->|]; [by rewrite lookup_insert_eq, Hx|by rewrite lookup_insert_ne]. }
  apply (one_writer_same s _ c); try done.
  - eapply wb_inv_same; [exact Hinv|by destruct c..| |by destruct c]. by apply settle_flags.
  - cbn [store_data pages]. apply map_size_insert_Some. by eexists.
  - intros q Hq. destruct (Hfl q Hq) as (y & Hy & Hyd). specialize (Hfd q). rewrite Hy in Hfd.
    destruct (pages (store_data s p x v) !! q) as [z|]; [|done]. exists z. split; [done|]. cbn in Hfd. congruence.
  - eauto.
Qed.

Lemma mark_effect s s' q j x : mark_page_dirty PAGE_SIZE s q j = Ok s' -> pages s !! q = Some x -> p_dirty x = false ->
  pages s' = <[q := set_dirty true x]> (pages s) /\ g_dirty_count s' = u64 (g_dirty_count s + 1) /\ wb_log s' = wb_log s.
Proof.
  unfold mark_page_dirty, get_state, get_page, get_dp. intros Hm Hx Hxd. rewrite Hx in Hm. destruct (inodes s !! j); [|done].
  cbn [mbind exec_bind] in Hm. rewrite Hxd in Hm. destruct (dps s !! q); [|done]. by injection Hm as <-.
Qed.

Lemma mark_step s s' c d pend q j : one_writer s c d pend -> j ∈ inos -> mark_page_dirty PAGE_SIZE s q j = Ok s' ->
  exists d' extra, one_writer s' c d' pend /\ d' i = d i ++ extra.
Proof.
  intros How Hj Hm. pose proof How as [Hinv Hcnt Hsz Hfl [new Hnew] Hcur Hcov Hdone Hlog].
  destruct (pages s !! q) as [x|] eqn:Hx.
  2: { revert Hm. unfold mark_page_dirty, get_state, get_page. rewrite Hx. by destruct (inodes s !! j). }
  destruct (p_dirty x) eqn:Hxd.
  { exists d, []. rewrite app_nil_r. revert Hm. unfold mark_page_dirty, get_state, get_page. rewrite Hx.
    destruct (inodes s !! j); cbn [mbind exec_bind]; [|done]. rewrite Hxd. by intros [= <-]. }
  assert (Hnf : flying c <> Some q) by (intros Hf; destruct (Hfl q Hf) as (y & Hy & Hyd); simplify_eq; congruence).
  assert (Hxs : pages (settle c s) !! q = Some x) by (destruct c; cbn [settle flying pages count_down] in *; rewrite ?lookup_alter_ne by congruence; done).
  pose proof (listed_bound inos (settle c s) d q x Hinv Hxs Hxd) as Hb.
  assert (Hbs : size (pages (settle c s)) = size (pages s)) by (destruct c; cbn [settle pages count_down]; rewrite <- ?size_dom, ?dom_alter_L; done).
  assert (H0 : 0 <= total d inos) by (rewrite total_length; lia).
  assert (Hfc : 0 <= in_flight c <= 1) by (destruct c; cbn; lia).
  assert (Hm' : mark_page_dirty PAGE_SIZE (settle c s) q j = Ok (settle c s')) by (apply mark_settle; [done|done|lia|lia]).
  destruct (mark_clean PAGE_SIZE inos (settle c s) d j q x Hinv Hj Hxs Hxd) as (s2 & Hs2 & Hinv2 & _ & Hlog2); [lia|].
  rewrite Hm' in Hs2. injection Hs2 as <-.
  destruct (mark_effect s s' q j x Hm Hx Hxd) as (Hpg & Hg & Hl).
  assert (Hup : exists extra, upd d j (d j ++ [q]) i = d i ++ extra).
  { unfold upd. case_decide as E; [subst j; by exists [q]|exists []; by rewrite app_nil_r]. }
  destruct Hup as [extra Hup]. exists (upd d j (d j ++ [q])), extra. split; [|done]. split; try done.
  - pose proof (inv_inodes _ _ _ Hinv). rewrite Hg, (wrapu_small 64) by lia. rewrite total_upd, length_app by done. cbn [length]. lia.
  - rewrite Hpg, map_size_insert_Some; [done|by eexists].
  - intros p Hp. rewrite Hpg, lookup_insert_ne by congruence. by apply Hfl.
  - exists (new ++ extra). by rewrite Hup, Hnew, app_assoc.
  - intros n Hn. destruct (Hcur n Hn) as [(q' & l & -> & Hd)|[-> Hp]]; [left|by right]. exists q', (l ++ extra). by rewrite Hup, Hd.
  - intros p Hp. unfold written. rewrite Hl. by apply Hcov.
  - by rewrite Hl.
Qed.

(** Everything reachable while one thread works on the inode. *)
Lemma one_writer_reachable s0 c0 d0 pend0 s ts : one_writer s0 c0 d0 pend0 ->
  rtc (cstep PAGE_SIZE inos) (s0, [Thread i sync c0]) (s, ts) ->
  exists c d pend, ts = [Thread i sync c] /\ one_writer s c d pend.
Proof.
  intros H0. remember (s0, [Thread i sync c0]) as a eqn:Ha. remember (s, ts) as b eqn:Hb. intros Hr. revert s0 c0 d0 pend0 H0 Ha.
  induction Hr as [a|a b' b'' Hstep Hr IH]; intros s0 c0 d0 pend0 H0 Ha; [subst a; injection Ha as -> ->; eauto|].
  subst a. inversion Hstep as [s1 ts1 j t s' pc' Ht Hts E1 E2|s1 ts1 p x v Hx E1 E2|s1 ts1 p j s' Hj Hm E1 E2]; subst.
  - apply list_lookup_singleton_Some in Ht as [-> <-]. destruct (writer_step s0 c0 d0 pend0 H0) as (s2 & c2 & d2 & pend2 & Hst & How).
    rewrite Hst in Hts. injection Hts as <- <-. by eapply IH.
  - pose proof (store_step s0 c0 d0 pend0 p x v H0 Hx) as How. by eapply IH.
  - destruct (mark_step s0 s' c0 d0 pend0 p j H0 Hj Hm) as (d' & extra & How & _). by eapply IH.
Qed.
End writer.

(** At the start of [fsync_inode]. *)
Lemma one_writer_begin s d i : i ∈ inos -> wb_inv inos s d -> Z.of_nat (size (pages s)) < 2 ^ 32 ->
  one_writer i (d i) (length (wb_log s)) s FsBegin d (d i).
Proof.
  intros Hi Hinv Hsz. split; cbn [settle in_flight flying cursor]; try done.
  - rewrite Z.add_0_r. apply (inv_count _ _ _ Hinv).
  - exists []. by rewrite app_nil_r.
  - intros q Hq. by left.
  - by intros [|].
Qed.

(** C20: [fsync_inode] while any number of other threads store to pages and mark
    them dirty, in every interleaving: no action of it fails; at every moment
    each inode's counter is the length of its list and the global counter
    the number of listed pages plus the one in flight; and when it returns,
    every page that was dirty when it began has been written to the device
    since then. *)
Theorem fsync_concurrent s0 d0 i s ts : i ∈ inos -> wb_inv inos s0 d0 -> Z.of_nat (size (pages s0)) < 2 ^ 32 ->
  rtc (cstep PAGE_SIZE inos) (s0, [Thread i true FsBegin]) (s, ts) ->
  exists c, ts = [Thread i true c] /\
    (exists s' c', tstep s (Thread i true c) = Ok (s', c')) /\
    (exists d, g_dirty_count s = total d inos + in_flight c /\
      forall j, j ∈ inos -> list_view (wb_links s) (DirtyPages j) = Some (DirtyNode <$> d j) /\
        nr_dirty <$> inodes s !! j = Some (Z.of_nat (length (d j)))) /\
    (c = Finished -> forall p, p ∈ d0 i ->
      exists w, w ∈ drop (length (wb_log s0)) (wb_log s) /\ w_inode w = i /\ w_page w = p).
Proof.
  intros Hi Hinv Hsz Hr. pose proof (one_writer_begin s0 d0 i Hi Hinv Hsz) as Hbegin.
  destruct (one_writer_reachable i true (d0 i) _ Hi s0 FsBegin d0 (d0 i) s ts Hbegin Hr) as (c & d & pend & -> & How).
  exists c. split; [done|].
  destruct (writer_step i true (d0 i) _ Hi s c d pend How) as (s' & c' & _ & _ & Hst & _).
  pose proof How as [Hinv' Hcnt _ _ _ _ Hcov Hdone _]. split; [by exists s', c'|]. split.
  - exists d. split; [done|]. intros j Hj.
    assert (Hl : wb_links (settle c s) = wb_links s /\ inodes (settle c s) = inodes s) by by destruct c. destruct Hl as [Hl1 Hl2].
    rewrite <- Hl1, <- Hl2. split; [by apply (inv_view _ _ _ Hinv')|].
    destruct (inv_state _ _ _ Hinv' j Hj) as (st & -> & Hn). cbn. by rewrite Hn.
  - intros -> p Hp. destruct (Hcov p Hp) as [Hin|[[n ?]|Hw]]; [|done|done].
    rewrite (Hdone (or_intror eq_refl)) in Hin. by apply elem_of_nil in Hin.
Qed.

(** ** Two writers *)

Lemma thread_steps s ts k i sync c s' c' : ts !! k = Some (Thread i sync c) -> tstep s (Thread i sync c) = Ok (s', c') ->
  cstep PAGE_SIZE inos (s, ts) (s', <[k := Thread i sync c']> ts).
Proof. intros Hk Hs. exact (step_thread PAGE_SIZE inos s ts k _ s' c' Hk Hs). Qed.

(** One iteration of the loop, from the lock to the point before the next. *)
Lemma first_iteration s d i sync ts k q l : i ∈ inos -> wb_inv inos s d -> d i = q :: l -> ts !! k = Some (Thread i sync WbStart) ->
  exists s', wb_inv inos s' (upd d i l) /\ is_Some (pages s' !! q) /\
    rtc (cstep PAGE_SIZE inos) (s, ts)
      (s', <[k := Thread i sync (WbNext (default (DirtyPages i) (head (DirtyNode <$> l))))]> ts).
Proof.
  intros Hi Hinv Hd Hk. set (n := default _ _). destruct (inv_state _ _ _ Hinv i Hi) as (st & Hst & _).
  set (sp := put_state i (set_progress true st) s). assert (Hinvp : wb_inv inos sp d) by (by eapply inv_flags).
  destruct (wb_body inos sp d i q l Hinvp Hi Hd) as (s1 & s2 & s' & x & w & st1 & st2 & H1 & H2 & H3 & Hinv' & Hx & Hpg & _).
  rewrite <- wb_clean_actions in H3. destruct (mark_synced s2 q) as [s3|] eqn:H4; [|done]. cbn [mbind exec_bind] in H3.
  destruct (clear_dirty s3 q) as [s4|] eqn:H5; [|done]. cbn [mbind exec_bind] in H3. injection H3 as <-.
  exists (count_down s4). split; [done|]. split; [rewrite Hpg, lookup_insert_eq; by eexists|]. assert (Hlen : (k < length ts)%nat) by (by eapply lookup_lt_Some).
  eapply rtc_l; [eapply (thread_steps s ts k i sync WbStart s1 (WbWrite1 q n)); [done|]|].
  { unfold tstep, get_state. cbn [t_pc t_inode t_sync]. rewrite Hst. cbn [mbind exec_bind]. fold sp.
    rewrite (succ_head _ _ _ (inv_view _ _ _ Hinvp i Hi)), Hd. cbn [fmap list_fmap head default from_option id].
    rewrite (succ_first i Hi sp d q l Hinvp Hd). fold n. unfold loop_test. rewrite decide_False by done. cbn [dp_entry mbind exec_bind]. by rewrite H1. }
  eapply rtc_l; [eapply (thread_steps _ _ k i sync (WbWrite1 q n) s2 (WbSynced q n)); [by apply list_lookup_insert_eq|]|].
  { cbn. by rewrite H2. }
  eapply rtc_l; [eapply (thread_steps _ _ k i sync (WbSynced q n) s3 (WbClear q n)); [by apply list_lookup_insert_eq; rewrite ?length_insert|]|].
  { cbn. by rewrite H4. }
  eapply rtc_l; [eapply (thread_steps _ _ k i sync (WbClear q n) s4 (WbCount n)); [by apply list_lookup_insert_eq; rewrite ?length_insert|]|].
  { cbn. by rewrite H5. }
  eapply rtc_l; [eapply (thread_steps _ _ k i sync (WbCount n) (count_down s4) (WbNext n)); [by apply list_lookup_insert_eq; rewrite ?length_insert|done]|].
  rewrite !list_insert_insert_eq. done.
Qed.

(** C32: Two threads that write back one inode ([fsync_inode] and the flush
    thread, say) break the list: if at least two pages are dirty, the first
    thread can come to hold a saved pointer to a node that is in no list any
    more, because the second thread has taken it, and its next action takes
    that page a second time and decrements the inode's counter, to
    4294967295 if no other page was dirty. *)
Theorem two_writers_dangle s d i a b p q l : i ∈ inos -> wb_inv inos s d -> d i = p :: q :: l ->
  exists s' n s'' n', rtc (cstep PAGE_SIZE inos) (s, [Thread i a WbStart; Thread i b WbStart])
      (s', [Thread i a (WbNext (DirtyNode q)); Thread i b (WbNext n)]) /\
    unlinked (DirtyNode q) (wb_links s') /\
    nr_dirty <$> inodes s' !! i = Some (Z.of_nat (length l)) /\
    tstep s' (Thread i a (WbNext (DirtyNode q))) = Ok (s'', WbWrite1 q n') /\
    nr_dirty <$> inodes s'' !! i = Some (u32 (Z.of_nat (length l) - 1)).
Proof.
  intros Hi Hinv Hd.
  destruct (first_iteration s d i a [Thread i a WbStart; Thread i b WbStart] 0 p (q :: l) Hi Hinv Hd eq_refl) as (s1 & Hinv1 & _ & Hr1).
  destruct (first_iteration s1 (upd d i (q :: l)) i b [Thread i a (WbNext (DirtyNode q)); Thread i b WbStart] 1 q l Hi Hinv1
    (upd_eq _ _ _) eq_refl) as (s2 & Hinv2 & [x Hx] & Hr2).
  pose proof (listed_nodup inos s d i Hinv Hi) as Hnd. rewrite Hd in Hnd. apply list.NoDup_cons in Hnd as [_ [Hq _]%list.NoDup_cons].
  assert (Hfree : forall j, j ∈ inos -> q ∉ upd (upd d i (q :: l)) i l j).
  { intros j Hj Hin. unfold upd in Hin. destruct (decide (j = i)) as [->|Hne]; [done|]. apply Hne.
    apply (listed_once inos s d j i q Hinv Hj Hi Hin). rewrite Hd. right. left. }
  destruct (inv_state _ _ _ Hinv2 i Hi) as (st & Hst & Hn). rewrite upd_eq in Hn.
  destruct (inv_private _ _ _ Hinv2 q x Hx) as [dp Hdp].
  eexists s2, _, _, _. split; [etrans; [exact Hr1|exact Hr2]|]. split; [by apply (inv_clean _ _ _ Hinv2)|].
  split; [rewrite Hst; cbn; by rewrite Hn|]. cbn [tstep t_pc t_inode t_sync]. unfold loop_test. rewrite decide_False by done.
  unfold wb_take, get_dp, get_state. cbn [dp_entry mbind exec_bind]. rewrite Hdp, Hst. cbn [mbind exec_bind]. split; [done|].
  cbn [inodes]. rewrite lookup_insert_eq. cbn. by rewrite Hn.
Qed.
End invariant.

(** ** An implementation of the pointers *)

Fixpoint succ_in {N} `{EqDecision N} (h n : N) (xs : list N) : N :=
  match xs with
  | [] => h
  | x :: xs' => if decide (x = n) then default h (head xs') else succ_in h n xs'
  end.

Lemma succ_in_middle {N} `{EqDecision N} (h n : N) l1 l2 : n ∉ l1 -> succ_in h n (l1 ++ n :: l2) = default h (head l2).
Proof.
  induction l1 as [|x l1 IH]; cbn; intros Hn; [by rewrite decide_True|]. apply not_elem_of_cons in Hn as [Hne Hn].
  rewrite decide_False by done. by apply IH.
Qed.

Definition view_succ {N} `{EqDecision N} (h n : N) (s : @store N) : N :=
  match s h with Some xs => if decide (n = h) then default h (head xs) else succ_in h n xs | None => h end.

#[export] Instance view_cursor {N} `{EqDecision N} : ListCursor N (@store N).
Proof.
  refine (@Build_ListCursor N (@store N) _ view_succ _ _); unfold view_succ.
  - intros h s xs Hs. cbn in Hs. by rewrite Hs, decide_True.
  - intros h n s l1 l2 Hwf Hs. pose proof Hs as Hs'. cbn in Hs'. rewrite Hs'. rewrite decide_False.
    + apply succ_in_middle. pose proof (links_nodup s Hwf h _ Hs) as Hnd. apply list.NoDup_app in Hnd as (_ & Hd & _).
      intros Hin. apply (Hd n Hin). left.
    + intros ->. assert (Hin : h ∈ l1 ++ h :: l2) by (apply elem_of_app; right; left).
      pose proof (links_node s Hwf h _ h Hs Hin) as Hnone. congruence.
Defined.

(** ** Concrete executions *)

(** A thread that runs alone for [n] actions. *)
Fixpoint solo {L} `{!ListHead wnode L} `{!ListCursor wnode L} (n : nat) (s : wb L) (t : thread) : exec (wb L * pc) :=
  match n with
  | O => Ok (s, t_pc t)
  | S n' => '(s', c) ← tstep s t; solo n' s' (Thread (t_inode t) (t_sync t) c)
  end.

Lemma solo_reaches {L} `{!ListHead wnode L} `{!ListCursor wnode L} psize inos n (s : wb L) i sync c s' c' :
  solo n s (Thread i sync c) = Ok (s', c') ->
  rtc (cstep psize inos) (s, [Thread i sync c]) (s', [Thread i sync c']).
Proof.
  revert s c. induction n as [|n IH]; intros s c; cbn [solo t_inode t_sync]; [intros [= -> ->]; apply rtc_refl|].
  destruct (tstep s (Thread i sync c)) as [[s1 c1]|] eqn:Ht; cbn [mbind exec_bind]; [|done]. intros Hs.
  eapply rtc_l; [|by apply IH]. exact (step_thread psize inos s [Thread i sync c] 0 _ s1 c1 eq_refl Ht).
Qed.

Lemma fsync_concurrent_witness : exists s, rtc (cstep 4096 [0%nat]) (demo_wb, [Thread 0 true FsBegin]) (s, [Thread 0 true Finished]) /\
  exists w, w ∈ wb_log s /\ w_page w = 0%nat.
Proof.
  eassert (Hrun : solo 9 demo_wb (Thread 0 true FsBegin) = Ok (_, Finished)) by (vm_compute; reflexivity).
  apply (solo_reaches 4096 [0%nat]) in Hrun. eexists. split; [exact Hrun|].
  destruct (fsync_concurrent 4096 [0%nat] demo_wb demo_dirty 0 _ _ ltac:(by apply list_elem_of_singleton) demo_wb_inv ltac:(by vm_compute) Hrun)
    as (c & [= <-] & _ & _ & Hw).
  destruct (Hw eq_refl 0%nat ltac:(by apply list_elem_of_singleton)) as (w & Hin & _ & Hp). by exists w.
Defined.

(** Two dirty pages: the counter ends at 4294967295. *)
Lemma two_writers_dangle_witness : exists s0 s' n s'' n',
  mark_page_dirty 4096 demo_wb 1 0 = Ok s0 /\
  rtc (cstep 4096 [0%nat]) (s0, [Thread 0 true WbStart; Thread 0 false WbStart])
    (s', [Thread 0 true (WbNext (DirtyNode 1)); Thread 0 false (WbNext n)]) /\
  tstep s' (Thread 0 true (WbNext (DirtyNode 1))) = Ok (s'', WbWrite1 1 n') /\
  nr_dirty <$> inodes s'' !! 0%nat = Some 4294967295.
Proof.
  destruct (mark_clean 4096 [0%nat] demo_wb demo_dirty 0 1 (Page false 4 0) demo_wb_inv) as (s0 & Hm & Hinv & _);
    [by apply list_elem_of_singleton|reflexivity..|].
  destruct (two_writers_dangle 4096 [0%nat] s0 _ 0 true false 0 1 [] ltac:(by apply list_elem_of_singleton) Hinv eq_refl)
    as (s' & n & s'' & n' & Hr & _ & _ & Ht & Hn).
  by exists s0, s', n, s'', n'.
Defined.
