(* ===== verification/LvmPrint.v ===== *)
(** * Reports on volumes ([demos/lvm/lvm.c], [print_pv], [print_vg], [print_lv])

    The values the three functions print, through the pointers they follow.
    Sizes in bytes are 64-bit products; quotients of floating-point arguments
    are kept as their two numbers. *)
From Stdlib Require Import ZArith Lia String.
From stdpp Require Import base numbers list option gmap.
From S2P Require Import Prelude Lvm LvmVolume.

Open Scope Z_scope.

(** Name, extents used, extents, percentage (a quotient), extents free. *)
Record pv_report := PvReport { r_name : string; r_used : Z; r_count : Z; r_percent : Z * Z; r_free : Z }.

Definition print_pv (p : pv) : pv_report :=
  let used := pe_count p - pv_free_pe p in
  PvReport (pv_name p) used (pe_count p) (100 * used, pe_count p) (pv_free_pe p).

(** The bytes of [n] extents, before the division by 1024.0 three times. *)
Definition extent_bytes (n : Z) : Z := u64 (u64 (u64 n * PE_SIZE_SECTORS) * SECTOR_SIZE).

Record vg_report := VgReport {
  g_name : string; g_count : Z; g_lines : list pv_report; g_total : Z; g_total_bytes : Z; g_free : Z; g_free_bytes : Z
}.

Fixpoint print_members (h : gmap nat pv) (pvs : list nat) : exec (list pv_report) :=
  match pvs with
  | [] => Ok []
  | q :: rest =>
    match h !! q with
    | None => Crash NullPointer
    | Some p => ls ← print_members h rest; Ok (print_pv p :: ls)
    end
  end.

Definition print_vg (h : gmap nat pv) (g : vg) : exec vg_report :=
  ls ← print_members h (vg_pvs g);
  Ok (VgReport (vg_name g) (pv_count g) ls (vg_total_pe g) (extent_bytes (vg_total_pe g)) (vg_free_pe g) (extent_bytes (vg_free_pe g))).

(** Name, extents, bytes; for a snapshot also the origin's name and the size of
    the copy-on-write area. *)
Definition print_lv (w : world) (lp : nat) : exec (string * Z * Z * option (string * Z)) :=
  match w_lvs w !! lp with
  | None => Crash NullPointer
  | Some l =>
    let line := (lv_name l, le_count l, extent_bytes (le_count l)) in
    match origin l with
    | None => Ok (line, None)
    | Some op =>
      match w_lvs w !! op with
      | None => Crash UseAfterFree
      | Some o => Ok (line, Some (lv_name o, cow_pe_count l))
      end
    end
  end.

Lemma print_members_spec h pvs : (forall q, q ∈ pvs -> exists p, h !! q = Some p /\ pv_wf p) ->
  exists ls, print_members h pvs = Ok ls /\ length ls = length pvs /\ r_free <$> ls = vg_frees h pvs /\
    Forall (fun l => 0 <= r_free l /\ r_used l + r_free l = r_count l) ls.
Proof.
  induction pvs as [|q pvs IH]; intros Hall; [by exists []|].
  destruct (Hall q) as (p & Hp & Hwf); [left|]. destruct IH as (ls & Hls & Hlen & Hf & Hok); [intros q' Hq; apply Hall; by right|].
  cbn [print_members]. rewrite Hp, Hls. cbn [mbind exec_bind]. exists (print_pv p :: ls). split; [done|]. cbn [length]. split; [lia|].
  split; [unfold vg_frees in *; rewrite !fmap_cons, Hp, Hf; done|]. constructor; [|done]. cbn. destruct Hwf as (_ & _ & _ & ->).
  pose proof (pv_clear_nonneg p). lia.
Qed.

Lemma extent_bytes_small n : 0 <= n < 2 ^ 31 -> extent_bytes n = n * 1024 * 1024.
Proof. intros Hn. unfold extent_bytes. change PE_SIZE_SECTORS with 2048. unfold SECTOR_SIZE. rewrite (wrapu_small 64 n), (wrapu_small 64 (n * 2048)), (wrapu_small 64 (n * 2048 * 512)) by lia. lia. Qed.

(** The report of a consistent group is complete and adds up: a line per member,
    in each line used and free extents make up the count, and the free extents
    of the lines are those printed for the group. *)
Theorem print_vg_adds_up h g : vg_wf h g -> 0 <= vg_total_pe g < 2 ^ 31 -> vg_free_pe g < 2 ^ 31 ->
  exists r, print_vg h g = Ok r /\ Z.of_nat (length (g_lines r)) = g_count r /\
    Forall (fun l => 0 <= r_free l /\ r_used l + r_free l = r_count l) (g_lines r) /\
    sumZ (r_free <$> g_lines r) = g_free r /\
    g_free_bytes r = g_free r * 1024 * 1024 /\ g_total_bytes r = g_total r * 1024 * 1024.
Proof.
  intros Hwf Ht Hf. pose proof (vg_free_nonneg h g Hwf). pose proof Hwf as (_ & _ & Hall & Hfree).
  destruct (print_members_spec h (vg_pvs g) Hall) as (ls & Hls & Hlen & Hfr & Hok). unfold print_vg. rewrite Hls. cbn [mbind exec_bind].
  eexists. split; [done|]. cbn. split_and!; [unfold pv_count; lia|done|by rewrite Hfr|by apply extent_bytes_small..].
Qed.

Lemma print_vg_adds_up_witness : exists r, print_vg demo_heap demo_vg = Ok r /\ sumZ (r_free <$> g_lines r) = g_free r.
Proof.
  destruct (print_vg_adds_up demo_heap demo_vg demo_vg_wf) as (r & Hr & _ & _ & Hs & _); [by vm_compute..|]. by exists r.
Defined.
