(* ===== verification/IpBuffers.v ===== *)
(** * The static buffers of [ip_str] and the demos' [main] functions

    [ip_str] of the network demos formats into the next of a ring of static
    buffers (eight of 64 bytes in [demos/route/route.c], four of 32 bytes in
    [demos/conntrack/conntrack.c] and its siblings) and returns a pointer into
    the ring.  Here the ring is modelled, and shown to behave like the pure
    functions of [NetAddr] as long as no more pointers are live than it has
    buffers; then [main] of [route.c], whose lines hold two such pointers
    whose calls the compiler may make in either order, and [main] of
    [conntrack.c], which runs its demonstrations on one table. *)
From Stdlib Require Import ZArith Lia String.
From stdpp Require Import base numbers list option gmap strings pretty.
From S2P Require Import Prelude NetAddr Route Conntrack.

Open Scope Z_scope.

(** ** The ring *)

(** [static char buf[count][width]; static int idx;] *)
Record ring := Ring { buf : list string; idx : Z }.

(** [snprintf(b, n, ...)] keeps at most [n - 1] characters. *)
Definition snprintf (n : Z) (s : string) : string := String.substring 0 (Z.to_nat (n - 1)) s.

(** One function of the family: the dimensions of its buffers and its format. *)
Record ip_format := IpFormat { count : Z; width : Z; format : Z -> string }.

Definition route_fmt : ip_format := IpFormat 8 64 route_ip_str.
Definition low_fmt : ip_format := IpFormat 4 32 low_ip_str.

(** [ip_str]: the ring it leaves and the buffer it returns. *)
Definition ip_str (f : ip_format) (s : ring) (ip : Z) : exec (ring * Z) :=
  let i := (idx s + 1) mod count f in
  b ← arr_set (buf s) i (snprintf (width f) (format f ip));
  Ok (Ring b i, i).

(** The calls of an argument list, in the order they are made. *)
Fixpoint ip_strs (f : ip_format) (s : ring) (ips : list Z) : exec (ring * list Z) :=
  match ips with
  | [] => Ok (s, [])
  | ip :: ips => '(s, p) ← ip_str f s ip; '(s, ps) ← ip_strs f s ips; Ok (s, p :: ps)
  end.

(** What [%s] prints for a pointer. *)
Definition deref (s : ring) (p : Z) : exec string := arr_get (buf s) p.

Definition ring_init (f : ip_format) : ring := Ring (replicate (Z.to_nat (count f)) "") 0.

(** ** The programs *)

(** [ip_hex] of [route.c]: the byte it extracts is not used, each of the four
    lines shows the four words of the array with [%d]. *)
Fixpoint ip_hex_loop (ip : list Z) (i : Z) (n : nat) : exec (list (list Z)) :=
  match n with
  | O => Ok []
  | S n' =>
    x ← arr_get ip i;
    let c := Z.land (Z.shiftr x (8 * i)) 0xFF in
    a ← arr_get ip 0; b ← arr_get ip 1; c' ← arr_get ip 2; d ← arr_get ip 3;
    ls ← ip_hex_loop ip (i + 1) n';
    Ok ((s32 <$> [a; b; c'; d]) :: ls)
  end.

Definition ip_hex (ip : list Z) : exec (list (list Z)) := ip_hex_loop ip 0 4.

(** A line of the listing in [main] of [route.c]: two calls of [ip_str] in an
    order that C leaves open, then the line is printed. *)
Definition list_route (dst_first : bool) (s : ring) (r : route_entry)
    : exec (ring * (string * Z * string * string * Z * string)) :=
  let gws := if negb (gw r =? 0) then [gw r] else [] in
  '(s, ps) ← ip_strs route_fmt s (if dst_first then dst r :: gws else gws ++ [dst r]);
  let ps := if dst_first then ps else reverse ps in
  d ← arr_get ps 0;
  d ← deref s d;
  g ← (if negb (gw r =? 0) then p ← arr_get ps 1; deref s p else Ok "直连"%string);
  Ok (s, (d, prefix_len (mask r), g, iface_name r, metric r, comment r)).

Fixpoint list_routes (dst_first : bool) (s : ring) (rs : list route_entry)
    : exec (ring * list (string * Z * string * string * Z * string)) :=
  match rs with
  | [] => Ok (s, [])
  | r :: rs => '(s, l) ← list_route dst_first s r; '(s, ls) ← list_routes dst_first s rs; Ok (s, l :: ls)
  end.

(** [main] of [route.c] up to its fixed text. *)
Definition route_main (dst_first : bool) (s : ring) :
    exec (list (string * Z * string * string * Z * string) * list (list string) * list (option (string * Z * string * string))) :=
  '(_, rows) ← list_routes dst_first s kernel_routes;
  Ok (rows, [demo_local_delivery; demo_gateway_forward; demo_no_route; demo_local_generated], demo_multi_network).

(** The number [print_summary] ends with. *)
Definition print_summary (t : ct) : Z := conn_total t.

(** [main] of [conntrack.c]: the state matches printed, the reply found by the
    ICMP demonstration and the number of connections at the end. *)
Definition conntrack_main (t : ct) : exec (ct * list string * option (nat * bool) * Z) :=
  '(t, _, m1) ← demo_tcp_handshake t;
  '(t, _, m2) ← demo_udp_nat t;
  '(t, _, m3, r) ← demo_icmp t;
  '(t, _) ← demo_router_forward t;
  Ok (t, m1 ++ m2 ++ [m3], r, print_summary t).

(** [ip_hex] needs four words and prints the same line four times: a single
    address, which its parameter suggests, is read past its end. *)
Lemma ip_hex_lines a b c d rest : ip_hex (a :: b :: c :: d :: rest) = Ok (replicate 4 (s32 <$> [a; b; c; d])).
Proof. reflexivity. Qed.
Lemma ip_hex_one a : ip_hex [a] = Crash OutOfBounds.
Proof. reflexivity. Qed.

(** ** Lengths *)

Lemma substring_all n s : (String.length s <= n)%nat -> String.substring 0 n s = s.
Proof. revert n. induction s as [|c s IH]; intros [|n] H; cbn in *; [done..|lia|]. f_equal. apply IH. lia. Qed.

Lemma pretty_byte z : 0 <= z < 256 -> (String.length (pretty z) <= 3)%nat.
Proof.
  intros Hz. assert (Hall : forallb (fun z => Nat.leb (String.length (pretty z)) 3) (seqZ 0 256) = true) by (vm_compute; reflexivity).
  rewrite forallb_forall in Hall. apply Nat.leb_le, Hall, list_elem_of_In, elem_of_seqZ. lia.
Qed.

Lemma ip_byte_bound ip k : 0 <= ip_byte ip k < 256.
Proof. unfold ip_byte. rewrite (Z.land_ones _ 8) by lia. apply Z.mod_pos_bound. lia. Qed.

Lemma string_length_app s1 s2 : String.length (s1 ++ s2)%string = (String.length s1 + String.length s2)%nat.
Proof. induction s1 as [|c s1 IH]; [done|]. exact (f_equal S IH). Qed.

Lemma dotted_length a b c d : 0 <= a < 256 -> 0 <= b < 256 -> 0 <= c < 256 -> 0 <= d < 256 ->
  (String.length (dotted a b c d) <= 15)%nat.
Proof.
  intros Ha%pretty_byte Hb%pretty_byte Hc%pretty_byte Hd%pretty_byte. unfold dotted.
  rewrite !string_length_app. cbn [String.length]. lia.
Qed.

(** The buffers are large enough: nothing is cut off. *)
Class FormatFits (f : ip_format) : Prop := {
  count_pos : 0 < count f;
  format_fits ip : snprintf (width f) (format f ip) = format f ip
}.

#[export] Instance route_fits : FormatFits route_fmt.
Proof.
  split; [done|]. intros ip. apply substring_all. cbn. unfold route_ip_str.
  etrans; [apply dotted_length; apply ip_byte_bound|lia].
Qed.

#[export] Instance low_fits : FormatFits low_fmt.
Proof.
  split; [done|]. intros ip. apply substring_all. cbn. unfold low_ip_str.
  etrans; [apply dotted_length; apply ip_byte_bound|lia].
Qed.

(** ** What a pointer reads *)

Section ring.
Context (f : ip_format) {Hf : FormatFits f}.
Implicit Types s : ring.

Definition ring_wf s : Prop := Z.of_nat (length (buf s)) = count f.

Lemma mod_apart a b c : 0 < c -> a < b < a + c -> a mod c <> b mod c.
Proof.
  intros Hc Hab E. pose proof (Z.div_mod a c ltac:(lia)) as Ha. pose proof (Z.div_mod b c ltac:(lia)) as Hb. rewrite E in Ha.
  assert (Hd : b - a = c * (b / c - a / c)) by lia. destruct (Z.le_gt_cases (b / c - a / c) 0); nia.
Qed.

Lemma ip_str_ok s ip : ring_wf s ->
  ip_str f s ip = Ok (Ring (<[Z.to_nat ((idx s + 1) mod count f) := format f ip]> (buf s)) ((idx s + 1) mod count f), (idx s + 1) mod count f).
Proof.
  intros Hs. unfold ip_str. rewrite format_fits, arr_set_ok; [done|]. rewrite Hs. apply Z.mod_pos_bound, count_pos.
Qed.

(** [ip_strs] hands out consecutive slots and leaves all the others alone. *)
Lemma ip_strs_ok s ips : ring_wf s -> exists s', ip_strs f s ips = Ok (s', (fun k => (idx s + 1 + k) mod count f) <$> seqZ 0 (Z.of_nat (length ips))) /\
  ring_wf s' /\
  (forall j, 0 <= j -> (forall k, 0 <= k < Z.of_nat (length ips) -> (idx s + 1 + k) mod count f <> j) -> buf s' !! Z.to_nat j = buf s !! Z.to_nat j) /\
  (forall k ip, ips !! k = Some ip -> Z.of_nat (length ips) <= Z.of_nat k + count f ->
    buf s' !! Z.to_nat ((idx s + 1 + Z.of_nat k) mod count f) = Some (format f ip)).
Proof.
  pose proof count_pos as Hc. revert s. induction ips as [|ip ips IH]; intros s Hs; [by exists s|].
  cbn [ip_strs]. rewrite ip_str_ok by done. cbn [mbind exec_bind]. set (i := (idx s + 1) mod count f). set (s1 := Ring _ i).
  assert (Hs1 : ring_wf s1) by (unfold ring_wf; cbn; by rewrite length_insert).
  destruct (IH s1 Hs1) as (s' & -> & Hs' & Hother & Hread). exists s'. cbn [mbind exec_bind].
  assert (Hi : forall k, (idx s1 + 1 + k) mod count f = (idx s + 1 + (k + 1)) mod count f).
  { intros k. cbn [s1 idx]. unfold i. rewrite <- Z.add_assoc, Z.add_mod_idemp_l by lia. f_equal. lia. }
  assert (Hi0 : 0 <= i < count f) by by apply Z.mod_pos_bound.
  split_and!; [|done| |].
  - do 2 f_equal. cbn [length]. rewrite (seqZ_cons 0 (Z.of_nat (S (length ips)))) by lia. rewrite fmap_cons, Z.add_0_r. f_equal.
    replace (Z.pred (Z.of_nat (S (length ips)))) with (Z.of_nat (length ips)) by lia.
    rewrite <- (fmap_add_seqZ 1 0), <- list_fmap_compose. apply list_fmap_ext. intros k x _. cbn. rewrite Hi. f_equal. lia.
  - intros j Hj Hne. rewrite Hother; [|done|].
    + cbn [s1 buf]. apply list_lookup_insert_ne. specialize (Hne 0). rewrite Z.add_0_r in Hne. cbn [length] in Hne. unfold i.
      intros E%Z2Nat.inj; [apply Hne; [lia|done]|apply Hi0|done].
    + intros k Hk. rewrite Hi. apply Hne. cbn [length]. lia.
  - intros [|k] x Hk Hlen; cbn in Hk, Hlen.
    + simplify_eq. rewrite Z.add_0_r. fold i. rewrite Hother; [|lia|].
      * cbn [s1 buf]. apply list_lookup_insert_eq. unfold ring_wf in Hs. lia.
      * intros k Hk. rewrite Hi. unfold i. apply not_eq_sym, mod_apart; lia.
    + specialize (Hread k x Hk ltac:(lia)). rewrite Hi in Hread. rewrite <- Hread. do 3 f_equal. lia.
Qed.

(** The index of the call whose text the [k]-th pointer of [n] reads. *)
Definition latest (n k : Z) : Z := k + count f * ((n - 1 - k) / count f).

Lemma latest_spec n k : 0 <= k < n -> k <= latest n k < n /\ n <= latest n k + count f /\ (forall a, (a + latest n k) mod count f = (a + k) mod count f).
Proof.
  pose proof count_pos as Hc. intros Hk. unfold latest. pose proof (Z.div_mod (n - 1 - k) (count f)). pose proof (Z.mod_pos_bound (n - 1 - k) (count f)).
  pose proof (Z.div_pos (n - 1 - k) (count f)). split; [nia|]. split; [nia|].
  intros a. rewrite Z.add_assoc, (Z.mul_comm (count f)). apply Z.mod_add. lia.
Qed.

Lemma ip_strs_read s ips : ring_wf s -> exists s' ps, ip_strs f s ips = Ok (s', ps) /\ ring_wf s' /\ length ps = length ips /\
  forall k p, ps !! k = Some p -> exists ip, ips !! Z.to_nat (latest (Z.of_nat (length ips)) (Z.of_nat k)) = Some ip /\ deref s' p = Ok (format f ip).
Proof.
  pose proof count_pos as Hc. intros Hs. destruct (ip_strs_ok s ips Hs) as (s' & -> & Hs' & _ & Hread). do 2 eexists. split; [done|]. split; [done|].
  split; [rewrite length_fmap, length_seqZ; lia|]. intros k p Hp. rewrite list_lookup_fmap in Hp.
  apply fmap_Some in Hp as (x & Hx%lookup_seqZ & ->). destruct Hx as [-> Hk].
  destruct (latest_spec (Z.of_nat (length ips)) (Z.of_nat k) ltac:(lia)) as (Hl & Hn & Hmod).
  destruct (lookup_lt_is_Some_2 ips (Z.to_nat (latest (Z.of_nat (length ips)) (Z.of_nat k)))) as [ip Hip]; [lia|]. exists ip. split; [done|].
  specialize (Hread _ ip Hip ltac:(lia)). rewrite Z2Nat.id in Hread by lia. rewrite Hmod in Hread.
  unfold deref. rewrite Z.add_0_l. apply arr_get_ok; [|done]. by apply Z.mod_pos_bound.
Qed.

(** With no more calls than buffers every pointer reads its own address. *)
Lemma ip_strs_live s ips : ring_wf s -> Z.of_nat (length ips) <= count f -> exists s' ps, ip_strs f s ips = Ok (s', ps) /\ ring_wf s' /\
  length ps = length ips /\ forall k p ip, ps !! k = Some p -> ips !! k = Some ip -> deref s' p = Ok (format f ip).
Proof.
  intros Hs Hlen. destruct (ip_strs_read s ips Hs) as (s' & ps & E & Hs' & Hl & Hread). exists s', ps. split_and!; [done..|].
  intros k p ip Hp Hip. destruct (Hread k p Hp) as (ip' & Hip' & ->). do 2 f_equal.
  apply lookup_lt_Some in Hp. unfold latest in Hip'. rewrite Z.div_small, Z.mul_0_r, Z.add_0_r, Nat2Z.id in Hip' by lia. congruence.
Qed.
End ring.

(** ** Theorems *)

(** A row of the listing with the pure printer. *)
Definition route_row (r : route_entry) : string * Z * string * string * Z * string :=
  (route_ip_str (dst r), prefix_len (mask r), (if negb (gw r =? 0) then route_ip_str (gw r) else "直连"%string),
   iface_name r, metric r, comment r).

Lemma list_route_ok b s r : ring_wf route_fmt s -> exists s', list_route b s r = Ok (s', route_row r) /\ ring_wf route_fmt s'.
Proof.
  intros Hs. unfold list_route, route_row. set (gws := if negb (gw r =? 0) then [gw r] else []).
  destruct (ip_strs_live route_fmt s (if b then dst r :: gws else gws ++ [dst r]) Hs) as (s' & ps & -> & Hs' & Hl & Hread).
  { unfold gws. by destruct b, (gw r =? 0). }
  cbn [mbind exec_bind]. unfold gws in *. destruct (gw r =? 0) eqn:Hg; cbn [negb] in *.
  - destruct ps as [|p [|q ps]]; [by destruct b..| |by destruct b]. exists s'. split; [|done].
    assert (Hp : deref s' p = Ok (route_ip_str (dst r))) by (apply (Hread 0%nat); by destruct b).
    replace (if b then [p] else reverse [p]) with [p] by by destruct b.
    change (arr_get [p] 0) with (Ok p). cbn [mbind exec_bind]. by rewrite Hp.
  - destruct ps as [|p [|q [|? ps]]]; [by destruct b..| |by destruct b]. exists s'. split; [|done].
    assert (Hpq : exists d g, (if b then [p; q] else reverse [p; q]) = [d; g] /\ deref s' d = Ok (route_ip_str (dst r)) /\ deref s' g = Ok (route_ip_str (gw r))).
    { destruct b; [exists p, q|exists q, p]; (split; [done|]).
      - by split; [apply (Hread 0%nat)|apply (Hread 1%nat)].
      - by split; [apply (Hread 1%nat)|apply (Hread 0%nat)]. }
    destruct Hpq as (d & g & -> & Hd & Hg'). change (arr_get [d; g] 0) with (Ok d). change (arr_get [d; g] 1) with (Ok g).
    cbn [mbind exec_bind]. by rewrite Hd, Hg'.
Qed.

Lemma list_routes_ok b rs : forall s, ring_wf route_fmt s -> exists s', list_routes b s rs = Ok (s', route_row <$> rs) /\ ring_wf route_fmt s'.
Proof.
  induction rs as [|r rs IH]; intros s Hs; [by exists s|]. cbn [list_routes].
  destruct (list_route_ok b s r Hs) as (s1 & -> & Hs1). cbn [mbind exec_bind].
  destruct (IH s1 Hs1) as (s2 & -> & Hs2). by exists s2.
Qed.

(** C34: The ring of static buffers of [ip_str], for any sequence of calls: none
    writes outside it, the text always fits, the [k]-th pointer reads the text
    of the last call that was given its buffer, and so its own address as long
    as at most [count] calls were made from it on. *)
Theorem ip_str_ring f `{!FormatFits f} s ips : ring_wf f s ->
  exists s' ps, ip_strs f s ips = Ok (s', ps) /\ ring_wf f s' /\ length ps = length ips /\
    forall k p, ps !! k = Some p ->
      (exists ip, ips !! Z.to_nat (latest f (Z.of_nat (length ips)) (Z.of_nat k)) = Some ip /\ deref s' p = Ok (format f ip)) /\
      (Z.of_nat (length ips) <= Z.of_nat k + count f -> exists ip, ips !! k = Some ip /\ deref s' p = Ok (format f ip)).
Proof.
  intros Hs. destruct (ip_strs_read f s ips Hs) as (s' & ps & E & Hs' & Hl & Hread). exists s', ps. split_and!; [done..|].
  intros k p Hp. pose proof (Hread k p Hp) as Hr. split; [done|]. intros Hlive. destruct Hr as (ip & Hip & Hd). exists ip. split; [|done].
  apply lookup_lt_Some in Hp. unfold latest in Hip. by rewrite Z.div_small, Z.mul_0_r, Z.add_0_r, Nat2Z.id in Hip by lia.
Qed.

(** [main] of [route.c] prints each route once with its own network and
    gateway, whichever of the two calls in a line is made first and wherever
    the ring of buffers stands. *)
Theorem route_main_lists dst_first s : ring_wf route_fmt s ->
  route_main dst_first s = Ok (route_row <$> kernel_routes,
    [demo_local_delivery; demo_gateway_forward; demo_no_route; demo_local_generated], demo_multi_network).
Proof. intros Hs. unfold route_main. by destruct (list_routes_ok dst_first kernel_routes s Hs) as (s' & -> & _). Qed.

(** *** The connection table over the four demonstrations *)

Definition grows (n : Z) (t t' : ct) : Prop := ct_wf t' /\ conn_total t' = conn_total t + n.

(** The calls on a live entry succeed and keep the table and the count. *)
Lemma ct_update_live t p f : (forall e, entry_key (f e) = entry_key e) -> ct_wf t -> is_Some (ct_heap t !! p) ->
  exists t', ct_update t p f = Ok t' /\ grows 0 t t' /\ is_Some (ct_heap t' !! p).
Proof.
  intros Hf Hwf [e He]. destruct (ct_update t p f) as [t'|] eqn:E; [|by unfold ct_update in E; rewrite He in E].
  exists t'. split; [done|]. split; [split; [by eapply ct_wf_update|]|]; unfold ct_update in E; rewrite He in E; simplify_eq/=; [lia|].
  rewrite lookup_insert_eq. by eexists.
Qed.

Lemma tcp_step_live t p fl rep : ct_wf t -> is_Some (ct_heap t !! p) ->
  exists t' ln, tcp_step t p fl rep = Ok (t', ln, false) /\ grows 0 t t' /\ is_Some (ct_heap t' !! p).
Proof.
  intros Hwf Hp. unfold tcp_step. pose proof Hp as [e He]. rewrite He.
  destruct (ct_update_live t p (set_state (tcp_next (state e) fl rep))) as (t' & -> & H); [by intros []|done..|].
  eexists t', _. by split.
Qed.

Lemma conn_create_live t s d sp dp proto ty st : ct_wf t ->
  exists t' p, conn_create t s d sp dp proto ty st = Ok (t', p) /\ grows 1 t t' /\ is_Some (ct_heap t' !! p).
Proof.
  intros Hwf. destruct (conn_create_ok t s d sp dp proto ty st Hwf) as (t' & _ & e & -> & Hwf' & Hh & _ & _ & _ & _ & Ht).
  exists t', (ct_next t). split; [done|]. split; [done|]. rewrite Hh, lookup_insert_eq. by eexists.
Qed.

Lemma grows_trans m n t1 t2 t3 : grows m t1 t2 -> grows n t2 t3 -> grows (m + n) t1 t3.
Proof. intros [_ H1] [Hwf H2]. split; [done|]. lia. Qed.

(** One call on the table, its result and what it keeps. *)
Ltac table_step :=
  match goal with
  | |- context [conn_create ?t ?s ?d ?sp ?dp ?pr ?ty ?st ≫= _] =>
    let t' := fresh "t" in let p := fresh "p" in let H := fresh "Hg" in let L := fresh "Hl" in
    destruct (conn_create_live t s d sp dp pr ty st) as (t' & p & -> & H & L); [first [assumption|eapply proj1; eassumption]|]
  | |- context [tcp_step ?t ?p ?fl ?rep ≫= _] =>
    let t' := fresh "t" in let ln := fresh "ln" in let H := fresh "Hg" in let L := fresh "Hl" in
    destruct (tcp_step_live t p fl rep) as (t' & ln & -> & H & L); [eapply proj1; eassumption|eassumption|]
  | |- context [conn_update_reply ?t ?p ?a ?b ?c ?d ≫= _] => unfold conn_update_reply at 1
  | |- context [ct_update ?t ?p ?f ≫= _] =>
    let t' := fresh "t" in let H := fresh "Hg" in let L := fresh "Hl" in
    destruct (ct_update_live t p f) as (t' & -> & H & L); [by intros []|eapply proj1; eassumption|eassumption|]
  end; cbn [mbind exec_bind].

Ltac table_done := repeat match goal with H : grows _ _ _ |- _ => destruct H end; split; [assumption|lia].

Lemma demo_tcp_handshake_grows t : ct_wf t -> exists t' p ms, demo_tcp_handshake t = Ok (t', p, ms) /\ grows 1 t t'.
Proof. intros Hwf. unfold demo_tcp_handshake. repeat table_step. do 3 eexists. split; [done|]. table_done. Qed.

Lemma demo_udp_nat_grows t : ct_wf t -> exists t' p ms, demo_udp_nat t = Ok (t', p, ms) /\ grows 1 t t'.
Proof. intros Hwf. unfold demo_udp_nat. repeat table_step. do 3 eexists. split; [done|]. table_done. Qed.

Lemma demo_icmp_grows t : ct_wf t -> exists t' p m r, demo_icmp t = Ok (t', p, m, r) /\ grows 1 t t'.
Proof.
  intros Hwf. unfold demo_icmp. table_step. destruct Hg as [Hwf' Ht]. unfold conn_lookup.
  match goal with |- context [conn_hash_key ?s ?d ?sp ?dp ?pr] => destruct (bucket_get t0 s d sp dp pr Hwf') as (chain & -> & Hc) end.
  cbn [mbind exec_bind]. match goal with |- context [chain_lookup ?h ?c ?s ?d ?sp ?dp ?pr] => destruct (chain_lookup_spec h c s d sp dp pr) as (r & -> & _) end.
  - intros q Hq. destruct Hwf' as (_ & Hb & _). destruct (Hb _ _ q Hc Hq) as (e & He & _). by exists e.
  - do 4 eexists. done.
Qed.

Lemma demo_router_forward_grows t : ct_wf t -> exists t' p, demo_router_forward t = Ok (t', p) /\ grows 1 t t'.
Proof. intros Hwf. unfold demo_router_forward. repeat table_step. do 2 eexists. split; [done|]. table_done. Qed.

(** [main] of [conntrack.c] on any well-formed table: no call of the four
    demonstrations fails, the table stays well formed and the number of
    connections printed at the end is four more than at the start. *)
Theorem conntrack_main_total t : ct_wf t ->
  exists t' ms r, conntrack_main t = Ok (t', ms, r, conn_total t + 4) /\ ct_wf t' /\ conn_total t' = conn_total t + 4.
Proof.
  intros Hwf. unfold conntrack_main, print_summary.
  destruct (demo_tcp_handshake_grows t Hwf) as (t1 & p1 & m1 & -> & [Hw1 H1]). cbn [mbind exec_bind].
  destruct (demo_udp_nat_grows t1 Hw1) as (t2 & p2 & m2 & -> & [Hw2 H2]). cbn [mbind exec_bind].
  destruct (demo_icmp_grows t2 Hw2) as (t3 & p3 & m3 & r & -> & [Hw3 H3]). cbn [mbind exec_bind].
  destruct (demo_router_forward_grows t3 Hw3) as (t4 & p4 & -> & [Hw4 H4]). cbn [mbind exec_bind].
  assert (E : conn_total t4 = conn_total t + 4) by lia. do 3 eexists. rewrite E. by split_and!.
Qed.

(** *** Concrete executions *)

(** Six addresses through four buffers: the first two pointers have been
    overwritten by the last two calls. *)
Lemma ip_str_ring_witness :
  exists s' ps, ip_strs low_fmt (ring_init low_fmt) [1; 2; 3; 4; 5; 6] = Ok (s', ps) /\
    (deref s' <$> ps !! 0%nat) = Some (Ok "5.0.0.0"%string) /\ (deref s' <$> ps !! 2%nat) = Some (Ok "3.0.0.0"%string).
Proof.
  destruct (ip_str_ring low_fmt (ring_init low_fmt) [1; 2; 3; 4; 5; 6] eq_refl) as (s' & ps & E & _ & Hl & H).
  exists s', ps. split; [exact E|]. destruct ps as [|p0 [|p1 [|p2 ps]]]; [discriminate..|].
  destruct (H 0%nat p0 eq_refl) as [(ip & Hip & Hd) _]. destruct (H 2%nat p2 eq_refl) as [_ Hlive].
  destruct (Hlive ltac:(by vm_compute)) as (ip2 & Hip2 & Hd2).
  assert (ip = 5) as -> by (vm_compute in Hip; congruence). assert (ip2 = 3) as -> by (cbn in Hip2; congruence).
  cbn [lookup list_lookup fmap option_fmap option_map]. rewrite Hd, Hd2. vm_compute. by split.
Defined.

Lemma route_main_lists_witness : exists rows a b, route_main false (ring_init route_fmt) = Ok (rows, a, b) /\
  rows !! 2%nat = Some ("0.0.0.0", 0, "192.168.1.1", "eth0:192.168.1.1", 100, "默认路由 → 192.168.1.1（网关）")%string.
Proof. do 3 eexists. split; [apply (route_main_lists false (ring_init route_fmt)); reflexivity|]. vm_compute. reflexivity. Defined.

Lemma conntrack_main_total_witness : exists t' ms r, conntrack_main ct_init = Ok (t', ms, r, 4) /\ ct_wf t' /\ conn_total t' = 4.
Proof. exact (conntrack_main_total ct_init ct_wf_init). Defined.
