(* ===== verification/LockPrograms.v ===== *)
(** * The four lock programs ([demos/futex])

    [main] of each file starts its workers, joins them and prints the counter
    beside the number it expects; here the number printed is that one, and the
    printing is never out of reach. *)
From Stdlib Require Import ZArith Lia.
From stdpp Require Import base numbers list option relations.
From S2P Require Import Prelude Futex FutexLive.

Open Scope Z_scope.

(** Two threads of [futex_v1_spinlock.c], each a million iterations. *)
Definition spin_main : config v1 := start 2 (Z.to_nat 1000000).
(** The same in [futex_v2_yield_spinlock.c]. *)
Definition yield_main : config v2 := start 2 (Z.to_nat 1000000).

Section kernel.
Context {K : FutexKernel}.

(** Two threads of [futex_v3_futex_lock.c], each a hundred thousand. *)
Definition futex_main : config v3 := start 2 (Z.to_nat 100000).
(** Four threads of [futex_v4_final.c], each a hundred thousand. *)
Definition final_main : config v4 := start 4 (Z.to_nat 100000).

Definition lock_main (v : version) : config (algo v) :=
  match v with V1 => spin_main | V2 => yield_main | V3 => futex_main | V4 => final_main end.

(** The number in the format string of the last [printf]. *)
Definition expected (v : version) : Z := match v with V1 | V2 => 2000000 | V3 => 200000 | V4 => 400000 end.

Lemma lock_main_start v : exists n iters, lock_main v = start n iters /\ Z.of_nat n * Z.of_nat iters = expected v.
Proof.
  destruct v; [exists 2%nat, (Z.to_nat 1000000)|exists 2%nat, (Z.to_nat 1000000)|exists 2%nat, (Z.to_nat 100000)|exists 4%nat, (Z.to_nat 100000)];
    (split; [reflexivity|]); rewrite Z2Nat.id by done; reflexivity.
Qed.

Lemma cstep_any {A : LockAlgo} (c c' : config A) : rtc cstep c c' -> rtc any_step c c'.
Proof. intros Hs. induction Hs as [|c1 c2 c3 Hs _ IH]; [done|]. eapply rtc_l; [by left|done]. Qed.

(** Each program, in every state any scheduling and any spurious wakeups can
    bring it to: if all threads have been joined, the counter printed is the
    number the message expects, and otherwise some schedule of the threads
    still leads to that. *)
Theorem lock_programs_print v (c : config (algo v)) : rtc any_step (lock_main v) c ->
  (all_joined c -> cf_counter c = expected v) /\
  exists c', rtc cstep c c' /\ all_joined c' /\ cf_counter c' = expected v.
Proof.
  intros Hr. destruct (lock_main_start v) as (n & iters & Hm & <-). rewrite Hm in Hr.
  assert (Hend : forall c' : config (algo v), rtc any_step (start n iters) c' -> all_joined c' -> cf_counter c' = Z.of_nat n * Z.of_nat iters).
  { intros c' Hr' Hj. by apply (joined_counter iters n c' Hr' Hj). }
  split; [by apply Hend|]. destruct (inv_finishes iters c (inv_reachable iters n c Hr)) as (c' & Hs & Hj).
  exists c'. split; [done|]. split; [done|]. apply Hend; [|done]. etrans; [exact Hr|by apply cstep_any].
Qed.

End kernel.

(** The start of the last program. *)
Lemma lock_programs_print_witness : exists c' : config v4, rtc cstep final_main c' /\ cf_counter c' = 400000.
Proof. destruct (lock_programs_print V4 final_main (rtc_refl _ _)) as [_ (c' & Hs & _ & Hc)]. by exists c'. Defined.
