(* ===== verification/BioWait.v ===== *)
(** * Synchronous submission ([submit_bio_wait] of [demos/bio/bio.c])

    The function points the descriptor's callback at [bio_complete_callback]
    and its private pointer at a completion on its own stack, submits, and
    yields until the completion is signalled.  What the device and the other
    threads do, inside the request function and during each [schedule()], is an
    argument; so is the field [bi_error] that the function returns, which
    [struct bio] does not declare. *)
From Stdlib Require Import ZArith Lia.
From stdpp Require Import base numbers list option gmap.
From S2P Require Import Prelude Bio BioQueue.

Open Scope Z_scope.

(** The descriptors, and the completions that exist, by address. *)
Definition wworld : Type := bs * gmap nat bool.

(** What happens elsewhere while this thread does not run: the device completes
    the descriptor, or anything else is done. *)
Inductive activity := Completes (error : Z) | Elsewhere (f : wworld -> wworld).

Definition complete (m : gmap nat bool) (done : nat) : exec (gmap nat bool) :=
  match m !! done with Some _ => Ok (<[done := true]> m) | None => Crash UseAfterFree end.

Definition with_callback (private end_io : option nat) (x : bio) : bio :=
  Bio (bi_sector x) (bi_io_vec x) (bi_vcnt x) (bi_max_vecs x) (bi_size x) (bi_idx x) (bi_op x) (bi_flags x) (bi_next x)
    private end_io (bi_bdev x).

Section wait.
(** The address of [bio_complete_callback], the queue of each device, and what
    its request function does. *)
Context (callback : nat) (bd_queue : nat -> option (option nat)) (request : nat -> activity) (bi_error : bs -> nat -> Z).
Implicit Types w : wworld.

(** The call [bio->bi_end_io(bio, error)] of a descriptor being waited for. *)
Definition call_end_io w (b : nat) (cb : option (nat * Z)) : exec wworld :=
  match cb with
  | Some (cb, error) =>
    if decide (cb = callback) then
      done ← bio_complete_callback (fst w) b error;
      match done with None => Crash NullPointer | Some done => m ← complete (snd w) done; Ok (fst w, m) end
    else Ok w
  | None => Ok w
  end.

Definition play w (b : nat) (a : activity) : exec wworld :=
  match a with
  | Completes error => '(s, cb) ← bio_endio (fst w) b error; call_end_io (s, snd w) b cb
  | Elsewhere f => Ok (f w)
  end.

(** [while (!completion_done(&done)) schedule();] with the activities of the
    rounds to come: those not needed, or [None] if they are used up and the
    thread still waits. *)
Fixpoint wait_loop w (b done : nat) (rounds : list activity) : exec (wworld * option (list activity)) :=
  match snd w !! done with
  | None => Crash UseAfterFree
  | Some true => Ok (w, Some rounds)
  | Some false =>
    match rounds with
    | [] => Ok (w, None)
    | a :: rounds => w ← play w b a; wait_loop w b done rounds
    end
  end.

(** [submit_bio_wait]; [done] is the address of its local completion. *)
Definition submit_bio_wait w (b done : nat) (rounds : list activity) : exec (wworld * option (Z * list activity)) :=
  let m := <[done := false]> (snd w) in
  x ← get_bio (fst w) b;
  s ← put_bio (fst w) b (with_callback (Some done) (Some callback) x);
  '(s, r) ← submit_bio bd_queue s b;
  w ← match r with
      | Requested fn b => play (s, m) b (request fn)
      | Completed cb => call_end_io (s, m) b cb
      end;
  '(w, rest) ← wait_loop w b done rounds;
  match rest with
  | None => Ok (w, None)
  | Some rounds => Ok ((fst w, delete done (snd w)), Some (bi_error (fst w) b, rounds))
  end.

(** The activities after the first completion. *)
Fixpoint after_completion (acts : list activity) : option (list activity) :=
  match acts with
  | [] => None
  | Completes _ :: acts => Some acts
  | Elsewhere _ :: acts => after_completion acts
  end.

(** The descriptor is in flight, with its completion pending ([sig = false]) or
    signalled. *)
Definition in_flight_bio (b done : nat) (sig : bool) w : Prop :=
  snd w !! done = Some sig /\
  exists x, bio_pool (fst w) !! b = Some x /\ bi_private x = Some done /\ bi_end_io x = Some callback.

(** Nobody else touches the pending descriptor's callback or its completion. *)
Definition elsewhere_ok (b done : nat) (a : activity) : Prop :=
  match a with Completes _ => True | Elsewhere f => forall w sig, in_flight_bio b done sig w -> in_flight_bio b done sig (f w) end.

Lemma endio_flight b done w error : in_flight_bio b done false w ->
  exists s, bio_endio (fst w) b error = Ok (s, Some (callback, error)) /\ in_flight_bio b done false (s, snd w).
Proof.
  intros (Hd & x & Hx & Hp & Hc). unfold bio_endio. rewrite (get_bio_ok _ _ _ Hx). cbn [mbind exec_bind].
  destruct (error <? 0).
  - rewrite (put_bio_ok _ _ _ _ Hx). cbn [mbind exec_bind]. set (y := with_flags _ x). set (s := set_pool _ _).
    assert (Hy : bio_pool s !! b = Some y) by (cbn; apply list_lookup_insert_eq; by eapply lookup_lt_Some).
    rewrite (get_bio_ok _ _ _ Hy). cbn [mbind exec_bind]. exists s. cbn [y with_flags bi_end_io]. rewrite Hc.
    split; [done|]. split; [done|]. by exists y.
  - cbn [mbind exec_bind]. rewrite (get_bio_ok _ _ _ Hx). cbn [mbind exec_bind]. exists (fst w). rewrite Hc. split; [done|]. split; [done|]. by exists x.
Qed.

Lemma call_end_io_flight b done w error : in_flight_bio b done false w ->
  exists w', call_end_io w b (Some (callback, error)) = Ok w' /\ in_flight_bio b done true w'.
Proof.
  intros (Hd & x & Hx & Hp & Hc). unfold call_end_io, bio_complete_callback. rewrite decide_True by done.
  rewrite (get_bio_ok _ _ _ Hx). cbn [mbind exec_bind]. rewrite Hp. unfold complete. rewrite Hd. cbn [mbind exec_bind].
  eexists. split; [done|]. split; [apply lookup_insert_eq|]. by exists x.
Qed.

Lemma play_flight b done w a : in_flight_bio b done false w -> elsewhere_ok b done a ->
  exists w', play w b a = Ok w' /\ in_flight_bio b done (match a with Completes _ => true | Elsewhere _ => false end) w'.
Proof.
  intros Hw Ha. destruct a as [error|f]; cbn [play]; [|by eexists; split; [|apply Ha]].
  destruct (endio_flight b done w error Hw) as (s & -> & Hs). cbn [mbind exec_bind]. by apply call_end_io_flight.
Qed.

Lemma wait_signalled b done rounds w : in_flight_bio b done true w -> wait_loop w b done rounds = Ok (w, Some rounds).
Proof. intros [Hd _]. destruct rounds; cbn [wait_loop]; by rewrite Hd. Qed.

Lemma wait_loop_ends b done rounds w : in_flight_bio b done false w -> Forall (elsewhere_ok b done) rounds ->
  exists w', wait_loop w b done rounds = Ok (w', after_completion rounds) /\
    in_flight_bio b done (bool_decide (is_Some (after_completion rounds))) w'.
Proof.
  intros Hw Hr. revert w Hw. induction Hr as [|a rounds Ha Hr IH]; intros w Hw; cbn [wait_loop after_completion]; rewrite (proj1 Hw).
  - exists w. by split.
  - destruct (play_flight b done w a Hw Ha) as (w1 & -> & Hw1). cbn [mbind exec_bind]. destruct a as [error|f]; [|by apply IH].
    exists w1. rewrite wait_signalled by done. by split.
Qed.

Lemma finish_wait b done w1 (rest : option (list activity)) : in_flight_bio b done (bool_decide (is_Some rest)) w1 ->
  exists (w' : wworld) (r : option (Z * list activity)),
    match rest with None => Ok (w1, None) | Some rounds => Ok ((fst w1, delete done (snd w1)), Some (bi_error (fst w1) b, rounds)) end = Ok (w', r) /\
    snd <$> r = rest /\
    match r with Some (error, _) => error = bi_error (fst w') b /\ snd w' !! done = None | None => in_flight_bio b done false w' end.
Proof.
  intros Hw1. destruct rest as [rest|]; do 2 eexists; (split; [done|]); (split; [done|]); [|done]. split; [done|]. apply lookup_delete_eq.
Qed.

(** C33: [submit_bio_wait] on a descriptor of the pool: without a device, or
    without a request function, it returns without yielding once; otherwise it
    returns right after the first completion of the descriptor, be it inside
    the request function or during a later round, with its completion gone,
    and as long as there is none it keeps waiting. *)
Theorem submit_bio_wait_returns w b done rounds x : bio_pool (fst w) !! b = Some x ->
  Forall (elsewhere_ok b done) rounds -> (forall fn, elsewhere_ok b done (request fn)) ->
  exists w' r, submit_bio_wait w b done rounds = Ok (w', r) /\
    snd <$> r = match bi_bdev x ≫= bd_queue with
                | Some (Some fn) => after_completion (request fn :: rounds)
                | _ => Some rounds
                end /\
    match r with
    | Some (error, _) => error = bi_error (fst w') b /\ snd w' !! done = None
    | None => in_flight_bio b done false w'
    end.
Proof.
  intros Hx Hr Hq. unfold submit_bio_wait. rewrite (get_bio_ok _ _ _ Hx). cbn [mbind exec_bind]. rewrite (put_bio_ok _ _ _ _ Hx). cbn [mbind exec_bind].
  set (y := with_callback _ _ x). set (s := set_pool _ _).
  assert (Hy : bio_pool s !! b = Some y) by (cbn; apply list_lookup_insert_eq; by eapply lookup_lt_Some).
  set (m := <[done := false]> (snd w)).
  assert (Hfl : in_flight_bio b done false (s, m)) by (split; [apply lookup_insert_eq|by exists y]).
  assert (Hnodev : exists w1, ('(s1, cb) ← bio_endio s b (- ENODEV); call_end_io (s1, m) b cb) = Ok w1 /\ in_flight_bio b done true w1).
  { destruct (endio_flight b done (s, m) (- ENODEV) Hfl) as (s1 & E1 & Hs1). cbn [fst] in E1. rewrite E1. cbn [mbind exec_bind]. by apply call_end_io_flight. }
  unfold submit_bio. rewrite (get_bio_ok _ _ _ Hy). cbn [mbind exec_bind]. change (bi_bdev y) with (bi_bdev x).
  destruct (bi_bdev x) as [bdev|]; cbn [mbind option_bind]; [destruct (bd_queue bdev) as [[fn|]|]|].
  2-4: destruct Hnodev as (w1 & E & Hw1); destruct (bio_endio s b (- ENODEV)) as [[s1 cb]|]; [|done]; cbn [mbind exec_bind] in E |- *;
    rewrite E; cbn [mbind exec_bind]; rewrite wait_signalled by done; cbn [mbind exec_bind]; by apply (finish_wait b done w1 (Some rounds)).
  cbn [after_completion mbind exec_bind]. destruct (play_flight b done (s, m) (request fn) Hfl (Hq fn)) as (w1 & -> & Hw1). cbn [mbind exec_bind].
  destruct (request fn) as [error|f].
  - rewrite wait_signalled by done. cbn [mbind exec_bind]. by apply (finish_wait b done w1 (Some rounds)).
  - destruct (wait_loop_ends b done rounds w1 Hw1 Hr) as (w2 & -> & Hw2). cbn [mbind exec_bind]. by apply finish_wait.
Qed.
End wait.

(** A device that completes in the second round; and no device at all. *)
Definition wait_pool : bs := Bs [with_callback None None (Bio 0 None 0 0 0 0 0 0 None None None (Some 7%nat)); bio_zero] [] ∅ 0.

Lemma submit_bio_wait_returns_witness :
  (exists w', submit_bio_wait 5 (fun _ => Some (Some 1%nat)) (fun _ => Elsewhere id) (fun _ _ => 0) (wait_pool, ∅) 0 3
     [Elsewhere id; Completes 0; Completes 1] = Ok (w', Some (0, [Completes 1]))) /\
  exists w', submit_bio_wait 5 (fun _ => Some (Some 1%nat)) (fun _ => Elsewhere id) (fun _ _ => 0) (wait_pool, ∅) 1 3 [] = Ok (w', Some (0, [])).
Proof.
  assert (Hid : forall b, elsewhere_ok 5 b 3 (Elsewhere id)) by by intros b w.
  split.
  - destruct (submit_bio_wait_returns 5 (fun _ => Some (Some 1%nat)) (fun _ => Elsewhere id) (fun _ _ => 0) (wait_pool, ∅) 0 3
      [Elsewhere id; Completes 0; Completes 1] _ eq_refl) as (w' & r & E & Hr & Hw); [rewrite !Forall_cons; split_and!; [apply Hid|exact I|exact I|by apply Forall_nil]|intros; apply Hid|].
    exists w'. rewrite E. destruct r as [[e l]|]; [|discriminate]. cbn in Hr. injection Hr as ->. by destruct Hw as [-> _].
  - destruct (submit_bio_wait_returns 5 (fun _ => Some (Some 1%nat)) (fun _ => Elsewhere id) (fun _ _ => 0) (wait_pool, ∅) 1 3
      [] _ eq_refl) as (w' & r & E & Hr & Hw); [by apply Forall_nil|intros; apply Hid|].
    exists w'. rewrite E. destruct r as [[e l]|]; [|discriminate]. cbn in Hr. injection Hr as ->. by destruct Hw as [-> _].
Defined.
