(* ===== verification/FutexFair.v ===== *)
(** * Fair schedules of the locks ([demos/futex])

    [FutexLive] shows that some schedule lets the workers finish; here every
    fair one does.  A run is an infinite sequence of configurations in which at
    each moment one thread takes a step, or the machine idles, or a sleeper
    wakes without reason; it is fair if a thread that stays runnable is
    eventually chosen.  The spin locks and the futex locks may let a thread
    starve for a while, but each time it waits somebody else completes one of
    finitely many iterations. *)
From Stdlib Require Import ZArith Lia.
From stdpp Require Import base numbers list option relations.
From S2P Require Import Prelude Futex FutexLive LockPrograms.

Open Scope Z_scope.

(** ** Runs *)

Section runs.
Context {A : LockAlgo} {K : FutexKernel}.
Implicit Types (c : config A) (t : thread A) (ts : list (thread A)).

(** Thread [i] takes the step from [c] to [c']. *)
Definition thread_step (i : nat) c c' : Prop :=
  exists t, cf_threads c !! i = Some t /\
  let n := th_left t in
  let set l cnt t' := Config l cnt (<[i := t']> (cf_threads c)) in
  match th_state t with
  | AtLock p =>
    match lock_run p (cf_lock c) with
    | (l, LGoto q) => c' = set l (cf_counter c) (Thread (AtLock q) n)
    | (l, LEnter) => c' = set l (cf_counter c) (Thread AtLoad n)
    | (l, LBlock q) => c' = set l (cf_counter c) (Thread (Asleep q) n)
    end
  | AtLoad => c' = set (cf_lock c) (cf_counter c) (Thread (AtStore (cf_counter c)) n)
  | AtStore r => c' = set (cf_lock c) (r + 1) (Thread (AtUnlock unlock_entry) n)
  | AtUnlock u =>
    match unlock_run u (cf_lock c) with
    | (l, UGoto v) => c' = set l (cf_counter c) (Thread (AtUnlock v) n)
    | (l, ULeave) => c' = set l (cf_counter c) (next_iteration n)
    | (l, UWake) => exists o, wakes (sleepers (cf_threads c)) o /\
        c' = Config l (cf_counter c)
               (match o with Some j => alter resume j (<[i := next_iteration n]> (cf_threads c))
                           | None => <[i := next_iteration n]> (cf_threads c) end)
    end
  | Asleep _ | Finished => False
  end.

(** The relation of [Futex] is that of one of the threads. *)
Lemma cstep_thread c c' : cstep c c' <-> exists i, thread_step i c c'.
Proof.
  split.
  - intros Hs. destruct Hs as [l cnt ts i p n l' q Hi E|l cnt ts i p n l' Hi E|l cnt ts i p n l' q Hi E|l cnt ts i n Hi|
      l cnt ts i r n Hi|l cnt ts i u n l' v Hi E|l cnt ts i u n l' Hi E|l cnt ts i u n l' o Hi E Ho];
      exists i; eexists; (split; [exact Hi|]); cbn [th_state th_left cf_lock]; rewrite ?E; eauto.
  - destruct c as [l cnt ts]. intros (i & [st n] & Hi & Hs). cbn in *. destruct st as [p| |r|u|p|]; try done.
    + destruct (lock_run p l) as [l' [q| |q]] eqn:E; subst c'; by econstructor.
    + subst c'. by econstructor.
    + subst c'. by econstructor.
    + destruct (unlock_run u l) as [l' [v| |]] eqn:E; [subst c'; by econstructor..|].
      destruct Hs as (o & Ho & ->). by econstructor.
Qed.

(** What happens at one moment: a thread's step, or nothing, or a wakeup. *)
Definition moment (w : option nat) c c' : Prop :=
  match w with Some i => thread_step i c c' | None => c' = c \/ spurious c c' end.

Definition runnable (i : nat) c : Prop := exists t, cf_threads c !! i = Some t /\ awake t = true.

Record fair_run := {
  tr : nat -> config A;
  who : nat -> option nat;
  tr_step n : moment (who n) (tr n) (tr (S n));
  tr_fair i n : exists m, (n <= m)%nat /\ (who m = Some i \/ ~ runnable i (tr m))
}.

Lemma moment_any w c c' : moment w c c' -> c' = c \/ any_step c c'.
Proof. destruct w as [i|]; cbn; [|intros [->|Hs]; [by left|by right; right]]. intros Hs. right. left. apply cstep_thread. by exists i. Qed.

(** A thread that does not move only changes by being woken. *)
Lemma moment_other w c c' i t : moment w c c' -> w <> Some i -> cf_threads c !! i = Some t -> awake t = true ->
  cf_threads c' !! i = Some t.
Proof.
  intros Hm Hw Hi Ht. destruct w as [j|]; cbn in Hm.
  - assert (Hij : j <> i) by congruence. destruct Hm as ([st n] & Hj & Hs). cbn in Hs. destruct st as [p| |r|u|p|]; try done.
    + destruct (lock_run p _) as [l' [q| |q]]; subst c'; cbn; by rewrite list_lookup_insert_ne.
    + subst c'. cbn. by rewrite list_lookup_insert_ne.
    + subst c'. cbn. by rewrite list_lookup_insert_ne.
    + destruct (unlock_run u _) as [l' [v| |]]; [subst c'; cbn; by rewrite list_lookup_insert_ne..|].
      destruct Hs as (o & Ho & ->). cbn. destruct o as [k|]; [|by rewrite list_lookup_insert_ne].
      apply wakes_waiter, sleepers_elem in Ho as (u' & Hk & Hu').
      rewrite list_lookup_alter_ne by (intros ->; unfold awake in Ht; simplify_eq; by rewrite Hu' in Ht).
      by rewrite list_lookup_insert_ne.
  - destruct Hm as [->|Hm]; [done|]. destruct Hm as [l cnt ts j p n Hj]. cbn in *. rewrite list_lookup_insert_ne; [done|].
    intros ->. simplify_eq.
Qed.
End runs.
Arguments fair_run A {K}.

(** ** Every fair run ends *)

Section fairness.
Context {A : LockAlgo} {LL : LockLaws A} {LP : LockProgress A} {K : FutexKernel}.
Variable iters : nat.
Implicit Types (c : config A) (t : thread A) (ts : list (thread A)).

(** Between lock and the end of unlock, and the number of steps to it. *)
Definition busy t : bool := match th_state t with AtLoad | AtStore _ | AtUnlock _ => true | _ => false end.
Definition steps_to_leave t : nat :=
  match th_state t with
  | AtLoad => S (S (urank unlock_entry)) | AtStore _ => S (urank unlock_entry) | AtUnlock u => urank u | _ => 0
  end.

Lemma busy_awake t : busy t = true -> awake t = true.
Proof. unfold busy, awake, asleep, finished. by destruct (th_state t). Qed.

Lemma holder_busy t : holder t = true -> busy t = true.
Proof. unfold busy, holder. by destruct (th_state t). Qed.

(** Iterations are only used up. *)
Lemma left_leave ts i t : ts !! i = Some t -> (1 <= th_left t)%nat -> left (<[i := next_iteration (th_left t)]> ts) < left ts.
Proof. intros Hi Ht. rewrite (left_insert _ _ _ _ Hi). destruct (next_iteration_spec iters _ Ht) as (-> & _). lia. Qed.

Lemma left_wake ts o i t : wakes (sleepers ts) o -> ts !! i = Some t -> awake t = true ->
  left (match o with Some j => alter resume j (<[i := next_iteration (th_left t)]> ts) | None => <[i := next_iteration (th_left t)]> ts end) =
  left (<[i := next_iteration (th_left t)]> ts).
Proof.
  intros Ho Hi Ht. destruct o as [j|]; [|done]. apply wakes_waiter, sleepers_elem in Ho as (u & Hj & Hu).
  apply (left_resume _ _ u). rewrite list_lookup_insert_ne; [done|]. intros ->. unfold awake in Ht. simplify_eq. by rewrite Hu in Ht.
Qed.

(** The step of a busy thread: it comes closer to the end of unlock, or leaves. *)
Lemma busy_step i c c' t : inv iters c -> thread_step i c c' -> cf_threads c !! i = Some t -> busy t = true ->
  left (cf_threads c') < left (cf_threads c) \/
  left (cf_threads c') = left (cf_threads c) /\ exists t', cf_threads c' !! i = Some t' /\ busy t' = true /\ (steps_to_leave t' < steps_to_leave t)%nat.
Proof.
  intros [Hcore _] (t0 & Hi & Hs) Hi' Hb. assert (t0 = t) as -> by congruence. pose proof (core_thread _ _ _ _ _ _ Hcore Hi) as Hok.
  pose proof (lookup_lt_Some _ _ _ Hi) as Hlt. pose proof (busy_awake _ Hb) as Haw.
  assert (Hstay : forall l cnt t', c' = Config l cnt (<[i := t']> (cf_threads c)) -> th_left t' = th_left t -> busy t' = true ->
    (steps_to_leave t' < steps_to_leave t)%nat -> left (cf_threads c') = left (cf_threads c) /\
    exists t', cf_threads c' !! i = Some t' /\ busy t' = true /\ (steps_to_leave t' < steps_to_leave t)%nat).
  { intros l cnt t' -> Hl Hb' Hr. cbn [cf_threads]. rewrite (left_insert _ _ _ _ Hi), Hl. split; [lia|]. exists t'. by rewrite list_lookup_insert_eq. }
  unfold busy, steps_to_leave, thread_ok in *. destruct (th_state t) as [p| |r|u|p|] eqn:Est; try done.
  - right. eapply Hstay; [exact Hs|done|done|cbn; lia].
  - right. eapply Hstay; [exact Hs|done|done|cbn; lia].
  - cbv zeta in Hs. destruct (unlock_run u (cf_lock c)) as [l' [v| |]] eqn:E.
    + right. eapply Hstay; [exact Hs|done|done|]. cbn. by eapply unlock_rank.
    + left. subst c'. by apply left_leave.
    + left. destruct Hs as (o & Ho & ->). cbn [cf_threads]. rewrite (left_wake _ _ _ _ Ho Hi Haw). by apply left_leave.
Qed.

(** The step of a thread in lock that finds the word free. *)
Lemma lock_step i c c' p n : inv iters c -> thread_step i c c' -> cf_threads c !! i = Some (Thread (AtLock p) n) -> cf_lock c = 0 ->
  left (cf_threads c') = left (cf_threads c) /\
  (cf_threads c' !! i = Some (Thread AtLoad n) \/
   exists q, cf_threads c' !! i = Some (Thread (AtLock q) n) /\ (lrank q < lrank p)%nat).
Proof.
  intros [Hcore _] (t0 & Hi & Hs) Hi' H0. assert (t0 = Thread (AtLock p) n) as -> by congruence. pose proof (core_thread _ _ _ _ _ _ Hcore Hi) as [Hok _]. cbn in Hok.
  pose proof (lookup_lt_Some _ _ _ Hi) as Hlt. cbn in Hs. rewrite H0 in Hs. destruct (lock_run p 0) as [l' [q| |q]] eqn:E; subst c'; cbn [cf_threads].
  - rewrite (left_insert _ _ _ _ Hi). split; [cbn; lia|]. right. exists q. rewrite list_lookup_insert_eq by done. split; [done|].
    destruct (lock_goto p 0 l' q Hok) as [-> _]; [lia|done|]. by eapply lock_rank.
  - rewrite (left_insert _ _ _ _ Hi). split; [cbn; lia|]. left. by apply list_lookup_insert_eq.
  - destruct (lock_block p 0 l' q Hok) as (_ & ? & _); [lia|done|lia].
Qed.

Lemma moment_left w c c' : inv iters c -> moment w c c' -> left (cf_threads c') <= left (cf_threads c).
Proof.
  intros Hinv Hm. destruct w as [i|]; cbn in Hm.
  - pose proof Hm as (t & Hi & Hs). destruct (busy t) eqn:Hb; [destruct (busy_step i c c' t Hinv Hm Hi Hb) as [?|[? _]]; lia|].
    unfold busy in Hb. destruct t as [st n]. cbn in *. destruct st as [p| |r|u|p|]; try done.
    destruct (lock_run p _) as [l' [q| |q]]; subst c'; cbn [cf_threads]; rewrite (left_insert _ _ _ _ Hi); cbn; lia.
  - destruct Hm as [->|Hm]; [lia|]. destruct Hm as [l cnt ts i p n Hi]. cbn [cf_threads] in *. rewrite (left_insert _ _ _ _ Hi). cbn. lia.
Qed.

Section run.
Variable r : fair_run A.
Hypothesis Hinv0 : inv iters (tr r 0).

Lemma tr_inv n : inv iters (tr r n).
Proof.
  induction n as [|n IH]; [done|]. destruct (moment_any _ _ _ (tr_step r n)) as [->|Hs]; [done|]. by eapply inv_any.
Qed.

Lemma tr_left n m : (n <= m)%nat -> left (cf_threads (tr r m)) <= left (cf_threads (tr r n)).
Proof.
  induction 1 as [|m _ IH]; [lia|]. pose proof (moment_left _ _ _ (tr_inv m) (tr_step r m)). lia.
Qed.

(** A runnable thread is chosen, and until then stays where it is. *)
Lemma next_move i n t : cf_threads (tr r n) !! i = Some t -> awake t = true ->
  exists m, (n <= m)%nat /\ who r m = Some i /\ cf_threads (tr r m) !! i = Some t.
Proof.
  intros Hi Ht. destruct (tr_fair r i n) as (m & Hnm & Hm). remember (m - n)%nat as d eqn:Hd.
  revert n Hi Hnm Hd. induction d as [|d IH]; intros n Hi Hnm Hd.
  - assert (m = n) as -> by lia. exists n. destruct Hm as [Hm|Hm]; [done|]. exfalso. apply Hm. by exists t.
  - destruct (decide (who r n = Some i)) as [Hw|Hw]; [by exists n|].
    destruct (IH (S n)) as (m' & Hm' & H); [by eapply moment_other; [apply tr_step|..]|lia|lia|]. exists m'. split; [lia|done].
Qed.

(** A busy thread completes its iteration. *)
Lemma busy_completes i n t : cf_threads (tr r n) !! i = Some t -> busy t = true ->
  exists m, left (cf_threads (tr r m)) < left (cf_threads (tr r n)).
Proof.
  remember (steps_to_leave t) as k eqn:Hk. revert n t Hk. induction (lt_wf k) as [k _ IH]. intros n t Hk Hi Hb.
  destruct (next_move i n t Hi (busy_awake _ Hb)) as (m & Hnm & Hw & Hi'). pose proof (tr_left n m Hnm) as Hl.
  pose proof (tr_step r m) as Hs. rewrite Hw in Hs.
  destruct (busy_step i _ _ t (tr_inv m) Hs Hi' Hb) as [Hlt|(Heq & t' & Ht' & Hb' & Hr)]; [exists (S m); lia|].
  destruct (IH (steps_to_leave t')) with (n := S m) (t := t') as (m' & Hm'); [lia|done..|]. exists m'. lia.
Qed.

(** As long as a thread waits in lock, somebody completes an iteration. *)
Lemma lock_completes_fair i n p k : cf_threads (tr r n) !! i = Some (Thread (AtLock p) k) ->
  exists m, left (cf_threads (tr r m)) < left (cf_threads (tr r n)).
Proof.
  remember (lrank p) as d eqn:Hd. revert n p Hd. induction (lt_wf d) as [d _ IH]. intros n p Hd Hi.
  destruct (next_move i n _ Hi eq_refl) as (m & Hnm & Hw & Hi'). pose proof (tr_left n m Hnm) as Hl.
  pose proof (tr_step r m) as Hs. rewrite Hw in Hs. pose proof (tr_inv m) as Hinv. pose proof Hinv as [Hcore _].
  pose proof Hcore as (Hrange & _). destruct (decide (cf_lock (tr r m) = 1)) as [H1|H0].
  - destruct (core_holder iters _ _ _ Hcore H1) as (j & t & Hj & Hh & _).
    destruct (busy_completes j m t Hj (holder_busy _ Hh)) as [m' Hm']. exists m'. lia.
  - destruct (lock_step i _ _ p k Hinv Hs Hi' ltac:(lia)) as (Heq & [Hin|(q & Hq & Hr)]).
    + destruct (busy_completes i (S m) _ Hin eq_refl) as [m' Hm']. exists m'. lia.
    + destruct (IH (lrank q)) with (n := S m) (p := q) as [m' Hm']; [lia|done..|]. exists m'. lia.
Qed.

Lemma completes_fair n : ~ all_joined (tr r n) -> exists m, left (cf_threads (tr r m)) < left (cf_threads (tr r n)).
Proof.
  intros Hnot. destruct (tr_inv n) as [Hcore Haw]. unfold all_joined in Hnot.
  apply not_Forall_Exists in Hnot; [|apply _]. apply Exists_exists in Hnot as (t & Hin & Ht).
  assert (Exists (fun t => awake t = true) (cf_threads (tr r n))) as (u & Hu & Hawake)%Exists_exists.
  { destruct (asleep t) eqn:Ha; [apply Haw, Exists_exists; by exists t|].
    apply Exists_exists. exists t. split; [done|]. unfold awake. apply not_true_is_false in Ht. by rewrite Ha, Ht. }
  apply list_elem_of_lookup in Hu as [i Hi]. destruct (busy u) eqn:Hb; [by eapply busy_completes|].
  destruct u as [st k]. unfold busy, awake, asleep, finished in *. cbn in *. destruct st; try done. by eapply lock_completes_fair.
Qed.

Lemma fair_joins_from (n : nat) : exists m, all_joined (tr r m).
Proof.
  remember (Z.to_nat (left (cf_threads (tr r n)))) as k eqn:Hk. revert n Hk. induction (lt_wf k) as [k _ IH]. intros n Hk.
  destruct (decide (Forall (fun t => finished t = true) (cf_threads (tr r n)))) as [Hj|Hnot]; [by exists n|].
  destruct (completes_fair n Hnot) as [m Hm]. pose proof (left_nonneg (cf_threads (tr r m))).
  apply (IH (Z.to_nat (left (cf_threads (tr r m))))) with (n := m); lia.
Qed.

(** Nothing happens after the end. *)
Lemma joined_stays n m : all_joined (tr r n) -> (n <= m)%nat -> tr r m = tr r n.
Proof.
  intros Hj. induction 1 as [|m _ IH]; [done|]. rewrite <- IH in Hj |- *. unfold all_joined in Hj. pose proof (tr_step r m) as Hs.
  destruct (who r m) as [i|]; cbn in Hs.
  - destruct Hs as (t & Hi & Hs). pose proof (Forall_lookup_1 _ _ _ _ Hj Hi) as Hf. unfold finished in Hf. by destruct (th_state t).
  - destruct Hs as [->|Hs]; [done|]. destruct Hs as [l c ts i p k Hi]. pose proof (Forall_lookup_1 _ _ _ _ Hj Hi). done.
Qed.
End run.
End fairness.

(** ** Round robin *)

Section round_robin.
Context {A : LockAlgo}.
Implicit Types c : config A.

(** The step of thread [i], where the kernel wakes the first sleeper. *)
Definition pick (i : nat) c : option (config A) :=
  t ← cf_threads c !! i;
  let n := th_left t in
  let set l cnt t' := Config l cnt (<[i := t']> (cf_threads c)) in
  match th_state t with
  | AtLock p =>
    match lock_run p (cf_lock c) with
    | (l, LGoto q) => Some (set l (cf_counter c) (Thread (AtLock q) n))
    | (l, LEnter) => Some (set l (cf_counter c) (Thread AtLoad n))
    | (l, LBlock q) => Some (set l (cf_counter c) (Thread (Asleep q) n))
    end
  | AtLoad => Some (set (cf_lock c) (cf_counter c) (Thread (AtStore (cf_counter c)) n))
  | AtStore r => Some (set (cf_lock c) (r + 1) (Thread (AtUnlock unlock_entry) n))
  | AtUnlock u =>
    match unlock_run u (cf_lock c) with
    | (l, UGoto v) => Some (set l (cf_counter c) (Thread (AtUnlock v) n))
    | (l, ULeave) => Some (set l (cf_counter c) (next_iteration n))
    | (l, UWake) => Some (Config l (cf_counter c)
        (match head (sleepers (cf_threads c)) with
         | Some j => alter resume j (<[i := next_iteration n]> (cf_threads c))
         | None => <[i := next_iteration n]> (cf_threads c) end))
    end
  | Asleep _ | Finished => None
  end.

Lemma pick_step i c c' : pick i c = Some c' -> thread_step i c c'.
Proof.
  unfold pick, thread_step. destruct (cf_threads c !! i) as [[st n]|] eqn:Hi; [|done]. cbn. intros Hp. eexists. split; [done|]. cbn.
  destruct st as [p| |r|u|p|]; try (by simplify_eq).
  - destruct (lock_run p _) as [l' [q| |q]]; by simplify_eq.
  - destruct (unlock_run u _) as [l' [v| |]]; [by simplify_eq..|]. injection Hp as <-. by eexists.
Qed.

Lemma pick_none i c : pick i c = None -> ~ runnable i c.
Proof.
  unfold pick. intros Hp ([st n] & Hi & Ht). rewrite Hi in Hp. cbn in Hp. destruct st as [p| |r|u|p|]; try done.
  - by destruct (lock_run p _) as [l' [q| |q]].
  - by destruct (unlock_run u _) as [l' [v| |]].
Qed.

Section from.
Variable c0 : config A.
Let n0 : nat := length (cf_threads c0).

Fixpoint rr_tr (n : nat) : config A :=
  match n with O => c0 | S n => let c := rr_tr n in default c (pick (n mod n0) c) end.
Definition rr_who (n : nat) : option nat := (fun _ => n mod n0)%nat <$> pick (n mod n0) (rr_tr n).

Lemma rr_step n : moment (rr_who n) (rr_tr n) (rr_tr (S n)).
Proof. unfold rr_who. cbn. destruct (pick (n mod n0) (rr_tr n)) as [c'|] eqn:E; cbn; [by apply pick_step|by left]. Qed.

Lemma rr_threads n : length (cf_threads (rr_tr n)) = n0.
Proof.
  induction n as [|n IH]; [done|]. destruct (moment_any _ _ _ (rr_step n)) as [->|Hs]; [done|]. by rewrite (any_step_threads _ _ Hs).
Qed.

Lemma rr_fair i n : exists m, (n <= m)%nat /\ (rr_who m = Some i \/ ~ runnable i (rr_tr m)).
Proof.
  destruct (decide (i < n0)%nat) as [Hi|Hi].
  - exists (i + n * n0)%nat. split; [nia|]. unfold rr_who. rewrite Nat.Div0.mod_add, Nat.mod_small by done.
    destruct (pick i (rr_tr (i + n * n0))) eqn:E; [by left|right]. by apply pick_none.
  - exists n. split; [done|]. right. intros (t & Ht%lookup_lt_Some & _). by rewrite rr_threads in Ht.
Qed.

Definition round_robin : fair_run A := @Build_fair_run A fifo_kernel rr_tr rr_who rr_step rr_fair.
End from.
End round_robin.

(** ** Theorem *)

Lemma tr_reachable {A : LockAlgo} {K : FutexKernel} (r : fair_run A) n iters m : reachable n iters (tr r 0) -> reachable n iters (tr r m).
Proof.
  intros Hr. induction m as [|m IH]; [done|]. destruct (moment_any _ _ _ (tr_step r m)) as [->|Hs]; [done|].
  unfold reachable in *. etrans; [exact IH|]. by apply rtc_once.
Qed.

(** C13: Every fair schedule of workers under any of the four locks, with any
    kernel, any idling and any number of spurious wakeups, comes to an end: from
    some moment on all workers have returned, the counter is the number of
    workers times the iterations, and the lock is free. *)
Theorem fair_workers_finish {K : FutexKernel} v n iters (r : fair_run (algo v)) : reachable n iters (tr r 0) ->
  exists m, forall m', (m <= m')%nat ->
    all_joined (tr r m') /\ cf_counter (tr r m') = Z.of_nat n * Z.of_nat iters /\ cf_lock (tr r m') = 0.
Proof.
  intros Hr. pose proof (inv_reachable iters n _ Hr) as Hinv. destruct (fair_joins_from iters r Hinv 0) as [m Hm].
  exists m. intros m' Hle. rewrite (joined_stays r m m' Hm Hle). split; [done|].
  by apply (joined_counter iters n _ (tr_reachable r n iters m Hr)).
Qed.

(** Four workers of the last version in turn. *)
Lemma fair_workers_finish_witness :
  exists m, cf_counter (tr (round_robin (A := algo V4) final_main) m) = 400000.
Proof.
  destruct (fair_workers_finish V4 4 (Z.to_nat 100000) (round_robin final_main) (rtc_refl _ _)) as [m Hm].
  exists m. destruct (Hm m (le_n m)) as (_ & Hc & _). rewrite Z2Nat.id in Hc by done. exact Hc.
Defined.
