(* ===== verification/Ebpf.v ===== *)
(** * The eBPF demonstrations ([demos/ebpf])

    The tracepoint programs of [hello_libbpf.c] and [hello_core/hello_core.bpf.c]
    over a model of the two helpers they call, and the loader
    [hello_core/hello_core_user.c] as a program over the calls of libbpf: what
    the trace shows for a path in user memory, and that the loader releases
    what it took on every path that ends. *)
From Stdlib Require Import ZArith Lia String.
From stdpp Require Import base numbers list option gmap strings.
From S2P Require Import Prelude Syscall.

Open Scope Z_scope.

(** ** Helpers *)

(** A byte of user memory, or none where it cannot be read. *)
Definition user_mem : Type := Z -> option Z.

(** The bytes before the terminator, at most [room] of them; [None] if one of
    them cannot be read. *)
Fixpoint user_str (room : nat) (mem : user_mem) (addr : Z) : option (list Z) :=
  match room with
  | O => Some []
  | S room => b ← mem addr; if b =? 0 then Some [] else cons b <$> user_str room mem (addr + 1)
  end.

(** [bpf_probe_read_user_str]: one byte of the buffer is kept for the
    terminator; [on_fault] is what the buffer holds after an error. *)
Definition bpf_probe_read_user_str (on_fault : list Z -> list Z) (buf : list Z) (mem : user_mem) (addr : Z) : Z * list Z :=
  match user_str (length buf - 1) mem addr with
  | Some s => (Z.of_nat (length s) + 1, fill_buf buf (s ++ [0]))
  | None => (- EFAULT, on_fault buf)
  end.

(** [bpf_get_current_comm]: the name of the task, cut to the buffer. *)
Definition bpf_get_current_comm (buf comm : list Z) : list Z := fill_buf buf (take (length buf - 1) comm ++ [0]).

(** ** The tracepoint programs *)

Section tracepoint.
(** The contents of the stack, of a buffer after a failed read, the memory of
    the process and the name of its task. *)
Context (junk : nat -> Z) (on_fault : list Z -> list Z) (mem : user_mem) (comm : list Z).

(** The lines traced and the result; [args] are those of the system call. *)
Definition libbpf_handle_openat (args : list Z) : exec (list (string * list arg) * Z) :=
  path ← arr_get args 1;
  let filename := snd (bpf_probe_read_user_str on_fault (stack_buf junk 256) mem path) in
  shown ← c_string filename;
  Ok ([("openat: %s"%string, [ABytes shown])], 0).

Definition core_handle_openat (args : list Z) : exec (list (string * list arg) * Z) :=
  path ← arr_get args 1;
  let filename := snd (bpf_probe_read_user_str on_fault (stack_buf junk 256) mem path) in
  let name := bpf_get_current_comm (stack_buf junk 16) comm in
  by_name ← c_string name;
  shown ← c_string filename;
  Ok ([("openat by %s: %s"%string, [ABytes by_name; ABytes shown])], 0).
End tracepoint.

(** ** The loader *)

(** A pointer that libbpf returns: a handle, or an error number encoded in it. *)
Inductive ptr := Handle (h : nat) | ErrPtr (e : Z).

Definition libbpf_get_error (p : ptr) : Z := match p with Handle _ => 0 | ErrPtr e => - e end.

Inductive bpfcall :=
  | ObjectOpen (path : string)
  | ObjectLoad (obj : ptr)
  | FindProgram (obj : ptr) (name : string)
  | Attach (prog : nat)
  | LinkDestroy (link : option ptr)
  | ObjectClose (obj : ptr)
  | Sleep (seconds : Z)
  | Complain (msg : string) (args : list arg)
  | Printf (msg : string).

Definition banswer (c : bpfcall) : Type :=
  match c with
  | ObjectOpen _ | Attach _ => ptr
  | ObjectLoad _ => Z
  | FindProgram _ _ => option nat
  | _ => unit
  end.

Abbreviation bpfprog := (prog banswer).

Definition ENOENT : Z := 2.

(** [while (1) sleep(1);] for as many rounds as are looked at. *)
Fixpoint sleep_loop (rounds : nat) : bpfprog unit :=
  match rounds with O => Ret () | S rounds => call (Sleep 1 : bpfcall);; sleep_loop rounds end.

(** The label [cleanup]. *)
Definition cleanup (link : option ptr) (obj : ptr) (err : Z) : bpfprog (option Z) :=
  call (LinkDestroy link);; call (ObjectClose obj);; Ret (Some (if negb (err =? 0) then 1 else 0)).

(** [main]: the exit status, or nothing while it sleeps. *)
Definition loader_main (rounds : nat) : bpfprog (option Z) :=
  obj ← call (ObjectOpen "./hello_core.bpf.o");
  let err := libbpf_get_error obj in
  if negb (err =? 0) then
    call (Complain "failed to open BPF object: %s" [AInt (- err)]);; Ret (Some 1)
  else
    err ← call (ObjectLoad obj);
    if negb (err =? 0) then
      call (Complain "failed to load BPF object: %s" [AInt (- err)]);; cleanup None obj err
    else
      prog ← call (FindProgram obj "handle_openat");
      match prog with
      | None => call (Complain "failed to find BPF program 'handle_openat'" []);; cleanup None obj (- ENOENT)
      | Some prog =>
        link ← call (Attach prog);
        let err := libbpf_get_error link in
        if negb (err =? 0) then
          call (Complain "failed to attach BPF program: %s" [AInt (- err)]);; cleanup (Some link) obj err
        else
          call (Printf "Tracing openat syscalls... Ctrl+C to stop.");;
          call (Printf "View output with: sudo cat /sys/kernel/debug/tracing/trace_pipe");;
          sleep_loop rounds;;
          Ret None
      end.

(** ** What is traced *)

(** The string [p], with its terminator, lies at [addr]. *)
Fixpoint holds (mem : user_mem) (addr : Z) (p : list Z) : Prop :=
  match p with [] => mem addr = Some 0 | b :: p => b <> 0 /\ mem addr = Some b /\ holds mem (addr + 1) p end.

Lemma user_str_holds room mem addr p : holds mem addr p -> user_str room mem addr = Some (take room p).
Proof.
  revert addr p. induction room as [|room IH]; intros addr p; [done|]. destruct p as [|b p]; cbn [holds user_str take].
  - by intros ->.
  - intros (Hb & -> & Hp). cbn. destruct (Z.eqb_spec b 0); [done|]. by rewrite (IH _ _ Hp).
Qed.

Lemma upto_nul_nonzero l : Forall (.≠ 0) l -> upto_nul l = l.
Proof. induction 1 as [|b l Hb _ IH]; [done|]. cbn. destruct (Z.eqb_spec b 0); [done|]. by rewrite IH. Qed.

Lemma c_string_filled buf s : Forall (.≠ 0) s -> c_string (fill_buf buf (s ++ [0])) = Ok s.
Proof. intros Hs. unfold fill_buf. rewrite <- app_assoc. cbn [app]. by rewrite c_string_upto, upto_nul_nonzero. Qed.

Lemma user_str_nonzero room mem addr s : user_str room mem addr = Some s -> Forall (.≠ 0) s.
Proof.
  revert addr s. induction room as [|room IH]; intros addr s; cbn [user_str]; [by intros [= <-]|].
  destruct (mem addr) as [b|]; cbn; [|done]. destruct (Z.eqb_spec b 0); [by intros [= <-]|].
  intros (s' & Hs' & ->)%fmap_Some. constructor; [done|]. by eapply IH.
Qed.

(** What [c_string] finds after the helper: the string read, or the leavings of
    a fault. *)
Lemma probe_shown junk on_fault mem path n : (1 <= n)%nat ->
  c_string (snd (bpf_probe_read_user_str on_fault (stack_buf junk n) mem path)) =
  match user_str (n - 1) mem path with Some s => Ok s | None => c_string (on_fault (stack_buf junk n)) end.
Proof.
  intros Hn. unfold bpf_probe_read_user_str. rewrite length_stack_buf.
  destruct (user_str (n - 1) mem path) as [s|] eqn:E; cbn [snd]; [|done]. apply c_string_filled. by eapply user_str_nonzero.
Qed.

(** Both programs on a call of [openat] whose path lies in readable memory:
    one line, with the first 255 bytes of the path and, in the second, the
    first 15 of the task's name, whatever the stack held before. *)
Theorem openat_traced junk on_fault mem comm args path p : args !! 1%nat = Some path -> holds mem path p -> Forall (.≠ 0) comm ->
  libbpf_handle_openat junk on_fault mem args = Ok ([("openat: %s"%string, [ABytes (take 255 p)])], 0) /\
  core_handle_openat junk on_fault mem comm args = Ok ([("openat by %s: %s"%string, [ABytes (take 15 comm); ABytes (take 255 p)])], 0).
Proof.
  intros Ha Hp Hc. unfold libbpf_handle_openat, core_handle_openat. rewrite (arr_get_ok args 1 path) by done. cbn [mbind exec_bind].
  rewrite probe_shown, (user_str_holds _ _ _ p Hp) by lia. cbn [mbind exec_bind]. split; [done|].
  unfold bpf_get_current_comm. rewrite length_stack_buf, c_string_filled by by apply Forall_take. done.
Qed.

(** A path that cannot be read is traced as whatever the failed helper left in
    the buffer: its result is not looked at. *)
Theorem openat_fault_traced junk on_fault mem args path : args !! 1%nat = Some path -> mem path = None ->
  libbpf_handle_openat junk on_fault mem args =
    (s ← c_string (on_fault (stack_buf junk 256)); Ok ([("openat: %s"%string, [ABytes s])], 0)).
Proof.
  intros Ha Hp. unfold libbpf_handle_openat. rewrite (arr_get_ok args 1 path) by done. cbn [mbind exec_bind].
  rewrite probe_shown by lia. cbn [user_str Nat.sub]. by rewrite Hp.
Qed.

(** ** What the loader holds *)

(** The object and the link it holds after a trace; [None] if a call used
    something it does not hold, or a second one was taken. *)
Definition held : Type := option nat * option nat.

Definition track (e : event banswer) (h : held) : option held :=
  let '(existT c a) := e in
  match c return banswer c -> option held with
  | ObjectOpen _ => fun p =>
    match fst h, p with None, Handle o => Some (Some o, snd h) | None, ErrPtr _ => Some h | Some _, _ => None end
  | ObjectLoad p | FindProgram p _ => fun _ =>
    match p with Handle o => if decide (fst h = Some o) then Some h else None | ErrPtr _ => None end
  | Attach _ => fun p =>
    match snd h, p with None, Handle l => Some (fst h, Some l) | None, ErrPtr _ => Some h | Some _, _ => None end
  | LinkDestroy p => fun _ =>
    match p with
    | Some (Handle l) => if decide (snd h = Some l) then Some (fst h, None) else None
    | _ => Some h
    end
  | ObjectClose p => fun _ =>
    match p with
    | Handle o => if decide (h = (Some o, None)) then Some (None, None) else None
    | ErrPtr _ => None
    end
  | Sleep _ | Complain _ _ | Printf _ => fun _ => Some h
  end a.

Fixpoint tracked_run (t : list (event banswer)) (h : held) : option held :=
  match t with [] => Some h | e :: t => h ← track e h; tracked_run t h end.

(** Error numbers are positive. *)
Definition answers_ok (e : event banswer) : Prop :=
  match e with
  | existT (ObjectOpen _) (ErrPtr e) => 0 < e
  | existT (Attach _) (ErrPtr e) => 0 < e
  | _ => True
  end.

Lemma tracked_app t1 t2 h : tracked_run (t1 ++ t2) h = tracked_run t1 h ≫= tracked_run t2.
Proof. revert h. induction t1 as [|e t1 IH]; intros h; [done|]. cbn [app tracked_run]. destruct (track e h); [apply IH|done]. Qed.

(** A call of the set-up that failed. *)
Definition failed (e : event banswer) : bool :=
  match e with
  | existT (ObjectOpen _) (ErrPtr _) | existT (Attach _) (ErrPtr _) | existT (FindProgram _ _) None => true
  | existT (ObjectLoad _) err => negb (err =? 0)
  | _ => false
  end.

(** How the loader can end: with status 1 and nothing held, after a failure; or
    it sleeps, with the object and the link. *)
Definition loader_end (rounds : nat) (o : outcome (option Z)) (h : option held) (t : list (event banswer)) : Prop :=
  match o with
  | Returned (Some code) => code = 1 /\ h = Some (None, None) /\ existsb failed t = true
  | Returned None => (exists obj link, h = Some (Some obj, Some link)) /\ existsb failed t = false /\
      exists t', t = t' ++ replicate rounds (existT (Sleep 1) tt)
  | _ => False
  end.

(** The link a pointer stands for, if it stands for one. *)
Definition link_held (link : option ptr) : option nat :=
  match link with Some (Handle l) => Some l | _ => None end.

Section loader.
Context (K : kernel banswer).

Lemma sleep_loop_run rounds s : ends K (sleep_loop rounds) s (fun o t s' => o = Returned tt /\ t = replicate rounds (existT (Sleep 1) tt)).
Proof.
  revert s. induction rounds as [|rounds IH]; intros s; [done|]. cbn [sleep_loop]. unfold mbind, prog_bind, call. cbn [bind_prog].
  apply (@ends_call bpfcall banswer). intros [] s' _. eapply ends_mono; [apply IH|]. intros o t s2 (-> & ->). done.
Qed.

Lemma ends_true {X} (p : bpfprog X) s : ends K p s (fun _ _ _ => True).
Proof. unfold ends. by destruct (run K p s) as [[o t] s']. Qed.

(** [cleanup] releases the object and the link, whichever of them exist, and
    reports the error it was given. *)
Lemma cleanup_run (link : option ptr) o err s :
  ends K (cleanup link (Handle o) err) s (fun out t s' =>
    out = Returned (Some (if err =? 0 then 0 else 1)) /\ tracked_run t (Some o, link_held link) = Some (None, None) /\
    existsb failed t = false).
Proof.
  unfold cleanup, mbind, prog_bind, call. cbn [bind_prog].
  apply (@ends_call bpfcall banswer). intros [] s1 _. apply (@ends_call bpfcall banswer). intros [] s2 _. apply ends_ret.
  split; [by destruct (err =? 0)|]. split; [|done]. cbn [tracked_run track fst snd].
  destruct link as [[l|e]|]; cbn; rewrite ?decide_True by done; cbn; rewrite ?decide_True by done; done.
Qed.

Lemma sleeps_no_failure n : existsb failed (replicate n (existT (Sleep 1) tt)) = false.
Proof. by induction n. Qed.
End loader.

(** One call of the loader. *)
Ltac bpf_call :=
  unfold mbind, prog_bind, call; cbn [bind_prog]; apply (@ends_call bpfcall banswer);
  let a := fresh "a" in let s := fresh "s" in intros a s _; cbn [banswer] in a.

(** At an end: what is held after the calls made. *)
Ltac ended := repeat (progress (cbn; rewrite ?decide_True by done)); split_and?.

(** C31: The loader against any libbpf (whose error pointers carry positive numbers).
    Its [cleanup], given the object and any link (none, an error pointer, or a
    link that is attached), destroys the link that is held and then closes the
    object, once each, and ends with status 0 exactly when it is given no error.
    [main] ends exactly when a call of its set-up fails, with status 1 and the
    object closed if it was opened, and uses it neither before nor after; it
    never holds a link then, so the status 0 is never returned.  When nothing
    fails it sleeps forever with the object loaded and the program attached. *)
Theorem loader_releases (K : kernel banswer) :
  (forall link obj err s, ends K (cleanup link (Handle obj) err) s (fun o t _ =>
    o = Returned (Some (if err =? 0 then 0 else 1)) /\ tracked_run t (Some obj, link_held link) = Some (None, None))) /\
  (forall rounds s, ends K (loader_main rounds) s (fun o t _ =>
    Forall answers_ok t -> loader_end rounds o (tracked_run t (None, None)) t)).
Proof.
  split. { intros. eapply ends_mono; [apply cleanup_run|]. by intros o t s' (-> & Ht & _). }
  intros rounds s.
  unfold loader_main. bpf_call. destruct a as [obj|e]; cbn [libbpf_get_error]; cycle 1.
  { destruct (Z.eqb_spec (- e) 0) as [He|He]; cbn [negb].
    - eapply ends_mono; [apply ends_true|]. intros o t s' _ Ht. apply Forall_cons in Ht as [Hp _]. cbn in Hp. lia.
    - bpf_call. apply ends_ret. by intros _. }
  cbn [Z.eqb negb]. bpf_call. destruct (Z.eqb_spec a 0) as [Ha|Ha]; cbn [negb]; cycle 1.
  { bpf_call. eapply ends_mono; [apply (cleanup_run K None obj a s2)|]. intros o t s' (-> & Ht & _) _.
    cbn [loader_end]. rewrite (proj2 (Z.eqb_neq a 0) Ha). ended; [done..|]. by rewrite (proj2 (Z.eqb_neq a 0) Ha). }
  subst a. bpf_call. destruct a as [pr|]; cycle 1.
  { bpf_call. eapply ends_mono; [apply (cleanup_run K None obj (- ENOENT) s3)|]. intros o t s' (-> & Ht & _) _. ended; done. }
  bpf_call. destruct a as [l|e]; cbn [libbpf_get_error]; cycle 1.
  { destruct (Z.eqb_spec (- e) 0) as [He|He]; cbn [negb].
    - eapply ends_mono; [apply ends_true|]. intros o t s' _ Ht. rewrite !Forall_cons in Ht. destruct Ht as (_ & _ & _ & Ht & _). cbn in Ht. lia.
    - bpf_call. eapply ends_mono; [apply (cleanup_run K (Some (ErrPtr e)) obj (- e) s4)|].
      intros o t s' (-> & Ht & _) _. cbn [loader_end].
      rewrite (proj2 (Z.eqb_neq (- e) 0) He). ended; done. }
  cbn [Z.eqb negb]. bpf_call. bpf_call. apply ends_bind. eapply ends_mono; [apply sleep_loop_run|]. intros o t s' (-> & ->).
  apply ends_ret. intros _. rewrite app_nil_r. cbn [loader_end]. split; [|split].
  - exists obj, l. ended. clear. induction rounds as [|n IH]; [done|exact IH].
  - cbn. apply sleeps_no_failure.
  - eexists [_; _; _; _; _; _]. done.
Qed.

(** *** Concrete executions *)

(** A memory with the string "/a" at 100, in a page of which nothing else is
    mapped, and a task called "sh". *)
Definition path_mem : user_mem := fun a => if a =? 100 then Some 47 else if a =? 101 then Some 97 else if a =? 102 then Some 0 else None.

Lemma openat_traced_witness :
  libbpf_handle_openat (fun _ => 7) id path_mem [0; 100] = Ok ([("openat: %s"%string, [ABytes [47; 97]])], 0) /\
  core_handle_openat (fun _ => 7) id path_mem [115; 104] [0; 100] =
    Ok ([("openat by %s: %s"%string, [ABytes [115; 104]; ABytes [47; 97]])], 0).
Proof.
  apply (openat_traced (fun _ => 7) id path_mem [115; 104] [0; 100] 100 [47; 97]); [reflexivity|cbn; done|].
  repeat constructor; discriminate.
Defined.

(** Nothing of the path is mapped, and a helper that leaves the buffer alone. *)
Lemma openat_fault_traced_witness :
  libbpf_handle_openat (fun i => if Nat.eqb i 2 then 0 else 33) id path_mem [0; 5] = Ok ([("openat: %s"%string, [ABytes [33; 33]])], 0).
Proof. rewrite (openat_fault_traced (fun i => if Nat.eqb i 2 then 0 else 33) id path_mem [0; 5] 5) by reflexivity. vm_compute. reflexivity. Defined.

(** A library that refuses to attach with [EPERM] if [refuse], and else attaches. *)
Definition demo_bpf (refuse : bool) : kernel banswer := Kernel unit (fun _ c =>
  (match c return banswer c with
   | ObjectOpen _ => Handle 1
   | ObjectLoad _ => 0
   | FindProgram _ _ => Some 2%nat
   | Attach _ => if refuse then ErrPtr 1 else Handle 3
   | LinkDestroy _ | ObjectClose _ | Sleep _ | Complain _ _ | Printf _ => tt
   end, tt)).

Lemma loader_releases_witness :
  ends (demo_bpf true) (loader_main 2) tt (fun o t _ => o = Returned (Some 1) /\ tracked_run t (None, None) = Some (None, None)) /\
  ends (demo_bpf false) (loader_main 2) tt (fun o t _ => o = Returned None /\ tracked_run t (None, None) = Some (Some 1%nat, Some 3%nat)).
Proof.
  split; [|vm_compute; by split]. pose proof (proj2 (loader_releases (demo_bpf true)) 2%nat tt) as H. unfold ends in *.
  assert (Ho : fst (fst (run (demo_bpf true) (loader_main 2) tt)) = Returned (Some 1)) by reflexivity.
  assert (Ht : Forall answers_ok (snd (fst (run (demo_bpf true) (loader_main 2) tt)))) by (cbn; repeat constructor).
  destruct (run (demo_bpf true) (loader_main 2) tt) as [[o t] s']. cbn [fst snd] in Ho, Ht. subst o.
  split; [done|]. by destruct (H Ht) as (_ & Hn & _).
Defined.
