(* ===== verification/IoPool.v ===== *)
(** * The schedulers as a pool of requests ([demos/iosched/iosched.c])

    What the block layer needs of a scheduler, whichever is in use: a request
    handed to [iosched_add_request] comes back from [iosched_dispatch] exactly
    once, and a dispatch returns nothing only when nothing is pending.  The
    class [IoContract] states this; noop, deadline and cfq are shown to meet it,
    and any sequence of calls of the interface then refines the abstract pool.
    cfq returns nothing while requests are pending when a process used less
    than its slice ([cfq_stalls]); the contract therefore has two strengths,
    and cfq has the [prompt] one for requests of at least a slice and the other
    for all requests. *)
From Stdlib Require Import ZArith Lia.
From stdpp Require Import base numbers list option gmap strings.
From S2P Require Import Prelude ListHead Bio IoSched.

Open Scope Z_scope.

(** ** The abstract pool *)

(** The calls: a request from process [p], [mem] telling whether [kmalloc]
    succeeds if it is called, and a dispatch, at the clock readings [now]. *)
Inductive io_op := Add (r : nat) (p : Z) (mem : bool) | Dispatch (now : Z * Z).

Definition added (ops : list io_op) : list nat := ops ≫= fun o => match o with Add r _ _ => [r] | Dispatch _ => [] end.

(** The requests whose addition would find no memory. *)
Definition short (ops : list io_op) : list nat := ops ≫= fun o => match o with Add r _ false => [r] | _ => [] end.

(** Runs of the pool: pending requests, calls, what the dispatches returned,
    pending requests after them, requests lost.  A [prompt] pool returns nothing
    only when nothing is pending; only cfq loses requests, and only when there
    is no memory. *)
Inductive pool_run (prompt : bool) (a : algorithm) : list nat -> list io_op -> list (option nat) -> list nat -> list nat -> Prop :=
  | pool_nil p : pool_run prompt a p [] [] p []
  | pool_add p r pid mem ops outs p' k : pool_run prompt a (r :: p) ops outs p' k -> pool_run prompt a p (Add r pid mem :: ops) outs p' k
  | pool_lose p r pid ops outs p' k : a = IOSCHED_CFQ -> pool_run prompt a p ops outs p' k ->
      pool_run prompt a p (Add r pid false :: ops) outs p' (r :: k)
  | pool_some p r now p1 ops outs p' k : p ≡ₚ r :: p1 -> pool_run prompt a p1 ops outs p' k ->
      pool_run prompt a p (Dispatch now :: ops) (Some r :: outs) p' k
  | pool_none p now ops outs p' k : (prompt = true -> p = []) -> pool_run prompt a p ops outs p' k ->
      pool_run prompt a p (Dispatch now :: ops) (None :: outs) p' k.

(** A request is returned once, or is pending, or was lost. *)
Lemma pool_conserves prompt a p ops outs p' k : pool_run prompt a p ops outs p' k -> p ++ added ops ≡ₚ omap id outs ++ p' ++ k.
Proof.
  induction 1 as [p|p r pid mem ops outs p' k _ IH|p r pid ops outs p' k _ _ IH|p r now p1 ops outs p' k Hp _ IH|p now ops outs p' k _ _ IH]; cbn in *.
  - done.
  - rewrite <- IH. symmetry. apply Permutation_middle.
  - rewrite <- Permutation_middle, IH. by rewrite !app_assoc, <- Permutation_middle.
  - rewrite Hp. cbn. by rewrite IH.
  - done.
Qed.

(** What is lost. *)
Lemma pool_lost prompt a p ops outs p' k : pool_run prompt a p ops outs p' k -> k `sublist_of` short ops /\ (a <> IOSCHED_CFQ -> k = []).
Proof.
  induction 1 as [p|p r pid mem ops outs p' k _ IH|p r pid ops outs p' k Ha _ IH|p r now p1 ops outs p' k Hp _ IH|p now ops outs p' k _ _ IH]; [done|..];
    destruct IH as [IH1 IH2].
  - split; [|done]. destruct mem; [done|]. by constructor.
  - split; [by constructor|done].
  - done.
  - done.
Qed.

(** ** The contract *)

Section contract.
Context {L : Type} `{!ListHead node L} `{!ListLaws node L}.
Variable jiffies_to_msecs : Z -> Z.
Implicit Types s : sched L.

(** [s'] differs from [s] at most in requests outside [p] and their own nodes. *)
Record same_sched s s' (p : list nat) : Prop := {
  ss_current : current_iosched s' = current_iosched s;
  ss_slice : cfq_slice s' = cfq_slice s;
  ss_queues : queues s' = queues s;
  ss_next : next_queue s' = next_queue s;
  ss_active : active_queue s' = active_queue s;
  ss_reqs r : r ∈ p -> reqs s' !! r = reqs s !! r;
  ss_wf : links_wf (links s');
  ss_heads k : (forall r, k <> QueueNode r) -> (forall r, k <> FioNode r) -> list_view (links s') k = list_view (links s) k;
  ss_nodes r k xs : k = QueueNode r \/ k = FioNode r -> list_view (links s') k = Some xs -> xs = []
}.

Class IoContract (prompt : bool) (a : algorithm) (admits : request -> Prop) (pool : sched L -> list nat -> Prop) : Prop := {
  pool_current s p : pool s p -> current_iosched s = Some a;
  pool_init s : no_nodes (links s) -> pool (init_fn a (set_current (Some a) s)) [];
  pool_idle s p r n : pool s p -> r ∉ p -> n = QueueNode r \/ n = FioNode r -> links_wf (links s) /\ unlinked n (links s);
  pool_nodes s p r k xs : pool s p -> k = QueueNode r \/ k = FioNode r -> list_view (links s) k = Some xs -> xs = [];
  pool_frame s s' p : pool s p -> same_sched s s' p -> pool s' p;
  pool_takes s p r x pid mem : pool s p -> r ∉ p -> reqs s !! r = Some x -> admits x ->
    exists s', iosched_add_request s r pid mem = Ok s' /\ reqs s' = reqs s /\ (pool s' (r :: p) \/ (a = IOSCHED_CFQ /\ mem = false) /\ pool s' p);
  pool_gives s p now : pool s p ->
    exists s' o, iosched_dispatch jiffies_to_msecs s now = Ok (s', o) /\ reqs s' = reqs s /\
      match o with None => (prompt = true -> p = []) /\ pool s' p | Some r => exists p', p ≡ₚ r :: p' /\ pool s' p' end
}.

Definition io_step s (o : io_op) : exec (sched L * list (option nat)) :=
  match o with
  | Add r pid mem => s ← iosched_add_request s r pid mem; Ok (s, [])
  | Dispatch now => '(s, r) ← iosched_dispatch jiffies_to_msecs s now; Ok (s, [r])
  end.

Fixpoint io_run s (ops : list io_op) : exec (sched L * list (option nat)) :=
  match ops with
  | [] => Ok (s, [])
  | o :: ops => '(s, outs) ← io_step s o; '(s, outs') ← io_run s ops; Ok (s, outs ++ outs')
  end.

Lemma io_run_refines prompt a admits pool `{!IoContract prompt a admits pool} ops : forall s p, pool s p -> NoDup (p ++ added ops) ->
  (forall r, r ∈ added ops -> exists x, reqs s !! r = Some x /\ admits x) ->
  exists s' outs p' k, io_run s ops = Ok (s', outs) /\ pool_run prompt a p ops outs p' k /\ pool s' p'.
Proof.
  induction ops as [|o ops IH]; intros s p Hp Hnd Hadm; [exists s, [], p, []; by split_and!; [|constructor|]|].
  destruct o as [r pid mem|now]; cbn [io_run io_step].
  - destruct (Hadm r) as (x & Hx & Hax); [left|].
    assert (Hnd' : NoDup (r :: p ++ added ops)) by (rewrite Permutation_middle; exact Hnd).
    pose proof Hnd' as [Hr Hnd'']%list.NoDup_cons. destruct (pool_takes s p r x pid mem) as (s1 & -> & Hr1 & Hp1); [done| |done|done|].
    { intros Hin. apply Hr, elem_of_app. by left. }
    assert (Hadm1 : forall r', r' ∈ added ops -> exists x, reqs s1 !! r' = Some x /\ admits x).
    { intros r' Hr'. rewrite Hr1. apply Hadm. by right. }
    cbn [mbind exec_bind]. destruct Hp1 as [Hp1|[[Ha ->] Hp1]].
    + destruct (IH s1 (r :: p) Hp1 Hnd' Hadm1) as (s2 & outs & p2 & k & -> & Hrun & Hp2).
      cbn [mbind exec_bind]. exists s2, outs, p2, k. split_and!; [done| |done]. by constructor.
    + destruct (IH s1 p Hp1 Hnd'' Hadm1) as (s2 & outs & p2 & k & -> & Hrun & Hp2).
      cbn [mbind exec_bind]. exists s2, outs, p2, (r :: k). split_and!; [done| |done]. by constructor.
  - destruct (pool_gives s p now Hp) as (s1 & o & -> & Hr1 & Ho). cbn [mbind exec_bind].
    assert (Hadm1 : forall r, r ∈ added ops -> exists x, reqs s1 !! r = Some x /\ admits x) by (rewrite Hr1; exact Hadm).
    destruct o as [r|].
    + destruct Ho as (p1 & Hperm & Hp1). destruct (IH s1 p1 Hp1) as (s2 & outs & p2 & k & -> & Hrun & Hp2); [|done|].
      { change (added (Dispatch now :: ops)) with (added ops) in Hnd. rewrite Hperm in Hnd. by apply list.NoDup_cons in Hnd as [_ ?]. }
      cbn [mbind exec_bind]. exists s2, (Some r :: outs), p2, k. split_and!; [done| |done]. by econstructor.
    + destruct Ho as [Hnil Hp1]. destruct (IH s1 p Hp1 Hnd Hadm1) as (s2 & outs & p2 & k & -> & Hrun & Hp2).
      cbn [mbind exec_bind]. exists s2, (None :: outs), p2, k. split_and!; [done| |done]. by constructor.
Qed.

(** ** Lists outside the scheduler *)

(** Only the lists behind [hs] have nodes. *)
Definition only_lists (l : L) (hs : list node) : Prop := forall k xs, list_view l k = Some xs -> k ∉ hs -> xs = [].

Lemma unlinked_outside (l : L) hs n : only_lists l hs -> n ∉ hs ->
  (forall k xs, k ∈ hs -> list_view l k = Some xs -> n ∉ xs) -> unlinked n l.
Proof.
  intros Ho Hn Hin. split.
  - destruct (list_view l n) as [xs|] eqn:E; [|by left]. right. f_equal. by apply (Ho n).
  - intros k xs Hk. destruct (decide (k ∈ hs)) as [|Hk']; [by eapply Hin|]. rewrite (Ho k xs) by done. apply not_elem_of_nil.
Qed.

Lemma only_lists_frame (l l' : L) hs (skip : list node) : only_lists l hs ->
  (forall k, k ∉ hs -> k ∉ skip -> list_view l' k = list_view l k) -> (forall k, k ∈ skip -> list_view l' k = None) -> only_lists l' hs.
Proof.
  intros Ho Hv Hs k xs Hk Hn. destruct (decide (k ∈ skip)) as [Hin|Hin]; [by rewrite Hs in Hk|].
  apply (Ho k); [|done]. by rewrite <- Hv.
Qed.

Lemma only_lists_same s s' p hs : same_sched s s' p -> only_lists (links s) hs -> only_lists (links s') hs.
Proof.
  intros Hs Ho k xs Hk Hn. destruct k as [| | | | | |r|r|].
  7: by apply (ss_nodes _ _ _ Hs r (QueueNode r)); [left|].
  7: by apply (ss_nodes _ _ _ Hs r (FioNode r)); [right|].
  all: rewrite (ss_heads _ _ _ Hs) in Hk by done; by eapply Ho.
Qed.

Lemma by_sector_same s s' l : (forall r, r ∈ l -> reqs s' !! r = reqs s !! r) -> by_sector s l -> by_sector s' l.
Proof.
  intros Hl. induction 1 as [|r l Hs IH Hall]; constructor.
  - apply IH. intros; apply Hl; by right.
  - rewrite Forall_forall in *. intros r' Hr'. specialize (Hall r' Hr'). unfold sector_of in *.
    rewrite !Hl; [done|by right|left].
Qed.

(** ** noop *)

Definition noop_pool s (p : list nat) : Prop :=
  current_iosched s = Some IOSCHED_NONE /\ links_wf (links s) /\ only_lists (links s) [DispatchHead IOSCHED_NONE] /\
  exists q, p ≡ₚ q /\ list_view (links s) (DispatchHead IOSCHED_NONE) = Some (QueueNode <$> q).

(** A request that is not pending is in no list. *)
Lemma noop_idle s p r n : noop_pool s p -> r ∉ p -> n = QueueNode r \/ n = FioNode r -> unlinked n (links s).
Proof.
  intros (_ & _ & Ho & q & Hq & Hv) Hr Hn. eapply unlinked_outside; [done|rewrite list_elem_of_singleton; by destruct Hn as [-> | ->]|].
  intros k xs ->%list_elem_of_singleton. rewrite Hv. intros [= <-] (r' & E & Hr')%list_elem_of_fmap. destruct Hn as [-> | ->]; [|done].
  injection E as <-. apply Hr. by rewrite Hq.
Qed.

#[export] Instance noop_contract prompt : IoContract prompt IOSCHED_NONE (fun _ => True) noop_pool.
Proof.
  split.
  - by intros s p [? _].
  - intros s Hn. split; [done|]. cbn. pose proof (no_nodes_init (FifoHead IOSCHED_NONE) _ (no_nodes_init (DispatchHead IOSCHED_NONE) _ Hn)) as Hn'.
    split; [by apply no_nodes_wf|]. split; [intros k xs Hk _; by apply (Hn' k)|].
    exists []. split; [done|]. rewrite !view_init by (apply no_nodes_off; first [done|by apply no_nodes_init]). by rewrite decide_False, decide_True.
  - intros s p r n Hp Hr Hn. split; [by destruct Hp as (_ & ? & _)|]. by eapply noop_idle.
  - intros s p r k xs (_ & _ & Ho & _) Hk Hv. apply (Ho k); [done|]. rewrite list_elem_of_singleton. by destruct Hk as [-> | ->].
  - intros s s' p (Hc & Hwf & Ho & q & Hq & Hv) Hs. split; [by rewrite (ss_current _ _ _ Hs)|]. split; [apply Hs|].
    split; [by eapply only_lists_same|]. exists q. split; [done|]. by rewrite (ss_heads _ _ _ Hs).
  - intros s p r x pid mem Hp Hr _ _. pose proof (noop_idle s p r (QueueNode r) Hp Hr ltac:(by left)) as Hu.
    destruct Hp as (Hc & Hwf & Ho & q & Hq & Hv). unfold iosched_add_request. rewrite Hc. eexists. split; [done|].
    split; [done|]. left. unfold noop_add_request. split; [done|]. cbn [links set_links].
    pose proof (fun k => view_add_tail _ _ k _ _ Hwf Hu Hv ltac:(done)) as Hv'. split_and!.
    + by eapply links_wf_add_tail.
    + apply (only_lists_frame (links s) _ _ [QueueNode r]); [done|intros k [? _]%not_elem_of_cons [? _]%not_elem_of_cons; by rewrite Hv', !decide_False|intros k ->%list_elem_of_singleton; by rewrite Hv', decide_True].
    + exists (q ++ [r]). split; [by rewrite Hq, Permutation_cons_append|]. by rewrite Hv', decide_False, decide_True, fmap_app.
  - intros s p now (Hc & Hwf & Ho & q & Hq & Hv). unfold iosched_dispatch, noop_dispatch. rewrite Hc, (empty_spec _ _ _ Hv).
    destruct q as [|r q]; cbn [fmap list_fmap].
    + exists s, None. split; [done|]. split; [done|]. split; [intros _; by apply Permutation_nil_r|]. split; [done|]. split_and!; [done..|]. by exists [].
    + rewrite fmap_cons in Hv. rewrite (next_spec _ _ _ _ Hv). cbn [entry mbind exec_bind]. eexists _, (Some r). split; [done|]. split; [done|].
      exists q. split; [done|]. split; [done|]. cbn [links set_links].
      pose proof (fun k => view_del (QueueNode r) _ k _ _ Hwf Hv ltac:(left)) as Hv'. split_and!.
      * eapply links_wf_del; [done..|left].
      * apply (only_lists_frame (links s) _ _ []); [done|..]; intros k; [|by intros ?%elem_of_nil]. rewrite list_elem_of_singleton. intros.
        by rewrite Hv', decide_False.
      * exists q. split; [done|]. rewrite Hv', decide_True by done. by rewrite (filter_ne_middle (QueueNode r) [] _ (links_nodup _ Hwf _ _ Hv)).
Qed.

(** ** deadline *)

Definition deadline_pool s (p : list nat) : Prop :=
  current_iosched s = Some IOSCHED_DEADLINE /\ only_lists (links s) deadline_heads /\
  exists d, dq_rel s d /\ p ≡ₚ dq_sorted d.

(** A request that is not pending is in no list. *)
Lemma deadline_idle s d r n : dq_rel s d -> only_lists (links s) deadline_heads -> r ∉ dq_sorted d -> n = QueueNode r \/ n = FioNode r ->
  unlinked n (links s).
Proof.
  intros Hrel Ho Hr Hn. pose proof Hrel as [_ Hs Hrd Hwr _ _ _ _]. pose proof (dq_member s d r Hrel) as Hm.
  apply (unlinked_outside _ deadline_heads); [done|unfold deadline_heads; rewrite !not_elem_of_cons; destruct Hn as [-> | ->]; repeat split; try done; apply not_elem_of_nil|].
  unfold deadline_heads. intros k xs. rewrite !elem_of_cons, elem_of_nil. intros [->|[->|[->|[]]]] Hv; simplify_eq;
    rewrite list_elem_of_fmap; intros (r' & E & Hr'); destruct Hn as [-> | ->]; simplify_eq; tauto.
Qed.

Lemma dq_rel_same s s' d : dq_rel s d -> same_sched s s' (dq_sorted d) -> dq_rel s' d.
Proof.
  intros Hrel Hs. pose proof Hrel as [Hwf Hso Hre Hwr Hp Hl Ho [Hor How]].
  assert (Hsub : forall r, r ∈ dq_reads d \/ r ∈ dq_writes d -> reqs s' !! r = reqs s !! r).
  { intros r Hr. apply Hs. rewrite Hp. by apply elem_of_app. }
  split; try (rewrite (ss_heads _ _ _ Hs) by done; done); try done.
  - apply Hs.
  - intros r Hr. rewrite (ss_reqs _ _ _ Hs) by done. by apply Hl.
  - apply (by_sector_same s); [|done]. intros r Hr. by apply Hs.
  - rewrite !Forall_forall in *. split; intros r Hr; rewrite Hsub by (by auto); auto.
Qed.

#[export] Instance deadline_contract prompt : IoContract prompt IOSCHED_DEADLINE (fun _ => True) deadline_pool.
Proof.
  split.
  - by intros s p [? _].
  - intros s Hn. split; [done|]. split.
    + intros k xs Hk _. cbn in Hk. revert Hk. by apply no_nodes_init, no_nodes_init, no_nodes_init.
    + exists (Dq [] [] []). split; [|done]. by apply dq_rel_init.
  - intros s p r n (Hc & Ho & d & Hrel & Hp) Hr Hn. rewrite Hp in Hr. split; [apply Hrel|]. by eapply deadline_idle.
  - intros s p r k xs (_ & Ho & _) Hk Hv. apply (Ho k); [done|]. unfold deadline_heads. rewrite !not_elem_of_cons.
    destruct Hk as [-> | ->]; repeat split; try done; apply not_elem_of_nil.
  - intros s s' p (Hc & Ho & d & Hrel & Hp) Hs. split; [by rewrite (ss_current _ _ _ Hs)|]. split; [by eapply only_lists_same|].
    exists d. split; [|done]. apply (dq_rel_same s); [done|]. destruct Hs. split; try done. intros r Hr. apply ss_reqs0. by rewrite Hp.
  - intros s p r x pid mem (Hc & Ho & d & Hrel & Hp) Hr Hx _. unfold iosched_add_request. rewrite Hc. rewrite Hp in Hr.
    destruct (deadline_add_effect s d r x Hrel Hx Hr) as (s' & l1 & l2 & -> & Hd & _ & _ & Hr' & Hc' & Hv & Hrel');
      [by eapply deadline_idle; [..|left]|by eapply deadline_idle; [..|right]|].
    exists s'. split; [done|]. split; [done|]. left. split; [by rewrite Hc'|]. split.
    + assert (Hin : r ∈ l1 ++ r :: l2) by (apply elem_of_app; right; left).
      assert (Hnone : list_view (links s') (QueueNode r) = None /\ list_view (links s') (FioNode r) = None).
      { split.
        - eapply (links_node _ (rel_wf _ _ Hrel')); [apply (rel_sorted _ _ Hrel')|]. apply list_elem_of_fmap_2. by destruct (op x =? BIO_OP_READ).
        - destruct (op x =? BIO_OP_READ).
          + eapply (links_node _ (rel_wf _ _ Hrel')); [apply (rel_reads _ _ Hrel')|]. apply list_elem_of_fmap_2, elem_of_app. right. left.
          + eapply (links_node _ (rel_wf _ _ Hrel')); [apply (rel_writes _ _ Hrel')|]. apply list_elem_of_fmap_2, elem_of_app. right. left. }
      apply (only_lists_frame (links s) _ _ [QueueNode r; FioNode r]); [done|..].
      * intros k Hk Hk2. rewrite !not_elem_of_cons in Hk2. destruct Hk2 as (? & ? & _). by apply Hv.
      * intros k. rewrite !elem_of_cons, elem_of_nil. intros [->|[->|[]]]; apply Hnone.
    + eexists. split; [exact Hrel'|]. rewrite Hp, Hd. destruct (op x =? BIO_OP_READ); cbn; by rewrite Permutation_middle.
  - intros s p now (Hc & Ho & d & Hrel & Hp). unfold iosched_dispatch. rewrite Hc.
    destruct (deadline_dispatch_effect jiffies_to_msecs s d now Hrel) as (s' & -> & Hd). exists s', (dq_choice jiffies_to_msecs s now d). split; [done|].
    destruct (dq_choice jiffies_to_msecs s now d) as [r|]; cbn [dispatched_as] in Hd.
    + destruct Hd as (Hr & Hrel' & _ & _ & Hreq & Hc' & Hv). split; [done|]. exists (filter (.≠ r) (dq_sorted d)). split.
      * rewrite Hp. destruct (dq_nodup s d Hrel) as [Hnd _]. apply list_elem_of_split in Hr as (l1 & l2 & E). rewrite E in Hnd |- *.
        rewrite filter_ne_middle by done. by rewrite Permutation_middle.
      * split; [by rewrite Hc'|]. split; [|by exists (dq_remove r d)].
        apply (only_lists_frame (links s) _ _ []); [done|intros; by apply Hv|by intros k ?%elem_of_nil].
    + destruct Hd as [-> Hd]. split; [done|]. rewrite Hd in Hp. split; [intros _; by apply Permutation_nil_r|]. split; [done|]. split; [done|].
      exists d. by rewrite Hd.
Qed.

(** ** cfq *)

Section cfq.
Variable prompt : bool.

(** A slice of which [n] bytes have been dispatched is over. *)
Definition used_up (n : Z) : Prop := prompt = true -> CFQ_DEFAULT_TIME_SLICE <= n.

(** Requests of at least a slice: each dispatch then ends the slice. *)
Definition cfq_admits (x : request) : Prop := prompt = true -> CFQ_DEFAULT_TIME_SLICE <= bytes x < 2 ^ 32.

Definition cfq_heads (ids : list nat) : list node := CfqQueues :: (CfqHead <$> ids).

(** The process queues [ids] with their requests. *)
Record cfq_rel s (ids : list nat) (rs : nat -> list nat) : Prop := {
  cq_current : current_iosched s = Some IOSCHED_CFQ;
  cq_slice : cfq_slice s = CFQ_DEFAULT_TIME_SLICE;
  cq_wf : links_wf (links s);
  cq_queues : list_view (links s) CfqQueues = Some (CfqNode <$> ids);
  cq_queue q : q ∈ ids -> is_Some (queues s !! q) /\ (q < next_queue s)%nat /\
    list_view (links s) (CfqHead q) = Some (QueueNode <$> rs q) /\ by_sector s (rs q);
  cq_live r : r ∈ ids ≫= rs -> exists x, reqs s !! r = Some x /\ cfq_admits x;
  cq_active q : active_queue s = Some q -> q ∈ ids /\ exists x, queues s !! q = Some x /\ used_up (dispatched x);
  cq_only : only_lists (links s) (cfq_heads ids)
}.

Definition cfq_pool s (p : list nat) : Prop := exists ids rs, cfq_rel s ids rs /\ p ≡ₚ ids ≫= rs.

Lemma cq_nodup s ids rs : cfq_rel s ids rs -> NoDup ids.
Proof. intros Hrel. pose proof (links_nodup _ (cq_wf _ _ _ Hrel) _ _ (cq_queues _ _ _ Hrel)) as Hnd. by apply NoDup_fmap_1 in Hnd. Qed.

Lemma elem_of_heads ids k : k ∈ cfq_heads ids <-> k = CfqQueues \/ exists q, k = CfqHead q /\ q ∈ ids.
Proof. unfold cfq_heads. by rewrite elem_of_cons, list_elem_of_fmap. Qed.

Lemma queue_not_head r ids : QueueNode r ∉ cfq_heads ids.
Proof. rewrite elem_of_heads. by intros [?|(q & ? & _)]. Qed.
Lemma node_not_head q ids : CfqNode q ∉ cfq_heads ids.
Proof. rewrite elem_of_heads. by intros [?|(q' & ? & _)]. Qed.

(** What is in the lists of the scheduler. *)
Lemma cq_contents s ids rs k xs n : cfq_rel s ids rs -> k ∈ cfq_heads ids -> list_view (links s) k = Some xs -> n ∈ xs ->
  (exists q, n = CfqNode q /\ q ∈ ids) \/ exists q r, n = QueueNode r /\ q ∈ ids /\ r ∈ rs q.
Proof.
  intros Hrel [->|(q & -> & Hq)]%elem_of_heads Hv Hn.
  - rewrite (cq_queues _ _ _ Hrel) in Hv. injection Hv as <-. apply list_elem_of_fmap in Hn as (q & -> & Hq). left. by exists q.
  - destruct (cq_queue _ _ _ Hrel q Hq) as (_ & _ & Hv' & _). rewrite Hv' in Hv. injection Hv as <-.
    apply list_elem_of_fmap in Hn as (r & -> & Hr). right. by exists q, r.
Qed.

Lemma cq_unlinked s ids rs n : cfq_rel s ids rs -> n ∉ cfq_heads ids -> (forall q, n = CfqNode q -> q ∉ ids) ->
  (forall r, n = QueueNode r -> r ∉ ids ≫= rs) -> unlinked n (links s).
Proof.
  intros Hrel Hn Hc Hq. apply (unlinked_outside _ (cfq_heads ids)); [apply Hrel|done|]. intros k xs Hk Hv Hin.
  destruct (cq_contents s ids rs k xs n Hrel Hk Hv Hin) as [(q & -> & Hi)|(q & r & -> & Hi & Hr)]; [by apply (Hc q)|].
  apply (Hq r eq_refl), list_elem_of_bind. by exists q.
Qed.

(** *** Adding *)

Lemma find_pid_spec s p ids : (forall q, q ∈ ids -> is_Some (queues s !! q)) ->
  exists o, find_pid s p (CfqNode <$> ids) = Ok o /\ match o with Some q => q ∈ ids | None => True end.
Proof.
  induction ids as [|q ids IH]; intros Hq; [by exists None|]. rewrite fmap_cons. cbn [find_pid cfq_entry mbind exec_bind].
  unfold get_queue. destruct (Hq q) as [x ->]; [left|]. cbn [mbind exec_bind]. destruct (pid x =? p); [exists (Some q); split; [done|left]|].
  destruct IH as (o & -> & Ho); [intros q' Hq'; apply Hq; by right|]. exists o. split; [done|]. destruct o; [by right|done].
Qed.

(** A queue for a new process. *)
Lemma cfq_new_queue s ids rs p : cfq_rel s ids rs ->
  let q := next_queue s in
  cfq_rel (Sched (reqs s) (next_req s) (list_add_tail (CfqNode q) CfqQueues (init_list_head (CfqHead q) (links s))) (read_deadline s) (write_deadline s)
     (<[q := CfqQueue p 0 0 100]> (queues s)) (S q) (active_queue s) (cfq_slice s) (current_iosched s)) (ids ++ [q]) (fun j => if decide (j = q) then [] else rs j).
Proof.
  intros Hrel q. pose proof Hrel as [Hcur Hsl Hwf Hqs Hq Hlive Hact Hon].
  assert (Hfresh : q ∉ ids) by (intros Hin; destruct (Hq q Hin) as (_ & Hlt & _); unfold q in Hlt; lia).
  assert (Hold : forall j, j ∈ ids -> (if decide (j = q) then [] else rs j) = rs j) by (intros j Hj; rewrite decide_False; [done|by intros ->]).
  set (l1 := init_list_head (CfqHead q) (links s)).
  assert (Huq : forall n, n = CfqHead q \/ n = CfqNode q -> unlinked n (links s)).
  { intros n Hn. apply (cq_unlinked s ids rs); [done| |by destruct Hn as [-> | ->]; intros ? [= <-]|by destruct Hn as [-> | ->]; intros ? [=]].
    destruct Hn as [-> | ->]; [|apply node_not_head]. rewrite elem_of_heads. intros [?|(q' & [= <-] & ?)]; done. }
  assert (Hv1 : forall k, list_view l1 k = if decide (k = CfqHead q) then Some [] else list_view (links s) k) by (intros k; apply view_init, (Huq (CfqHead q)); by left).
  assert (Hwf1 : links_wf l1) by (apply links_wf_init; [done|apply (Huq (CfqHead q)); by left]).
  assert (Hu1 : unlinked (CfqNode q) l1).
  { destruct (Huq (CfqNode q)) as [Hu1 Hu2]; [by right|]. split; [by rewrite Hv1, decide_False|]. intros k xs. rewrite Hv1.
    case_decide; [intros [= <-]; apply not_elem_of_nil|apply Hu2]. }
  assert (Hqs1 : list_view l1 CfqQueues = Some (CfqNode <$> ids)) by by rewrite Hv1, decide_False.
  pose proof (fun k => view_add_tail _ _ k _ _ Hwf1 Hu1 Hqs1 ltac:(done)) as Hv.
  split; cbn [current_iosched cfq_slice links queues next_queue reqs active_queue]; try done.
  - by eapply links_wf_add_tail.
  - by rewrite Hv, decide_False, decide_True, fmap_app.
  - intros j. rewrite elem_of_app, list_elem_of_singleton. intros [Hj| ->].
    + destruct (Hq j Hj) as (Hs & Hlt & Hview & Hord). assert (j <> q) by (by intros ->). rewrite lookup_insert_ne, Hold by done.
      split_and!; [done|fold q; unfold q; lia| |done]. rewrite Hv, !decide_False, Hv1, decide_False by congruence. done.
    + rewrite lookup_insert_eq, !decide_True by done. split_and!; [done|fold q; lia| |constructor].
      by rewrite Hv, !decide_False, Hv1, decide_True.
  - intros r. rewrite list_elem_of_bind. intros (j & Hr & Hj). apply Hlive, list_elem_of_bind. exists j. case_decide; [by apply elem_of_nil in Hr|].
    split; [done|]. apply elem_of_app in Hj as [?|?%list_elem_of_singleton]; done.
  - intros j Hj. destruct (Hact j Hj) as (Hin & x & Hx & Hd). split; [apply elem_of_app; by left|]. exists x.
    rewrite lookup_insert_ne by (by intros ->). done.
  - intros k xs. rewrite Hv. intros Hk Hn. rewrite elem_of_heads in Hn. case_decide; [done|]. case_decide; [exfalso; apply Hn; by left|].
    rewrite Hv1 in Hk. case_decide; [by injection Hk as <-|]. apply (Hon k); [done|]. rewrite elem_of_heads. intros [?|(j & -> & Hj)]; [done|].
    apply Hn. right. exists j. split; [done|]. apply elem_of_app. by left.
Qed.

(** The queue of a process, made when the process has none. *)
Lemma cfq_get_effect s ids rs p : cfq_rel s ids rs ->
  exists s' q ids' rs', cfq_get_queue s p true = Ok (s', Some q) /\ reqs s' = reqs s /\ cfq_rel s' ids' rs' /\ q ∈ ids' /\ ids' ≫= rs' = ids ≫= rs.
Proof.
  intros Hrel. unfold cfq_get_queue. rewrite (nodes_spec _ _ _ (cq_queues _ _ _ Hrel)).
  destruct (find_pid_spec s p ids) as (o & -> & Ho); [intros q Hq; by apply (cq_queue _ _ _ Hrel q Hq)|]. cbn [mbind exec_bind].
  destruct o as [q|]; [by exists s, q, ids, rs|]. eexists _, _, _, _. split; [done|]. split; [done|].
  split; [exact (cfq_new_queue s ids rs p Hrel)|]. split; [apply elem_of_app; right; by apply list_elem_of_singleton|].
  rewrite bind_app, bind_cons, decide_True by done. cbn. rewrite app_nil_r.
  assert (Hlt : forall q, q ∈ ids -> q <> next_queue s) by (intros q Hq ->; destruct (cq_queue _ _ _ Hrel _ Hq) as (_ & ? & _); lia).
  clear -Hlt. induction ids as [|q ids IH]; [done|]. rewrite !bind_cons, IH by (intros q' Hq'; apply Hlt; by right).
  rewrite decide_False; [done|]. apply Hlt. left.
Qed.

(** A failed allocation matters only to a process without a queue. *)
Lemma cfq_get_mem s p mem : cfq_get_queue s p mem = cfq_get_queue s p true \/ mem = false /\ cfq_get_queue s p mem = Ok (s, None).
Proof. unfold cfq_get_queue. destruct (find_pid _ _ _) as [[q|]|]; [by left| |by left]. destruct mem; [by left|by right]. Qed.

(** One queue changes. *)
Definition set_at (q : nat) (l : list nat) (rs : nat -> list nat) : nat -> list nat := fun j => if decide (j = q) then l else rs j.

Lemma set_at_eq q l rs : set_at q l rs q = l.
Proof. unfold set_at. by rewrite decide_True. Qed.
Lemma set_at_ne q l rs j : j <> q -> set_at q l rs j = rs j.
Proof. intros. unfold set_at. by rewrite decide_False. Qed.

Lemma set_at_perm ids q l rs : NoDup ids -> q ∈ ids -> exists rest, ids ≫= rs ≡ₚ rs q ++ rest /\ ids ≫= set_at q l rs ≡ₚ l ++ rest.
Proof.
  intros Hnd Hq. apply list_elem_of_split in Hq as (l1 & l2 & ->). apply list.NoDup_app in Hnd as (_ & Hdis & Hnd). apply list.NoDup_cons in Hnd as [Hq2 _].
  assert (Hsame : forall k, q ∉ k -> k ≫= set_at q l rs = k ≫= rs).
  { induction k as [|j k IH]; intros Hk; [done|]. apply not_elem_of_cons in Hk as [Hj Hk]. rewrite !bind_cons, IH by done. by rewrite set_at_ne. }
  assert (Hq1 : q ∉ l1) by (intros Hin; apply (Hdis q Hin); left).
  exists ((l1 ≫= rs) ++ (l2 ≫= rs)). rewrite !bind_app, !bind_cons, !Hsame, set_at_eq by done. rewrite !app_assoc.
  by rewrite (Permutation_app_comm (rs q)), (Permutation_app_comm l).
Qed.

(** The relation after one queue, and the links and counters of it, changed. *)
Lemma cfq_rel_update s s' ids rs q l : cfq_rel s ids rs -> q ∈ ids -> reqs s' = reqs s -> current_iosched s' = current_iosched s ->
  cfq_slice s' = cfq_slice s -> next_queue s' = next_queue s -> links_wf (links s') ->
  (forall k, k <> CfqHead q -> (forall r, k <> QueueNode r) -> list_view (links s') k = list_view (links s) k) ->
  list_view (links s') (CfqHead q) = Some (QueueNode <$> l) -> (forall r xs, list_view (links s') (QueueNode r) = Some xs -> xs = []) ->
  (forall j, is_Some (queues s !! j) -> is_Some (queues s' !! j)) -> by_sector s l ->
  (forall r, r ∈ l -> exists x, reqs s !! r = Some x /\ cfq_admits x) ->
  (forall j, active_queue s' = Some j -> j ∈ ids /\ exists x, queues s' !! j = Some x /\ used_up (dispatched x)) ->
  cfq_rel s' ids (set_at q l rs).
Proof.
  intros Hrel Hq Hr Hc Hsl Hn Hwf Hv Hl Hqn Hqs Hord Hadm Hact. pose proof Hrel as [Hcur Hslice _ Hcq Hqu Hlive _ Hon].
  split; [by rewrite Hc|by rewrite Hsl|done|by rewrite Hv|..|done|].
  - intros j Hj. destruct (Hqu j Hj) as (Hs & Hlt & Hview & Hby). split; [by apply Hqs|]. split; [by rewrite Hn|].
    assert (Hsec : forall k, by_sector s k -> by_sector s' k) by (intros k; unfold by_sector, sector_of; by rewrite Hr).
    destruct (decide (j = q)) as [->|Hne]; [rewrite set_at_eq; by split; [|apply Hsec]|]. rewrite set_at_ne by done.
    split; [|by apply Hsec]. rewrite Hv by congruence. done.
  - intros r (j & Hrj & Hj)%list_elem_of_bind. rewrite Hr. destruct (decide (j = q)) as [->|Hne]; [rewrite set_at_eq in Hrj; by apply Hadm|].
    rewrite set_at_ne in Hrj by done. apply Hlive, list_elem_of_bind. by exists j.
  - intros k xs Hk Hnk. assert (k <> CfqHead q) by (intros ->; apply Hnk, elem_of_heads; right; by exists q).
    destruct k; first [by apply (Hqn _ _ Hk)|rewrite Hv in Hk by done; by eapply Hon].
Qed.

Lemma cfq_insert s ids rs q r x : cfq_rel s ids rs -> q ∈ ids -> r ∉ ids ≫= rs -> reqs s !! r = Some x -> cfq_admits x ->
  exists s' l, insert_sorted s (CfqHead q) r (sector x) = Ok s' /\ reqs s' = reqs s /\ cfq_rel s' ids (set_at q l rs) /\ l ≡ₚ r :: rs q.
Proof.
  intros Hrel Hq Hr Hx Hax. pose proof Hrel as [_ _ Hwf _ Hqu Hlive Hact _]. destruct (Hqu q Hq) as (_ & _ & Hv & Hord).
  assert (Hlq : forall p, p ∈ rs q -> exists x, reqs s !! p = Some x /\ cfq_admits x) by (intros p Hp; apply Hlive, list_elem_of_bind; by exists q).
  assert (Hu : unlinked (QueueNode r) (links s)).
  { apply (cq_unlinked s ids rs); [done|apply queue_not_head|by intros ? [=]|by intros ? [= <-]]. }
  destruct (insert_sorted_spec s (CfqHead q) r (sector x) (rs q)) as (l1 & l2 & l & E & H1 & H2 & -> & Hwf' & Hv'); try done.
  { intros p Hp. destruct (Hlq p Hp) as (y & -> & _). done. }
  assert (Hsec : sector_of s r = sector x) by (unfold sector_of; by rewrite Hx).
  exists (set_links l s), (l1 ++ r :: l2). split; [done|]. split; [done|]. split; [|by rewrite E, Permutation_middle].
  apply (cfq_rel_update s); try done; cbn [links set_links].
  - intros k Hk Hkq. by rewrite Hv', !decide_False.
  - by rewrite Hv', decide_False, decide_True.
  - intros p xs. rewrite Hv'. repeat case_decide; [done|done|]. intros Hp. apply (cq_only _ _ _ Hrel (QueueNode p)); [done|]. apply queue_not_head.
  - rewrite E in Hord. apply by_sector_insert; [done|by rewrite Hsec..].
  - intros p Hp. destruct (decide (p = r)) as [->|Hne]; [by exists x|]. apply Hlq. rewrite E. apply elem_of_app. apply elem_of_app in Hp as [?|Hp]; [by left|].
    apply elem_of_cons in Hp as [?|?]; [done|by right].
Qed.

(** *** Dispatching *)

Lemma find_busy_spec s ids rs : (forall q, q ∈ ids -> list_view (links s) (CfqHead q) = Some (QueueNode <$> rs q)) ->
  (find_busy s (CfqNode <$> ids) = Ok None /\ ids ≫= rs = []) \/
  exists q r l, find_busy s (CfqNode <$> ids) = Ok (Some q) /\ q ∈ ids /\ rs q = r :: l.
Proof.
  induction ids as [|q ids IH]; intros Hq; [by left|]. rewrite fmap_cons. cbn [find_busy cfq_entry mbind exec_bind].
  rewrite (empty_spec _ _ _ (Hq q ltac:(left))). rewrite bind_cons. destruct (rs q) as [|r l] eqn:E; cbn [fmap list_fmap negb app].
  - destruct IH as [IH|(q' & r & l & H1 & H2 & H3)]; [intros j Hj; apply Hq; by right|by left|]. right. exists q', r, l. split; [done|]. split; [by right|done].
  - right. exists q, r, l. split; [done|]. split; [left|done].
Qed.

(** The switch ends at a queue with requests if there is one; a slice that is
    not used up keeps its queue. *)
Lemma cfq_select_spec s ids rs : cfq_rel s ids rs ->
  (cfq_select s = Ok s /\ ids ≫= rs = []) \/
  (exists q r l x, cfq_select s = Ok (set_cfq (<[q := CfqQueue (pid x) 0 (last_jiffies x) (weight x)]> (queues s)) (Some q) s) /\
    q ∈ ids /\ rs q = r :: l /\ queues s !! q = Some x) \/
  (cfq_select s = Ok s /\ prompt = false /\ exists q, active_queue s = Some q /\ q ∈ ids).
Proof.
  intros Hrel. pose proof Hrel as [_ Hsl _ Hqs Hq _ Hact _]. unfold cfq_select. set (over := match active_queue s with None => _ | Some _ => _ end).
  assert (Hover : over = Ok true \/ over = Ok false /\ prompt = false /\ exists q, active_queue s = Some q /\ q ∈ ids).
  { unfold over. clear over. destruct (active_queue s) as [q|]; [|by left]. destruct (Hact q eq_refl) as (Hin & x & Hx & Hd). unfold get_queue. rewrite Hx, Hsl.
    cbn [mbind exec_bind]. destruct (Z.leb_spec CFQ_DEFAULT_TIME_SLICE (dispatched x)); [by left|right]. split; [done|]. split; [|by exists q].
    unfold used_up in Hd. destruct prompt; [|done]. specialize (Hd eq_refl). lia. }
  destruct Hover as [->|(-> & Hp & Ha)]; cbn [mbind exec_bind]; [|by right; right]. rewrite (nodes_spec _ _ _ Hqs).
  destruct (find_busy_spec s ids rs) as [[-> Hnil]|(q & r & l & -> & Hin & Hrs)]; [intros q Hin; by apply (Hq q Hin)|by left|].
  right. left. destruct (Hq q Hin) as ([x Hx] & _). exists q, r, l, x. cbn [mbind exec_bind]. unfold get_queue. rewrite Hx. done.
Qed.

(** Taking the first request of the queue selected. *)
Lemma cfq_take s ids rs now q r l qs x : cfq_rel s ids rs -> cfq_select s = Ok (set_cfq qs (Some q) s) -> q ∈ ids -> rs q = r :: l ->
  qs !! q = Some x -> (prompt = true -> dispatched x = 0) -> (forall j, is_Some (queues s !! j) -> is_Some (qs !! j)) ->
  exists s', cfq_dispatch s now = Ok (s', Some r) /\ reqs s' = reqs s /\ cfq_rel s' ids (set_at q l rs).
Proof.
  intros Hrel Hsel Hq Hrs Hx H0 Hqs. pose proof Hrel as [_ Hsl Hwf _ Hqu Hlive Hact _]. unfold cfq_dispatch. rewrite Hsel. cbn [mbind exec_bind].
  destruct (Hqu q Hq) as (_ & _ & Hv & Hord). rewrite Hrs, fmap_cons in Hv. cbn [active_queue set_cfq links].
  rewrite (empty_spec _ _ _ Hv), (next_spec _ _ _ _ Hv). cbn [entry mbind exec_bind].
  destruct (Hlive r) as (y & Hy & Hay); [apply list_elem_of_bind; exists q; rewrite Hrs; split; [left|done]|].
  unfold get_req, get_queue. cbn [reqs set_cfq queues]. rewrite Hy, Hx. cbn [mbind exec_bind pid weight].
  eexists. split; [done|]. split; [done|]. pose proof (fun k => view_del (QueueNode r) _ k _ _ Hwf Hv ltac:(left)) as Hv'.
  apply (cfq_rel_update s); try done; cbn [links set_links set_cfq queues active_queue].
  - eapply links_wf_del; [done..|left].
  - intros k Hk _. by rewrite Hv', decide_False.
  - rewrite Hv', decide_True by done. by rewrite (filter_ne_middle (QueueNode r) [] _ (links_nodup _ Hwf _ _ Hv)).
  - intros p xs. rewrite Hv', decide_False by done. intros Hp. apply (cq_only _ _ _ Hrel (QueueNode p)); [done|]. apply queue_not_head.
  - intros j Hj. destruct (decide (q = j)) as [->|]; [rewrite lookup_insert_eq; by eexists|]. rewrite lookup_insert_ne by done. by apply Hqs.
  - rewrite Hrs in Hord. by inversion Hord.
  - intros p Hp. apply Hlive, list_elem_of_bind. exists q. rewrite Hrs. split; [by right|done].
  - intros j [= <-]. split; [done|]. rewrite lookup_insert_eq. eexists. split; [done|]. cbn [dispatched]. intros E. specialize (Hay E).
    rewrite (H0 E), wrapu_small; unfold CFQ_DEFAULT_TIME_SLICE in *; lia.
Qed.

Lemma cfq_dispatch_effect s ids rs now : cfq_rel s ids rs ->
  exists s' o, cfq_dispatch s now = Ok (s', o) /\ reqs s' = reqs s /\
    match o with
    | None => (prompt = true -> ids ≫= rs = []) /\ s' = s
    | Some r => exists q l, q ∈ ids /\ rs q = r :: l /\ cfq_rel s' ids (set_at q l rs)
    end.
Proof.
  intros Hrel. pose proof Hrel as [_ _ _ _ Hqu _ Hact _].
  assert (Hnone : forall q, active_queue s = Some q -> q ∈ ids -> rs q = [] -> cfq_select s = Ok s -> cfq_dispatch s now = Ok (s, None)).
  { intros q Ha Hq E Hsel. unfold cfq_dispatch. rewrite Hsel. cbn [mbind exec_bind]. rewrite Ha.
    destruct (Hqu q Hq) as (_ & _ & Hv & _). rewrite E in Hv. by rewrite (empty_spec _ _ _ Hv). }
  destruct (cfq_select_spec s ids rs Hrel) as [[Hsel Hnil]|[(q & r & l & x & Hsel & Hq & Hrs & Hx)|(Hsel & Hp & q & Ha & Hq)]].
  - exists s, None. split; [|done]. destruct (active_queue s) as [q|] eqn:Ha; [|unfold cfq_dispatch; rewrite Hsel; cbn [mbind exec_bind]; by rewrite Ha].
    destruct (Hact q eq_refl) as [Hin _]. apply (Hnone q eq_refl Hin); [|done]. destruct (rs q) as [|r l] eqn:E; [done|].
    assert (Hr : r ∈ ids ≫= rs) by (apply list_elem_of_bind; exists q; rewrite E; split; [left|done]).
    rewrite Hnil in Hr. by apply elem_of_nil in Hr.
  - destruct (cfq_take s ids rs now q r l _ _ Hrel Hsel Hq Hrs (lookup_insert_eq _ _ _)) as (s' & E & Hr & Hrel'); [done|..].
    + intros j Hj. destruct (decide (q = j)) as [->|]; [rewrite lookup_insert_eq; by eexists|by rewrite lookup_insert_ne].
    + exists s', (Some r). split; [done|]. split; [done|]. by exists q, l.
  - destruct (rs q) as [|r l] eqn:Hrs; [exists s, None; rewrite Hp; by split; [by apply (Hnone q)|]|].
    destruct (Hact q Ha) as (_ & x & Hx & _). destruct (cfq_take s ids rs now q r l (queues s) x Hrel) as (s' & E & Hr & Hrel'); try done.
    + rewrite Hsel. f_equal. destruct s. cbn in *. by rewrite Ha.
    + by rewrite Hp.
    + exists s', (Some r). split; [done|]. split; [done|]. by exists q, l.
Qed.

Lemma cfq_rel_same s s' ids rs : cfq_rel s ids rs -> same_sched s s' (ids ≫= rs) -> cfq_rel s' ids rs.
Proof.
  intros [Hcur Hsl Hwf Hqs Hq Hlive Hact Hon] Hs. pose proof Hs as [Sc Ss Sq Sn Sa Sr Sw Sh Sx].
  split; [by rewrite Sc|by rewrite Ss|done|by rewrite Sh|..].
  - intros q Hin. destruct (Hq q Hin) as (H1 & H2 & H3 & H4). rewrite Sq, Sn, Sh by done. split_and!; try done.
    apply (by_sector_same s); [|done]. intros r Hr. apply Sr, list_elem_of_bind. by exists q.
  - intros r Hr. rewrite Sr by done. by apply Hlive.
  - rewrite Sa, Sq. exact Hact.
  - by eapply only_lists_same.
Qed.

#[export] Instance cfq_contract : IoContract prompt IOSCHED_CFQ cfq_admits cfq_pool.
Proof.
  split.
  - intros s p (ids & rs & Hrel & _). by apply Hrel.
  - intros s Hn. exists [], (fun _ => []). split; [|done].
    pose proof (no_nodes_init CfqQueues _ (no_nodes_init (DispatchHead IOSCHED_CFQ) _ Hn)) as Hn'.
    split; try done; try (by intros ? ?%elem_of_nil).
    + by apply no_nodes_wf.
    + cbn. rewrite view_init by (by apply no_nodes_off, no_nodes_init). by rewrite decide_True.
    + intros k xs Hk _. by apply (Hn' k).
  - intros s p r n (ids & rs & Hrel & Hp) Hr Hn. split; [apply Hrel|]. rewrite Hp in Hr. apply (cq_unlinked s ids rs); [done|..].
    + rewrite elem_of_heads. destruct Hn as [-> | ->]; by intros [?|(q & ? & _)].
    + by destruct Hn as [-> | ->].
    + intros r'. destruct Hn as [-> | ->]; by intros [= <-].
  - intros s p r k xs (ids & rs & Hrel & _) Hk Hv. apply (cq_only _ _ _ Hrel k); [done|]. rewrite elem_of_heads.
    destruct Hk as [-> | ->]; by intros [?|(q & ? & _)].
  - intros s s' p (ids & rs & Hrel & Hp) Hs. exists ids, rs. split; [|done]. apply (cfq_rel_same s); [done|].
    destruct Hs. split; try done. intros r Hr. apply ss_reqs0. by rewrite Hp.
  - intros s p r x pid mem (ids & rs & Hrel & Hp) Hr Hx Hax. unfold iosched_add_request. rewrite (cq_current _ _ _ Hrel).
    destruct (cfq_get_mem s pid mem) as [Hmem|[-> Hmem]]; [|exists s; unfold cfq_add_request; rewrite Hmem; split; [done|]; split; [done|]; right; split; [done|]; by exists ids, rs].
    destruct (cfq_get_effect s ids rs pid Hrel) as (s1 & q & ids1 & rs1 & Hs1 & Hr1 & Hrel1 & Hq & Hb).
    unfold cfq_add_request. rewrite Hmem, Hs1. cbn [mbind exec_bind].
    unfold get_req. rewrite Hr1, Hx. cbn [mbind exec_bind].
    destruct (cfq_insert s1 ids1 rs1 q r x Hrel1 Hq) as (s2 & l & -> & Hr2 & Hrel2 & Hl); [by rewrite Hb, <- Hp|by rewrite Hr1|done|].
    exists s2. split; [done|]. split; [by rewrite Hr2|]. left. exists ids1, (set_at q l rs1). split; [done|].
    destruct (set_at_perm ids1 q l rs1 (cq_nodup _ _ _ Hrel1) Hq) as (rest & H1 & H2). rewrite Hp, <- Hb, H1, H2, Hl. done.
  - intros s p now (ids & rs & Hrel & Hp). unfold iosched_dispatch. rewrite (cq_current _ _ _ Hrel).
    destruct (cfq_dispatch_effect s ids rs now.1 Hrel) as (s' & o & -> & Hr & Ho). exists s', o. split; [done|]. split; [done|].
    destruct o as [r|].
    + destruct Ho as (q & l & Hq & Hrs & Hrel'). destruct (set_at_perm ids q l rs (cq_nodup _ _ _ Hrel) Hq) as (rest & H1 & H2).
      exists (l ++ rest). split; [by rewrite Hp, H1, Hrs|]. exists ids, (set_at q l rs). by split.
    + destruct Ho as [Hnil ->]. split; [|by exists ids, rs]. intros Hprompt. rewrite (Hnil Hprompt) in Hp. by apply Permutation_nil_r.
Qed.
End cfq.

(** ** Any scheduler *)

(** The [name] fields, which [io_sched_set] compares with. *)
Definition sched_name (a : algorithm) : string :=
  match a with IOSCHED_NONE => "noop" | IOSCHED_DEADLINE => "deadline" | IOSCHED_CFQ => "cfq" end%string.

Definition suits (prompt : bool) (a : algorithm) (x : request) : Prop := match a with IOSCHED_CFQ => cfq_admits prompt x | _ => True end.

Lemma iosched_contract prompt a : exists pool, IoContract prompt a (suits prompt a) pool.
Proof. destruct a; eexists; [apply noop_contract|apply deadline_contract|apply cfq_contract]. Qed.

(** As many dispatches as there are pending requests empty the pool. *)
Lemma pool_drains a ts : forall p outs p' k, pool_run true a p (Dispatch <$> ts) outs p' k -> (length p <= length ts)%nat -> p' = [] /\ p ≡ₚ omap id outs.
Proof.
  induction ts as [|t ts IH]; intros p outs p' k Hrun Hlen; cbn in Hrun.
  - inversion Hrun; subst. by destruct p'; [|cbn in Hlen; lia].
  - inversion Hrun as [| | |? r ? p1 ? outs1 ? ? Hp Hrun1|? ? ? outs1 ? ? Hnil Hrun1]; subst; cbn in Hlen |- *.
    + apply Permutation_length in Hp as Hl. cbn in Hl. destruct (IH _ _ _ _ Hrun1) as [-> H1]; [lia|]. split; [done|]. by rewrite Hp, H1.
    + rewrite (Hnil eq_refl) in *. apply (IH _ _ _ _ Hrun1). cbn. lia.
Qed.

(** C5: whichever scheduler is chosen, from any store in which nothing is
    linked, calls of [iosched_add_request] (distinct requests, with and without
    memory for a queue) and [iosched_dispatch] in any order and at any times run
    without a crash and behave as a pool: a dispatch returns a pending request
    or nothing, and every request added has been returned once, is still pending
    or was lost; lost are only requests added when [kmalloc] fails, and only by
    cfq.  If [prompt] is
    asked for, which restricts the requests to at least a slice for cfq and not
    at all for the others, a dispatch returns nothing only when none is pending,
    and as many further dispatches as there are pending requests return exactly
    these. *)
Theorem iosched_pool_refines prompt s a ops :
  no_nodes (links s) -> NoDup (added ops) -> (forall r, r ∈ added ops -> exists x, reqs s !! r = Some x /\ suits prompt a x) ->
  exists s' outs p lost, io_run (io_sched_set s (sched_name a)).1 ops = Ok (s', outs) /\ pool_run prompt a [] ops outs p lost /\
    added ops ≡ₚ omap id outs ++ p ++ lost /\ lost `sublist_of` short ops /\ (a <> IOSCHED_CFQ -> lost = []) /\
    (prompt = true -> forall ts, (length p <= length ts)%nat -> exists s'' outs', io_run s' (Dispatch <$> ts) = Ok (s'', outs') /\ p ≡ₚ omap id outs').
Proof.
  intros Hs Hnd Hsuit. destruct (iosched_contract prompt a) as [pool Hc]. pose proof (pool_init s Hs) as Hp.
  assert (Hset : (io_sched_set s (sched_name a)).1 = init_fn a (set_current (Some a) s)) by (by destruct a).
  assert (Hr : reqs (init_fn a (set_current (Some a) s)) = reqs s) by (by destruct a).
  destruct (io_run_refines prompt a (suits prompt a) pool ops _ [] Hp Hnd) as (s' & outs & p & k & E & Hrun & Hp').
  { intros r Hin. rewrite Hr. by apply Hsuit. }
  rewrite Hset. exists s', outs, p, k. split; [done|]. split; [done|].
  pose proof (pool_conserves _ _ _ _ _ _ _ Hrun) as Hperm. destruct (pool_lost _ _ _ _ _ _ _ Hrun) as [Hk1 Hk2]. do 3 (split; [done|]).
  assert (Hadd : forall ts, added (Dispatch <$> ts) = []) by (by induction ts). intros ->.
  intros ts Hlen. destruct (io_run_refines true a (suits true a) pool (Dispatch <$> ts) s' p Hp') as (s2 & outs2 & p2 & k2 & E2 & Hrun2 & _).
  - rewrite Hadd, app_nil_r. cbn in Hperm. rewrite Hperm in Hnd. by apply list.NoDup_app in Hnd as (_ & _ & (? & _)%list.NoDup_app).
  - intros r. rewrite Hadd. by intros ?%elem_of_nil.
  - exists s2, outs2. split; [done|]. by apply (pool_drains a ts _ _ _ _ Hrun2).
Qed.

(** The bound on cfq requests is needed: once the active queue is empty before
    its slice is used up, every dispatch returns nothing, at any time and
    whatever the other processes have pending. *)
Theorem cfq_stalls s q x ts :
  current_iosched s = Some IOSCHED_CFQ -> active_queue s = Some q -> queues s !! q = Some x -> dispatched x < cfq_slice s ->
  list_view (links s) (CfqHead q) = Some [] -> io_run s (Dispatch <$> ts) = Ok (s, replicate (length ts) None).
Proof.
  intros Hc Ha Hx Hd Hv. induction ts as [|t ts IH]; [done|]. rewrite fmap_cons. cbn [io_run io_step]. unfold iosched_dispatch. rewrite Hc.
  assert (E : cfq_dispatch s t.1 = Ok (s, None)).
  { unfold cfq_dispatch, cfq_select. rewrite Ha. unfold get_queue. rewrite Hx. cbn [mbind exec_bind]. rewrite (proj2 (Z.leb_gt _ _) Hd).
    cbn [mbind exec_bind]. rewrite Ha. by rewrite (empty_spec _ _ _ Hv). }
  rewrite E. cbn [mbind exec_bind]. rewrite IH. done.
Qed.

End contract.

(** ** Witnesses *)

(** Three allocated requests. *)
Definition three_reqs : sched (@store node) :=
  Sched {[ 0%nat := Request 64 8 4096 BIO_OP_READ 0 100 1; 1%nat := Request 8 8 4096 BIO_OP_WRITE 0 100 1;
           2%nat := Request 16 8 4096 BIO_OP_WRITE 0 100 1 ]} 3 (fun _ => None) 0 0 ∅ 0 None 0 None.

(** The third request is the first of its process, and finds no memory. *)
Definition pool_calls : list io_op :=
  [Add 0 10 true; Dispatch (200, 201); Add 1 20 true; Add 2 30 false; Dispatch (300, 300); Dispatch (400, 401)].

Lemma iosched_pool_refines_witness :
  exists s' outs p lost, io_run (fun j => j) (io_sched_set three_reqs "cfq").1 pool_calls = Ok (s', outs) /\
    outs = [Some 0; Some 1; None]%nat /\ [0; 1; 2]%nat ≡ₚ omap id outs ++ p ++ lost /\ lost `sublist_of` [2%nat].
Proof.
  destruct (iosched_pool_refines (fun j => j) true three_reqs IOSCHED_CFQ pool_calls)
    as (s' & outs & p & lost & E & _ & Hperm & Hk & _).
  - intros k xs [=].
  - cbn. repeat (apply list.NoDup_cons; split; [rewrite ?not_elem_of_cons; repeat split; try done; apply not_elem_of_nil|]). constructor.
  - cbn. intros r [->|[->|[->|?%elem_of_nil]%elem_of_cons]%elem_of_cons]%elem_of_cons; [..|done]; eexists; (split; [reflexivity|]); unfold suits, cfq_admits, CFQ_DEFAULT_TIME_SLICE; cbn; lia.
  - exists s', outs, p, lost. split; [exact E|]. assert (Houts : outs = [Some 0; Some 1; None]%nat) by (vm_compute in E; congruence).
    subst outs. split; [done|]. split; [exact Hperm|exact Hk].
Defined.

(** A process whose only request is smaller than the slice stops the others. *)
Definition small_reqs : sched (@store node) :=
  Sched {[ 0%nat := Request 64 0 64 BIO_OP_READ 0 100 1; 1%nat := Request 8 8 4096 BIO_OP_WRITE 0 100 1 ]} 2 (fun _ => None) 0 0 ∅ 0 None 0 None.

Lemma cfq_stalls_witness :
  exists s', io_run (fun j => j) (io_sched_set small_reqs "cfq").1 [Add 0 10 true; Add 1 20 true; Dispatch (200, 200)] = Ok (s', [Some 0%nat]) /\
    io_run (fun j => j) s' (Dispatch <$> [(300, 300); (400, 401); (500, 500)]) = Ok (s', [None; None; None]) /\ list_view (links s') (CfqHead 1) = Some [QueueNode 1].
Proof.
  eexists. split; [vm_compute; reflexivity|]. split; [|reflexivity]. eapply (cfq_stalls (fun j => j) _ 0%nat); reflexivity.
Defined.
