(* ===== verification/WbLive.v ===== *)
(** * When [fsync_inode] returns ([demos/writeback/wb_sim.c])

    [WbThreads] shows what an [fsync_inode] has done when it returns.  Here it
    is shown when it returns: the pass over the list takes at most five actions
    for each page listed at the call or marked while it runs ([counted] counts
    the actions and the marks of an interleaving), but the waiting loop that
    follows does not write anything.  A page that is marked behind the pass
    therefore keeps the caller waiting until some other thread writes the inode
    back; without one it waits for ever. *)
From Stdlib Require Import ZArith Lia.
From stdpp Require Import base numbers list option gmap relations.
From S2P Require Import Prelude ListHead Writeback WbThreads.

Open Scope Z_scope.

(** Running alone for [n] and then for [m] actions. *)
Lemma solo_app {L} `{!ListHead wnode L} `{!ListCursor wnode L} n m (s : wb L) i sync c s' c' :
  solo n s (Thread i sync c) = Ok (s', c') -> solo (n + m) s (Thread i sync c) = solo m s' (Thread i sync c').
Proof.
  revert s c. induction n as [|n IH]; intros s c; cbn [solo Nat.add t_inode t_sync]; [by intros [= -> ->]|].
  destruct (tstep s (Thread i sync c)) as [[s1 c1]|]; cbn [mbind exec_bind]; [|done]. apply IH.
Qed.

(** The actions of an [fsync_inode] before it has returned or waits. *)
Definition working (c : pc) : bool := match c with FsWait | Finished => false | _ => true end.

(** Interleavings with the number of working actions of threads and of marks. *)
Inductive counted {L} `{!ListHead wnode L} `{!ListCursor wnode L} (PAGE_SIZE : Z) (inos : list nat) :
    nat -> nat -> wb L * list thread -> wb L * list thread -> Prop :=
  | counted_nil a : counted PAGE_SIZE inos 0 0 a a
  | counted_thread n m s ts k t s' pc' b : ts !! k = Some t -> tstep s t = Ok (s', pc') ->
      counted PAGE_SIZE inos n m (s', <[k := Thread (t_inode t) (t_sync t) pc']> ts) b ->
      counted PAGE_SIZE inos (if working (t_pc t) then S n else n) m (s, ts) b
  | counted_store n m s ts p x v b : pages s !! p = Some x -> counted PAGE_SIZE inos n m (store_data s p x v, ts) b ->
      counted PAGE_SIZE inos n m (s, ts) b
  | counted_mark n m s ts p i s' b : i ∈ inos -> mark_page_dirty PAGE_SIZE s p i = Ok s' ->
      counted PAGE_SIZE inos n m (s', ts) b -> counted PAGE_SIZE inos n (S m) (s, ts) b.

(** They are all interleavings. *)
Lemma counted_all {L} `{!ListHead wnode L} `{!ListCursor wnode L} PAGE_SIZE inos (a b : wb L * list thread) :
  rtc (cstep PAGE_SIZE inos) a b <-> exists n m, counted PAGE_SIZE inos n m a b.
Proof.
  split.
  - induction 1 as [a|a a' b Hs _ (n & m & IH)]; [eexists _, _; constructor|]. destruct Hs; eexists _, _; by econstructor.
  - intros (n & m & H). induction H; [constructor|..]; (eapply rtc_l; [|done]); by econstructor.
Qed.

Section live.
Context {L : Type} `{!ListHead wnode L} `{!ListLaws wnode L} `{!ListCursor wnode L}.
Variable PAGE_SIZE : Z.
Variable inos : list nat.
Implicit Types (s : wb L) (d : nat -> list nat).

Section inode.
Variables (i : nat) (start : list nat) (k : nat).
Hypothesis Hi : i ∈ inos.
Local Abbreviation writer := (one_writer inos i start k).

(** The number of listed pages, as the inode counts them. *)
Definition count_of s : nat := match inodes s !! i with Some st => Z.to_nat (nr_dirty st) | None => 0 end.

Lemma count_of_list s c d pend : writer s c d pend -> count_of s = length (d i).
Proof.
  intros How. destruct (inv_state _ _ _ (ow_inv _ _ _ _ _ _ _ _ How) i Hi) as (st & Hst & Hn).
  assert (Hs : inodes (settle c s) = inodes s) by by destruct c. rewrite Hs in Hst. unfold count_of. rewrite Hst, Hn. lia.
Qed.

(** Actions left until the waiting loop, at most. *)
Definition rank (c : pc) (n : nat) : nat :=
  match c with
  | FsBegin => 5 * n + 3 | FsCheck => 5 * n + 2 | WbStart => 5 * n + 1
  | WbWrite1 _ _ => 5 * n + 5 | WbSynced _ _ => 5 * n + 4 | WbClear _ _ => 5 * n + 3 | WbCount _ => 5 * n + 2 | WbNext _ => 5 * n + 1
  | FsWait | Finished => 0
  end%nat.

Lemma count_same s s' : inodes s' = inodes s -> count_of s' = count_of s.
Proof. unfold count_of. by intros ->. Qed.

(** The end of the loop keeps the counter; a page taken is counted off. *)
Lemma loop_test_rank s pos n s' c' : loop_test s i true pos n = Ok (s', c') -> is_Some (inodes s !! i) ->
  (pos <> DirtyPages i -> (0 < count_of s)%nat) -> (forall st, inodes s !! i = Some st -> 0 <= nr_dirty st < 2 ^ 32) ->
  (rank c' (count_of s') < 5 * count_of s + 1)%nat.
Proof.
  intros Ht [st Hst] Hpos Hb. specialize (Hb st Hst). unfold loop_test in Ht. destruct (decide (pos = DirtyPages i)) as [->|Hne].
  - unfold get_state in Ht. rewrite Hst in Ht. cbn [mbind exec_bind] in Ht. injection Ht as <- <-. cbn. lia.
  - specialize (Hpos Hne). destruct (dp_entry pos) as [p|]; [|done]. cbn [mbind exec_bind] in Ht. unfold wb_take, get_dp, get_state in Ht.
    destruct (dps s !! p); [|done]. rewrite Hst in Ht. cbn [mbind exec_bind] in Ht. injection Ht as <- <-.
    unfold count_of in *. cbn [inodes rank]. rewrite Hst in *. rewrite lookup_insert_eq. cbn [nr_dirty set_nr].
    rewrite wrapu_small by lia. lia.
Qed.

Lemma writer_counter s c d pend : writer s c d pend -> exists st, inodes s !! i = Some st /\ nr_dirty st = Z.of_nat (length (d i)) /\ 0 <= nr_dirty st < 2 ^ 32.
Proof.
  intros How. pose proof (ow_inv _ _ _ _ _ _ _ _ How) as Hinv. destruct (inv_state _ _ _ Hinv i Hi) as (st & Hst & Hn).
  assert (Hs : inodes (settle c s) = inodes s) by by destruct c. rewrite Hs in Hst. exists st. split; [done|]. split; [done|].
  pose proof (total_ge inos d i Hi). pose proof (inv_small _ _ _ Hinv). lia.
Qed.

Lemma rank_decreases s c d pend s' c' : writer s c d pend -> tstep s (Thread i true c) = Ok (s', c') -> c <> FsWait -> c <> Finished ->
  (rank c' (count_of s') < rank c (count_of s))%nat.
Proof.
  intros How Ht Hw Hf. destruct (writer_counter s c d pend How) as (st & Hst & Hn & Hb). pose proof (count_of_list s c d pend How) as Hc.
  pose proof How as [Hinv _ _ _ _ Hcur _ _ _]. unfold tstep in Ht. cbn [t_inode t_pc t_sync] in Ht.
  destruct c; try done; unfold get_state in Ht; rewrite ?Hst in Ht; cbn [mbind exec_bind] in Ht.
  - injection Ht as <- <-. unfold count_of. cbn. rewrite Hst, lookup_insert_eq. cbn. lia.
  - injection Ht as <- <-. destruct (0 <? nr_dirty st); cbn; lia.
  - set (s1 := put_state i (set_progress true st) s) in *.
    assert (Hst1 : inodes s1 !! i = Some (set_progress true st)) by (cbn; by rewrite lookup_insert_eq).
    assert (Hc1 : count_of s1 = count_of s) by (unfold count_of; by rewrite Hst1, Hst).
    cbn [settle] in Hinv. rewrite (succ_head _ _ _ (inv_view _ _ _ Hinv i Hi : list_view (wb_links s1) _ = _)) in Ht.
    apply loop_test_rank in Ht; [cbn [rank]; lia|by rewrite Hst1| |rewrite Hst1; by intros ? [= <-]].
    rewrite Hc1, Hc. destruct (d i); cbn; [done|lia].
  - destruct (wb_device s i p) as [s1|] eqn:E; [|done]. cbn [mbind exec_bind] in Ht. injection Ht as <- <-.
    rewrite (count_same s s1); [cbn; lia|]. revert E. unfold wb_device, get_dp, get_page. destruct (dps s !! p), (pages s !! p); try done. by intros [= <-].
  - destruct (mark_synced s p) as [s1|] eqn:E; [|done]. cbn [mbind exec_bind] in Ht. injection Ht as <- <-.
    rewrite (count_same s s1); [cbn; lia|]. revert E. unfold mark_synced, get_dp. destruct (dps s !! p); [|done]. by intros [= <-].
  - destruct (clear_dirty s p) as [s1|] eqn:E; [|done]. cbn [mbind exec_bind] in Ht. injection Ht as <- <-.
    rewrite (count_same s s1); [cbn; lia|]. revert E. unfold clear_dirty, get_page. destruct (pages s !! p); [|done]. by intros [= <-].
  - injection Ht as <- <-. rewrite (count_same s (count_down s)) by done. cbn. lia.
  - apply loop_test_rank in Ht; [cbn [rank]; lia|by rewrite Hst| |rewrite Hst; by intros ? [= <-]].
    intros Hne. destruct (Hcur n eq_refl) as [(q & l & -> & Hd)|[-> _]]; [|done]. rewrite Hc, Hd. cbn. lia.
Qed.

(** Outside the pass the flag [writeback_in_progress] is off. *)
Definition passing (c : pc) : bool :=
  match c with FsBegin | FsCheck | WbStart | FsWait | Finished => false | _ => true end.
Definition idle_flag s (c : pc) : Prop := passing c = false -> writeback_in_progress <$> inodes s !! i = Some false.

Lemma idle_step s c s' c' : idle_flag s c -> tstep s (Thread i true c) = Ok (s', c') -> idle_flag s' c'.
Proof.
  unfold idle_flag. intros Hf Ht Hp'. unfold tstep in Ht. cbn [t_inode t_pc t_sync] in Ht. unfold get_state in Ht.
  assert (Hloop : forall s0 pos n, loop_test s0 i true pos n = Ok (s', c') -> writeback_in_progress <$> inodes s' !! i = Some false).
  { intros s0 pos n E. unfold loop_test in E. destruct (decide (pos = DirtyPages i)).
    - unfold get_state in E. destruct (inodes s0 !! i); [|done]. cbn [mbind exec_bind] in E. injection E as <- <-. cbn. by rewrite lookup_insert_eq.
    - destruct (dp_entry pos) as [p|]; [|done]. cbn [mbind exec_bind] in E. destruct (wb_take s0 i p); [|done]. cbn [mbind exec_bind] in E. by injection E as <- <-. }
  destruct c; cbn [passing] in Hf.
  - destruct (inodes s !! i) as [st|]; [|done]. injection Ht as <- <-. cbn. rewrite lookup_insert_eq. cbn. specialize (Hf eq_refl). cbn in Hf. congruence.
  - destruct (inodes s !! i) as [st|] eqn:E; [|done]. injection Ht as <- <-. rewrite E. by apply Hf.
  - destruct (inodes s !! i) as [st|]; [|done]. cbn [mbind exec_bind] in Ht. by eapply Hloop.
  - destruct (wb_device s i p); [|done]. by injection Ht as <- <-.
  - destruct (mark_synced s p); [|done]. by injection Ht as <- <-.
  - destruct (clear_dirty s p); [|done]. by injection Ht as <- <-.
  - by injection Ht as <- <-.
  - by eapply Hloop.
  - destruct (inodes s !! i) as [st|] eqn:E; [|done]. injection Ht as <- <-. rewrite E. by apply Hf.
  - injection Ht as <- <-. by apply Hf.
Qed.

Lemma idle_mark s s' c p j : idle_flag s c -> mark_page_dirty PAGE_SIZE s p j = Ok s' -> idle_flag s' c.
Proof.
  unfold idle_flag, mark_page_dirty, get_state, get_page, get_dp. intros Hf Hm Hp. specialize (Hf Hp).
  destruct (inodes s !! j) as [st|] eqn:E; [|done]. cbn [mbind exec_bind] in Hm. destruct (pages s !! p) as [x|]; [|done]. cbn [mbind exec_bind] in Hm.
  destruct (p_dirty x); [by injection Hm as <-|]. destruct (dps s !! p); [|done]. cbn [mbind exec_bind] in Hm. injection Hm as <-. cbn [inodes].
  destruct (decide (i = j)) as [->|Hne]; [|by rewrite lookup_insert_ne]. rewrite E in Hf. rewrite lookup_insert_eq. exact Hf.
Qed.

(** Scheduled alone, the thread comes to the waiting loop. *)
Lemma reaches_wait m : forall s c d pend, writer s c d pend -> idle_flag s c -> (rank c (count_of s) <= m)%nat ->
  exists n s' c' d' pend', (n <= m)%nat /\ solo n s (Thread i true c) = Ok (s', c') /\ (c' = FsWait \/ c' = Finished) /\
    writer s' c' d' pend' /\ idle_flag s' c'.
Proof.
  induction m as [|m IH]; intros s c d pend How Hf Hm.
  - exists 0%nat, s, c, d, pend. split; [lia|]. split; [done|]. split; [|done]. destruct c; cbn in Hm; try lia; auto.
  - destruct (decide (c = FsWait \/ c = Finished)) as [Hc|Hc]; [exists 0%nat, s, c, d, pend; by split_and!; [lia|..]|].
    destruct (writer_step _ i true start k Hi s c d pend How) as (s1 & c1 & d1 & pend1 & Ht & How1).
    pose proof (rank_decreases s c d pend s1 c1 How Ht ltac:(naive_solver) ltac:(naive_solver)).
    destruct (IH s1 c1 d1 pend1 How1) as (n & s2 & c2 & d2 & pend2 & Hn & Hs & Hrest); [by eapply idle_step|lia|].
    exists (S n), s2, c2, d2, pend2. split; [lia|]. split; [|done]. cbn [solo t_inode t_sync]. rewrite Ht. done.
Qed.

(** A listed page keeps the thread in the waiting loop, whatever others do. *)
Lemma wait_for_ever s d pend s' ts : writer s FsWait d pend -> d i <> [] ->
  rtc (cstep PAGE_SIZE inos) (s, [Thread i true FsWait]) (s', ts) -> ts = [Thread i true FsWait].
Proof.
  intros How Hd Hr. remember (s, [Thread i true FsWait]) as a eqn:Ha. remember (s', ts) as b eqn:Hb. revert s d pend How Hd Ha.
  induction Hr as [a|a b' b'' Hstep Hr IH]; intros s d pend How Hd Ha; [subst a; by injection Ha as -> ->|].
  subst a. inversion Hstep as [s1 ts1 j t s2 pc' Ht Hts E1 E2|s1 ts1 p x v Hx E1 E2|s1 ts1 p j s2 Hj Hm E1 E2]; subst.
  - apply list_lookup_singleton_Some in Ht as [-> <-]. destruct (writer_counter s FsWait d pend How) as (st & Hst & Hn & _).
    cbn in Hts. unfold get_state in Hts. rewrite Hst in Hts. cbn [mbind exec_bind] in Hts.
    assert (E : (nr_dirty st =? 0) = false) by (apply Z.eqb_neq; destruct (d i); cbn in *; [done|lia]). rewrite E in Hts. injection Hts as <- <-.
    by eapply IH.
  - pose proof (store_step inos i start k s FsWait d pend p x v How Hx) as How'. by eapply IH.
  - destruct (mark_step PAGE_SIZE inos i start k s s2 FsWait d pend p j How Hj Hm) as (d' & extra & How' & Hd'). eapply IH; [done|exact How'| |done].
    rewrite Hd'. by destruct (d i).
Qed.

(** The thread in the waiting loop. *)
Lemma wait_outcome s d pend : writer s FsWait d pend -> idle_flag s FsWait ->
  d i = [] /\ tstep s (Thread i true FsWait) = Ok (s, Finished) \/
  d i <> [] /\ forall s' ts, rtc (cstep PAGE_SIZE inos) (s, [Thread i true FsWait]) (s', ts) -> ts = [Thread i true FsWait].
Proof.
  intros How Hf. destruct (d i) as [|p l] eqn:Hd; [left|right; split; [done|]; intros s' ts; apply (wait_for_ever s d pend); [done|by rewrite Hd]].
  split; [done|]. destruct (writer_counter s FsWait d pend How) as (st & Hst & Hn & _). specialize (Hf eq_refl). rewrite Hst in Hf. cbn in Hf.
  cbn. unfold get_state. rewrite Hst. cbn [mbind exec_bind]. rewrite Hn, Hd. injection Hf as ->. done.
Qed.

(** A mark lists at most one page more. *)
Lemma mark_count s s' c d pend p j : writer s c d pend -> mark_page_dirty PAGE_SIZE s p j = Ok s' -> (count_of s' <= S (count_of s))%nat.
Proof.
  intros How Hm. destruct (writer_counter s c d pend How) as (st & Hst & _ & Hb). revert Hm.
  unfold mark_page_dirty, get_state, get_page, get_dp. destruct (inodes s !! j) as [stj|] eqn:E; [|done]. cbn [mbind exec_bind].
  destruct (pages s !! p) as [x|]; [|done]. cbn [mbind exec_bind]. destruct (p_dirty x); [intros [= <-]; lia|].
  destruct (dps s !! p); [|done]. cbn [mbind exec_bind]. intros [= <-]. unfold count_of. cbn [inodes]. destruct (decide (j = i)) as [->|Hne].
  - rewrite Hst in E. injection E as <-. rewrite lookup_insert_eq, Hst. cbn [nr_dirty set_nr].
    pose proof (Z.mod_le (nr_dirty st + 1) (2 ^ 32)). unfold wrapu in *. lia.
  - rewrite lookup_insert_ne by done. lia.
Qed.

Lemma rank_step c n n' : (n' <= S n)%nat -> (rank c n' <= rank c n + 5)%nat.
Proof. intros. destruct c; cbn [rank]; lia. Qed.

Lemma rank_rest c n : working c = false -> rank c n = 0%nat.
Proof. by destruct c. Qed.

(** Along every interleaving: the rank bounds the actions, five for each mark. *)
Lemma counted_reachable n m s0 c0 d0 pend0 s ts : writer s0 c0 d0 pend0 -> idle_flag s0 c0 ->
  counted PAGE_SIZE inos n m (s0, [Thread i true c0]) (s, ts) ->
  exists c d pend, ts = [Thread i true c] /\ writer s c d pend /\ idle_flag s c /\
    (n + rank c (count_of s) <= rank c0 (count_of s0) + 5 * m)%nat.
Proof.
  intros H0 Hf0. remember (s0, [Thread i true c0]) as a eqn:Ha. remember (s, ts) as b eqn:Hb. intros Hr. revert s0 c0 d0 pend0 H0 Hf0 Ha.
  induction Hr as [a|n m s1 ts1 j t s2 pc' b Ht Hts Hr IH|n m s1 ts1 p x v b Hx Hr IH|n m s1 ts1 p j s2 b Hj Hm Hr IH];
    intros s0 c0 d0 pend0 H0 Hf0 Ha; [subst a; injection Ha as -> ->; exists c0, d0, pend0; by split_and!; [..|lia]|injection Ha as -> ->..]; specialize (IH Hb).
  - apply list_lookup_singleton_Some in Ht as [-> <-]. cbn [t_pc]. destruct (writer_step _ i true start k Hi s0 c0 d0 pend0 H0) as (s3 & c3 & d3 & pend3 & Hst & How).
    rewrite Hst in Hts. injection Hts as <- <-. destruct (IH _ _ _ _ How (idle_step _ _ _ _ Hf0 Hst) eq_refl) as (c & d & pend & -> & Hw & Hf & Hle).
    exists c, d, pend. split_and!; [done..|]. destruct (working c0) eqn:Hc.
    + pose proof (rank_decreases s0 c0 d0 pend0 s3 c3 H0 Hst ltac:(by intros ->) ltac:(by intros ->)). lia.
    + assert (rank c3 (count_of s3) = 0)%nat as E; [|lia]. apply rank_rest. destruct c0; try done; cbn in Hst.
      * unfold get_state in Hst. destruct (inodes s0 !! i) as [st|]; [|done]. cbn [mbind exec_bind] in Hst. injection Hst as _ <-. by destruct (_ && _).
      * by injection Hst as _ <-.
  - destruct (IH _ _ _ _ (store_step _ i _ _ _ _ _ _ _ _ _ H0 Hx) Hf0 eq_refl) as (c & d & pend & -> & Hw & Hf & Hle).
    exists c, d, pend. split_and!; [done..|]. rewrite (count_same s0 (store_data s0 p x v)) in Hle by done. lia.
  - destruct (mark_step PAGE_SIZE inos i start k s0 s2 c0 d0 pend0 p j H0 Hj Hm) as (d' & extra & How & _).
    destruct (IH _ _ _ _ How (idle_mark _ _ _ _ _ Hf0 Hm) eq_refl) as (c & d & pend & -> & Hw & Hf & Hle). exists c, d, pend. split_and!; [done..|].
    pose proof (rank_step c0 _ _ (mark_count s0 s2 c0 d0 pend0 p j H0 Hm)). lia.
Qed.
End inode.

(** C21: in every interleaving of an [fsync_inode] with stores and marks by
    others, the caller takes at most five actions for each page listed at the
    call or marked since, and three more, before it has returned or waits.  At
    every moment, if it is scheduled alone from there it takes at most five
    actions for each listed page, and six more, and then either has returned or
    is in the waiting loop with a dirty page listed; from there it does not
    return, whatever stores and marks follow: only a writeback by another thread
    frees it. *)
Theorem fsync_returns_or_hangs n m s0 d0 i s ts : i ∈ inos -> wb_inv inos s0 d0 -> Z.of_nat (size (pages s0)) < 2 ^ 32 ->
  writeback_in_progress <$> inodes s0 !! i = Some false ->
  counted PAGE_SIZE inos n m (s0, [Thread i true FsBegin]) (s, ts) ->
  (n <= 5 * (count_of i s0 + m) + 3)%nat /\
  exists c n' s' c', ts = [Thread i true c] /\ (n' <= 5 * count_of i s + 6)%nat /\ solo n' s (Thread i true c) = Ok (s', c') /\
    (c' = Finished \/
     c' = FsWait /\ (exists p l, list_view (wb_links s') (DirtyPages i) = Some (DirtyNode p :: l)) /\
     forall s'' ts', rtc (cstep PAGE_SIZE inos) (s', [Thread i true FsWait]) (s'', ts') -> ts' = [Thread i true FsWait]).
Proof.
  intros Hi Hinv Hsz Hflag Hr. pose proof (one_writer_begin inos s0 d0 i Hi Hinv Hsz) as Hbegin.
  destruct (counted_reachable i _ _ Hi n m s0 FsBegin d0 (d0 i) s ts Hbegin (fun _ => Hflag) Hr) as (c & d & pend & -> & How & Hf & Hle).
  split; [cbn [rank] in Hle; lia|]. clear n Hr Hle.
  destruct (reaches_wait i _ _ Hi (5 * count_of i s + 5) s c d pend How Hf) as (n & s' & c' & d' & pend' & Hn & Hs & Hc & How' & Hf').
  { destruct c; cbn; lia. }
  destruct Hc as [-> | ->]; [|exists c, n, s', Finished; split_and!; [done|lia|done|by left]].
  destruct (wait_outcome i _ _ Hi s' d' pend' How' Hf') as [[Hd Hfin]|[Hd Hever]].
  - exists c, (n + 1)%nat, s', Finished. split; [done|]. split; [lia|]. split; [|by left]. rewrite (solo_app n 1 s i true c s' FsWait Hs).
    cbn [solo]. rewrite Hfin. done.
  - exists c, n, s', FsWait. split; [done|]. split; [lia|]. split; [done|]. right. split; [done|]. split; [|done].
    pose proof (inv_view _ _ _ (ow_inv _ _ _ _ _ _ _ _ How') i Hi) as Hv. cbn [settle] in Hv. destruct (d' i) as [|p l]; [done|].
    exists p, (DirtyNode <$> l). exact Hv.
Qed.
End live.

(** ** Concrete executions *)

(** The page marked while the last one is written: the call hangs with it. *)
Definition marked_behind : exec (wb (@store wnode) * pc) :=
  '(s, c) ← solo 4 demo_wb (Thread 0 true FsBegin);
  s ← mark_page_dirty 4096 s 1 0;
  solo 4 s (Thread 0 true c).

Lemma fsync_hangs_run : exists s, marked_behind = Ok (s, FsWait) /\ list_view (wb_links s) (DirtyPages 0) = Some [DirtyNode 1] /\
  rtc (cstep 4096 [0%nat]) (demo_wb, [Thread 0 true FsBegin]) (s, [Thread 0 true FsWait]).
Proof.
  eexists. split; [vm_compute; reflexivity|]. split; [reflexivity|].
  eassert (Hrun : solo 4 demo_wb (Thread 0 true FsBegin) = Ok (_, _)) by (vm_compute; reflexivity).
  apply (solo_reaches 4096 [0%nat]) in Hrun. etrans; [exact Hrun|].
  eapply rtc_l; [eapply (step_mark 4096 [0%nat] _ _ 1 0); [by apply list_elem_of_singleton|vm_compute; reflexivity]|].
  eapply (solo_reaches 4096 [0%nat] 4). vm_compute. reflexivity.
Qed.

Lemma fsync_returns_or_hangs_witness : exists s, marked_behind = Ok (s, FsWait) /\
  forall s' ts, rtc (cstep 4096 [0%nat]) (s, [Thread 0 true FsWait]) (s', ts) -> ts = [Thread 0 true FsWait].
Proof.
  destruct fsync_hangs_run as (s & Hs & Hv & Hr). exists s. split; [exact Hs|].
  apply counted_all in Hr as (n0 & m0 & Hr).
  destruct (fsync_returns_or_hangs 4096 [0%nat] n0 m0 demo_wb demo_dirty 0 s [Thread 0 true FsWait]) as (_ & c & n & s1 & c1 & [= <-] & _ & Hsolo & Hor);
    [by apply list_elem_of_singleton|exact demo_wb_inv|by vm_compute|reflexivity|exact Hr|].
  assert (Hstay : forall n, solo n s (Thread 0 true FsWait) = Ok (s, FsWait)).
  { vm_compute in Hs. injection Hs as <-. clear. induction n as [|n IH]; [reflexivity|exact IH]. }
  rewrite Hstay in Hsolo. injection Hsolo as <- <-. destruct Hor as [Hor|(_ & _ & Hor)]; [discriminate|exact Hor].
Defined.
