(* ===== verification/LvmSystem.v ===== *)
(** * The volume manager as a system ([demos/lvm/lvm.c])

    [Lvm] and [LvmVolume] treat the operations one by one.  Here any sequence
    of them runs on one volume group: creating and adding physical volumes,
    creating and extending logical volumes, taking snapshots and writing to
    them.  The invariant gives every logical volume the extents it owns; no
    extent has two owners, so no two sectors of any two volumes share a place
    on a disk. *)
From Stdlib Require Import ZArith Lia String.
From stdpp Require Import base numbers list option gmap relations.
From S2P Require Import Prelude Bitmap Lvm LvmVolume LvmDemo.

Open Scope Z_scope.

(** ** Calls *)

(** Pointers are those earlier calls returned; [moves] is the choice of
    [realloc]. *)
Inductive lvm_call :=
  | PvCreate (name : string) (size : Z)
  | VgAddPv (q : nat)
  | LvCreate (name : string) (count : Z)
  | LvExtend (moves : bool) (lp : nat) (additional : Z)
  | LvCreateSnapshot (name : string) (op : nat) (cow_count : Z)
  | SnapshotWrite (sp : nat) (lv_sector : Z).

Definition lvm_do (w : world) (g : vg) (c : lvm_call) : exec (world * vg) :=
  match c with
  | PvCreate name size => p ← pv_create name size; Ok ((new_pv w p).1, g)
  | VgAddPv q => '(g', _) ← vg_add_pv (w_pvs w) g q; Ok (w, g')
  | LvCreate name count => '(w', g', _) ← lv_create w g name count; Ok (w', g')
  | LvExtend moves lp n => '(w', g', _) ← lv_extend w moves lp g n; Ok (w', g')
  | LvCreateSnapshot name op n => '(w', g', _) ← lv_create_snapshot w g name op n; Ok (w', g')
  | SnapshotWrite sp s => w' ← snapshot_write w sp s; Ok (w', g)
  end.

(** What the caller has to respect: disks of at most 1 TiB (the [int] product of
    [lv_map_sector]), a disk is added once, a new volume fits in the group,
    counts are not negative and keep to [int], only ordinary volumes are
    extended, and a snapshot is written inside its size. *)
Definition allowed (w : world) (g : vg) (c : lvm_call) : Prop :=
  match c with
  | PvCreate _ size => 0 <= size <= 2 ^ 20 * PE_SIZE_SECTORS
  | VgAddPv q => is_Some (w_pvs w !! q) /\ q ∉ vg_pvs g
  | LvCreate _ count => 0 <= count <= vg_free_pe g
  | LvExtend _ lp n => 0 <= n /\ exists l, w_lvs w !! lp = Some l /\ origin l = None /\ le_count l + n < 2 ^ 31
  | LvCreateSnapshot _ op n => 0 < n /\ is_Some (w_lvs w !! op)
  | SnapshotWrite sp s => exists l, w_lvs w !! sp = Some l /\ 0 <= s < le_count l * PE_SIZE_SECTORS
  end.

Inductive lvm_step : world * vg -> world * vg -> Prop :=
  | lvm_step_call w g c w' g' : allowed w g c -> lvm_do w g c = Ok (w', g') -> lvm_step (w, g) (w', g').

(** ** What allocation leaves alone *)

(** Volumes outside the group are untouched, no volume changes its size. *)
Record same_frame (h : gmap nat pv) (g : vg) (h' : gmap nat pv) (g' : vg) : Prop := {
  sf_outside q : q ∉ vg_pvs g -> h' !! q = h !! q;
  sf_sizes q : pe_count <$> h' !! q = pe_count <$> h !! q;
  sf_pvs : vg_pvs g' = vg_pvs g;
  sf_total : vg_total_pe g' = vg_total_pe g
}.

Lemma same_frame_trans h g h1 g1 h2 g2 : same_frame h g h1 g1 -> same_frame h1 g1 h2 g2 -> same_frame h g h2 g2.
Proof.
  intros [A1 A2 A3 A4] [B1 B2 B3 B4]. split; [|intros q; by rewrite B2, A2|by rewrite B3, A3|by rewrite B4, A4].
  intros q Hq. rewrite B1 by by rewrite A3. by apply A1.
Qed.

Lemma vg_alloc_loop_frame pvs : forall h i n h' r, vg_alloc_loop h pvs i n = Ok (h', r) ->
  (forall q, q ∉ pvs -> h' !! q = h !! q) /\ forall q, pe_count <$> h' !! q = pe_count <$> h !! q.
Proof.
  induction pvs as [|q pvs IH]; intros h i n h' r; cbn; [by intros [= <- <-]|]. destruct (h !! q) as [p|] eqn:Hq; [|done].
  assert (Hrest : vg_alloc_loop h pvs (i + 1) n = Ok (h', r) ->
    (forall j, j ∉ q :: pvs -> h' !! j = h !! j) /\ forall j, pe_count <$> h' !! j = pe_count <$> h !! j).
  { intros Hl. destruct (IH _ _ _ _ _ Hl) as [H1 H2]. split; [|done]. intros j [_ Hj]%not_elem_of_cons. by apply H1. }
  destruct (n <=? pv_free_pe p); [|exact Hrest]. destruct (pv_alloc p n) as [[p' o]|] eqn:Hp; [|done]. cbn [mbind exec_bind].
  destruct o as [s|]; [|exact Hrest]. intros [= <- <-]. assert (Hc : pe_count p' = pe_count p).
  { unfold pv_alloc in Hp. destruct (pv_scan _ _ _ _ _ _) as [[found start]|]; [|done]. cbn [mbind exec_bind] in Hp.
    destruct (found <? n); [done|]. destruct (bm_range _ _ _ _); [|done]. cbn [mbind exec_bind] in Hp. by injection Hp as <- _. }
  split.
  - intros j [Hj _]%not_elem_of_cons. by rewrite lookup_insert_ne by done.
  - intros j. destruct (decide (j = q)) as [->|]; [by rewrite lookup_insert_eq, Hq; cbn; rewrite Hc|by rewrite lookup_insert_ne by done].
Qed.

Lemma vg_alloc_frame h g n h' g' r : vg_alloc_pe h g n = Ok (h', g', r) -> same_frame h g h' g'.
Proof.
  unfold vg_alloc_pe. destruct (vg_alloc_loop h (vg_pvs g) 0 n) as [[h1 o]|] eqn:E; [|done]. cbn [mbind exec_bind].
  destruct (vg_alloc_loop_frame _ _ _ _ _ _ E) as [H1 H2]. destruct o; by intros [= <- <- <-].
Qed.

Lemma le_fill_frame n : forall idx h g m h' g' m' ok, le_fill n idx h g m = Ok (h', g', m', ok) -> same_frame h g h' g'.
Proof.
  induction n as [|n IH]; intros idx h g m h' g' m' ok; cbn; [by intros [= <- <- <- <-]|].
  destruct (vg_alloc_pe h g 1) as [[[h1 g1] o]|] eqn:E; [|done]. cbn [mbind exec_bind]. apply vg_alloc_frame in E as Hf.
  destruct o as [[i s]|]; [|by intros [= <- <- <- <-]]. destruct (arr_set m idx (Some (Le i s))) as [m1|]; [|done]. cbn [mbind exec_bind].
  intros Hl. eapply same_frame_trans; [done|]. by eapply IH.
Qed.

(** The extents [L] were free and are allocated now. *)
Record taken (h : gmap nat pv) (g : vg) (h' : gmap nat pv) (g' : vg) (L : list (Z * Z)) : Prop := {
  tk_wf : vg_wf h' g';
  tk_free : vg_free_pe g' = vg_free_pe g - Z.of_nat (length L);
  tk_nodup : NoDup L;
  tk_new e : e ∈ L -> pe_valid h g e /\ pe_used h g e = false;
  tk_valid e : pe_valid h' g' e <-> pe_valid h g e;
  tk_used e : 0 <= e.2 -> pe_used h' g' e = bool_decide (e ∈ L) || pe_used h g e;
  tk_frame : same_frame h g h' g'
}.

Lemma taken_fill n idx h g m h' g' m' ok L : fill_post n idx h g m (h', g', m', ok) L -> le_fill n idx h g m = Ok (h', g', m', ok) ->
  taken h g h' g' L.
Proof. intros (H1 & H2 & _ & H4 & H5 & H6 & H7 & _) Hf. split; try done. by eapply le_fill_frame. Qed.

(** A run of extents of one member. *)
Lemma elem_of_run (i s n : Z) e : e ∈ pair i <$> seqZ s n <-> e.1 = i /\ s <= e.2 < s + n.
Proof.
  rewrite list_elem_of_fmap. destruct e as [i' j]. cbn. split.
  - by intros (k & [= -> ->] & Hk%elem_of_seqZ).
  - intros [-> Hj]. exists j. split; [done|]. by apply elem_of_seqZ.
Qed.

Lemma taken_run h g n h' g' i s : 0 < n -> vg_alloc_post h g n (h', g', Some (i, s)) -> vg_alloc_pe h g n = Ok (h', g', Some (i, s)) ->
  taken h g h' g' (pair i <$> seqZ s n).
Proof.
  intros Hn (Hwf & _ & Hfr & (p & p' & Hp & Hrun & Hm & Hat) & _) Halloc.
  destruct Hrun as (Hs & Hend & Hrun), Hm as (Hcnt & _ & _ & _ & Hbit). split; [done| | | | | |by eapply vg_alloc_frame].
  - rewrite length_fmap, length_seqZ. lia.
  - apply NoDup_fmap_2; [by intros a b [= ->]|]. apply NoDup_seqZ.
  - intros [i' j] [Ei Hj]%elem_of_run. cbn [fst snd] in *. subst i'. split; [exists p; split; [done|cbn; lia]|]. unfold pe_used. cbn. rewrite Hp. by apply Hrun.
  - intros [i' j]. unfold pe_valid. cbn. rewrite Hat. destruct (Z.eqb_spec i' i) as [->|]; [|done]. rewrite Hp.
    split; intros (? & [= <-] & ?); eexists; (split; [done|lia]).
  - intros [i' j] Hj. unfold pe_used. cbn in *. rewrite Hat. destruct (Z.eqb_spec i' i) as [->|Hne].
    + rewrite Hp, Hbit by done. f_equal. rewrite (bool_decide_ext _ _ (elem_of_run i s n (i, j))). cbn.
      destruct (Z.leb_spec s j), (Z.ltb_spec j (s + n)); symmetry; first [apply bool_decide_eq_true_2|apply bool_decide_eq_false_2]; lia.
    + rewrite bool_decide_eq_false_2; [done|]. by intros [? _]%elem_of_run.
Qed.

(** ** Storage: who owns which extents *)

Definition give (own : nat -> list (Z * Z)) (lp : nat) (L : list (Z * Z)) : nat -> list (Z * Z) :=
  fun j => if decide (j = lp) then own j ++ L else own j.

Lemma give_eq own lp L : give own lp L lp = own lp ++ L.
Proof. unfold give. by rewrite decide_True. Qed.
Lemma give_ne own lp L j : j <> lp -> give own lp L j = own j.
Proof. intros. unfold give. by rewrite decide_False. Qed.
Lemma elem_of_give own lp L j e : e ∈ give own lp L j <-> e ∈ own j \/ j = lp /\ e ∈ L.
Proof. unfold give. case_decide; [rewrite elem_of_app|]; tauto. Qed.

(** [b] is the next fresh address, [own] the extents of each volume. *)
Record storage (h : gmap nat pv) (b : nat) (g : vg) (own : nat -> list (Z * Z)) : Prop := {
  so_vg : vg_wf h g;
  so_pvs q p : h !! q = Some p -> (q < b)%nat /\ pv_wf p /\ pe_count p <= 2 ^ 20;
  so_cap : vg_total_pe g <= 2 ^ 20 * pv_count g;
  so_free : vg_free_pe g <= vg_total_pe g;
  so_own lp e : e ∈ own lp -> pe_valid h g e /\ pe_used h g e = true;
  so_nodup lp : NoDup (own lp);
  so_disjoint lp lp' e : e ∈ own lp -> e ∈ own lp' -> lp = lp';
  so_fresh lp : (b <= lp)%nat -> own lp = []
}.

Lemma pe_valid_nonneg h g e : pe_valid h g e -> 0 <= e.2.
Proof. intros (p & _ & ?). lia. Qed.

(** Extents of the group are below 2^20. *)
Lemma so_small h b g own lp e : storage h b g own -> e ∈ own lp -> 0 <= e.2 < 2 ^ 20.
Proof.
  intros Hs He. destruct (so_own _ _ _ _ Hs lp e He) as [(p & Hp & Hb) _]. apply pv_at_lookup in Hp as (_ & q & _ & Hq).
  destruct (so_pvs _ _ _ _ Hs q p Hq) as (_ & _ & ?). lia.
Qed.

(** Allocated extents; a volume gets those of them in [K], the others are lost. *)
Lemma storage_take h b g own h' b' g' lp L K : storage h b g own -> taken h g h' g' L -> (lp < b')%nat -> (b <= b')%nat -> K = L \/ K = [] ->
  storage h' b' g' (give own lp K).
Proof.
  intros [Hvg Hpvs Hcap Hfree Hown Hnd Hdis Hfresh] [Twf Tfree Tnd Tnew Tval Tused [Fout Fsz Fpvs Ftot]] Hlp Hb HK.
  assert (Hsub : forall e, e ∈ K -> e ∈ L) by (destruct HK as [-> | ->]; [done|by intros e ?%elem_of_nil]).
  assert (HndK : NoDup K) by (destruct HK as [-> | ->]; [done|constructor]).
  assert (Hunused : forall j e, e ∈ own j -> e ∉ K).
  { intros j e Hj HL. destruct (Hown j e Hj) as [_ Hu], (Tnew e (Hsub e HL)) as [_ Hu']. congruence. }
  split; [done|..].
  - intros q p Hq. specialize (Fsz q) as Hc. rewrite Hq in Hc. cbn in Hc. destruct (h !! q) as [p0|] eqn:Hq0; [|done]. injection Hc as Hc.
    destruct (Hpvs q p0 Hq0) as (Hlt & Hwf0 & Hsz). split; [lia|]. split; [|lia]. destruct (decide (q ∈ vg_pvs g)) as [Hin|Hin].
    + destruct Twf as (_ & _ & Hall & _). rewrite Fpvs in Hall. destruct (Hall q Hin) as (p1 & Hp1 & ?). congruence.
    + rewrite Fout in Hq by done. congruence.
  - unfold pv_count in *. by rewrite Ftot, Fpvs.
  - rewrite Ftot. lia.
  - intros j e He. apply elem_of_give in He as [He|[-> He]].
    + destruct (Hown j e He) as [Hv Hu]. split; [by apply Tval|]. rewrite Tused by by eapply pe_valid_nonneg. rewrite Hu. by apply orb_true_r.
    + destruct (Tnew e (Hsub e He)) as [Hv _]. split; [by apply Tval|]. rewrite Tused by by eapply pe_valid_nonneg. rewrite bool_decide_eq_true_2; [done|by apply Hsub].
  - intros j. destruct (decide (j = lp)) as [->|Hne]; [rewrite give_eq|by rewrite give_ne]. apply list.NoDup_app. split; [done|]. split; [|done].
    intros e He. by apply (Hunused lp).
  - intros j j' e [Hj|[-> HL]]%elem_of_give [Hj'|[-> HL']]%elem_of_give; [by eapply Hdis| | |done].
    + destruct (Hunused j e Hj HL').
    + destruct (Hunused j' e Hj' HL).
  - intros j Hj. rewrite give_ne by lia. apply Hfresh. lia.
Qed.

(** Nothing new. *)
Lemma storage_fresh h b b' g own : storage h b g own -> (b <= b')%nat -> storage h b' g own.
Proof.
  intros [] Hb. split; try done; [|intros; apply so_fresh0; lia].
  intros q p Hq. destruct (so_pvs0 q p Hq) as (? & ? & ?). split_and!; [lia|done..].
Qed.

(** A new physical volume is in no group yet. *)
Lemma pv_at_insert h g q p i : q ∉ vg_pvs g -> pv_at (<[q := p]> h) g i = pv_at h g i.
Proof.
  intros Hq. unfold pv_at. destruct (0 <=? i); [|done]. destruct (vg_pvs g !! Z.to_nat i) as [q'|] eqn:E; [|done]. cbn.
  apply list_elem_of_lookup_2 in E. rewrite lookup_insert_ne; [done|]. by intros ->.
Qed.

Lemma storage_new_pv h b g own p : storage h b g own -> pv_wf p -> pe_count p <= 2 ^ 20 -> storage (<[b := p]> h) (S b) g own.
Proof.
  intros [Hvg Hpvs Hcap Hfree Hown Hnd Hdis Hfresh] Hp Hsz. pose proof Hvg as (Hn & Hmax & Hall & Hsum).
  assert (Hb : b ∉ vg_pvs g). { intros Hin. destruct (Hall b Hin) as (p' & Hp' & _). destruct (Hpvs b p' Hp') as [? _]. lia. }
  assert (Hne : forall q, q ∈ vg_pvs g -> q <> b) by (by intros q Hq ->).
  split; try done.
  - split_and!; try done.
    + intros q Hq. rewrite lookup_insert_ne by (symmetry; by apply Hne). by apply Hall.
    + rewrite Hsum. f_equal. apply list_fmap_ext. intros k q Hq%list_elem_of_lookup_2. rewrite lookup_insert_ne by (symmetry; by apply Hne). done.
  - intros q p'. destruct (decide (q = b)) as [->|]; [rewrite lookup_insert_eq; intros [= <-]; split_and!; [lia|done..]|].
    rewrite lookup_insert_ne by done. intros Hq. destruct (Hpvs q p' Hq) as (? & ? & ?). split_and!; [lia|done..].
  - intros lp e He. unfold pe_valid, pe_used. rewrite pv_at_insert by done. by apply (Hown lp).
  - intros lp Hlp. apply Hfresh. lia.
Qed.

Lemma pv_free_le p : pv_wf p -> pv_free_pe p <= pe_count p.
Proof. intros (H0 & _ & _ & ->). unfold pv_clear. pose proof (countb_range (fun i => negb (bit (pe_bitmap p) i)) (Z.to_nat (pe_count p))). lia. Qed.

Lemma pv_free_nonneg p : pv_wf p -> 0 <= pv_free_pe p.
Proof. intros (_ & _ & _ & ->). apply pv_clear_nonneg. Qed.

(** The group takes a physical volume: old members keep their index. *)
Lemma pv_at_app h g g' q i p : vg_pvs g' = vg_pvs g ++ [q] -> pv_at h g i = Some p -> pv_at h g' i = Some p.
Proof.
  intros Hpvs (Hi & q' & Hq' & Hp)%pv_at_lookup. apply pv_at_lookup. split; [done|]. exists q'. split; [|done]. rewrite Hpvs.
  by apply lookup_app_l_Some.
Qed.

Lemma storage_add h b g own q p g' : storage h b g own -> h !! q = Some p -> q ∉ vg_pvs g -> vg_add_pv h g q = Ok (g', true) ->
  storage h b g' own /\ vg_free_pe g' = vg_free_pe g + pv_free_pe p /\ vg_total_pe g' = vg_total_pe g + pe_count p.
Proof.
  intros [Hvg Hpvs Hcap Hfree Hown Hnd Hdis Hfresh] Hq Hin Hadd. destruct (Hpvs q p Hq) as (_ & Hwf & Hsz).
  pose proof (pv_free_le p Hwf) as Hle. unfold vg_add_pv in Hadd. destruct (Z.leb_spec MAX_PVS (pv_count g)) as [|Hmax]; [done|].
  rewrite Hq in Hadd. pose proof (vg_free_nonneg _ _ Hvg). pose proof (pv_free_nonneg p Hwf). unfold MAX_PVS in Hmax.
  rewrite !int_add_ok in Hadd by lia. cbn [mbind exec_bind] in Hadd. injection Hadd as Eg. destruct Hvg as (Hn & _ & Hall & Hsum).
  assert (Hg : vg_pvs g' = vg_pvs g ++ [q] /\ vg_free_pe g' = vg_free_pe g + pv_free_pe p /\ vg_total_pe g' = vg_total_pe g + pe_count p) by by subst g'.
  clear Eg. destruct Hg as (Hp' & Hf' & Ht'). split; [|done].
  assert (Hcount : pv_count g' = pv_count g + 1) by (unfold pv_count; rewrite Hp', length_app; cbn; lia).
  split; try done.
  - split_and!; rewrite ?Hp', ?Hf'.
    + apply list.NoDup_app. split; [done|]. split; [|apply NoDup_singleton]. intros j Hj ->%list_elem_of_singleton. done.
    + rewrite Hcount. unfold MAX_PVS. lia.
    + intros j [Hj| ->%list_elem_of_singleton]%elem_of_app; [by apply Hall|by exists p].
    + unfold vg_frees in *. rewrite fmap_app, sumZ_app, <- Hsum. cbn. rewrite Hq. lia.
  - rewrite Hcount, Ht'. lia.
  - rewrite Hf', Ht'. lia.
  - intros lp e He. destruct (Hown lp e He) as [(p0 & Hp0 & He2) Hu]. unfold pe_used in Hu. rewrite Hp0 in Hu.
    apply (pv_at_app h g g' q _ _ Hp') in Hp0 as Hp1. split; [by exists p0|]. unfold pe_used. by rewrite Hp1.
Qed.

(** ** Volumes: maps and snapshots *)

(** The map of an ordinary volume leads to the extents it owns. *)
Definition maps_to (w : world) (l : lv) (L : list (Z * Z)) : Prop :=
  Z.of_nat (length L) = le_count l /\
  exists m, w_maps w !! le_map_ptr l = Some m /\ forall k e, L !! k = Some e -> m !! k = Some (Some (Le e.1 e.2)).

(** A snapshot owns the area for its copies and has a bit for every extent. *)
Definition cow_area (l : lv) (L : list (Z * Z)) : Prop :=
  0 < cow_pe_count l /\ (exists i, L = pair i <$> seqZ (cow_pe_start l) (cow_pe_count l)) /\
  exists bm, cow_bitmap l = Some bm /\ bm_words bm /\ le_count l <= bm_bits bm.

Record volumes (w : world) (g : vg) (own : nat -> list (Z * Z)) : Prop := {
  vo_size lp l : w_lvs w !! lp = Some l -> (lp < brk w)%nat /\ 0 <= le_count l /\ le_count l + vg_free_pe g <= vg_total_pe g;
  vo_map lp l : w_lvs w !! lp = Some l -> origin l = None -> (le_map_ptr l < brk w)%nat /\ maps_to w l (own lp);
  vo_ptr lp l lp' l' : w_lvs w !! lp = Some l -> origin l = None -> w_lvs w !! lp' = Some l' -> origin l' = None ->
    le_map_ptr l = le_map_ptr l' -> lp = lp';
  vo_snap lp l : w_lvs w !! lp = Some l -> origin l <> None -> cow_area l (own lp)
}.

(** One volume is added or replaced. *)
Lemma volumes_put w g own h maps b g' lp l K : volumes w g own -> (brk w <= b)%nat -> (lp < b)%nat ->
  vg_free_pe g' <= vg_free_pe g -> vg_total_pe g' = vg_total_pe g -> 0 <= le_count l -> le_count l + vg_free_pe g' <= vg_total_pe g' ->
  (forall j l0, j <> lp -> w_lvs w !! j = Some l0 -> origin l0 = None -> maps !! le_map_ptr l0 = w_maps w !! le_map_ptr l0) ->
  (origin l = None -> (le_map_ptr l < b)%nat /\ maps_to (World h maps (<[lp := l]> (w_lvs w)) b) l (own lp ++ K) /\
     forall j l0, j <> lp -> w_lvs w !! j = Some l0 -> origin l0 = None -> le_map_ptr l0 <> le_map_ptr l) ->
  (origin l <> None -> cow_area l (own lp ++ K)) ->
  volumes (World h maps (<[lp := l]> (w_lvs w)) b) g' (give own lp K).
Proof.
  intros [Vs Vm Vp Vc] Hb Hlp Hf Ht H0 Hle Hkeep Hord Hsnap.
  assert (Hcase : forall j l0, <[lp := l]> (w_lvs w) !! j = Some l0 -> j = lp /\ l0 = l \/ j <> lp /\ w_lvs w !! j = Some l0).
  { intros j l0. destruct (decide (j = lp)) as [->|]; [rewrite lookup_insert_eq; intros [= <-]; by left|rewrite lookup_insert_ne by done; by right]. }
  split; cbn [w_lvs brk].
  - intros j l0 [[-> ->]|[Hne Hj]]%Hcase; [done|]. destruct (Vs j l0 Hj) as (? & ? & ?). split_and!; lia.
  - intros j l0 [[-> ->]|[Hne Hj]]%Hcase Ho; [destruct (Hord Ho) as (? & ? & _); by rewrite give_eq|]. rewrite give_ne by done.
    destruct (Vm j l0 Hj Ho) as (Hlt & Hlen & m & Hm & Hent). split; [lia|]. split; [done|]. exists m. cbn [w_maps]. by rewrite (Hkeep j).
  - intros j l0 j' l0' [[-> ->]|[Hne Hj]]%Hcase Ho [[-> ->]|[Hne' Hj']]%Hcase Ho' Hptr; [done| | |by eapply Vp].
    + destruct (Hord Ho) as (_ & _ & Hd). by destruct (Hd j' l0' Hne' Hj' Ho').
    + destruct (Hord Ho') as (_ & _ & Hd). by destruct (Hd j l0 Hne Hj Ho).
  - intros j l0 [[-> ->]|[Hne Hj]]%Hcase Ho; [rewrite give_eq; by apply Hsnap|]. rewrite give_ne by done. by apply Vc.
Qed.

Definition lvm_inv (w : world) (g : vg) (own : nat -> list (Z * Z)) : Prop := storage (w_pvs w) (brk w) g own /\ volumes w g own.

(** A call keeps the invariant. *)
Definition keeps (w : world) (g : vg) (c : lvm_call) : Prop :=
  exists w' g' own, lvm_do w g c = Ok (w', g') /\ lvm_inv w' g' own.

Lemma keeps_pv_create w g own name size : lvm_inv w g own -> allowed w g (PvCreate name size) -> keeps w g (PvCreate name size).
Proof.
  intros [Hs Hv] Ha. cbn in Ha. assert (Hsz : 0 <= size < (2 ^ 31 - 63) * PE_SIZE_SECTORS) by (change PE_SIZE_SECTORS with 2048 in *; lia).
  destruct (pv_create_ok name size Hsz) as [Hok _]. unfold keeps. cbn [lvm_do]. rewrite Hok. cbn [mbind exec_bind].
  eexists _, _, own. split; [done|]. cbn [new_pv fst]. split; cbn [w_pvs brk].
  - apply storage_new_pv; [done|by apply fresh_pv_wf|]. cbn. change PE_SIZE_SECTORS with 2048 in *.
    assert (0 <= size / 2048 <= 2 ^ 20) by (split; [apply Z.div_pos; lia|apply Z.div_le_upper_bound; lia]). lia.
  - destruct Hv as [Vs Vm Vp Vc]. split; cbn [w_lvs brk]; try done.
    + intros lp l Hl. destruct (Vs lp l Hl) as (? & ? & ?). split_and!; lia.
    + intros lp l Hl Ho. destruct (Vm lp l Hl Ho) as (? & ?). split; [lia|done].
Qed.

(** The sums of [vg_add_pv] stay in [int]: at most 16 disks of at most 2^20
    extents. *)
Lemma vg_add_ok h b g own q p : storage h b g own -> h !! q = Some p -> exists r, vg_add_pv h g q = Ok r.
Proof.
  intros [Hvg Hpvs Hcap Hfree _ _ _ _] Hq. destruct (Hpvs q p Hq) as (_ & Hwf & Hsz). unfold vg_add_pv.
  destruct (Z.leb_spec MAX_PVS (pv_count g)) as [|Hmax]; [by eexists|]. rewrite Hq. pose proof (pv_free_le p Hwf).
  pose proof (pv_free_nonneg p Hwf). pose proof (vg_free_nonneg _ _ Hvg). unfold MAX_PVS in Hmax.
  rewrite !int_add_ok by lia. by eexists.
Qed.

Lemma keeps_vg_add w g own q : lvm_inv w g own -> allowed w g (VgAddPv q) -> keeps w g (VgAddPv q).
Proof.
  intros [Hs Hv] [[p Hp] Hq]. unfold keeps. cbn [lvm_do]. destruct (vg_add_pv (w_pvs w) g q) as [[g' ok]|] eqn:Hadd.
  2: { destruct (vg_add_ok _ _ _ _ _ _ Hs Hp) as [r Hr]. congruence. }
  cbn [mbind exec_bind]. exists w, g', own. split; [done|]. destruct ok.
  - destruct (storage_add _ _ _ _ _ _ _ Hs Hp Hq Hadd) as (Hs' & Hf & Ht). split; [done|].
    destruct (so_pvs _ _ _ _ Hs q p Hp) as (_ & Hwf & _). pose proof (pv_free_le p Hwf). destruct Hv as [Vs Vm Vp Vc]. split; try done.
    intros lp l Hl. destruct (Vs lp l Hl) as (? & ? & ?). split_and!; lia.
  - unfold vg_add_pv in Hadd. destruct (MAX_PVS <=? pv_count g); [by injection Hadd as <-|]. rewrite Hp in Hadd.
    destruct (int_add (vg_total_pe g) (pe_count p)) as [a|]; cbn [mbind exec_bind] in Hadd; [|done]. by destruct (int_add (vg_free_pe g) (pv_free_pe p)).
Qed.

Lemma taken_counts h g h' g' L : taken h g h' g' L -> vg_free_pe g' <= vg_free_pe g /\ vg_total_pe g' = vg_total_pe g.
Proof. intros []. split; [lia|]. by apply tk_frame0. Qed.

Lemma keeps_lv_create w g own name count : lvm_inv w g own -> allowed w g (LvCreate name count) -> keeps w g (LvCreate name count).
Proof.
  intros [Hs Hv] Ha. cbn in Ha. unfold keeps. cbn [lvm_do]. unfold lv_create.
  destruct (le_fill_spec (Z.to_nat count) 0 (w_pvs w) g (replicate (Z.to_nat count) (Some (Le 0 0))))
    as ([[[h g'] m] ok] & L & Hfill & Hf); [apply Hs|lia|rewrite length_replicate; lia|].
  assert (ok = true) as -> by (eapply fill_post_ok; [done|lia]). rewrite Hfill. cbn [mbind exec_bind].
  eexists _, _, (give own (S (brk w)) L). split; [done|]. pose proof (taken_fill _ _ _ _ _ _ _ _ _ _ Hf Hfill) as Ht.
  destruct (taken_counts _ _ _ _ _ Ht) as [Hle Htot]. pose proof (so_free _ _ _ _ Hs) as Hfree.
  destruct Hf as (_ & Hfr & Hlen & _ & _ & _ & _ & _ & Hent & _).
  assert (Hnew : own (S (brk w)) = []) by (apply (so_fresh _ _ _ _ Hs); lia).
  split; [apply (storage_take _ _ _ _ _ _ _ _ _ _ Hs Ht); [cbn; lia|cbn; lia|by left]|].
  apply (volumes_put w g own); cbn [origin le_count le_map_ptr]; try done; try lia.
  - intros j l0 _ Hj Ho. destruct (vo_map _ _ _ Hv j l0 Hj Ho) as [Hlt _]. rewrite lookup_insert_ne by lia. done.
  - intros _. rewrite Hnew. split; [lia|]. split.
    + split; [cbn; lia|]. exists m. cbn [w_maps le_map_ptr]. rewrite lookup_insert_eq. split; [done|]. intros k e He. by rewrite <- (Hent k e He).
    + intros j l0 _ Hj Ho. destruct (vo_map _ _ _ Hv j l0 Hj Ho) as [Hlt _]. lia.
Qed.

(** The map of a volume after [realloc] and the loop. *)
Lemma extend_map n old h g m0 m h' g' ok L own : 0 <= old -> fill_post n old h g (resize (Z.to_nat old + n) None m0) (h', g', m, ok) L ->
  Z.of_nat (length own) = old -> (forall k e, own !! k = Some e -> m0 !! k = Some (Some (Le e.1 e.2))) ->
  forall k e, (own ++ if ok then L else []) !! k = Some e -> m !! k = Some (Some (Le e.1 e.2)).
Proof.
  intros Hold (_ & _ & _ & _ & _ & _ & _ & _ & Hent & Hrest) Hlen Hown k e Hk.
  apply lookup_app_Some in Hk as [Hk|[Hge Hk]].
  - pose proof (lookup_lt_Some _ _ _ Hk). pose proof (Hown k e Hk) as Hm0. pose proof (lookup_lt_Some _ _ _ Hm0).
    rewrite Hrest by lia. rewrite lookup_resize by lia. exact Hm0.
  - destruct ok; [|done]. rewrite <- (Hent _ _ Hk). f_equal. lia.
Qed.

Lemma keeps_lv_extend w g own moves lp n : lvm_inv w g own -> allowed w g (LvExtend moves lp n) -> keeps w g (LvExtend moves lp n).
Proof.
  intros [Hs Hv] (Hn & l & Hl & Ho & Hint). unfold keeps. cbn [lvm_do]. unfold lv_extend, realloc_map. rewrite Hl.
  destruct (vo_size _ _ _ Hv lp l Hl) as (Hlp & H0 & Hle). destruct (vo_map _ _ _ Hv lp l Hl Ho) as (Hptr & Hlen & m0 & Hm0 & Hent).
  rewrite int_add_ok, Hm0 by lia. cbn [mbind exec_bind].
  replace (Z.to_nat (le_count l + n)) with (Z.to_nat (le_count l) + Z.to_nat n)%nat by lia.
  destruct (le_fill_spec (Z.to_nat n) (le_count l) (w_pvs w) g (resize (Z.to_nat (le_count l) + Z.to_nat n) None m0))
    as ([[[h g'] m] ok] & L & Hfill & Hf); [apply Hs|lia|rewrite length_resize; lia|].
  pose proof (taken_fill _ _ _ _ _ _ _ _ _ _ Hf Hfill) as Ht. destruct (taken_counts _ _ _ _ _ Ht) as [Hfle Htot].
  pose proof (extend_map _ _ _ _ _ _ _ _ _ _ (own lp) H0 Hf Hlen Hent) as Hmap. destruct Hf as (_ & Hfr & Hok & _).
  assert (Hother : forall j l0, j <> lp -> w_lvs w !! j = Some l0 -> origin l0 = None -> (le_map_ptr l0 < brk w)%nat /\ le_map_ptr l0 <> le_map_ptr l).
  { intros j l0 Hne Hj Hoj. destruct (vo_map _ _ _ Hv j l0 Hj Hoj) as [Hlt _]. split; [done|]. intros Hp. apply Hne. by eapply (vo_ptr _ _ _ Hv). }
  exists (World h (<[if moves then brk w else le_map_ptr l := m]> (if moves then delete (le_map_ptr l) (w_maps w) else w_maps w))
    (<[lp := {| lv_name := lv_name l; lv_vg_name := lv_vg_name l; le_count := if ok then le_count l + n else le_count l;
                le_map_ptr := if moves then brk w else le_map_ptr l; lv_pv_count := lv_pv_count l; origin := origin l;
                cow_bitmap := cow_bitmap l; cow_pe_start := cow_pe_start l; cow_pe_count := cow_pe_count l |}]> (w_lvs w))
    (if moves then S (brk w) else brk w)), g', (give own lp (if ok then L else [])). split.
  { destruct moves; cbn [mbind exec_bind w_maps w_pvs w_lvs brk]; rewrite lookup_insert_eq, Hfill; cbn [mbind exec_bind]; by rewrite insert_insert_eq. }
  assert (Hb : (brk w <= if moves then S (brk w) else brk w)%nat) by (destruct moves; lia).
  split; [apply (storage_take _ _ _ _ _ _ _ _ _ _ Hs Ht); cbn; [lia|done|by destruct ok; [left|right]]|].
  apply (volumes_put w g own); cbn [origin le_count le_map_ptr]; try done; try lia; try (destruct ok; lia).
  - intros j l0 Hne Hj Hoj. destruct (Hother j l0 Hne Hj Hoj) as [Hlt Hd]. destruct moves.
    + rewrite lookup_insert_ne, lookup_delete_ne by (done || lia). done.
    + by rewrite lookup_insert_ne by done.
  - intros _. split; [destruct moves; lia|]. split.
    + split; [cbn; rewrite length_app; destruct ok; cbn; lia|]. exists m. cbn [w_maps le_map_ptr]. by rewrite lookup_insert_eq.
    + intros j l0 Hne Hj Hoj. destruct (Hother j l0 Hne Hj Hoj). destruct moves; [lia|done].
Qed.

Lemma keeps_snapshot w g own name op n : lvm_inv w g own -> allowed w g (LvCreateSnapshot name op n) -> keeps w g (LvCreateSnapshot name op n).
Proof.
  intros [Hs Hv] [Hn [o Ho]]. unfold keeps. cbn [lvm_do]. unfold lv_create_snapshot. rewrite Ho.
  destruct (vo_size _ _ _ Hv op o Ho) as (_ & H0 & Hle).
  destruct (vg_alloc_total (w_pvs w) g n) as ([[h g'] r] & Halloc & Hpost); [apply Hs|done|]. rewrite Halloc. cbn [mbind exec_bind].
  destruct r as [[i s]|].
  - pose proof (taken_run _ _ _ _ _ _ _ Hn Hpost Halloc) as Ht. destruct (taken_counts _ _ _ _ _ Ht) as [Hfle Htot].
    assert (Hnew : own (brk w) = []) by (apply (so_fresh _ _ _ _ Hs); lia).
    eexists _, _, (give own (brk w) (pair i <$> seqZ s n)). split; [done|]. split; [apply (storage_take _ _ _ _ _ _ _ _ _ _ Hs Ht); [cbn; lia..|by left]|].
    apply (volumes_put w g own); cbn [origin le_count le_map_ptr]; try done; try lia. intros _. rewrite Hnew. split; [done|]. split; [by exists i|].
    eexists. cbn [cow_bitmap le_count]. split; [done|]. split; [apply bm_words_zero|]. unfold bm_bits. rewrite length_replicate, Z.quot_div_nonneg by lia.
    pose proof (Z.div_mod (le_count o + 63) 64). pose proof (Z.mod_pos_bound (le_count o + 63) 64). lia.
  - destruct Hpost as (-> & -> & _). eexists _, _, own. split; [done|]. split; [cbn; apply (storage_fresh _ (brk w)); [done|lia]|].
    destruct Hv as [Vs Vm Vp Vc]. split; cbn [w_lvs brk]; try done.
    + intros lp l Hl. destruct (Vs lp l Hl) as (? & ? & ?). split_and!; lia.
    + intros lp l Hl Hol. destruct (Vm lp l Hl Hol) as (? & ?). split; [lia|done].
Qed.

Lemma taken_nil h g : vg_wf h g -> taken h g h g [].
Proof.
  intros Hwf. split; try done; [cbn; lia|constructor|by intros e ?%elem_of_nil].
Qed.

Lemma keeps_snapshot_write w g own sp s : lvm_inv w g own -> allowed w g (SnapshotWrite sp s) -> keeps w g (SnapshotWrite sp s).
Proof.
  intros [Hs Hv] (l & Hl & Hr). unfold keeps. cbn [lvm_do]. destruct (origin l) as [op|] eqn:Ho.
  2: { unfold snapshot_write. rewrite Hl, Ho. cbn [mbind exec_bind]. by exists w, g, own. }
  destruct (vo_size _ _ _ Hv sp l Hl) as (Hsp & H0 & Hle). destruct (vo_snap _ _ _ Hv sp l Hl ltac:(by rewrite Ho)) as (Hpos & Hi & bm & Hbm & Hw & Hbits).
  destruct (sector_split s _ Hr) as [Hq _]. pose proof (so_cap _ _ _ _ Hs) as Hcap. pose proof (so_vg _ _ _ _ Hs) as (_ & Hmax & _).
  pose proof (vg_free_nonneg _ _ (so_vg _ _ _ _ Hs)). unfold MAX_PVS in Hmax.
  destruct (snapshot_write_spec w sp l op bm s Hl Ho Hbm Hw) as (l' & bm' & -> & (Hc1 & Hc2 & Hc3 & Hc4 & Hc5) & Hbm' & Hw' & Hlen & _); [lia..|].
  cbn [mbind exec_bind]. eexists _, _, (give own sp []). split; [done|].
  split; [apply (storage_take _ _ _ _ _ _ _ _ [] _ Hs (taken_nil _ _ (so_vg _ _ _ _ Hs))); [done|cbn; lia|by left]|].
  apply (volumes_put w g own); try done; try lia; [by rewrite Hc3, Ho|]. intros _. rewrite app_nil_r. split; [by rewrite Hc5|]. split; [by rewrite Hc4, Hc5|].
  exists bm'. split; [done|]. split; [done|]. unfold bm_bits in *. rewrite Hlen, Hc1. lia.
Qed.

(** Every call the caller may make. *)
Lemma lvm_call_keeps w g own c : lvm_inv w g own -> allowed w g c -> keeps w g c.
Proof.
  destruct c; [apply keeps_pv_create|apply keeps_vg_add|apply keeps_lv_create|apply keeps_lv_extend|apply keeps_snapshot|apply keeps_snapshot_write].
Qed.

(** ** Isolation *)

Definition empty_world : world := World ∅ ∅ ∅ 0.

Lemma lvm_inv_empty name : lvm_inv empty_world (vg_create name) (fun _ => []).
Proof.
  split; split; cbn; try done; try (by intros ? ? ?%elem_of_nil).
  - split_and!; [constructor|done| |done]. by intros q ?%elem_of_nil.
  - intros. constructor.
  - by intros ? ? ? ?%elem_of_nil.
Qed.

Lemma lvm_inv_reachable name w g : rtc lvm_step (empty_world, vg_create name) (w, g) -> exists own, lvm_inv w g own.
Proof.
  remember (empty_world, vg_create name) as a eqn:Ha. remember (w, g) as b eqn:Hb. intros Hr.
  assert (Hinv : exists own, lvm_inv a.1 a.2 own) by (subst a; eexists; apply lvm_inv_empty). clear Ha.
  induction Hr as [a|a b' c Hstep Hr IH]; [by subst a|]. apply IH; [done|]. destruct Hinv as [own Hinv].
  inversion Hstep as [w1 g1 call w2 g2 Hal Hdo E1 E2]; subst. destruct (lvm_call_keeps w1 g1 own call Hinv Hal) as (w3 & g3 & own3 & Hdo3 & Hinv3).
  rewrite Hdo in Hdo3. injection Hdo3 as <- <-. by exists own3.
Qed.

(** Where a sector of an ordinary volume is. *)
Lemma sector_place w g own lp l s : lvm_inv w g own -> w_lvs w !! lp = Some l -> origin l = None -> 0 <= s < le_count l * PE_SIZE_SECTORS ->
  exists e, own lp !! Z.to_nat (s / PE_SIZE_SECTORS) = Some e /\ 0 <= e.2 < 2 ^ 20 /\
    lv_map_sector w l s = Ok (e.1, e.2 * PE_SIZE_SECTORS + s mod PE_SIZE_SECTORS).
Proof.
  intros [Hs Hv] Hl Ho Hr. destruct (sector_split s _ Hr) as [Hq Hm]. destruct (vo_size _ _ _ Hv lp l Hl) as (_ & H0 & Hle).
  destruct (vo_map _ _ _ Hv lp l Hl Ho) as (_ & Hlen & m & Hmap & Hent). pose proof (so_cap _ _ _ _ Hs) as Hcap.
  pose proof (so_vg _ _ _ _ Hs) as Hwf. pose proof (vg_free_nonneg _ _ Hwf). destruct Hwf as (_ & Hmax & _). unfold MAX_PVS in Hmax.
  destruct (lookup_lt_is_Some_2 (own lp) (Z.to_nat (s / PE_SIZE_SECTORS))) as [e He]; [lia|].
  pose proof (so_small _ _ _ _ lp e Hs (list_elem_of_lookup_2 _ _ _ He)) as Hsm. exists e. split; [done|]. split; [done|].
  unfold lv_map_sector. rewrite s32_small by lia. rewrite (proj2 (Z.leb_gt _ _)) by lia. rewrite Hmap, (arr_get_ok m _ (Some (Le e.1 e.2))); [|lia|by apply Hent].
  cbn [mbind exec_bind pe_start pv_index]. change PE_SIZE_SECTORS with 2048 in *. rewrite (proj2 (Z.leb_gt _ _)) by lia. by rewrite wrapu_small by lia.
Qed.

Lemma sectors_apart (e e' : Z * Z) a b : 0 <= a < PE_SIZE_SECTORS -> 0 <= b < PE_SIZE_SECTORS ->
  (e.1, e.2 * PE_SIZE_SECTORS + a) = (e'.1, e'.2 * PE_SIZE_SECTORS + b) -> e = e' /\ a = b.
Proof. change PE_SIZE_SECTORS with 2048. destruct e, e'. cbn. intros Ha Hb [= -> Heq]. split; [f_equal|]; lia. Qed.

(** The member that holds the copies of a snapshot, and the extents there. *)
Definition area_of (own : nat -> list (Z * Z)) (sp : nat) : Z := match own sp with e :: _ => e.1 | [] => 0 end.

Lemma cow_extents w g own sp snap : lvm_inv w g own -> w_lvs w !! sp = Some snap -> origin snap <> None ->
  0 < cow_pe_count snap /\
  forall e, e ∈ own sp <-> e.1 = area_of own sp /\ cow_pe_start snap <= e.2 < cow_pe_start snap + cow_pe_count snap.
Proof.
  intros [Hs Hv] Hsnap Hos. destruct (vo_snap _ _ _ Hv sp snap Hsnap Hos) as (Hpos & [i Hown] & _). split; [done|].
  assert (Hi : area_of own sp = i). { unfold area_of. rewrite Hown, seqZ_cons by done. done. }
  intros e. rewrite Hi, Hown. apply elem_of_run.
Qed.

Lemma cow_inside w g own sp snap : lvm_inv w g own -> w_lvs w !! sp = Some snap -> origin snap <> None ->
  exists p, pv_at (w_pvs w) g (area_of own sp) = Some p /\ 0 < cow_pe_count snap /\
    0 <= cow_pe_start snap /\ cow_pe_start snap + cow_pe_count snap <= pe_count p /\
    forall k, cow_pe_start snap <= k < cow_pe_start snap + cow_pe_count snap -> bit (pe_bitmap p) k = true.
Proof.
  intros Hinv Hsnap Hos. destruct (cow_extents _ _ _ _ _ Hinv Hsnap Hos) as [Hpos Hown]. destruct Hinv as [Hs _].
  assert (Hk : forall k, cow_pe_start snap <= k < cow_pe_start snap + cow_pe_count snap ->
    exists p, pv_at (w_pvs w) g (area_of own sp) = Some p /\ 0 <= k < pe_count p /\ bit (pe_bitmap p) k = true).
  { intros k Hk. destruct (so_own _ _ _ _ Hs sp (area_of own sp, k)) as [(p & Hp & Hin) Hu]; [by apply Hown|].
    cbn [fst snd] in *. exists p. unfold pe_used in Hu. cbn in Hu. by rewrite Hp in Hu. }
  destruct (Hk (cow_pe_start snap)) as (p & Hp & Hlo & _); [lia|].
  destruct (Hk (cow_pe_start snap + cow_pe_count snap - 1)) as (p' & Hp' & Hhi & _); [lia|]. exists p.
  assert (p' = p) as -> by congruence. split_and!; [done|done|lia|lia|].
  intros k Hr. destruct (Hk k Hr) as (p' & Hp2 & _ & Hb). congruence.
Qed.

(** C3: whatever sequence of the caller's calls the volume manager has served
    (physical volumes created and added, volumes created and extended, also
    when the group runs dry, snapshots taken and written), every further call
    succeeds without a crash; the group's accounting holds; every sector of
    every ordinary (not snapshot) volume has a place inside a member disk; two
    sectors of the same or of different ordinary volumes never share one; and
    every snapshot has an area of its own for its copies, allocated extents
    inside one member disk, which holds no sector of an ordinary volume and no
    extent of another snapshot's area.  The caller keeps to [allowed]. *)
Theorem lvm_isolation name w g : rtc lvm_step (empty_world, vg_create name) (w, g) ->
  vg_wf (w_pvs w) g /\
  (forall c, allowed w g c -> exists w' g', lvm_do w g c = Ok (w', g')) /\
  (forall lp l s, w_lvs w !! lp = Some l -> origin l = None -> 0 <= s < le_count l * PE_SIZE_SECTORS ->
     exists i ps p, lv_map_sector w l s = Ok (i, ps) /\ pv_at (w_pvs w) g i = Some p /\ 0 <= ps < pe_count p * PE_SIZE_SECTORS /\
     (forall lp' l' s', w_lvs w !! lp' = Some l' -> origin l' = None -> 0 <= s' < le_count l' * PE_SIZE_SECTORS ->
        lv_map_sector w l' s' = Ok (i, ps) -> lp' = lp /\ s' = s)) /\
  exists area : nat -> Z, forall sp snap, w_lvs w !! sp = Some snap -> origin snap <> None ->
     (exists p, pv_at (w_pvs w) g (area sp) = Some p /\ 0 < cow_pe_count snap /\
        0 <= cow_pe_start snap /\ cow_pe_start snap + cow_pe_count snap <= pe_count p /\
        forall k, cow_pe_start snap <= k < cow_pe_start snap + cow_pe_count snap -> bit (pe_bitmap p) k = true) /\
     (forall lp l s ps, w_lvs w !! lp = Some l -> origin l = None -> 0 <= s < le_count l * PE_SIZE_SECTORS ->
        lv_map_sector w l s = Ok (area sp, ps) ->
        ~ cow_pe_start snap * PE_SIZE_SECTORS <= ps < (cow_pe_start snap + cow_pe_count snap) * PE_SIZE_SECTORS) /\
     (forall sp' snap', w_lvs w !! sp' = Some snap' -> origin snap' <> None -> sp' <> sp -> area sp' = area sp ->
        cow_pe_start snap' + cow_pe_count snap' <= cow_pe_start snap \/
        cow_pe_start snap + cow_pe_count snap <= cow_pe_start snap').
Proof.
  intros Hr. destruct (lvm_inv_reachable _ _ _ Hr) as [own Hinv]. pose proof Hinv as [Hs Hv]. split; [apply Hs|]. split; [|split].
  - intros c Hc. destruct (lvm_call_keeps w g own c Hinv Hc) as (w' & g' & _ & Hdo & _). by exists w', g'.
  - intros lp l s Hl Ho Hrange. destruct (sector_place w g own lp l s Hinv Hl Ho Hrange) as (e & He & Hsm & Hmap).
    destruct (so_own _ _ _ _ Hs lp e (list_elem_of_lookup_2 _ _ _ He)) as [(p & Hp & Hin) _]. destruct (sector_split s _ Hrange) as [Hq Hm].
    exists e.1, (e.2 * PE_SIZE_SECTORS + s mod PE_SIZE_SECTORS), p. split; [done|]. split; [done|].
    split; [change PE_SIZE_SECTORS with 2048 in *; lia|]. intros lp' l' s' Hl' Ho' Hrange' Hmap'.
    destruct (sector_place w g own lp' l' s' Hinv Hl' Ho' Hrange') as (e' & He' & _ & Hmap2). destruct (sector_split s' _ Hrange') as [Hq' Hm'].
    rewrite Hmap' in Hmap2. injection Hmap2 as H1 H2. destruct (sectors_apart e e' _ _ Hm Hm') as [<- Hmod]; [congruence|].
    assert (lp = lp') as <- by (eapply (so_disjoint _ _ _ _ Hs); by eapply list_elem_of_lookup_2).
    split; [done|]. pose proof (NoDup_lookup _ _ _ _ (so_nodup _ _ _ _ Hs lp) He He') as Hdiv. apply Z2Nat.inj in Hdiv; [|lia..].
    rewrite (Z.div_mod s' PE_SIZE_SECTORS), (Z.div_mod s PE_SIZE_SECTORS) by (by vm_compute). by rewrite Hdiv, Hmod.
  - exists (area_of own). intros sp snap Hsnap Hos. pose proof (cow_extents _ _ _ _ _ Hinv Hsnap Hos) as [Hpos Hown]. split; [|split].
    + by apply (cow_inside w g own).
    + intros lp l s ps Hl Ho Hrange Hmap Hcow. destruct (sector_place w g own lp l s Hinv Hl Ho Hrange) as (e & He & Hsm & Hmap').
      rewrite Hmap in Hmap'. injection Hmap' as Hi ->. destruct (sector_split s _ Hrange) as [_ Hm].
      assert (He' : e ∈ own sp) by (apply Hown; split; [done|]; change PE_SIZE_SECTORS with 2048 in *; lia).
      assert (lp = sp) as -> by (eapply (so_disjoint _ _ _ _ Hs); [by eapply list_elem_of_lookup_2|done]). congruence.
    + intros sp' snap' Hsnap' Hos' Hne Harea. pose proof (cow_extents _ _ _ _ _ Hinv Hsnap' Hos') as [Hpos' Hown'].
      destruct (decide (cow_pe_start snap' + cow_pe_count snap' <= cow_pe_start snap)); [by left|].
      destruct (decide (cow_pe_start snap + cow_pe_count snap <= cow_pe_start snap')); [by right|]. exfalso. apply Hne.
      apply (so_disjoint _ _ _ _ Hs _ _ (area_of own sp, Z.max (cow_pe_start snap) (cow_pe_start snap'))); [apply Hown'|apply Hown]; cbn; lia.
Qed.

(** ** A concrete sequence *)

(** [allowed] as a test. *)
Definition allowedb (w : world) (g : vg) (c : lvm_call) : bool :=
  match c with
  | PvCreate _ size => (0 <=? size) && (size <=? 2 ^ 20 * PE_SIZE_SECTORS)
  | VgAddPv q => bool_decide (is_Some (w_pvs w !! q)) && bool_decide (q ∉ vg_pvs g)
  | LvCreate _ count => (0 <=? count) && (count <=? vg_free_pe g)
  | LvExtend _ lp n => (0 <=? n) && match w_lvs w !! lp with Some l => bool_decide (origin l = None) && (le_count l + n <? 2 ^ 31) | None => false end
  | LvCreateSnapshot _ op n => (0 <? n) && bool_decide (is_Some (w_lvs w !! op))
  | SnapshotWrite sp s => match w_lvs w !! sp with Some l => (0 <=? s) && (s <? le_count l * PE_SIZE_SECTORS) | None => false end
  end.

Lemma allowedb_allowed w g c : allowedb w g c = true -> allowed w g c.
Proof.
  destruct c; cbn [allowedb allowed]; try (destruct (w_lvs w !! _) as [l|]; [|rewrite ?andb_false_r; done]);
    rewrite ?andb_true_iff, ?bool_decide_eq_true, ?Z.leb_le, ?Z.ltb_lt; try done.
  - intros (? & ? & ?). split; [done|]. by exists l.
  - intros [? ?]. by exists l.
Qed.

Fixpoint lvm_run (w : world) (g : vg) (cs : list lvm_call) : option (world * vg) :=
  match cs with
  | [] => Some (w, g)
  | c :: cs => if allowedb w g c then match lvm_do w g c with Ok (w', g') => lvm_run w' g' cs | Crash _ => None end else None
  end.

Lemma lvm_run_steps cs : forall w g w' g', lvm_run w g cs = Some (w', g') -> rtc lvm_step (w, g) (w', g').
Proof.
  induction cs as [|c cs IH]; intros w g w' g'; cbn; [intros [= -> ->]; constructor|]. destruct (allowedb w g c) eqn:Ha; [|done].
  destruct (lvm_do w g c) as [[w1 g1]|] eqn:Hd; [|done]. intros Hr. eapply rtc_l; [|by apply IH]. econstructor; [by apply allowedb_allowed|done].
Qed.

(** Two disks, two volumes, a snapshot, an extension that runs dry. *)
Definition demo_calls : list lvm_call :=
  [PvCreate "sda" 8192; PvCreate "sdb" 4096; VgAddPv 0; VgAddPv 1; LvCreate "home" 2; LvCreate "var" 1;
   LvCreateSnapshot "snap" 3 1; LvExtend true 3 1; SnapshotWrite 6 2050; LvExtend false 5 3].

Lemma lvm_isolation_witness : exists w g l1 l2, lvm_run empty_world (vg_create "vg") demo_calls = Some (w, g) /\
  w_lvs w !! 3%nat = Some l1 /\ w_lvs w !! 5%nat = Some l2 /\ le_count l1 = 3 /\ le_count l2 = 1 /\ vg_free_pe g = 0 /\
  exists i ps, lv_map_sector w l1 5000 = Ok (i, ps) /\ forall s, 0 <= s < 2048 -> lv_map_sector w l2 s <> Ok (i, ps).
Proof.
  eexists _, _, _, _. split; [vm_compute; reflexivity|]. split; [reflexivity|]. split; [reflexivity|]. split; [reflexivity|].
  split; [reflexivity|]. split; [reflexivity|].
  eassert (Hrun : lvm_run empty_world (vg_create "vg") demo_calls = Some (_, _)) by (vm_compute; reflexivity).
  apply lvm_run_steps in Hrun. destruct (lvm_isolation _ _ _ Hrun) as (_ & _ & Hiso & _).
  destruct (Hiso 3%nat _ 5000 ltac:(reflexivity) ltac:(reflexivity) ltac:(split; [discriminate|reflexivity])) as (i & ps & p & Hmap & _ & _ & Hother).
  exists i, ps. split; [exact Hmap|]. intros s Hs Hmap2.
  destruct (Hother 5%nat _ s ltac:(reflexivity) ltac:(reflexivity)) as [? _]; [exact Hs|exact Hmap2|discriminate].
Defined.
