(* ===== verification/VfsRegistry.v ===== *)
(** * The registry of filesystem types ([demos/vfs/vfs.c])

    [register_filesystem] walks the list of registered types and compares
    names.  Any sequence of calls is shown to implement a registry by name:
    the first type of each name is kept, in the order of the calls, and every
    later one of that name, also the same structure again, is refused. *)
From Stdlib Require Import ZArith Lia.
From stdpp Require Import base numbers list option gmap.
From S2P Require Import Prelude ListHead Vfs.

Open Scope Z_scope.

(** The registry: the types accepted and the results of the calls. *)
Fixpoint registry (name_of : nat -> list Z) (known : list (list Z)) (calls : list nat) : list nat * list Z :=
  match calls with
  | [] => ([], [])
  | t :: calls =>
    if decide (name_of t ∈ known) then let '(ts, rs) := registry name_of known calls in (ts, - EEXIST :: rs)
    else let '(ts, rs) := registry name_of (name_of t :: known) calls in (t :: ts, 0 :: rs)
  end.

(** Each name of the calls is accepted once. *)
Lemma registry_names name_of known calls :
  NoDup (name_of <$> (registry name_of known calls).1) /\
  forall n, n ∈ (name_of <$> (registry name_of known calls).1) <-> n ∉ known /\ n ∈ (name_of <$> calls).
Proof.
  revert known. induction calls as [|t calls IH]; intros known; cbn [registry fst].
  - cbn. split; [constructor|]. intros n. rewrite elem_of_nil. tauto.
  - rewrite fmap_cons. destruct (decide (name_of t ∈ known)) as [Hk|Hk].
    + destruct (IH known) as [Hnd Hn]. destruct (registry name_of known calls) as [ts rs]. cbn [fst] in *. split; [done|].
      intros n. rewrite Hn, elem_of_cons. split; [tauto|]. intros [H1 [->|H2]]; done.
    + destruct (IH (name_of t :: known)) as [Hnd Hn]. destruct (registry name_of (name_of t :: known) calls) as [ts rs]. cbn [fst] in *.
      rewrite fmap_cons. split.
      * apply list.NoDup_cons. split; [|done]. rewrite Hn, elem_of_cons. tauto.
      * intros n. rewrite !elem_of_cons, Hn, elem_of_cons. destruct (decide (n = name_of t)) as [->|]; tauto.
Qed.

Section registry.
Context {L F I P : Type} `{!ListHead vnode L} `{!ListLaws vnode L}.
Implicit Types s : vfs L F I P.

Fixpoint register_all s (calls : list nat) : exec (vfs L F I P * list Z) :=
  match calls with
  | [] => Ok (s, [])
  | t :: calls => '(s, r) ← register_filesystem s t; '(s, rs) ← register_all s calls; Ok (s, r :: rs)
  end.

Definition name_of s (t : nat) : list Z := default [] (fs_names s !! t).

(** The types registered so far. *)
Record registered s (ts : list nat) : Prop := {
  rg_wf : links_wf (vlinks s);
  rg_list : list_view (vlinks s) Registered = Some (FsNode <$> ts);
  rg_named t : t ∈ ts -> is_Some (fs_names s !! t);
  rg_free t : t ∉ ts -> unlinked (FsNode t) (vlinks s)
}.

Lemma registered_as_spec s name ts : (forall t, t ∈ ts -> is_Some (fs_names s !! t)) ->
  registered_as s name (FsNode <$> ts) = Ok (bool_decide (name ∈ name_of s <$> ts)).
Proof.
  induction ts as [|t ts IH]; intros Hn; [done|]. rewrite !fmap_cons. cbn [registered_as fs_entry mbind exec_bind]. unfold get_fs_name.
  destruct (Hn t) as [x Hx]; [left|]. rewrite Hx. cbn [mbind exec_bind]. assert (Ex : name_of s t = x) by (unfold name_of; by rewrite Hx). rewrite Ex.
  destruct (decide (x = name)) as [->|Hne].
  - rewrite bool_decide_eq_true_2; [done|left].
  - rewrite IH by (intros t' Ht'; apply Hn; by right). f_equal. apply bool_decide_ext. rewrite elem_of_cons. split; [by right|]. by intros [->|?].
Qed.

Lemma register_refused s ts t : registered s ts -> is_Some (fs_names s !! t) -> name_of s t ∈ name_of s <$> ts ->
  register_filesystem s t = Ok (s, - EEXIST).
Proof.
  intros [Hwf Hl Hn Hf] [x Hx] Hin. unfold register_filesystem, get_fs_name. rewrite Hx. cbn [mbind exec_bind].
  rewrite (nodes_spec _ _ _ Hl), registered_as_spec by done. assert (Ex : name_of s t = x) by (unfold name_of; by rewrite Hx).
  rewrite Ex in Hin. by rewrite bool_decide_eq_true_2.
Qed.

Lemma register_accepted s ts t : registered s ts -> is_Some (fs_names s !! t) -> name_of s t ∉ name_of s <$> ts ->
  exists s', register_filesystem s t = Ok (s', 0) /\ fs_names s' = fs_names s /\ registered s' (ts ++ [t]).
Proof.
  intros [Hwf Hl Hn Hf] [x Hx] Hin. unfold register_filesystem, get_fs_name. rewrite Hx. cbn [mbind exec_bind].
  rewrite (nodes_spec _ _ _ Hl), registered_as_spec by done. assert (Ex : name_of s t = x) by (unfold name_of; by rewrite Hx).
  rewrite Ex in Hin. rewrite bool_decide_eq_false_2 by done. cbn [mbind exec_bind]. eexists. split; [done|]. split; [done|].
  assert (Ht : t ∉ ts). { intros Ht. apply Hin. rewrite <- Ex. by apply list_elem_of_fmap_2. }
  pose proof (Hf t Ht) as Hu. pose proof (fun k => view_add_tail _ _ k _ _ Hwf Hu Hl ltac:(done)) as Hv. split; cbn [vlinks set_vlinks fs_names].
  - by eapply links_wf_add_tail.
  - by rewrite Hv, decide_False, decide_True, fmap_app.
  - intros t' [Ht'| ->%list_elem_of_singleton]%elem_of_app; [by apply Hn|by eexists].
  - intros t'. rewrite not_elem_of_app, not_elem_of_cons. intros (Ht' & Hne & _). destruct (Hf t' Ht') as [Hu1 Hu2]. split.
    + rewrite Hv, decide_False, decide_False by congruence. done.
    + intros k xs. rewrite Hv. case_decide; [done|]. case_decide; [|apply Hu2]. intros [= <-].
      rewrite not_elem_of_app, not_elem_of_cons. split_and!; [by eapply Hu2|congruence|apply not_elem_of_nil].
Qed.

Lemma register_all_spec calls : forall s ts, registered s ts -> (forall t, t ∈ calls -> is_Some (fs_names s !! t)) ->
  exists s', register_all s calls = Ok (s', (registry (name_of s) (reverse (name_of s <$> ts)) calls).2) /\
    registered s' (ts ++ (registry (name_of s) (reverse (name_of s <$> ts)) calls).1).
Proof.
  induction calls as [|t calls IH]; intros s ts Hr Hn; cbn [register_all registry]; [exists s; by rewrite app_nil_r|].
  assert (Ht : is_Some (fs_names s !! t)) by (apply Hn; left). assert (Hrest : forall t, t ∈ calls -> is_Some (fs_names s !! t)) by (intros; apply Hn; by right).
  destruct (decide (name_of s t ∈ reverse (name_of s <$> ts))) as [Hk|Hk]; rewrite elem_of_reverse in Hk.
  - rewrite (register_refused s ts t) by done. cbn [mbind exec_bind]. destruct (IH s ts Hr Hrest) as (s' & -> & Hr'). cbn [mbind exec_bind].
    exists s'. destruct (registry _ _ _) as [us rs]. done.
  - destruct (register_accepted s ts t Hr Ht Hk) as (s1 & -> & Hnm & Hr1). cbn [mbind exec_bind].
    assert (En : name_of s1 = name_of s) by (unfold name_of; by rewrite Hnm).
    destruct (IH s1 (ts ++ [t]) Hr1) as (s' & -> & Hr'); [by rewrite Hnm|]. cbn [mbind exec_bind]. rewrite En, fmap_app, reverse_app in *. cbn [fmap list_fmap reverse rev_append app] in *.
    exists s'. destruct (registry _ _ _) as [us rs]. cbn [fst snd] in *. split; [done|]. by rewrite <- app_assoc in Hr'.
Qed.

(** from the empty list, any sequence of [register_filesystem] calls, repeated
    structures and names included, runs without a crash; a call returns 0 if no
    earlier one had that name and [-EEXIST] otherwise; and the list then holds
    exactly the first type of each name, in order, no name twice. *)
Theorem register_filesystem_registry s calls : no_nodes (vlinks s) -> list_view (vlinks s) Registered = Some [] ->
  (forall t, t ∈ calls -> is_Some (fs_names s !! t)) ->
  exists s', register_all s calls = Ok (s', (registry (name_of s) [] calls).2) /\
    list_view (vlinks s') Registered = Some (FsNode <$> (registry (name_of s) [] calls).1) /\
    NoDup (name_of s <$> (registry (name_of s) [] calls).1) /\
    forall n, n ∈ (name_of s <$> (registry (name_of s) [] calls).1) <-> n ∈ (name_of s <$> calls).
Proof.
  intros Hs Hl Hn. destruct (registry_names (name_of s) [] calls) as [Hnd Hin].
  assert (Hr : registered s []).
  { split; [by apply no_nodes_wf|done|by intros t ?%elem_of_nil|]. intros t _. split.
    - destruct (list_view (vlinks s) (FsNode t)) as [xs|] eqn:E; [|by left]. right. by rewrite (Hs _ _ E).
    - intros k xs Hk. rewrite (Hs _ _ Hk). apply not_elem_of_nil. }
  destruct (register_all_spec calls s [] Hr Hn) as (s' & Hall & Hr'). exists s'. split; [done|]. split; [apply Hr'|]. split; [done|].
  intros n. rewrite Hin. split; [by intros [_ ?]|]. intros H. split; [apply not_elem_of_nil|done].
Qed.
End registry.

(** Two types of one name and one of another. *)
Definition three_types : vfs (@store vnode) unit unit unit :=
  Vfs [] [] 1 ∅ ∅ ∅ {[ 0%nat := [101; 120; 116; 52]; 1%nat := [120; 102; 115]; 2%nat := [101; 120; 116; 52] ]}
    (fun k => match k with Registered => Some [] | _ => None end) None 0.

Lemma register_filesystem_registry_witness : exists s', register_all three_types [0; 1; 2; 0]%nat = Ok (s', [0; 0; - EEXIST; - EEXIST]) /\
  list_view (vlinks s') Registered = Some [FsNode 0; FsNode 1].
Proof.
  destruct (register_filesystem_registry three_types [0; 1; 2; 0]%nat) as (s' & Hall & Hl & _).
  - intros k xs. destruct k; try discriminate. by intros [= <-].
  - reflexivity.
  - intros t. rewrite !elem_of_cons, elem_of_nil. intros [->|[->|[->|[->|[]]]]]; by eexists.
  - exists s'. split; [exact Hall|exact Hl].
Defined.
