(* ===== verification/IoLife.v ===== *)
(** * The life of a request ([demos/iosched/iosched.c])

    A request is allocated for a descriptor, handed to the scheduler in use,
    dispatched to the driver and finished, which frees it.  From the contract
    [IoContract] alone it follows that, for any scheduler and any order of
    these calls, the requests in memory are those pending and those with the
    driver: none is freed twice or used after it was freed, and none is lost
    except those cfq has no memory to queue. *)
From Stdlib Require Import ZArith Lia.
From stdpp Require Import base numbers list option gmap strings relations.
From S2P Require Import Prelude ListHead Bio IoSched IoPool.

Open Scope Z_scope.

Section life.
Context {L : Type} `{!ListHead node L} `{!ListLaws node L}.
Variable jiffies_to_msecs : Z -> Z.
Implicit Types s : sched L.

(** The request [alloc_request] fills in. *)
Definition request_of (b : nat) (x : bio) (now : Z) : request :=
  Request (bi_sector x) (Z.shiftr (bi_size x) 9) (bi_size x) (bi_op x) b now 1.

(** The calls of the block layer; [f] are the requests the driver holds and [m]
    counts the submissions during which the allocation of a queue fails. *)
Inductive life_step (prompt : bool) (a : algorithm) : sched L * list nat * nat -> sched L * list nat * nat -> Prop :=
  | life_submit s f m b x pid now mem s1 r s2 : suits prompt a (request_of b x now) -> alloc_request s b x now true = (s1, Some r) ->
      iosched_add_request s1 r pid mem = Ok s2 -> life_step prompt a (s, f, m) (s2, f, if mem : bool then m else S m)
  | life_dispatch s f m now s' r : iosched_dispatch jiffies_to_msecs s now = Ok (s', Some r) -> life_step prompt a (s, f, m) (s', r :: f, m)
  | life_idle s f m now s' : iosched_dispatch jiffies_to_msecs s now = Ok (s', None) -> life_step prompt a (s, f, m) (s', f, m)
  | life_finish s f m r s' : r ∈ f -> iosched_finish_request s r = Ok s' -> life_step prompt a (s, f, m) (s', filter (.≠ r) f, m).

(** The scheduler leaves the counter of addresses alone. *)
Lemma insert_next s h r sec s' : insert_sorted s h r sec = Ok s' -> next_req s' = next_req s.
Proof. unfold insert_sorted. destruct (find_larger _ _ _) as [[n|]|]; [..|done]; by intros [= <-]. Qed.

Lemma add_next s r pid mem s' : iosched_add_request s r pid mem = Ok s' -> next_req s' = next_req s.
Proof.
  unfold iosched_add_request. destruct (current_iosched s) as [[]|]; [by intros [= <-]|..|by intros [= <-]].
  - unfold deadline_add_request. destruct (get_req s r) as [x|]; [|done]. cbn [mbind exec_bind]. intros ->%insert_next. by destruct (_ =? _).
  - unfold cfq_add_request, cfq_get_queue. destruct (find_pid _ _ _) as [[q|]|]; [..|done]; cbn [mbind exec_bind].
    + destruct (get_req s r); [|done]. by intros ->%insert_next.
    + destruct mem; cbn [mbind exec_bind]; [|by intros [= <-]]. destruct (get_req _ r); [|done]. cbn [mbind exec_bind]. by intros ->%insert_next.
Qed.

Lemma select_next s s' : cfq_select s = Ok s' -> next_req s' = next_req s.
Proof.
  unfold cfq_select. destruct (match active_queue s with None => _ | Some _ => _ end) as [[]|]; cbn [mbind exec_bind]; [|by intros [= <-]|done].
  destruct (find_busy _ _) as [[q|]|]; cbn [mbind exec_bind]; [|by intros [= <-]|done]. destruct (get_queue s q); [|done]. by intros [= <-].
Qed.

Lemma dispatch_next s now s' o : iosched_dispatch jiffies_to_msecs s now = Ok (s', o) -> next_req s' = next_req s.
Proof.
  unfold iosched_dispatch. destruct (current_iosched s) as [[]|]; [..|by intros [= <- _]].
  - unfold noop_dispatch. destruct (list_empty _ _); [by intros [= <- _]|]. destruct (entry _); [|done]. by intros [= <- _].
  - unfold deadline_dispatch. destruct (deadline_read_expired _ s now.1) as [[]|]; cbn [mbind exec_bind]; [|clear|done].
    + destruct (entry _); [|done]. by intros [= <- _].
    + destruct (deadline_write_expired _ s now.2) as [[]|]; cbn [mbind exec_bind]; [..|done].
      * destruct (entry _); [|done]. by intros [= <- _].
      * destruct (negb _); [|by intros [= <- _]]. destruct (entry _); [|done]. by intros [= <- _].
  - unfold cfq_dispatch. destruct (cfq_select s) as [s1|] eqn:E; [|done]. apply select_next in E. cbn [mbind exec_bind].
    destruct (active_queue s1) as [q|]; [|by intros [= <- _]]. destruct (list_empty _ _); [by intros [= <- _]|].
    destruct (entry _) as [r|]; [|done]. cbn [mbind exec_bind]. destruct (get_req s1 r); [|done]. cbn [mbind exec_bind].
    destruct (get_queue s1 q); [|done]. by intros [= <- _].
Qed.

Section contract.
Context (prompt : bool) (a : algorithm) (pool : sched L -> list nat -> Prop) `{!IoContract jiffies_to_msecs prompt a (suits prompt a) pool}.

(** Requests are pending ([p]), with the driver ([f]) or lost ([k]). *)
Record alive s (f p k : list nat) : Prop := {
  al_pool : pool s p;
  al_nodup : NoDup (p ++ f ++ k);
  al_reqs r : is_Some (reqs s !! r) <-> r ∈ (p ++ f ++ k);
  al_fresh r : is_Some (reqs s !! r) -> (r < next_req s)%nat
}.

Lemma alloc_same s p b x now : pool s p -> next_req s ∉ p -> same_sched s (alloc_request s b x now true).1 p.
Proof.
  intros Hp Hr. destruct (pool_idle jiffies_to_msecs s p (next_req s) (QueueNode (next_req s)) Hp Hr) as [Hwf [_ Hq]]; [by left|].
  destruct (pool_idle jiffies_to_msecs s p (next_req s) (FioNode (next_req s)) Hp Hr) as [_ [_ Hf]]; [by right|]. cbn.
  split; cbn [current_iosched cfq_slice queues next_queue active_queue reqs links]; try done.
  - intros r Hin. rewrite lookup_insert_ne; [done|]. by intros <-.
  - apply links_wf_init; [by apply links_wf_init|]. by apply off_lists_init.
  - intros k H1 H2. rewrite !view_init by (repeat apply off_lists_init; done). by rewrite !decide_False.
  - intros r k xs Hk. rewrite !view_init by (repeat apply off_lists_init; done). do 2 (case_decide; [by intros [= <-]|]). by apply (pool_nodes jiffies_to_msecs s p r).
Qed.

Lemma free_same s p r : pool s p -> r ∉ p -> same_sched s (set_reqs (delete r (reqs s)) s) p.
Proof.
  intros Hp Hr. destruct (pool_idle jiffies_to_msecs s p r (QueueNode r) Hp Hr) as [Hwf _]; [by left|]. split; try done.
  - intros r' Hin. cbn. rewrite lookup_delete_ne; [done|]. by intros ->.
  - intros r' k xs Hk. cbn. by apply (pool_nodes jiffies_to_msecs s p r').
Qed.

(** A new request is pending, or lost when memory is short. *)
Lemma submit_alive s f p k b x pid now mem : alive s f p k -> suits prompt a (request_of b x now) ->
  exists s2, iosched_add_request (alloc_request s b x now true).1 (next_req s) pid mem = Ok s2 /\
    (alive s2 f (next_req s :: p) k \/ mem = false /\ alive s2 f p (next_req s :: k)).
Proof.
  intros [Hp Hnd Hreqs Hfresh] Hsuit. assert (Hn : next_req s ∉ p ++ f ++ k). { intros Hin%Hreqs. apply Hfresh in Hin. lia. }
  assert (Hnp : next_req s ∉ p) by (intros ?; apply Hn, elem_of_app; by left).
  pose proof (pool_frame jiffies_to_msecs _ _ _ Hp (alloc_same s p b x now Hp Hnp)) as Hp1.
  destruct (pool_takes jiffies_to_msecs _ p (next_req s) (request_of b x now) pid mem Hp1 Hnp) as (s2 & E & Hr2 & Hp2); [cbn; by rewrite lookup_insert_eq|done|].
  exists s2. split; [done|]. apply add_next in E. cbn [alloc_request fst next_req] in E.
  assert (Hperm : p ++ f ++ next_req s :: k ≡ₚ next_req s :: p ++ f ++ k) by (by rewrite !app_assoc, <- Permutation_middle).
  assert (Hr : forall r, is_Some (reqs s2 !! r) <-> r ∈ (next_req s :: p ++ f ++ k)).
  { intros r. rewrite Hr2. cbn [alloc_request fst reqs]. rewrite elem_of_cons, <- Hreqs, lookup_insert_is_Some'. intuition congruence. }
  assert (Hf : forall r, is_Some (reqs s2 !! r) -> (r < next_req s2)%nat).
  { intros r. rewrite Hr2, E. cbn [alloc_request fst reqs]. rewrite lookup_insert_is_Some'. intros [<-|Hr']; [lia|]. apply Hfresh in Hr'. lia. }
  destruct Hp2 as [Hp2|[[_ ->] Hp2]]; [left|right; split; [done|]]; (split; [done|rewrite ?Hperm; by constructor|intros r; rewrite ?Hperm; apply Hr|done]).
Qed.

(** A dispatch moves a pending request to the driver. *)
Lemma dispatch_alive s f p k now : alive s f p k -> exists s' o, iosched_dispatch jiffies_to_msecs s now = Ok (s', o) /\
  match o with None => (prompt = true -> p = []) /\ alive s' f p k | Some r => exists p', p ≡ₚ r :: p' /\ alive s' (r :: f) p' k end.
Proof.
  intros [Hp Hnd Hreqs Hfresh]. destruct (pool_gives jiffies_to_msecs s p now Hp) as (s' & o & E & Hr & Ho). exists s', o. split; [done|].
  apply dispatch_next in E. destruct o as [r|].
  - destruct Ho as (p' & Hperm & Hp'). exists p'. split; [done|]. assert (Hall : p ++ f ++ k ≡ₚ p' ++ (r :: f) ++ k) by (rewrite Hperm; apply Permutation_middle).
    split; [done|by rewrite <- Hall|intros r'; rewrite Hr, <- Hall; apply Hreqs|intros r'; rewrite Hr, E; apply Hfresh].
  - destruct Ho as [Hnil Hp']. split; [done|]. split; [done..|by rewrite Hr|by rewrite Hr, E].
Qed.

(** Finishing a request of the driver frees it. *)
Lemma finish_alive s f p k r : alive s f p k -> r ∈ f -> exists s', iosched_finish_request s r = Ok s' /\ alive s' (filter (.≠ r) f) p k.
Proof.
  intros [Hp Hnd Hreqs Hfresh] Hr. assert (Hlive : is_Some (reqs s !! r)) by (apply Hreqs; rewrite !elem_of_app; by auto).
  apply list_elem_of_split in Hr as (f1 & f2 & ->). assert (Hperm : p ++ (f1 ++ r :: f2) ++ k ≡ₚ r :: p ++ (f1 ++ f2) ++ k).
  { rewrite <- !app_assoc. cbn. by rewrite (app_assoc p f1 (r :: _)), <- Permutation_middle, <- app_assoc. }
  assert (Hn1 : NoDup (f1 ++ r :: f2)) by (apply list.NoDup_app in Hnd as (_ & _ & [Hnd _]%list.NoDup_app); done).
  rewrite (filter_ne_middle r f1 f2 Hn1). rewrite Hperm in Hnd. apply list.NoDup_cons in Hnd as [Hout Hnd].
  assert (Hrp : r ∉ p) by (intros Hin; apply Hout, elem_of_app; by left).
  exists (set_reqs (delete r (reqs s)) s). split.
  - unfold iosched_finish_request, noop_finish_request, deadline_finish_request, cfq_finish_request, free_request.
    rewrite (pool_current jiffies_to_msecs s p Hp). destruct Hlive as [x ->]. by destruct a.
  - split; [by apply (pool_frame jiffies_to_msecs s), free_same|done|..].
    + intros r'. cbn. rewrite lookup_delete_is_Some, Hreqs, Hperm, elem_of_cons. split; [by intros [Hne [->|?]]|].
      intros Hin. split; [|by right]. by intros ->.
    + intros r'. cbn. intros [_ ?]%lookup_delete_is_Some. by apply Hfresh.
Qed.

Lemma life_keeps s f m p k s' f' m' : alive s f p k -> (length k <= m)%nat -> life_step prompt a (s, f, m) (s', f', m') ->
  exists p' k', alive s' f' p' k' /\ (length k' <= m')%nat.
Proof.
  intros Hal Hk Hstep. inversion Hstep as [s1 f1 m1 b x pid now mem s2 r s3 Hs Ha Hadd|s1 f1 m1 now s2 r Hd|s1 f1 m1 now s2 Hd|s1 f1 m1 r s2 Hr Hf]; subst.
  - destruct (submit_alive s f' p k b x pid now mem Hal Hs) as (s3 & E & Hal'). injection Ha as <- <-. cbn in E. rewrite E in Hadd.
    injection Hadd as <-. destruct Hal' as [Hal'|[-> Hal']]; eexists _, _; (split; [exact Hal'|]); [destruct mem; lia|cbn; lia].
  - destruct (dispatch_alive s f p k now Hal) as (s2 & o & E & Ho). rewrite Hd in E. injection E as <- <-. destruct Ho as (p' & _ & ?). eauto.
  - destruct (dispatch_alive s f' p k now Hal) as (s2 & o & E & Ho). rewrite Hd in E. injection E as <- <-. destruct Ho as [_ ?]. eauto.
  - destruct (finish_alive s f p k r Hal Hr) as (s2 & E & Hal'). rewrite Hf in E. injection E as <-. eauto.
Qed.

Lemma life_reachable s0 f0 m0 p0 k0 s f m : alive s0 f0 p0 k0 -> (length k0 <= m0)%nat -> rtc (life_step prompt a) (s0, f0, m0) (s, f, m) ->
  exists p k, alive s f p k /\ (length k <= m)%nat.
Proof.
  intros H0 Hk Hr. remember (s0, f0, m0) as x eqn:Hx. remember (s, f, m) as y eqn:Hy. revert s0 f0 m0 p0 k0 H0 Hk Hx.
  induction Hr as [x|x [[s1 f1] m1] y Hstep Hr IH]; intros s0 f0 m0 p0 k0 H0 Hk Hx; subst; [injection Hx as -> -> ->; by exists p0, k0|].
  destruct (life_keeps s0 f0 m0 p0 k0 s1 f1 m1 H0 Hk Hstep) as (p1 & k1 & H1 & Hk1). by eapply IH.
Qed.
End contract.

(** C6: from an empty system under any of the three schedulers, whatever requests
    have been submitted, dispatched and finished, in any order and at any times:
    the requests in memory are exactly the pending ones [p], those the driver
    holds and the lost ones [k], of which there is at most one for each failed
    allocation of a queue; no request is two of these or twice one of them; a
    further submission succeeds; a dispatch succeeds and returns a pending
    request or nothing; finishing any request of the driver succeeds and takes
    it out of memory.  If the requests are [prompt] ones (of at least a slice
    for cfq, any for the others) a dispatch returns nothing only if nothing is
    pending. *)
Theorem iosched_life prompt a s0 s f m : no_nodes (links s0) -> reqs s0 = ∅ ->
  rtc (life_step prompt a) ((io_sched_set s0 (sched_name a)).1, [], 0%nat) (s, f, m) ->
  exists p k, (length k <= m)%nat /\ NoDup (p ++ f ++ k) /\ (forall r, is_Some (reqs s !! r) <-> r ∈ (p ++ f ++ k)) /\
    (forall b x pid now mem, suits prompt a (request_of b x now) ->
       exists s1 r s2, alloc_request s b x now true = (s1, Some r) /\ reqs s !! r = None /\ iosched_add_request s1 r pid mem = Ok s2) /\
    (forall now, exists s' o, iosched_dispatch jiffies_to_msecs s now = Ok (s', o) /\
       match o with Some r => r ∈ p | None => (prompt = true -> p = []) end) /\
    (forall r, r ∈ f -> exists s', iosched_finish_request s r = Ok s' /\ reqs s' = delete r (reqs s)).
Proof.
  intros Hs Hr0 Hr. destruct (iosched_contract jiffies_to_msecs prompt a) as [pool Hc].
  assert (Hset : (io_sched_set s0 (sched_name a)).1 = init_fn a (set_current (Some a) s0)) by (by destruct a).
  assert (Hreq : reqs (init_fn a (set_current (Some a) s0)) = ∅) by (by destruct a). rewrite Hset in Hr.
  assert (H0 : alive pool (init_fn a (set_current (Some a) s0)) [] [] []).
  { split; [by apply (pool_init jiffies_to_msecs)|constructor|..]; intros r; rewrite Hreq, lookup_empty; [|by intros []].
    rewrite elem_of_nil. split; [by intros []|done]. }
  destruct (life_reachable prompt a pool _ _ _ _ _ s f m H0 (Nat.le_refl _) Hr) as (p & k & Hal & Hk). exists p, k.
  split; [done|]. split; [apply Hal|]. split; [apply Hal|]. split; [|split].
  - intros b x pid now mem Hx. destruct (submit_alive prompt a pool s f p k b x pid now mem Hal Hx) as (s2 & E & _). eexists _, _, s2.
    split; [done|]. split; [|done]. destruct (reqs s !! next_req s) eqn:En; [|done]. pose proof (al_fresh _ _ _ _ _ Hal (next_req s) ltac:(by eexists)). lia.
  - intros now. destruct (dispatch_alive prompt a pool s f p k now Hal) as (s' & o & E & Ho). exists s', o. split; [done|].
    destruct o as [r|]; [|by destruct Ho]. destruct Ho as (p' & -> & _). left.
  - intros r Hin. destruct (al_reqs _ _ _ _ _ Hal r) as [_ Hlive]. destruct Hlive as [x Hx]; [rewrite !elem_of_app; by auto|].
    exists (set_reqs (delete r (reqs s)) s). split; [|done]. pose proof (pool_current jiffies_to_msecs s p (al_pool _ _ _ _ _ Hal)) as Hcur.
    unfold iosched_finish_request, noop_finish_request, deadline_finish_request, cfq_finish_request, free_request.
    rewrite Hcur, Hx. by destruct a.
Qed.

(** The search for a queue reads the queues only. *)
Lemma find_pid_same s s' p ns : queues s = queues s' -> find_pid s p ns = find_pid s' p ns.
Proof.
  intros Hq. induction ns as [|n ns IH]; [done|]. cbn [find_pid]. destruct (cfq_entry n) as [q|]; [|done]. cbn [mbind exec_bind].
  unfold get_queue. rewrite Hq. destruct (queues s' !! q); [|done]. cbn [mbind exec_bind]. by rewrite IH.
Qed.

(** Requests are lost: when a process submits its first request and there is no
    memory for its queue, cfq reports nothing and leaves the request in memory,
    in no list. *)
Theorem cfq_loses_request s ns b x pid now : current_iosched s = Some IOSCHED_CFQ -> list_view (links s) CfqQueues = Some ns ->
  find_pid s pid ns = Ok None -> off_lists (QueueNode (next_req s)) (links s) -> off_lists (FioNode (next_req s)) (links s) ->
  exists s1 r, alloc_request s b x now true = (s1, Some r) /\ reqs s1 !! r = Some (request_of b x now) /\
    iosched_add_request s1 r pid false = Ok s1 /\ forall k, (forall r', k <> QueueNode r' /\ k <> FioNode r') -> list_view (links s1) k = list_view (links s) k.
Proof.
  intros Hc Hv Hf Hq Hfio. assert (Hfio' : off_lists (FioNode (next_req s)) (init_list_head (QueueNode (next_req s)) (links s))) by (by apply off_lists_init).
  eexists _, _. split; [done|]. split; [cbn; apply lookup_insert_eq|]. split.
  - unfold iosched_add_request. cbn [current_iosched]. rewrite Hc. unfold cfq_add_request, cfq_get_queue. rewrite (nodes_spec _ _ ns).
    + by rewrite (find_pid_same _ s), Hf.
    + cbn. by rewrite !view_init, !decide_False.
  - intros k Hk. cbn. rewrite !view_init by done. destruct (Hk (next_req s)). by rewrite !decide_False.
Qed.
End life.

(** ** A concrete life *)

Definition empty_sched : sched (@store node) := Sched ∅ 0 (fun _ => None) 0 0 ∅ 0 None 0 None.
Definition block_at (sec : Z) : bio := Bio sec None 1 1 4096 0 BIO_OP_READ 0 None None None None.

(** Two requests submitted, the one of the lower sector with the driver. *)
Lemma two_submitted : exists s, rtc (life_step (fun j => j) true IOSCHED_DEADLINE) ((io_sched_set empty_sched "deadline").1, [], 0%nat) (s, [1%nat], 0%nat) /\
  is_Some (reqs s !! 0%nat).
Proof.
  eexists. split.
  - eapply rtc_l; [eapply (life_submit _ _ _ _ _ _ 0%nat (block_at 64) 10 100 true); [exact Logic.I|reflexivity|reflexivity]|].
    eapply rtc_l; [eapply (life_submit _ _ _ _ _ _ 1%nat (block_at 8) 20 101 true); [exact Logic.I|reflexivity|reflexivity]|].
    eapply rtc_l; [eapply (life_dispatch _ _ _ _ _ _ (102, 103)); vm_compute; reflexivity|]. apply rtc_refl.
  - by eexists.
Qed.

Lemma iosched_life_witness : exists s s' : sched (@store node), reqs s !! 1%nat <> None /\ iosched_finish_request s 1 = Ok s' /\ reqs s' !! 1%nat = None /\ is_Some (reqs s' !! 0%nat).
Proof.
  destruct two_submitted as (s & Hr & H0). destruct (iosched_life (fun j => j) true IOSCHED_DEADLINE empty_sched s [1%nat] 0) as (p & k & _ & _ & Hin & _ & _ & Hfin).
  - intros k xs [=].
  - reflexivity.
  - exact Hr.
  - destruct (Hfin 1%nat) as (s' & E & Hs'); [by apply list_elem_of_singleton|]. exists s, s'. split.
    + destruct (proj2 (Hin 1%nat)) as [x ->]; [rewrite !elem_of_app; right; left; by apply list_elem_of_singleton|done].
    + split; [exact E|]. rewrite Hs'. split; [apply lookup_delete_eq|by rewrite lookup_delete_ne].
Defined.

(** The first request of a process, without memory for its queue. *)
Lemma cfq_loses_request_witness :
  exists s1 : sched (@store node), iosched_add_request s1 0 10 false = Ok s1 /\ is_Some (reqs s1 !! 0%nat) /\
    iosched_dispatch (fun j => j) s1 (200, 201) = Ok (s1, None).
Proof.
  destruct (cfq_loses_request (io_sched_set empty_sched "cfq").1 [] 0 (block_at 64) 10 100) as (s1 & r & Ha & Hr & E & _);
    [reflexivity..|apply no_nodes_off, no_nodes_init, no_nodes_init; intros k xs [=]|apply no_nodes_off, no_nodes_init, no_nodes_init; intros k xs [=]|].
  injection Ha as Hs1 Hr0. subst r. exists s1. split; [exact E|]. split; [rewrite Hr; by eexists|]. subst s1. reflexivity.
Defined.
