(* ===== verification/WbCache.v ===== *)
(** * Writeback as a write-back cache ([demos/writeback/wb_sim.c])

    Seen from outside, the dirty page code is a cache in front of a block
    device: stores change memory, [fsync_inode], [writeback_all_inodes] (the
    [sync] of the source) and the rounds of the flush thread bring the device
    up to date.  [cache] is that specification, in three maps and sets, and
    [wb_refines_cache] says that the code implements it for any sequence of
    calls.  The device driver is not in the repository: it is the class
    [BlockDevice], storage that reads back what was written last. *)
From Stdlib Require Import ZArith Lia.
From stdpp Require Import base numbers list option gmap.
From S2P Require Import Prelude ListHead Writeback.

Open Scope Z_scope.

(** ** The device *)

(** Storage of pages by block device and byte offset. *)
Class BlockDevice (D : Type) := {
  dev_write : nat -> Z -> Z -> D -> D;
  dev_read : nat -> Z -> D -> Z
}.

Class BlockDeviceLaws (D : Type) `{BlockDevice D} := {
  read_written b o v m : dev_read b o (dev_write b o v m) = v;
  read_other b o b' o' v m : (b, o) <> (b', o') -> dev_read b o (dev_write b' o' v m) = dev_read b o m
}.

(** ** The specification *)

(** [mem] is what a reader of a page sees, [disk] what a crash would leave. *)
Record cache := Cache { mem : gmap nat Z; dirty : gset nat; disk : gmap nat Z }.

Inductive call := Store (p : nat) (v : Z) | Fsync (i : nat) | Sync | Flush (available : Z).

(** The pages of [X] that are dirty go to the disk. *)
Definition clean_pages (X : gset nat) (c : cache) : cache :=
  Cache (mem c) (dirty c ∖ X) (filter (fun q => q.1 ∈ dirty c ∩ X) (mem c) ∪ disk c).

Definition cache_store (p : nat) (v : Z) (c : cache) : cache :=
  Cache (<[p := v]> (mem c)) ({[p]} ∪ dirty c) (disk c).

Lemma disk_clean X c p :
  disk (clean_pages X c) !! p = if decide (p ∈ dirty c ∩ X) then (match mem c !! p with Some v => Some v | None => disk c !! p end) else disk c !! p.
Proof.
  cbn. case_decide as E.
  - destruct (mem c !! p) as [v|] eqn:Hv.
    + apply lookup_union_Some_l, map_lookup_filter_Some. done.
    + rewrite lookup_union_r; [done|]. apply map_lookup_filter_None. by left.
  - rewrite lookup_union_r; [done|]. apply map_lookup_filter_None. right. intros v _ Hin. by apply E.
Qed.

Lemma clean_none c : clean_pages ∅ c = c.
Proof.
  destruct c as [m dd k]. unfold clean_pages. cbn. f_equal; [apply difference_empty_L|]. apply map_eq. intros p.
  pose proof (disk_clean ∅ (Cache m dd k) p) as H. cbn in H. rewrite H, decide_False; [done|]. rewrite elem_of_intersection, elem_of_empty. tauto.
Qed.

Lemma clean_union X Y c : clean_pages Y (clean_pages X c) = clean_pages (X ∪ Y) c.
Proof.
  pose proof (disk_clean Y (clean_pages X c)) as H1. pose proof (disk_clean X c) as H2. pose proof (disk_clean (X ∪ Y) c) as H3.
  unfold clean_pages in *. cbn [mem dirty disk] in *. f_equal; [apply difference_difference_l_L|]. apply map_eq. intros p. rewrite H1, H2, H3.
  repeat case_decide; rewrite ?elem_of_intersection, ?elem_of_difference, ?elem_of_union in *; try tauto; by destruct (mem c !! p).
Qed.

Section refinement.
Context {L : Type} `{!ListHead wnode L} `{!ListLaws wnode L} {D : Type} `{!BlockDevice D} `{!BlockDeviceLaws D}.
Variable PAGE_SIZE : Z.
(** The inodes, the device of each ([inode->bdev]), the inode of each page and
    what the devices hold at first. *)
Variable inos : list nat.
Variable bdev : nat -> nat.
Variable home : nat -> nat.
Variable dev0 : D.
(** What is known of the places of the pages; only the devices depend on it. *)
Variable sep : Prop.
Implicit Types (s : wb L) (d : nat -> list nat) (c : cache).

(** Is the background ratio reached by [n] dirty pages? *)
Definition above_ratio (n available : Z) : bool :=
  (available =? 0) || (DIRTY_BACKGROUND_RATIO * available <=? n * (PAGE_SIZE / 1024) * 100).

Definition spec_call c (a : call) : cache :=
  match a with
  | Store p v => cache_store p v c
  | Fsync i => clean_pages (filter (fun p => home p = i) (dirty c)) c
  | Sync => clean_pages (dirty c) c
  | Flush available => if above_ratio (Z.of_nat (size (dirty c))) available then clean_pages (dirty c) c else c
  end.

(** The same calls of the code; what [fsync_inode] returns, 0 for the others. *)
Definition run_call s (a : call) : exec (wb L * option Z) :=
  match a with
  | Store p v => s ← store_page PAGE_SIZE s p (home p) v; Ok (s, Some 0)
  | Fsync i => fsync_inode s i
  | Sync => s ← writeback_all_inodes s inos; Ok (s, Some 0)
  | Flush available => s ← flush_round PAGE_SIZE s available inos; Ok (s, Some 0)
  end.

Fixpoint run_calls s (l : list call) : exec (wb L * list (option Z)) :=
  match l with
  | [] => Ok (s, [])
  | a :: l' =>
    sr ← run_call s a;
    sl ← run_calls sr.1 l';
    Ok (sl.1, sr.2 :: sl.2)
  end.

(** The contents of the devices after the writes issued. *)
Definition device s : D :=
  foldl (fun m w => dev_write (bdev (w_inode w)) (w_offset w) (w_data w) m) dev0 (wb_log s).

(** [dp->offset] of a page. *)
Definition place (x : page) : Z := u64 (p_index x * PAGE_SIZE).

(** The state stands for [c]; the contents of the devices when [sep] holds. *)
Record cache_rel s c : Prop := {
  rel_mem p : mem c !! p = data_of s p;
  rel_dirty p : p ∈ dirty c <-> exists x, pages s !! p = Some x /\ p_dirty x = true;
  rel_disk p x : sep -> pages s !! p = Some x -> disk c !! p = Some (dev_read (bdev (home p)) (place x) (device s))
}.

(** No two pages have the same place on a device. *)
Definition pages_apart s : Prop := forall p q x y, pages s !! p = Some x -> pages s !! q = Some y ->
  (bdev (home p), place x) = (bdev (home q), place y) -> p = q.

(** Dirty pages are on the list of their inode with their offset filled in. *)
Record laid s d : Prop := {
  laid_home i p : i ∈ inos -> p ∈ d i -> home p = i;
  laid_offset p x dp : pages s !! p = Some x -> p_dirty x = true -> dps s !! p = Some dp -> dp_offset dp = place x;
  laid_apart : sep -> pages_apart s;
  laid_inode p x : pages s !! p = Some x -> home p ∈ inos;
  laid_few : Z.of_nat (size (pages s)) < 2 ^ 32
}.

Definition idle s : Prop := forall i st, i ∈ inos -> inodes s !! i = Some st -> writeback_in_progress st = false.

Lemma device_snoc s s' w : wb_log s' = wb_log s ++ [w] ->
  device s' = dev_write (bdev (w_inode w)) (w_offset w) (w_data w) (device s).
Proof. intros E. unfold device. by rewrite E, foldl_app. Qed.

(** Cleaning page [p] after a write of its contents at its place. *)
Lemma rel_clean_one s s' c p x :
  cache_rel s c -> pages s !! p = Some x -> p_dirty x = true -> pages s' = <[p := set_dirty false x]> (pages s) ->
  device s' = dev_write (bdev (home p)) (place x) (p_data x) (device s) ->
  (sep -> pages_apart s) -> cache_rel s' (clean_pages {[p]} c).
Proof.
  intros [Hm Hd Hk] Hx Hxd Hpg Hdev Hap. split.
  - intros q. cbn. rewrite Hm. unfold data_of. rewrite Hpg. destruct (decide (q = p)) as [->|Hne]; [by rewrite Hx, lookup_insert_eq|by rewrite lookup_insert_ne].
  - intros q. cbn. rewrite elem_of_difference, elem_of_singleton, Hd, Hpg. destruct (decide (q = p)) as [->|Hne].
    + rewrite lookup_insert_eq. split; [by intros []|by intros (y & [= <-] & ?)].
    + rewrite lookup_insert_ne by done. tauto.
  - intros q y Hsep. rewrite disk_clean, Hpg, Hdev. destruct (decide (q = p)) as [->|Hne].
    + rewrite lookup_insert_eq. intros [= <-]. rewrite decide_True; [|apply elem_of_intersection; split; [apply Hd; eauto|by apply elem_of_singleton]].
      rewrite Hm. unfold data_of. rewrite Hx. cbn. by rewrite read_written.
    + rewrite lookup_insert_ne by done. intros Hy. rewrite decide_False by (rewrite elem_of_intersection, elem_of_singleton; tauto).
      rewrite read_other; [by apply Hk|]. intros E. apply Hne. by eapply (Hap Hsep).
Qed.

Lemma laid_keep s s' d d' p x :
  laid s d -> pages s !! p = Some x -> (exists b v, pages s' = <[p := Page b (p_index x) v]> (pages s)) ->
  (forall i q, i ∈ inos -> q ∈ d' i -> q ∈ d i \/ q = p /\ i = home p) ->
  (forall q dp, dps s' !! q = Some dp -> (q = p /\ dp_offset dp = place x) \/
     exists dp', dps s !! q = Some dp' /\ dp_offset dp = dp_offset dp' /\ q <> p) ->
  laid s' d'.
Proof.
  intros [H1 H2 H3 H4 H5] Hx (b & v & Hpg) Hd Hdp.
  assert (Hback : forall q y, pages s' !! q = Some y -> exists z, pages s !! q = Some z /\ place z = place y).
  { intros q y. rewrite Hpg. destruct (decide (q = p)) as [->|Hne]; [rewrite lookup_insert_eq; intros [= <-]; eauto|].
    rewrite lookup_insert_ne by done. eauto. }
  split.
  - intros i q Hi [Hq|[-> ->]]%(Hd i q Hi); [by apply H1|done].
  - intros q y dp Hy Hyd [[-> Ho]|(dp' & Hdp' & -> & Hne)]%Hdp.
    + rewrite Hpg, lookup_insert_eq in Hy. injection Hy as <-. exact Ho.
    + rewrite Hpg, lookup_insert_ne in Hy by done. by eapply H2.
  - intros Hsep q r y z (y' & Hy & <-)%Hback (z' & Hz & <-)%Hback. by apply H3.
  - intros q y (y' & Hy & _)%Hback. by eapply H4.
  - rewrite Hpg, map_size_insert_Some; [done|by eexists].
Qed.

(** One iteration of the writeback loop. *)
Lemma wb_iter s d c i p rest :
  wb_inv inos s d -> laid s d -> cache_rel s c -> i ∈ inos -> d i = p :: rest ->
  exists s1 s2 s', wb_take s i p = Ok s1 /\ wb_device s1 i p = Ok s2 /\ wb_clean s2 p = Ok s' /\
    wb_inv inos s' (upd d i rest) /\ laid s' (upd d i rest) /\ cache_rel s' (clean_pages {[p]} c) /\
    (forall j, j <> i -> inodes s' !! j = inodes s !! j).
Proof.
  intros Hinv Hl Hrel Hi Hd. destruct (wb_body inos s d i p rest Hinv Hi Hd)
    as (s1 & s2 & s' & x & w & st & st' & H1 & H2 & H3 & Hinv' & Hx & Hpg & _ & _ & _ & _ & Hst & _ & _).
  exists s1, s2, s'. do 4 (split; [done|]).
  assert (Hp : p ∈ d i) by (rewrite Hd; left). destruct (inv_listed _ _ _ Hinv i p Hi Hp) as (x' & Hx' & Hxd). simplify_eq.
  destruct (inv_private _ _ _ Hinv p x Hx) as [dp Hdp]. pose proof (laid_home _ _ Hl i p Hi Hp) as Hhome.
  pose proof (laid_offset _ _ Hl p x dp Hx Hxd Hdp) as Hoff.
  unfold wb_take, get_dp, get_state in H1. rewrite Hdp, Hst in H1. injection H1 as <-.
  unfold wb_device, get_dp, get_page in H2. cbn [dps pages] in H2. rewrite lookup_insert_eq, Hx in H2. injection H2 as <-.
  unfold wb_clean, get_dp, get_page in H3. cbn [dps pages] in H3. rewrite lookup_insert_eq, Hx in H3. injection H3 as <-.
  cbn [dp_inode dp_offset]. split; [|split].
  - eapply (laid_keep s _ d _ p x Hl Hx); [by exists false, (p_data x)|..].
    + intros j q Hj. unfold upd. case_decide as E; [subst j|by left]. intros Hq. left. rewrite Hd. by right.
    + intros q dq. cbn [dps]. rewrite insert_insert_eq. destruct (decide (q = p)) as [->|Hne].
      * rewrite lookup_insert_eq. intros [= <-]. left. done.
      * rewrite lookup_insert_ne by done. intros Hq. right. eauto.
  - eapply (rel_clean_one s); try done.
    + rewrite (device_snoc s _ (WbWrite i p (dp_offset dp) (p_data x))) by done. cbn. by rewrite Hhome, Hoff.
    + apply Hl.
  - intros j Hj. cbn. by rewrite lookup_insert_ne.
Qed.

Lemma laid_ext s s' d d' : laid s d -> pages s' = pages s -> dps s' = dps s -> (forall i, d' i = d i) -> laid s' d'.
Proof.
  intros [H1 H2 H3 H4 H5] Hp Hd He. split; unfold pages_apart in *; rewrite ?Hp, ?Hd; try done. intros i p Hi. rewrite He. by apply H1.
Qed.

Lemma rel_ext s s' c : cache_rel s c -> pages s' = pages s -> wb_log s' = wb_log s -> cache_rel s' c.
Proof. intros [H1 H2 H3] Hp Hl. split; unfold data_of, device; by rewrite ?Hp, ?Hl. Qed.

Lemma wb_loop_cache s d c i ps :
  wb_inv inos s d -> laid s d -> cache_rel s c -> i ∈ inos -> d i = ps ->
  exists s', wb_loop s i (DirtyNode <$> ps) = Ok s' /\ wb_inv inos s' (upd d i []) /\ laid s' (upd d i []) /\
    cache_rel s' (clean_pages (list_to_set ps) c) /\ (forall j, j <> i -> inodes s' !! j = inodes s !! j).
Proof.
  revert s d c. induction ps as [|p ps IH]; intros s d c Hinv Hl Hrel Hi Hd.
  - assert (He : forall j, d j = upd d i [] j) by (intros j; unfold upd; case_decide; [by subst|done]).
    exists s. split; [done|]. split; [by apply (wb_inv_ext inos s d)|]. split; [by apply (laid_ext s s d)|].
    split; [by rewrite clean_none|done].
  - destruct (wb_iter s d c i p ps Hinv Hl Hrel Hi Hd) as (s1 & s2 & s3 & H1 & H2 & H3 & Hinv3 & Hl3 & Hrel3 & Ho3).
    destruct (IH s3 (upd d i ps) _ Hinv3 Hl3 Hrel3 Hi (upd_eq _ _ _)) as (s' & Hloop & Hinv' & Hl' & Hrel' & Ho').
    exists s'. rewrite fmap_cons. cbn [wb_loop dp_entry mbind exec_bind].
    rewrite H1. cbn [mbind exec_bind]. rewrite H2. cbn [mbind exec_bind]. rewrite H3. cbn [mbind exec_bind].
    split; [done|]. split; [by eapply wb_inv_ext; [|exact Hinv']; apply upd_upd|].
    split; [by eapply laid_ext; [exact Hl'|..]; [| |intros j; symmetry; apply upd_upd]|].
    split; [by rewrite clean_union in Hrel'|]. intros j Hj. by rewrite Ho', Ho3.
Qed.

(** The state between calls. *)
Record sys s d c : Prop := { sys_inv : wb_inv inos s d; sys_laid : laid s d; sys_rel : cache_rel s c; sys_idle : idle s }.

Lemma sys_ext s d d' c : (forall i, d i = d' i) -> sys s d c -> sys s d' c.
Proof.
  intros He [H1 H2 H3 H4]. split; [by apply (wb_inv_ext inos s d)|by apply (laid_ext s s d)|done..].
Qed.

(** Changing the flags of an idle inode. *)
Lemma sys_flags s d c i st st' : sys s d c -> inodes s !! i = Some st -> nr_dirty st' = nr_dirty st ->
  writeback_in_progress st' = false -> sys (put_state i st' s) d c.
Proof.
  intros [H1 H2 H3 H4] Hi Hn Hp. split; [by eapply inv_flags|by eapply laid_ext|by eapply rel_ext|].
  intros j stj Hj. cbn. destruct (decide (j = i)) as [->|Hne]; [rewrite lookup_insert_eq; by intros [= <-]|].
  rewrite lookup_insert_ne by done. by apply H4.
Qed.

Lemma writeback_inode_cache s d c i : sys s d c -> i ∈ inos ->
  exists s', writeback_inode s i = Ok s' /\ sys s' (upd d i []) (clean_pages (list_to_set (d i)) c).
Proof.
  intros [Hinv Hl Hrel Hidle] Hi. pose proof (inv_state _ _ _ Hinv i Hi) as (st & Hst & Hn).
  unfold writeback_inode, get_state. rewrite Hst. cbn [mbind exec_bind].
  pose proof (inv_flags inos s d i st (set_progress true st) Hinv Hst eq_refl) as Hinv1.
  rewrite (nodes_spec _ _ (DirtyNode <$> d i)) by (by apply (inv_view inos s d Hinv)).
  destruct (wb_loop_cache (put_state i (set_progress true st) s) d c i (d i)) as (s2 & -> & Hinv2 & Hl2 & Hrel2 & Ho2);
    [done|by eapply laid_ext|by eapply rel_ext|done..|].
  cbn [mbind exec_bind]. destruct (inv_state _ _ _ Hinv2 i Hi) as (st2 & Hst2 & _). rewrite Hst2. cbn [mbind exec_bind].
  eexists. split; [done|]. split; [by eapply inv_flags|by eapply laid_ext|by eapply rel_ext|].
  intros j stj Hj. cbn. destruct (decide (j = i)) as [->|Hne]; [rewrite lookup_insert_eq; by intros [= <-]|].
  rewrite lookup_insert_ne, Ho2 by done. cbn. rewrite lookup_insert_ne by done. by apply Hidle.
Qed.

Lemma nr_zero s d c i st : sys s d c -> i ∈ inos -> inodes s !! i = Some st -> (0 <? nr_dirty st) = false -> d i = [].
Proof.
  intros [Hinv _ _ _] Hi Hst Hz. pose proof (inode_small inos s d i st Hinv Hi Hst). apply Z.ltb_ge in Hz.
  destruct (d i); [done|]. simpl in *. lia.
Qed.

(** [if (state->nr_dirty > 0) writeback_inode(inode);] *)
Lemma maybe_writeback s d c i st : sys s d c -> i ∈ inos -> inodes s !! i = Some st ->
  exists s', (if 0 <? nr_dirty st then writeback_inode s i else Ok s) = Ok s' /\ sys s' (upd d i []) (clean_pages (list_to_set (d i)) c).
Proof.
  intros Hs Hi Hst. destruct (0 <? nr_dirty st) eqn:E; [by apply writeback_inode_cache|].
  pose proof (nr_zero s d c i st Hs Hi Hst E) as Hnil. exists s. split; [done|]. rewrite Hnil. cbn [list_to_set]. rewrite clean_none.
  apply (sys_ext s d); [|done]. intros j. unfold upd. case_decide; [by subst|done].
Qed.

Lemma writeback_all_cache l s d c : sys s d c -> NoDup l -> (forall i, i ∈ l -> i ∈ inos) ->
  exists s' d', writeback_all_inodes s l = Ok s' /\ sys s' d' (clean_pages (list_to_set (l ≫= d)) c) /\ (forall i, i ∈ l -> d' i = []) /\
    (forall i, i ∉ l -> d' i = d i).
Proof.
  revert s d c. induction l as [|i l IH]; intros s d c Hs Hnd Hsub.
  { exists s, d. split; [done|]. cbn [mbind list_bind list_to_set]. rewrite clean_none. split; [done|]. split; [by intros i ?%elem_of_nil|done]. }
  apply list.NoDup_cons in Hnd as [Hi Hnd]. assert (i ∈ inos) as Hin by (apply Hsub; left).
  destruct (inv_state _ _ _ (sys_inv _ _ _ Hs) i Hin) as (st & Hst & _).
  destruct (maybe_writeback s d c i st Hs Hin Hst) as (s1 & E1 & Hs1).
  destruct (IH s1 _ _ Hs1 Hnd) as (s' & d' & E & Hs' & Hin' & Hout'); [intros j Hj; apply Hsub; by right|].
  exists s', d'. cbn [writeback_all_inodes]. unfold get_state. rewrite Hst. cbn [mbind exec_bind]. rewrite E1. cbn [mbind exec_bind].
  split; [done|]. split; [|split].
  - rewrite bind_cons, list_to_set_app_L, <- clean_union, (Forall_bind_ext d (upd d i []) l); [done|].
    apply Forall_forall. intros j Hj. rewrite upd_ne; [done|]. by intros ->.
  - intros j [->|Hj]%elem_of_cons; [|by apply Hin']. rewrite Hout', upd_eq; done.
  - intros j [Hne Hj]%not_elem_of_cons. by rewrite Hout', upd_ne.
Qed.

(** ** The dirty set *)

Lemma sys_dirty s d c p : sys s d c -> p ∈ dirty c <-> exists i, i ∈ inos /\ p ∈ d i.
Proof.
  intros [Hinv _ Hrel _]. rewrite (rel_dirty _ _ Hrel). split.
  - intros (x & Hx & Hd). by eapply inv_dirty.
  - intros (i & Hi & Hp). by eapply inv_listed.
Qed.

Lemma sys_dirty_all s d c : sys s d c -> dirty c = list_to_set (inos ≫= d).
Proof.
  intros Hs. apply set_eq. intros p. rewrite (sys_dirty s d c p Hs), elem_of_list_to_set, list_elem_of_bind.
  split; intros (i & ? & ?); by exists i.
Qed.

Lemma sys_dirty_inode s d c i : sys s d c -> i ∈ inos -> filter (fun p => home p = i) (dirty c) = list_to_set (d i).
Proof.
  intros Hs Hi. apply set_eq. intros p. rewrite elem_of_filter, (sys_dirty s d c p Hs), elem_of_list_to_set.
  pose proof (laid_home _ _ (sys_laid _ _ _ Hs)) as Hh. split; [|intros Hp; split; [by apply Hh|by exists i]].
  intros [Hi' (j & Hj & Hp)]. rewrite (Hh j p Hj Hp) in Hi'. by subst j.
Qed.

Lemma sys_count s d c : sys s d c -> g_dirty_count s = Z.of_nat (size (dirty c)).
Proof.
  intros Hs. pose proof (sys_inv _ _ _ Hs) as Hinv. rewrite (inv_count _ _ _ Hinv), total_length, (sys_dirty_all s d c Hs), size_list_to_set; [done|].
  by eapply listed_nodup_all.
Qed.

Lemma sys_room s d c p x : sys s d c -> pages s !! p = Some x -> p_dirty x = false -> total d inos + 1 < 2 ^ 32.
Proof.
  intros [Hinv Hl _ _] Hx Hd. pose proof (listed_bound inos s d p x Hinv Hx Hd). pose proof (laid_few _ _ Hl). lia.
Qed.

(** ** The calls *)

Hypothesis page_size_range : 0 <= PAGE_SIZE <= 2 ^ 31.

Lemma should_start_spec s d c available : sys s d c -> 0 <= available ->
  should_start_writeback PAGE_SIZE s available = above_ratio (Z.of_nat (size (dirty c))) available.
Proof.
  intros Hs Ha. pose proof (inv_small _ _ _ (sys_inv _ _ _ Hs)) as Hsmall. rewrite <- (inv_count _ _ _ (sys_inv _ _ _ Hs)) in Hsmall.
  unfold should_start_writeback, above_ratio, DIRTY_BACKGROUND_RATIO. rewrite (sys_count s d c Hs) in *.
  assert (0 <= PAGE_SIZE / 1024 <= 2 ^ 21) as Hps.
  { split; [apply Z.div_pos; lia|]. change (2 ^ 21) with (2 ^ 31 / 1024). apply Z.div_le_mono; lia. }
  set (n := Z.of_nat (size (dirty c))) in *. assert (0 <= n) by lia.
  assert (0 <= n * (PAGE_SIZE / 1024) <= 2 ^ 53) by nia.
  rewrite !wrapu_small; [|lia|rewrite wrapu_small; lia]. destruct (Z.eqb_spec available 0) as [->|Hne]; [done|].
  cbn [orb]. apply eq_true_iff_eq. rewrite !Z.leb_le. set (a := n * (PAGE_SIZE / 1024) * 100). split; intros Hle.
  - pose proof (Z.mul_div_le a available ltac:(lia)). nia.
  - apply Z.div_le_lower_bound; lia.
Qed.

(** Storing into a page marks it dirty and nothing else. *)
Lemma rel_store s s' c p x v : cache_rel s c -> pages s !! p = Some x -> pages s' = <[p := Page true (p_index x) v]> (pages s) ->
  wb_log s' = wb_log s -> cache_rel s' (cache_store p v c).
Proof.
  intros [Hm Hd Hk] Hx Hpg Hlog. split.
  - intros q. cbn. unfold data_of. rewrite Hpg. destruct (decide (q = p)) as [->|Hne]; [by rewrite !lookup_insert_eq|].
    rewrite !lookup_insert_ne by done. apply Hm.
  - intros q. cbn. rewrite elem_of_union, elem_of_singleton, Hd, Hpg. destruct (decide (q = p)) as [->|Hne].
    + rewrite lookup_insert_eq. split; [by eexists|by left].
    + rewrite lookup_insert_ne by done. tauto.
  - intros q y Hsep. cbn. unfold device. rewrite Hpg, Hlog. destruct (decide (q = p)) as [->|Hne].
    + rewrite lookup_insert_eq. intros [= <-]. by apply (Hk p x Hsep).
    + rewrite lookup_insert_ne by done. by apply Hk.
Qed.

(** A change of a page's contents keeps the invariant. *)
Lemma inv_data s d p x v : wb_inv inos s d -> pages s !! p = Some x ->
  wb_inv inos (Wb (<[p := Page (p_dirty x) (p_index x) v]> (pages s)) (dps s) (inodes s) (wb_links s) (g_dirty_count s) (wb_log s)) d.
Proof.
  intros Hinv Hx. apply (wb_inv_same inos s); try done. intros q. cbn.
  destruct (decide (q = p)) as [->|Hne]; [by rewrite lookup_insert_eq, Hx|by rewrite lookup_insert_ne].
Qed.

Lemma store_cache s d c p x v : sys s d c -> pages s !! p = Some x ->
  exists s' d', store_page PAGE_SIZE s p (home p) v = Ok s' /\ sys s' d' (cache_store p v c).
Proof.
  intros Hs Hx. pose proof Hs as [Hinv Hl Hrel Hidle]. pose proof (laid_inode _ _ Hl p x Hx) as Hi.
  pose proof (inv_data s d p x v Hinv Hx) as Hinv1. destruct (inv_state _ _ _ Hinv _ Hi) as (st & Hst & _).
  destruct (inv_private _ _ _ Hinv p x Hx) as [dp Hdp].
  unfold store_page, get_page. rewrite Hx. cbn [mbind exec_bind]. destruct (p_dirty x) eqn:Hxd.
  - eexists _, d. unfold mark_page_dirty, get_state, get_page. cbn [pages inodes]. rewrite Hst, lookup_insert_eq. cbn [mbind exec_bind p_dirty].
    split; [done|]. split; [done| |by eapply rel_store|done].
    eapply (laid_keep s _ d d p x Hl Hx); [by eexists _, _|by left|]. intros q dq Hq. cbn in Hq.
    destruct (decide (q = p)) as [->|Hne]; [left|right; eauto]. split; [done|]. by apply (laid_offset _ _ Hl p x).
  - destruct (mark_clean PAGE_SIZE inos _ d (home p) p (Page false (p_index x) v) Hinv1 Hi) as (s' & Hm & Hinv' & Hpg & Hlog);
      [cbn; by rewrite lookup_insert_eq|done|by eapply sys_room|].
    exists s', (upd d (home p) (d (home p) ++ [p])). split; [done|].
    cbn [pages] in Hpg. rewrite insert_insert_eq in Hpg. unfold set_dirty in Hpg. cbn [p_index p_data] in Hpg.
    unfold mark_page_dirty, get_state, get_page, get_dp in Hm. cbn [pages inodes dps] in Hm.
    rewrite Hst, lookup_insert_eq, Hdp in Hm. injection Hm as <-. split; [done| |by eapply rel_store|].
    + eapply (laid_keep s _ d _ p x Hl Hx); [by eexists _, _|..].
      * intros j q Hj. unfold upd. case_decide as E; [subst j|by left].
        intros [Hq|Hq%list_elem_of_singleton]%elem_of_app; [by left|by right].
      * intros q dq. cbn [dps]. destruct (decide (q = p)) as [->|Hne]; [rewrite lookup_insert_eq; intros [= <-]; by left|].
        rewrite lookup_insert_ne by done. intros Hq. right. eauto.
    + intros j stj Hj. cbn. destruct (decide (j = home p)) as [->|Hne]; [|rewrite lookup_insert_ne by done; by apply Hidle].
      rewrite lookup_insert_eq. intros [= <-]. cbn. by apply (Hidle (home p)).
Qed.

Lemma fsync_cache s d c i : sys s d c -> i ∈ inos ->
  exists s', fsync_inode s i = Ok (s', Some 0) /\ sys s' (upd d i []) (clean_pages (list_to_set (d i)) c).
Proof.
  intros Hs Hi. destruct (inv_state _ _ _ (sys_inv _ _ _ Hs) i Hi) as (st & Hst & _).
  unfold fsync_inode, get_state. rewrite Hst. cbn [mbind exec_bind].
  pose proof (sys_flags s d c i st (set_pending true st) Hs Hst eq_refl (sys_idle _ _ _ Hs i st Hi Hst)) as Hs1.
  destruct (maybe_writeback _ d c i (set_pending true st) Hs1 Hi) as (s' & E & Hs'); [apply lookup_insert_eq|].
  change (nr_dirty (set_pending true st)) with (nr_dirty st) in E. rewrite E. cbn [mbind exec_bind].
  destruct (inv_state _ _ _ (sys_inv _ _ _ Hs') i Hi) as (st' & Hst' & Hn). rewrite Hst'. cbn [mbind exec_bind].
  rewrite upd_eq in Hn. rewrite Hn, (sys_idle _ _ _ Hs' i st' Hi Hst'). by exists s'.
Qed.

(** The arguments a caller may pass, for pages [P]. *)
Definition valid (P : gset nat) (a : call) : Prop :=
  match a with Store p _ => p ∈ P | Fsync i => i ∈ inos | Sync => True | Flush available => 0 <= available end.

Lemma sync_cache s d c : sys s d c -> exists s' d', writeback_all_inodes s inos = Ok s' /\ sys s' d' (clean_pages (dirty c) c).
Proof.
  intros Hs. destruct (writeback_all_cache inos s d c Hs) as (s' & d' & E & Hs' & _); [apply (sys_inv _ _ _ Hs)|done|].
  exists s', d'. by rewrite (sys_dirty_all s d c Hs).
Qed.

Lemma run_call_refines s d c a : sys s d c -> valid (dom (mem c)) a ->
  exists s' d', run_call s a = Ok (s', Some 0) /\ sys s' d' (spec_call c a).
Proof.
  intros Hs Hv. destruct a as [p v|i| |available]; cbn [run_call spec_call].
  - destruct (pages s !! p) as [x|] eqn:Hx.
    + destruct (store_cache s d c p x v Hs Hx) as (s' & d' & -> & Hs'). by exists s', d'.
    + cbn in Hv. apply elem_of_dom in Hv as [y Hy]. rewrite (rel_mem _ _ (sys_rel _ _ _ Hs)) in Hy. unfold data_of in Hy. by rewrite Hx in Hy.
  - destruct (fsync_cache s d c i Hs Hv) as (s' & E & Hs'). rewrite (sys_dirty_inode s d c i Hs Hv). eauto.
  - destruct (sync_cache s d c Hs) as (s' & d' & -> & Hs'). by exists s', d'.
  - unfold flush_round. rewrite (should_start_spec s d c available Hs Hv). destruct (above_ratio _ _); [|by exists s, d].
    destruct (sync_cache s d c Hs) as (s' & d' & -> & Hs'). by exists s', d'.
Qed.

Lemma spec_dom c a : valid (dom (mem c)) a -> dom (mem (spec_call c a)) = dom (mem c).
Proof.
  destruct a as [p v|i| |available]; intros Hv; cbn; [|done..|by destruct (above_ratio _ _)].
  cbn in Hv. apply dom_insert_lookup_L, elem_of_dom, Hv.
Qed.

Lemma run_calls_refine l s d c : sys s d c -> Forall (valid (dom (mem c))) l ->
  exists s' d', run_calls s l = Ok (s', replicate (length l) (Some 0)) /\ sys s' d' (foldl spec_call c l).
Proof.
  revert s d c. induction l as [|a l IH]; intros s d c Hs Hl; [by exists s, d|]. apply Forall_cons in Hl as [Ha Hl].
  destruct (run_call_refines s d c a Hs Ha) as (s1 & d1 & E1 & Hs1). rewrite <- (spec_dom c a Ha) in Hl.
  destruct (IH s1 d1 _ Hs1 Hl) as (s' & d' & E & Hs'). exists s', d'. cbn [run_calls]. rewrite E1. cbn [mbind exec_bind fst snd]. by rewrite E.
Qed.

(** A clean page is on the disk as it is in memory. *)
Record coherent c : Prop := { coh_dom : dom (disk c) = dom (mem c); coh_clean p : p ∉ dirty c -> disk c !! p = mem c !! p }.

Lemma coherent_clean_pages X c : coherent c -> coherent (clean_pages X c).
Proof.
  intros [Hdom Hc]. split.
  - cbn. rewrite dom_union_L, Hdom. apply subseteq_union_1_L, dom_filter_subseteq.
  - intros p. rewrite disk_clean. cbn. rewrite elem_of_difference. intros Hp. destruct (decide (p ∈ dirty c)) as [Hd|Hd].
    + rewrite decide_True; [|apply elem_of_intersection; split; [done|]; destruct (decide (p ∈ X)); tauto].
      destruct (mem c !! p) as [v|] eqn:E; [done|]. apply not_elem_of_dom. rewrite Hdom. by apply not_elem_of_dom.
    + rewrite decide_False by (rewrite elem_of_intersection; tauto). by apply Hc.
Qed.

Lemma coherent_calls l c : coherent c -> Forall (valid (dom (mem c))) l -> coherent (foldl spec_call c l).
Proof.
  revert c. induction l as [|a l IH]; intros c Hc Hl; [done|]. apply Forall_cons in Hl as [Ha Hl].
  rewrite <- (spec_dom c a Ha) in Hl. apply IH; [|done]. clear IH Hl.
  destruct a as [p v|i| |available]; cbn; [|by apply coherent_clean_pages..|by destruct (above_ratio _ _); [apply coherent_clean_pages|]].
  destruct Hc as [Hdom Hc]. split; cbn.
  - rewrite Hdom, dom_insert_lookup_L; [done|]. by apply elem_of_dom.
  - intros q [Hne%not_elem_of_singleton Hq]%not_elem_of_union. rewrite lookup_insert_ne by done. by apply Hc.
Qed.

(** ** From the start *)

(** The system before the inodes are initialised: all pages clean, no list in
    use. *)
Record boot s : Prop := {
  boot_links : no_nodes (wb_links s);
  boot_inodes : NoDup inos;
  boot_clean p x : pages s !! p = Some x -> p_dirty x = false;
  boot_private p x : pages s !! p = Some x -> is_Some (dps s !! p);
  boot_count : g_dirty_count s = 0;
  boot_home p x : pages s !! p = Some x -> home p ∈ inos;
  boot_few : Z.of_nat (size (pages s)) < 2 ^ 32
}.

(** Page contents are as on the devices. *)
Definition pages_stored s : Prop :=
  forall p x, pages s !! p = Some x -> p_dirty x = false -> dev_read (bdev (home p)) (place x) (device s) = p_data x.

Definition init_inodes s : wb L := foldl inode_wb_state_init s inos.

(** What the specification starts with. *)
Definition boot_cache s : cache := Cache (p_data <$> pages s) ∅ (p_data <$> pages s).

Lemma init_fold l s : no_nodes (wb_links s) -> let s' := foldl inode_wb_state_init s l in
  no_nodes (wb_links s') /\ pages s' = pages s /\ dps s' = dps s /\ g_dirty_count s' = g_dirty_count s /\ wb_log s' = wb_log s /\
  (forall i, i ∈ l \/ (inodes s !! i = Some (WbState 0 false false) /\ list_view (wb_links s) (DirtyPages i) = Some []) ->
     inodes s' !! i = Some (WbState 0 false false) /\ list_view (wb_links s') (DirtyPages i) = Some []).
Proof.
  revert s. induction l as [|j l IH]; intros s Hn; cbn [foldl].
  { split_and!; try done. by intros i [?%elem_of_nil|?]. }
  destruct (IH (inode_wb_state_init s j)) as (H1 & H2 & H3 & H4 & H5 & H6); [by apply no_nodes_init|].
  split_and!; try done. intros i Hi. apply H6. cbn. rewrite view_init by (by apply no_nodes_off). destruct (decide (i = j)) as [->|Hne].
  - right. by rewrite lookup_insert_eq, decide_True.
  - rewrite lookup_insert_ne, decide_False by congruence. destruct Hi as [[->|Hi]%elem_of_cons|Hi]; [done|by left|by right].
Qed.

Lemma boot_sys s : boot s -> (sep -> pages_apart s /\ pages_stored s) -> sys (init_inodes s) (fun _ => []) (boot_cache s).
Proof.
  intros [H1 H2 H3 H4 H5 H8 H9] Hsep. destruct (init_fold inos s H1) as (Hn & Hp & Hdp & Hc & Hlog & Hi). fold (init_inodes s) in *.
  assert (Ht : total (fun _ => []) inos = 0) by (unfold total; clear; induction inos; simpl; done).
  split; [split|split|split|]; unfold pages_apart; rewrite ?Hp, ?Hdp, ?Hc, ?Hlog; try done.
  - by apply no_nodes_wf.
  - intros i Hin. by apply Hi; left.
  - intros i Hin. eexists. split; [by apply Hi; left|done].
  - intros i p _ ?%elem_of_nil. done.
  - intros p x Hx Hd. rewrite (H3 p x Hx) in Hd. done.
  - intros p _. split; [|intros h xs E; rewrite (Hn h xs E); apply not_elem_of_nil].
    destruct (list_view _ (DirtyNode p)) as [xs|] eqn:E; [right; by rewrite (Hn _ _ E)|by left].
  - by rewrite Ht.
  - by rewrite Ht.
  - intros i p _ ?%elem_of_nil. done.
  - intros p x dp Hx Hd. rewrite (H3 p x Hx) in Hd. done.
  - intros Hs. by apply Hsep.
  - intros p. unfold data_of. rewrite Hp. cbn. apply lookup_fmap.
  - intros p. cbn. rewrite elem_of_empty. split; [done|]. intros (x & Hx & Hd). rewrite (H3 p x Hx) in Hd. done.
  - intros p x Hs Hx. cbn. rewrite lookup_fmap, Hx. cbn. f_equal. unfold device. rewrite Hlog. symmetry. apply Hsep; [done..|by eapply H3].
  - intros i st Hin Hst. destruct (Hi i (or_introl Hin)) as [E _]. by simplify_eq.
Qed.

End refinement.

(** ** The refinement *)

Section theorem.
Context {L : Type} `{!ListHead wnode L} `{!ListLaws wnode L} {D : Type} `{!BlockDevice D} `{!BlockDeviceLaws D}.
Variable PAGE_SIZE : Z.
Variable inos : list nat.
Variable bdev : nat -> nat.
Variable home : nat -> nat.
Variable dev0 : D.
Hypothesis page_size_range : 0 <= PAGE_SIZE <= 2 ^ 31.
Implicit Types (s : wb L) (c : cache).

(** C7: the dirty page code implements a write-back cache.  From a start with
    clean pages, any sequence of stores, [fsync_inode], [sync] and flush rounds
    runs without a fault and every [fsync_inode] returns 0; the state then
    stands for the one the specification reaches: readers see the last store
    to each page, the dirty pages are those stored to since they were last
    written back, and the global counter is the number of dirty pages.  If
    moreover no two cached pages have the same place on a device and the pages
    were at first as on their devices, the devices hold what the
    specification's disk holds, and every clean page is on its device as it is
    in memory. *)
Theorem wb_refines_cache s0 l : boot inos home s0 -> Forall (valid inos (dom (pages s0))) l ->
  let c := foldl (spec_call PAGE_SIZE home) (boot_cache s0) l in
  exists s, run_calls PAGE_SIZE inos home (init_inodes inos s0) l = Ok (s, replicate (length l) (Some 0)) /\
    (forall p, data_of s p = mem c !! p) /\
    (forall p, p ∈ dirty c <-> exists x, pages s !! p = Some x /\ p_dirty x = true) /\
    global_dirty_page_count s = Z.of_nat (size (dirty c)) /\
    (pages_apart PAGE_SIZE bdev home s0 -> pages_stored PAGE_SIZE bdev home dev0 s0 ->
     (forall p x, pages s !! p = Some x -> disk c !! p = Some (dev_read (bdev (home p)) (place PAGE_SIZE x) (device bdev dev0 s))) /\
     pages_stored PAGE_SIZE bdev home dev0 s).
Proof.
  intros Hb Hl c. set (sep := pages_apart PAGE_SIZE bdev home s0 /\ pages_stored PAGE_SIZE bdev home dev0 s0).
  assert (Hl' : Forall (valid inos (dom (mem (boot_cache s0)))) l) by (cbn; by rewrite dom_fmap_L).
  assert (H0 : sys PAGE_SIZE inos bdev home dev0 sep (init_inodes inos s0) (fun _ => []) (boot_cache s0)) by (by apply boot_sys).
  destruct (run_calls_refine PAGE_SIZE inos bdev home dev0 sep page_size_range l _ _ _ H0 Hl') as (s & d & E & Hs).
  exists s. split; [done|]. fold c in Hs. pose proof (sys_rel _ _ _ _ _ _ _ _ _ Hs) as Hrel.
  split; [intros p; symmetry; apply Hrel|]. split; [apply Hrel|]. split; [by eapply sys_count|]. intros Hap Hst.
  assert (Hsep : sep) by done. split; [intros p x; by apply Hrel|]. intros p x Hx Hd.
  assert (Hc : coherent c) by (apply (coherent_calls PAGE_SIZE inos bdev home page_size_range l); [by split|done]).
  assert (Hp : p ∉ dirty c) by (intros (y & Hy & Hyd)%(rel_dirty _ _ _ _ _ _ _ Hrel); congruence).
  pose proof (coh_clean _ Hc p Hp) as Hq. rewrite (rel_disk _ _ _ _ _ _ _ Hrel p x Hsep Hx), (rel_mem _ _ _ _ _ _ _ Hrel) in Hq.
  unfold data_of in Hq. rewrite Hx in Hq. cbn in Hq. congruence.
Qed.
End theorem.

(** ** A device, and two files on it *)

#[export] Instance map_device : BlockDevice (gmap (nat * Z) Z) := {|
  dev_write b o v m := <[(b, o) := v]> m;
  dev_read b o m := default 0 (m !! (b, o))
|}.

#[export] Instance map_device_laws : BlockDeviceLaws (gmap (nat * Z) Z).
Proof.
  split; intros; cbn; [by rewrite lookup_insert_eq|]. by rewrite lookup_insert_ne.
Qed.

(** Two pages, with the given indices in their files. *)
Definition two_pages (i0 i1 : Z) : wb (@store wnode) :=
  Wb {[ 0%nat := Page false i0 0; 1%nat := Page false i1 0 ]}
     {[ 0%nat := DirtyPage 0 0 true; 1%nat := DirtyPage 0 0 true ]} ∅ (fun _ => None) 0 [].

(** Page [p] belongs to inode [p]; both inodes are on device 0. *)
Definition own_inode (p : nat) : nat := p.
Definition one_device (i : nat) : nat := 0%nat.

Lemma two_pages_cases i0 i1 p x : pages (two_pages i0 i1) !! p = Some x ->
  (p = 0%nat /\ x = Page false i0 0) \/ (p = 1%nat /\ x = Page false i1 0).
Proof. cbn. intros [[<- <-]|[? [<- <-]%lookup_singleton_Some]]%lookup_insert_Some; [by left|by right]. Qed.

Lemma two_pages_boot : boot [0%nat; 1%nat] own_inode (two_pages 0 1).
Proof.
  split; try done.
  - repeat constructor; [by intros ?%list_elem_of_singleton|apply not_elem_of_nil].
  - intros p x [[-> ->]|[-> ->]]%two_pages_cases; done.
  - intros p x [[-> ->]|[-> ->]]%two_pages_cases; by eexists.
  - intros p x [[-> ->]|[-> ->]]%two_pages_cases; [left|right; left].
Qed.

Lemma wb_refines_cache_witness :
  exists s, run_calls 4096 [0%nat; 1%nat] own_inode (init_inodes [0%nat; 1%nat] (two_pages 0 1))
      [Store 0 5; Store 1 6; Fsync 0; Store 1 7] = Ok (s, [Some 0; Some 0; Some 0; Some 0]) /\
    global_dirty_page_count s = 1 /\ data_of s 1 = Some 7 /\
    dev_read 0 0 (device one_device (∅ : gmap (nat * Z) Z) s) = 5.
Proof.
  destruct (wb_refines_cache 4096 [0%nat; 1%nat] one_device own_inode (∅ : gmap (nat * Z) Z) ltac:(lia) (two_pages 0 1)
    [Store 0 5; Store 1 6; Fsync 0; Store 1 7] two_pages_boot) as (s & E & Hm & _ & Hn & Hdev).
  - repeat constructor; apply elem_of_dom; by eexists.
  - exists s. split; [exact E|]. split; [rewrite Hn; vm_compute; reflexivity|].
    split; [rewrite Hm; vm_compute; reflexivity|].
    destruct Hdev as [Hdisk _].
    + intros p q x y [[-> ->]|[-> ->]]%two_pages_cases [[-> ->]|[-> ->]]%two_pages_cases; done.
    + intros p x [[-> ->]|[-> ->]]%two_pages_cases; done.
    + assert (Hp : pages s !! 0%nat = Some (Page false 0 5)) by (vm_compute in E; injection E as <-; reflexivity).
      specialize (Hdisk 0%nat _ Hp). injection Hdisk as H. symmetry. exact H.
Defined.

(** Why pages need different places: the offset given to the device is that
    within the file.  Two files on one device, each with a dirty page of the
    same index: after a [sync] both pages count as clean, but the device holds
    the second one in the place of both. *)
Theorem same_index_clobbers v w :
  exists s, run_calls 4096 [0%nat; 1%nat] own_inode (init_inodes [0%nat; 1%nat] (two_pages 0 0)) [Store 0 v; Store 1 w; Sync] =
      Ok (s, [Some 0; Some 0; Some 0]) /\
    pages s !! 0%nat = Some (Page false 0 v) /\ global_dirty_page_count s = 0 /\
    dev_read 0 0 (device one_device (∅ : gmap (nat * Z) Z) s) = w.
Proof. eexists. split; [vm_compute; reflexivity|]. split_and!; vm_compute; reflexivity. Qed.
