(* ===== verification/VfsFiles.v ===== *)
(** * Open files and the dentries behind them ([demos/vfs/vfs.c])

    [vfs_open] stores the dentry of the path in the new file without counting
    that reference, [vfs_close] drops one, and no function of the source ever
    raises [refcount] above the 1 that [vfs_new_dentry] sets.  So the first
    close of a file frees the dentry under every other file that was opened on
    the same path. *)
From Stdlib Require Import ZArith Lia.
From stdpp Require Import base numbers list option gmap.
From S2P Require Import Prelude Bitmap ListHead Vfs.

Open Scope Z_scope.

Section files.
Context {L F I P : Type} `{!ListHead vnode L} `{!FsOps L F I P}.
Variable kmem : nat -> bool.
Implicit Types s : vfs L F I P.

(** Dropping the reference of an inode without [evict_inode] touches no file
    and no dentry. *)
Lemma put_inode_frame s i s' : (forall x, inode_table s !! i = Some x -> i_op x ≫= iop_evict = None) ->
  vfs_put_inode s (Some i) = Ok s' -> files s' = files s /\ dentries s' = dentries s /\ heap s' = heap s.
Proof.
  intros Hev (x & Hx & H)%exec_bind_Ok. apply arr_get_inv in Hx as [_ Hx]. rewrite Nat2Z.id in Hx.
  cbv zeta in H. rewrite (Hev x Hx) in H. destruct (_ =? 0); [|by injection H as <-]. cbn [mbind exec_bind] in H.
  apply exec_bind_Ok in H as (y & _ & H). apply exec_bind_Ok in H as (z & _ & H). apply exec_bind_Ok in H as (u & _ & H).
  by injection H as <-.
Qed.

(** The only reference of a dentry goes, and the dentry with it. *)
Lemma put_dentry_frees s d n i s' : dentries s !! d = Some (Dentry n (Some i) None 1) ->
  (forall x, inode_table s !! i = Some x -> i_op x ≫= iop_evict = None) ->
  vfs_put_dentry s (Some d) = Ok s' -> files s' = files s /\ dentries s' = delete d (dentries s) /\ heap s' = heap s.
Proof.
  intros Hd Hev. unfold vfs_put_dentry, get_dentry. rewrite Hd. cbn [mbind exec_bind refcount d_inode d_parent].
  simpl (0 <? s32 (1 - 1)). cbv iota. intros (s1 & H1 & [= <-])%exec_bind_Ok. apply exec_bind_Ok in H1 as (x & Hx & H1).
  apply arr_get_inv in Hx as [_ Hx]. rewrite Nat2Z.id in Hx. cbn in Hx.
  apply put_inode_frame in H1 as (Hf & Hd1 & Hh).
  - cbn in Hf, Hd1, Hh |- *. rewrite Hf, Hd1, Hh. by rewrite delete_insert_eq.
  - intros y. cbn. rewrite list_lookup_insert_eq by (by eapply lookup_lt_Some). intros [= <-]. exact (Hev x Hx).
Qed.

(** A path that resolves to [d], a regular file without [open]. *)
Definition resolves s (path : list Z) (d i : nat) (x : inode F I) : Prop :=
  open_lookup s path = Ok (s, Some d) /\ inode_table s !! i = Some x /\ S_ISDIR (i_mode x) = false /\ i_fop x ≫= fop_open = None.

Lemma vfs_open_effect s path flags d i x n : resolves s path d i x -> dentries s !! d = Some (Dentry n (Some i) None 1) -> kmem (heap s) = true ->
  exists s', vfs_open kmem s path flags = Ok (s', Some (heap s)) /\ heap s' = S (heap s) /\ inode_table s' = inode_table s /\
    inode_inuse s' = inode_inuse s /\ sbs s' = sbs s /\ dentries s' = dentries s /\ vfs_root_dentry s' = vfs_root_dentry s /\
    files s' = <[heap s := File (Some d) None 0 (u32 flags) None]> (files s).
Proof.
  intros (Hl & Hx & Hdir & Ho) Hd Hk. unfold vfs_open. rewrite Hl. cbn [mbind exec_bind]. unfold get_dentry. rewrite Hd.
  cbn [mbind exec_bind d_inode]. rewrite (get_inode_ok s i x Hx). cbn [mbind exec_bind]. rewrite Hdir. cbn [kmalloc]. rewrite Hk, Ho. by eexists.
Qed.

(** A file whose dentry is gone. *)
Lemma dangling_file s g y d : files s !! g = Some y -> f_dentry y = Some d -> dentries s !! d = None ->
  (forall count pos, vfs_read s (Some g) count pos = Crash UseAfterFree) /\
  (forall buf count pos, vfs_write s (Some g) buf count pos = Crash UseAfterFree) /\
  vfs_close s (Some g) = Crash UseAfterFree.
Proof.
  intros Hg Hy Hd. unfold vfs_read, vfs_write, vfs_close, file_inode, get_file, get_dentry. rewrite Hg. cbn [mbind exec_bind]. rewrite Hy, Hd. done.
Qed.

(** A dentry as [vfs_new_dentry] makes it, opened twice: both opens succeed and
    give two files, the first close succeeds, and from then on reading, writing
    and closing the other file use the freed dentry. *)
Theorem close_frees_shared_dentry s i c d ds x path flags flags' :
  named_by s i c (d :: ds) -> - 2 ^ 31 + 2 <= c < 2 ^ 31 -> resolves s path d i x -> i_fop x ≫= fop_release = None ->
  (forall s', dentries s' = dentries s -> inode_table s' = inode_table s -> vfs_root_dentry s' = vfs_root_dentry s -> open_lookup s' path = Ok (s', Some d)) ->
  kmem (heap s) = true -> kmem (S (heap s)) = true ->
  exists s1 s2 s3 f g, vfs_open kmem s path flags = Ok (s1, Some f) /\ vfs_open kmem s1 path flags' = Ok (s2, Some g) /\ f <> g /\
    vfs_close s2 (Some f) = Ok (s3, 0) /\ dentries s3 !! d = None /\ files s3 !! f = None /\
    (forall count pos, vfs_read s3 (Some g) count pos = Crash UseAfterFree) /\
    (forall buf count pos, vfs_write s3 (Some g) buf count pos = Crash UseAfterFree) /\
    vfs_close s3 (Some g) = Crash UseAfterFree.
Proof.
  intros Hnb Hc Hres Hrel Hlook Hk1 Hk2. pose proof Hnb as [Hsz (x' & b & y & Hx & Hcx & Hop & Hsb & Hy) Hnd Hden Hheap].
  pose proof Hres as (_ & Hx' & Hdir & Hopen). assert (x' = x) as -> by congruence. subst c. destruct (Hden d) as [n Hn]; [left|].
  destruct (vfs_open_effect s path flags d i x n Hres Hn Hk1) as (s1 & E1 & Hh1 & Ht1 & Hu1 & Hs1 & Hd1 & Hr1 & Hf1).
  assert (Hres1 : resolves s1 path d i x) by (split_and!; [by apply Hlook|by rewrite Ht1|done..]).
  destruct (vfs_open_effect s1 path flags' d i x n Hres1) as (s2 & E2 & Hh2 & Ht2 & Hu2 & Hs2 & Hd2 & _ & Hf2); [by rewrite Hd1|by rewrite Hh1|].
  assert (Hnb2 : named_by s2 i (i_count x) (d :: ds)).
  { split; rewrite ?Ht2, ?Ht1, ?Hu2, ?Hu1, ?Hs2, ?Hs1, ?Hd2, ?Hd1, ?Hh2, ?Hh1; [|by exists x, b, y|done..|].
    - unfold table_sized. by rewrite Ht2, Ht1, Hu2, Hu1.
    - intros d' Hle. apply Hheap. lia. }
  destruct (put_dentry_named s2 i (i_count x) d ds Hnb2 Hc) as (s3 & E3 & _).
  rewrite <- Hd1, <- Hd2 in Hn. rewrite <- Ht1, <- Ht2 in Hx. rewrite Hh1 in E2, Hf2.
  assert (Hne : heap s <> S (heap s)) by lia.
  destruct (put_dentry_frees s2 d n i s3 Hn) as (Hf3 & Hd3 & _); [intros z Hz; assert (z = x) as -> by congruence; by rewrite Hop|exact E3|].
  exists s1, s2, (set_files (delete (heap s) (files s3)) s3), (heap s), (S (heap s)). do 3 (split; [done|]). split; [|split; [|split]].
  - unfold vfs_close, get_file. rewrite Hf2, Hf1, lookup_insert_ne, lookup_insert_eq by done. cbn [mbind exec_bind f_dentry].
    unfold get_dentry. rewrite Hn. cbn [mbind exec_bind d_inode]. rewrite (get_inode_ok s2 i x Hx). cbn [mbind exec_bind]. rewrite Hrel.
    cbn [mbind exec_bind]. rewrite E3. done.
  - cbn. rewrite Hd3. apply lookup_delete_eq.
  - cbn. apply lookup_delete_eq.
  - apply (dangling_file _ _ (File (Some d) None 0 (u32 flags') None) d).
    + cbn. rewrite lookup_delete_ne, Hf3, Hf2 by done. apply lookup_insert_eq.
    + done.
    + cbn. rewrite Hd3. apply lookup_delete_eq.
Qed.

End files.

(** ** A directory with one file *)

(** A directory's table names the dentry its [lookup] finds. *)
#[export] Instance one_file_ops {L} : FsOps L unit nat unit := {
  fop_open _ := None; fop_read _ := None; fop_write _ := None; fop_release _ := None; fop_fsync _ := None;
  iop_create _ := None; iop_mkdir _ := None; iop_lookup d := Some (fun s _ _ => Ok (s, Some d)); iop_evict _ := None
}.

Definition plain_file : inode unit nat := Inode 1 S_IFREG 0 None None (Some tt) (Some 0%nat) 2 0 None.

Definition demo_files : vfs (@store vnode) unit nat unit :=
  Vfs (<[1%nat := Inode 2 S_IFDIR 0 None (Some 5%nat) (Some tt) (Some 0%nat) 2 0 None]> (<[0%nat := plain_file]> (replicate 1024 inode_zero)))
    (replicate 16 0) 3 {[ 4%nat := Dentry [47] (Some 1%nat) None 1; 5%nat := Dentry [97] (Some 0%nat) None 1 ]} ∅
    {[ 0%nat := SuperBlock [47] 0 None None ]} ∅ (fun _ => None) (Some 4%nat) 6.

Lemma demo_files_named : named_by demo_files 0 2 [5%nat].
Proof.
  split.
  - split_and!; [apply bm_words_zero|done..].
  - by exists plain_file, 0%nat, (SuperBlock [47] 0 None None).
  - apply NoDup_singleton.
  - intros d ->%list_elem_of_singleton. by exists [97].
  - intros d Hd. cbn in Hd |- *. rewrite lookup_insert_ne, lookup_singleton_ne by lia. done.
Qed.

Lemma demo_files_lookup (s : vfs (@store vnode) unit nat unit) : dentries s = dentries demo_files -> inode_table s = inode_table demo_files ->
  vfs_root_dentry s = vfs_root_dentry demo_files -> open_lookup s [47; 97] = Ok (s, Some 5%nat).
Proof.
  intros Hd Ht Hr. unfold open_lookup, get_dentry, get_inode. rewrite decide_False by done. rewrite Hr. cbn [vfs_root_dentry demo_files].
  rewrite Hd, Ht. reflexivity.
Qed.

Lemma close_frees_shared_dentry_witness :
  exists s1 s2 s3 f g, vfs_open (fun _ => true) demo_files [47; 97] 0 = Ok (s1, Some f) /\
    vfs_open (fun _ => true) s1 [47; 97] 0 = Ok (s2, Some g) /\ vfs_close s2 (Some f) = Ok (s3, 0) /\
    vfs_read s3 (Some g) 10 0 = Crash UseAfterFree /\ vfs_close s3 (Some g) = Crash UseAfterFree.
Proof.
  destruct (close_frees_shared_dentry (fun _ => true) demo_files 0 2 5 [] plain_file [47; 97] 0 0 demo_files_named)
    as (s1 & s2 & s3 & f & g & E1 & E2 & _ & Hc & _ & _ & Hr & _ & Hg); [lia| |reflexivity|apply demo_files_lookup|reflexivity..|].
  - split; [by apply demo_files_lookup|]. split_and!; reflexivity.
  - exists s1, s2, s3, f, g. split; [exact E1|]. split; [exact E2|]. split; [exact Hc|]. split; [apply Hr|exact Hg].
Defined.
